(** * Voxtext transcription worker: a shallow embedding of
      [TranscriptionWorker] (voxtext_win.py) and its specification.

    The development follows the source top-down:

    - Python values and the few built-ins the worker uses (strings,
      numbers, integer formatting, [pathlib] names);
    - [_format_timestamp], [_write_srt], [_write_vtt], [_write_html],
      [_write_markdown] and the [json.dump] call;
    - [TranscriptionWorker.run] as a program in a state-and-exception
      monad whose state records every observable action of the worker
      (signals emitted, reads of the cancellation flag, model loads, the
      inference call, files written);
    - the handlers of [VoxtextWindow] that carry logic
      ([start_transcription], the slots of the three signals,
      [clear_or_cancel], the timer, the styling presets, the selection
      of a file) as programs in the same monad over the attributes of the
      window and the calls it makes on its widgets.

    Modelling conventions.

    - A Python [str] is a Rocq [string]; every character stands for the
      code point of the same number (0..255).
    - A Python [float] is the rational value ([Q]) of a finite binary64
      number, and the arithmetic of the worker ([//], [%], [*], [+],
      [-], [/]) rounds as CPython's does: the exact result is rounded to
      the nearest binary64 number, ties to even ([PyNum.to_binary64]); [%] and
      [//] follow [float_rem] and [_float_div_mod] of floatobject.c.
      Infinities and NaN are outside the model.  [int] is [Z]; an [int]
      used as an offset is carried through the same arithmetic, which
      gives the fields of Python's integer arithmetic for magnitudes
      below [2 ^ 53] ([integer_offset_fields]).
    - A Python [dict] with string keys is an association list in
      insertion order (the order is visible in the JSON export). *)

From Stdlib Require Import ZArith QArith Qround Qabs Qpower String Ascii List Bool Arith Lia Lqa.
From Stdlib Require Import Permutation Sorted.
Import ListNotations.

Local Open Scope string_scope.
Local Open Scope Z_scope.

Set Warnings "-register-all".
#[local] Unset Elimination Schemes.

(* ================================================================== *)
(** * Python built-ins on strings and integers *)
(* ================================================================== *)

Module PyStr.

  (** [str.isspace] restricted to code points below 256: TAB..CR,
      FS..US, SPACE, NEL (0x85) and NBSP (0xA0). *)
Definition isspace (c : ascii) : bool :=
    let n := nat_of_ascii c in
    ((9 <=? n) && (n <=? 13) || (28 <=? n) && (n <=? 32)
     || (n =? 133) || (n =? 160))%nat.

  (** [s.lstrip()] *)
Fixpoint lstrip (s : string) : string :=
    match s with
    | EmptyString => EmptyString
    | String c s' => if isspace c then lstrip s' else s
    end.

  (** [s.rstrip()]: a character is kept when it is not white space or
      when something is left after it. *)
Fixpoint rstrip (s : string) : string :=
    match s with
    | EmptyString => EmptyString
    | String c s' =>
        match rstrip s' with
        | EmptyString => if isspace c then EmptyString else String c EmptyString
        | r => String c r
        end
    end.

  (** [s.strip()] *)
Definition strip (s : string) : string := rstrip (lstrip s).

  (** [s.lower()] on ASCII letters. *)
Definition lower_char (c : ascii) : ascii :=
    let n := nat_of_ascii c in
    if ((65 <=? n) && (n <=? 90))%nat then ascii_of_nat (n + 32) else c.

Fixpoint lower (s : string) : string :=
    match s with
    | EmptyString => EmptyString
    | String c s' => String (lower_char c) (lower s')
    end.

  (** [needle in s] for strings. *)
Fixpoint contains (needle s : string) : bool :=
    if String.prefix needle s then true
    else match s with
         | EmptyString => false
         | String _ s' => contains needle s'
         end.

  (** [c * n] for a one-character string. *)
Fixpoint replicate (n : nat) (c : ascii) : string :=
    match n with
    | O => EmptyString
    | S n' => String c (replicate n' c)
    end.

  (** [s.rfind(c)] for a single character, -1 when absent. *)
Fixpoint rfind_from (c : ascii) (s : string) (i : Z) (found : Z) : Z :=
    match s with
    | EmptyString => found
    | String d s' => rfind_from c s' (i + 1) (if Ascii.eqb c d then i else found)
    end.

Definition rfind (c : ascii) (s : string) : Z := rfind_from c s 0 (-1).

Definition len (s : string) : Z := Z.of_nat (String.length s).

  (** The digit character of [d], for [0 <= d < 10]. *)
Definition digit_char (d : Z) : ascii := ascii_of_nat (48 + Z.to_nat d).

  (** Decimal digits of a non-negative integer, least significant digit
      produced first and pushed in front of [acc]. *)
Fixpoint decimal_digits (fuel : nat) (n : Z) (acc : string) : string :=
    match fuel with
    | O => acc
    | S fuel' =>
        let acc' := String (digit_char (n mod 10)) acc in
        if n / 10 =? 0 then acc' else decimal_digits fuel' (n / 10) acc'
    end.

  (** [str(n)] for [n >= 0]; a number has no more decimal digits than
      binary ones, which bounds the recursion. *)
Definition str_nat (n : Z) : string :=
    decimal_digits (S (Z.to_nat (Z.log2 n))) n EmptyString.

  (** [str(z)] for an [int]. *)
Definition str_int (z : Z) : string :=
    if z <? 0 then "-" ++ str_nat (- z) else str_nat z.

  (** [format(z, '0<width>d')]: sign first, then zeros up to the width,
      which counts the sign. *)
Definition zfill (width : nat) (digits : string) : string :=
    replicate (width - String.length digits) "0"%char ++ digits.

Definition format_0d (width : nat) (z : Z) : string :=
    if z <? 0 then "-" ++ zfill (width - 1) (str_nat (- z))
    else zfill width (str_nat z).

End PyStr.

(* ================================================================== *)
(** * Python arithmetic on floats: binary64 over [Q] *)
(* ================================================================== *)

Module PyNum.
Local Open Scope Q_scope.

  (** Exponent of the leading bit of a number that is not zero:
      [2 ^ mag q <= |q| < 2 ^ (mag q + 1)]. *)
Definition mag (q : Q) : Z :=
    let k := (Z.log2 (Z.abs (Qnum q)) - Z.log2 (Zpos (Qden q)))%Z in
    if Qle_bool (2 ^ k) (Qabs q) then k else (k - 1)%Z.

  (** Exponent of the unit in the last place: 53 significant bits, and
      the spacing [2 ^ -1074] of the subnormal numbers at the bottom. *)
Definition ulp_exp (q : Q) : Z := Z.max (mag q - 52) (-1074).

  (** The nearest integer, a tie going to the even one. *)
Definition nearest_even (r : Q) : Z :=
    let f := Qfloor r in
    match Qcompare (r - inject_Z f) (1 # 2) with
    | Lt => f
    | Gt => (f + 1)%Z
    | Eq => if Z.even f then f else (f + 1)%Z
    end.

  (** The binary64 number nearest to [q] (round to nearest, ties to
      even), for a result in the finite range. *)
Definition to_binary64 (q : Q) : Q :=
    if Qeq_bool q 0 then 0
    else inject_Z (nearest_even (q / 2 ^ ulp_exp q)) * 2 ^ ulp_exp q.

  (** The values of the finite binary64 numbers. *)
Definition binary64 (q : Q) : Prop := to_binary64 q == q /\ Qabs q < 2 ^ 1024.

Definition ltb (x y : Q) : bool := negb (Qle_bool y x).

  (** [int(x)]: truncation toward zero. *)
Definition int (x : Q) : Z :=
    if Qle_bool 0 x then Qfloor x else Qceiling x.

  (** [x + y], [x - y], [x * y] and [x / y] on floats: the exact result,
      rounded once. *)
Definition add (x y : Q) : Q := to_binary64 (x + y).
Definition sub (x y : Q) : Q := to_binary64 (x - y).
Definition mul (x y : Q) : Q := to_binary64 (x * y).
Definition truediv (x y : Q) : Q := to_binary64 (x / y).

  (** C's [fmod]: the remainder of the division truncated toward zero;
      it has the sign of [x] and is exact. *)
Definition fmod (x y : Q) : Q := x - y * inject_Z (int (x / y)).

  (** [x % y] on floats ([float_rem] of floatobject.c), for a divisor
      that is not zero: [mod = fmod(vx, wx)]; a remainder of the other
      sign than the divisor is moved by one divisor ([mod += wx], which
      rounds); a zero remainder is zero. *)
Definition mod_ (x y : Q) : Q :=
    let m := fmod x y in
    if Qeq_bool m 0 then 0
    else if xorb (ltb y 0) (ltb m 0) then to_binary64 (m + y) else m.

  (** [x // y] on floats ([_float_div_mod] of floatobject.c), for a
      divisor that is not zero: [div = (vx - mod) / wx], one less when
      the remainder was moved, then snapped to an integer:
      [floordiv = floor(div)], one more if [div - floordiv > 0.5]. *)
Definition floordiv (x y : Q) : Q :=
    let m := fmod x y in
    let div := to_binary64 (to_binary64 (x - m) / y) in
    let div := if negb (Qeq_bool m 0) && xorb (ltb y 0) (ltb m 0)
               then to_binary64 (div - 1) else div in
    if Qeq_bool div 0 then 0
    else
      let floordiv := inject_Z (Qfloor div) in
      if ltb (1 # 2) (to_binary64 (div - floordiv))
      then to_binary64 (floordiv + 1)
      else floordiv.

End PyNum.

(* ================================================================== *)
(** * [TranscriptionWorker._format_timestamp] *)
(* ================================================================== *)

(** [def _format_timestamp(self, seconds, use_comma=True)] *)
Definition _format_timestamp (seconds : Q) (use_comma : bool) : string :=
  let hours := PyNum.int (PyNum.floordiv seconds 3600) in
  let minutes := PyNum.int (PyNum.floordiv (PyNum.mod_ seconds 3600) 60) in
  let secs := PyNum.int (PyNum.mod_ seconds 60) in
  let millisecs := PyNum.int (PyNum.mul (PyNum.mod_ seconds 1) 1000) in
  let separator := if use_comma then "," else "." in
  PyStr.format_0d 2 hours ++ ":" ++ PyStr.format_0d 2 minutes ++ ":"
    ++ PyStr.format_0d 2 secs ++ separator ++ PyStr.format_0d 3 millisecs.

(** The reading of a timestamp the specification gives: the offset cut to
    whole milliseconds, split into clock fields, each field written with a
    fixed number of digits (hours: at least two). *)
Definition whole_millis (seconds : Q) : Z := Qfloor (seconds * 1000)%Q.

(** The milliseconds field as the code computes it, and the offset the
    text shows: the whole seconds and that field. *)
Definition millis_field (seconds : Q) : Z :=
  PyNum.int (PyNum.mul (PyNum.mod_ seconds 1) 1000).

Definition shown_millis (seconds : Q) : Z :=
  1000 * Qfloor seconds + millis_field seconds.

Definition two_digits (n : Z) : string :=
  String (PyStr.digit_char (n / 10)) (String (PyStr.digit_char (n mod 10)) EmptyString).

Definition three_digits (n : Z) : string :=
  String (PyStr.digit_char (n / 100)) (two_digits (n mod 100)).

Definition separator_of (use_comma : bool) : string :=
  if use_comma then "," else ".".

Definition clock_text (t : Z) (use_comma : bool) : string :=
  PyStr.zfill 2 (PyStr.str_nat (t / 3600000)) ++ ":"
    ++ two_digits ((t / 60000) mod 60) ++ ":"
    ++ two_digits ((t / 1000) mod 60) ++ separator_of use_comma
    ++ three_digits (t mod 1000).

(* ================================================================== *)
(** * Python values and exceptions *)
(* ================================================================== *)

(** The values the worker handles: the inference result is a [dict]
    holding the transcript text and a list of segment dicts, the caption
    styling is a [dict] of a flag and two strings. *)
Inductive pyval : Type :=
| PNone
| PBool (b : bool)
| PInt (z : Z)
| PFloat (q : Q)
| PStr (s : string)
| PList (items : list pyval)
| PDict (entries : list (string * pyval)).

Definition dict : Type := list (string * pyval).

(** Exception classes the worker tells apart or raises itself.
    [HTTPError] is a subclass of [URLError]; everything here derives from
    [Exception]. *)
Inductive exn_class : Type :=
| URLError | HTTPError | FileNotFoundError | OSError | ImportError
| KeyError | TypeError | AttributeError | ZeroDivisionError | RuntimeError.

(** An exception: its class and [str(e)]. *)
Record exn : Type := Exn { exn_cls : exn_class; exn_str : string }.

Definition is_URLError (e : exn) : bool :=
  match exn_cls e with URLError | HTTPError => true | _ => false end.

Definition is_FileNotFoundError (e : exn) : bool :=
  match exn_cls e with FileNotFoundError => true | _ => false end.

Definition nl : string := String "010"%char EmptyString.

Fixpoint join (sep : string) (l : list string) : string :=
  match l with
  | [] => EmptyString
  | [x] => x
  | x :: rest => x ++ sep ++ join sep rest
  end.

Module PyVal.

  (** [d.get(key)] / [d[key]] on an association list: first binding. *)
Fixpoint lookup (key : string) (d : dict) : option pyval :=
    match d with
    | [] => None
    | (k, v) :: rest => if String.eqb key k then Some v else lookup key rest
    end.

  (** [d.get(key, default)] *)
Definition get (d : dict) (key : string) (default : pyval) : pyval :=
    match lookup key d with Some v => v | None => default end.

  (** Truth value of an object, as tested by [if]. *)
Definition truthy (v : pyval) : bool :=
    match v with
    | PNone => false
    | PBool b => b
    | PInt z => negb (z =? 0)
    | PFloat q => negb (Qeq_bool q 0)
    | PStr s => negb (String.eqb s EmptyString)
    | PList l => match l with [] => false | _ => true end
    | PDict d => match d with [] => false | _ => true end
    end.

Definition hex_digit (n : nat) : ascii :=
    if (n <? 10)%nat then ascii_of_nat (48 + n) else ascii_of_nat (87 + n).

Definition hex2 (c : ascii) : string :=
    let n := nat_of_ascii c in
    String (hex_digit (n / 16)) (String (hex_digit (n mod 16)) EmptyString).

  (** [str.isprintable] on one code point below 256. *)
Definition isprintable (c : ascii) : bool :=
    let n := nat_of_ascii c in
    ((32 <=? n) && (n <? 127) || (161 <=? n) && negb (n =? 173))%nat.

Fixpoint has_char (c : ascii) (s : string) : bool :=
    match s with
    | EmptyString => false
    | String d s' => Ascii.eqb c d || has_char c s'
    end.

Fixpoint repr_chars (quote : ascii) (s : string) : string :=
    match s with
    | EmptyString => EmptyString
    | String c s' =>
        let n := nat_of_ascii c in
        (if Ascii.eqb c quote || Ascii.eqb c "\"%char then String "\"%char (String c EmptyString)
         else if (n =? 9)%nat then "\t"
         else if (n =? 10)%nat then "\n"
         else if (n =? 13)%nat then "\r"
         else if isprintable c then String c EmptyString
         else "\x" ++ hex2 c) ++ repr_chars quote s'
    end.

  (** [repr(s)] for a string. *)
Definition repr_str (s : string) : string :=
    let quote := if has_char "'"%char s && negb (has_char "034"%char s)
                 then "034"%char else "'"%char in
    String quote (repr_chars quote s ++ String quote EmptyString).

Section WithFloatRepr.
    (** [float.__repr__]: the shortest decimal text that reads back as
        the same float. *)
Variable float_repr : Q -> string.

    (** [repr(v)] *)
Fixpoint repr (v : pyval) : string :=
      match v with
      | PNone => "None"
      | PBool b => if b then "True" else "False"
      | PInt z => PyStr.str_int z
      | PFloat q => float_repr q
      | PStr s => repr_str s
      | PList l => "[" ++ join ", " (map repr l) ++ "]"
      | PDict d =>
          "{" ++ join ", " (map (fun kv => repr_str (fst kv) ++ ": " ++ repr (snd kv)) d) ++ "}"
      end.

    (** [str(v)], which is what an f-string field without format
        specification inserts. *)
Definition str (v : pyval) : string :=
      match v with
      | PStr s => s
      | _ => repr v
      end.
End WithFloatRepr.

End PyVal.

(* ================================================================== *)
(** * State, early return and exceptions *)
(* ================================================================== *)

(** How a block of statements ends: it falls through with a value, it
    executes [return] (leaving [run]), or it raises. *)
Inductive outcome (A : Type) : Type :=
| Normal (a : A)
| Returned
| Raised (e : exn).
Arguments Normal {A} a.
Arguments Returned {A}.
Arguments Raised {A} e.

Definition M (S A : Type) : Type := S -> outcome A * S.

Definition ret {S A} (a : A) : M S A := fun s => (Normal a, s).

Definition bind {S A B} (m : M S A) (k : A -> M S B) : M S B :=
  fun s =>
    match m s with
    | (Normal a, s') => k a s'
    | (Returned, s') => (Returned, s')
    | (Raised e, s') => (Raised e, s')
    end.

Definition raise {S A} (e : exn) : M S A := fun s => (Raised e, s).

(** The [return] statement of [run]. *)
Definition return_ {S A} : M S A := fun s => (Returned, s).

(** [try: body  except Exception as e: handler e]; a handler that does
    not match re-raises. *)
Definition try_except {S A} (body : M S A) (handler : exn -> M S A) : M S A :=
  fun s =>
    match body s with
    | (Raised e, s') => handler e s'
    | r => r
    end.

Definition modify {S} (f : S -> S) : M S unit := fun s => (Normal tt, f s).

Definition gets {S A} (f : S -> A) : M S A := fun s => (Normal (f s), s).

(** Lift the result of an operation that only computes. *)
Definition lift {S A} (r : exn + A) : M S A :=
  fun s => match r with inl e => (Raised e, s) | inr a => (Normal a, s) end.

Declare Scope monad_scope.
Delimit Scope monad_scope with monad.
Notation "x <- m ;; k" := (bind m (fun x => k))
  (at level 61, m at next level, right associativity) : monad_scope.
Notation "m ;; k" := (bind m (fun _ => k))
  (at level 61, right associativity) : monad_scope.
Local Open Scope monad_scope.

(** [for x in items: body x] *)
Fixpoint for_each {S A} (items : list A) (body : A -> M S unit) : M S unit :=
  match items with
  | [] => ret tt
  | x :: rest => body x ;; for_each rest body
  end.

(** [for i, x in enumerate(items, start=i0): body i x] *)
Fixpoint for_enumerate {S A} (i0 : Z) (items : list A) (body : Z -> A -> M S unit)
  : M S unit :=
  match items with
  | [] => ret tt
  | x :: rest => body i0 x ;; for_enumerate (i0 + 1) rest body
  end.

(* ================================================================== *)
(** * Operations on values that may raise *)
(* ================================================================== *)

Module PyOp.

  (** The message of a [TypeError] or [AttributeError] depends on the
      interpreter version; it is left empty. *)
Definition type_error {A} : exn + A := inl (Exn TypeError "").
Definition attribute_error {A} : exn + A := inl (Exn AttributeError "").

  (** [v[key]] with a string key; [str(KeyError(k))] is [repr(k)]. *)
Definition getitem (v : pyval) (key : string) : exn + pyval :=
    match v with
    | PDict d =>
        match PyVal.lookup key d with
        | Some x => inr x
        | None => inl (Exn KeyError (PyVal.repr_str key))
        end
    | _ => type_error
    end.

  (** The items a [for] loop sees. *)
Definition iter (v : pyval) : exn + list pyval :=
    match v with
    | PList l => inr l
    | PDict d => inr (map (fun kv => PStr (fst kv)) d)
    | PStr s => inr (map (fun c => PStr (String c EmptyString)) (list_ascii_of_string s))
    | _ => type_error
    end.

  (** [v.strip()] *)
Definition strip (v : pyval) : exn + string :=
    match v with
    | PStr s => inr (PyStr.strip s)
    | _ => attribute_error
    end.

  (** A value used as a number in [//], [%] and [*].  An [int] is
      carried as its value through the operations of [PyNum]; for
      magnitudes below [2 ^ 53] they give what Python's integer
      operations give. *)
Definition number (v : pyval) : exn + Q :=
    match v with
    | PFloat q => inr q
    | PInt z => inr (inject_Z z)
    | PBool b => inr (if b then 1%Q else 0%Q)
    | _ => type_error
    end.

  (** [x / y]: the quotient rounded to binary64. *)
Definition truediv (x y : Q) : exn + Q :=
    if Qeq_bool y 0 then inl (Exn ZeroDivisionError "division by zero")
    else inr (PyNum.truediv x y).

  (** [f.write(v)] accepts a [str] only. *)
Definition text_of (v : pyval) : exn + string :=
    match v with
    | PStr s => inr s
    | _ => type_error
    end.

End PyOp.

(* ================================================================== *)
(** * Writing to an open text file *)
(* ================================================================== *)

(** Statements inside [with open(path, 'w', encoding='utf-8') as f]: the
    state is what has been written to [f] so far. *)
Definition W (A : Type) : Type := M string A.

(** [f.write(s)] *)
Definition fwrite (s : string) : W unit := modify (fun buf => buf ++ s).

(** [self._format_timestamp(v, use_comma=...)] on a field of a segment. *)
Definition format_timestamp_of {S} (v : pyval) (use_comma : bool) : M S string :=
  seconds <- lift (PyOp.number v) ;;
  ret (_format_timestamp seconds use_comma).

(* ================================================================== *)
(** * The exporters *)
(* ================================================================== *)

Section Exporters.
Variable float_repr : Q -> string.

  (** The body of the loop of [_write_srt]. *)
Definition srt_segment (i : Z) (segment : pyval) : W unit :=
    start_v <- lift (PyOp.getitem segment "start") ;;
    start <- format_timestamp_of start_v true ;;
    end_v <- lift (PyOp.getitem segment "end") ;;
    end_ <- format_timestamp_of end_v true ;;
    text_v <- lift (PyOp.getitem segment "text") ;;
    text <- lift (PyOp.strip text_v) ;;
    fwrite (PyStr.str_int i ++ nl) ;;
    fwrite (start ++ " --> " ++ end_ ++ nl) ;;
    fwrite (text ++ nl ++ nl).

  (** [def _write_srt(self, result, output_path)], the statements under
      [with open(...) as f]. *)
Definition _write_srt (result : pyval) : W unit :=
    segments <- lift (PyOp.getitem result "segments") ;;
    items <- lift (PyOp.iter segments) ;;
    for_enumerate 1 items srt_segment.

  (** The STYLE block of [_write_vtt]. *)
Definition vtt_style_block (lms_settings : dict) : W unit :=
    if PyVal.truthy (PyVal.get lms_settings "enabled" PNone) then
      css_content <- lift (PyOp.strip (PyVal.get lms_settings "css" (PStr ""))) ;;
      if negb (String.eqb css_content "") then
        fwrite (nl ++ "STYLE" ++ nl) ;;
        fwrite css_content ;;
        fwrite nl
      else ret tt
    else ret tt.

  (** The computation of [cue_settings] in [_write_vtt]. *)
Definition vtt_cue_settings (lms_settings : dict) : W string :=
    if PyVal.truthy (PyVal.get lms_settings "enabled" PNone) then
      cue_settings <- lift (PyOp.strip (PyVal.get lms_settings "cue_settings" (PStr ""))) ;;
      if negb (String.eqb cue_settings "") then ret (" " ++ cue_settings)
      else ret cue_settings
    else ret "".

  (** The body of the loop of [_write_vtt]. *)
Definition vtt_segment (cue_settings : string) (segment : pyval) : W unit :=
    start_v <- lift (PyOp.getitem segment "start") ;;
    start <- format_timestamp_of start_v false ;;
    end_v <- lift (PyOp.getitem segment "end") ;;
    end_ <- format_timestamp_of end_v false ;;
    text_v <- lift (PyOp.getitem segment "text") ;;
    text <- lift (PyOp.strip text_v) ;;
    fwrite (start ++ " --> " ++ end_ ++ cue_settings ++ nl) ;;
    fwrite (text ++ nl ++ nl).

  (** [def _write_vtt(self, result, output_path)], the statements under
      [with open(...) as f]; [lms_settings] is [self.lms_settings]. *)
Definition _write_vtt (lms_settings : dict) (result : pyval) : W unit :=
    fwrite ("WEBVTT" ++ nl) ;;
    vtt_style_block lms_settings ;;
    fwrite nl ;;
    cue_settings <- vtt_cue_settings lms_settings ;;
    segments <- lift (PyOp.getitem result "segments") ;;
    items <- lift (PyOp.iter segments) ;;
    for_each items (vtt_segment cue_settings).

  (** [html_content] of [_write_html], built before the file is opened. *)
Definition html_content (result : pyval) : exn + string :=
    match PyOp.getitem result "text" with
    | inl e => inl e
    | inr text =>
        inr ("<h3>Full Transcript</h3>" ++ nl
             ++ "<details>" ++ nl
             ++ "<summary>Click to expand transcript</summary>" ++ nl
             ++ nl
             ++ PyVal.str float_repr text ++ nl
             ++ nl
             ++ "</details>" ++ nl
             ++ nl
             ++ "<p><em>Transcribed with Voxtext using OpenAI Whisper</em></p>")
    end.

  (** [md_content] of [_write_markdown], built before the file is opened. *)
Definition md_content (result : pyval) : exn + string :=
    match PyOp.getitem result "text" with
    | inl e => inl e
    | inr text =>
        inr ("# Transcript" ++ nl
             ++ nl
             ++ PyVal.str float_repr text ++ nl
             ++ nl
             ++ "---" ++ nl
             ++ nl
             ++ "*Transcribed with Voxtext using OpenAI Whisper*" ++ nl)
    end.

End Exporters.

(* ================================================================== *)
(** * [json.dump] and [json.load] *)
(* ================================================================== *)

(** The encoder and decoder of the Python standard library, as the worker
    configures them.  They are library code, modelled here so that the
    structured-data export can be read back. *)
Module Json.

Definition dq : ascii := "034"%char.

  (** [ESCAPE_DCT] of [json.encoder]: with [ensure_ascii=False] only the
      backslash, the double quote and the control characters are
      escaped. *)
Definition escape_char (c : ascii) : string :=
    let n := nat_of_ascii c in
    if (n =? 92)%nat then "\\"
    else if (n =? 34)%nat then String "\"%char (String dq EmptyString)
    else if (n =? 8)%nat then "\b"
    else if (n =? 12)%nat then "\f"
    else if (n =? 10)%nat then "\n"
    else if (n =? 13)%nat then "\r"
    else if (n =? 9)%nat then "\t"
    else if (n <? 32)%nat then "\u00" ++ PyVal.hex2 c
    else String c EmptyString.

Fixpoint escape (s : string) : string :=
    match s with
    | EmptyString => EmptyString
    | String c s' => escape_char c ++ escape s'
    end.

  (** [encode_basestring] *)
Definition encode_basestring (s : string) : string :=
    String dq (escape s ++ String dq EmptyString).

  (** ['\n' + ' ' * (2 * level)] *)
Definition newline_indent (level : nat) : string :=
    nl ++ PyStr.replicate (2 * level) " "%char.

Section Encoder.
Variable float_repr : Q -> string.

    (** [_iterencode] with [indent=2]: the text of [v] at nesting depth
        [level]. *)
Fixpoint encode (level : nat) (v : pyval) : string :=
      match v with
      | PNone => "null"
      | PBool b => if b then "true" else "false"
      | PInt z => PyStr.str_int z
      | PFloat q => float_repr q
      | PStr s => encode_basestring s
      | PList l =>
          match l with
          | [] => "[]"
          | _ => "[" ++ newline_indent (S level)
                 ++ join ("," ++ newline_indent (S level)) (map (encode (S level)) l)
                 ++ newline_indent level ++ "]"
          end
      | PDict d =>
          match d with
          | [] => "{}"
          | _ => "{" ++ newline_indent (S level)
                 ++ join ("," ++ newline_indent (S level))
                      (map (fun kv => encode_basestring (fst kv) ++ ": "
                                      ++ encode (S level) (snd kv)) d)
                 ++ newline_indent level ++ "}"
          end
      end.

    (** The text [json.dump(v, f, indent=2, ensure_ascii=False)] writes. *)
Definition dumps (v : pyval) : string := encode 0 v.
End Encoder.

  (** ** The decoder ([json.load] with its defaults) *)

  (** [WHITESPACE] of [json.decoder]. *)
Definition is_ws (c : ascii) : bool :=
    let n := nat_of_ascii c in
    ((n =? 32) || (n =? 9) || (n =? 10) || (n =? 13))%nat.

Fixpoint skip_ws (s : string) : string :=
    match s with
    | EmptyString => EmptyString
    | String c s' => if is_ws c then skip_ws s' else s
    end.

Definition hex_value (c : ascii) : option nat :=
    let n := nat_of_ascii c in
    if ((48 <=? n) && (n <=? 57))%nat then Some (n - 48)%nat
    else if ((97 <=? n) && (n <=? 102))%nat then Some (n - 87)%nat
    else if ((65 <=? n) && (n <=? 70))%nat then Some (n - 55)%nat
    else None.

  (** [BACKSLASH] of [json.decoder]. *)
Definition unescape (c : ascii) : option ascii :=
    let n := nat_of_ascii c in
    if (n =? 34)%nat then Some dq
    else if (n =? 92)%nat then Some "\"%char
    else if (n =? 47)%nat then Some "/"%char
    else if (n =? 98)%nat then Some (ascii_of_nat 8)
    else if (n =? 102)%nat then Some (ascii_of_nat 12)
    else if (n =? 110)%nat then Some (ascii_of_nat 10)
    else if (n =? 114)%nat then Some (ascii_of_nat 13)
    else if (n =? 116)%nat then Some (ascii_of_nat 9)
    else None.

Definition cons_char (c : ascii) (r : option (string * string)) : option (string * string) :=
    match r with
    | Some (t, rest) => Some (String c t, rest)
    | None => None
    end.

  (** [py_scanstring] in strict mode, after the opening quote: the text
      up to the closing quote and what follows it.  A [\uXXXX] escape
      beyond code point 255 is outside the characters modelled. *)
Fixpoint scanstring (s : string) : option (string * string) :=
    match s with
    | EmptyString => None
    | String c r =>
        if Ascii.eqb c dq then Some (EmptyString, r)
        else if Ascii.eqb c "\"%char then
          match r with
          | EmptyString => None
          | String e r1 =>
              if Ascii.eqb e "u"%char then
                match r1 with
                | String h1 (String h2 (String h3 (String h4 r2))) =>
                    match hex_value h1, hex_value h2, hex_value h3, hex_value h4 with
                    | Some a, Some b, Some c', Some d =>
                        let code := (((a * 16 + b) * 16 + c') * 16 + d)%nat in
                        if (code <? 256)%nat then cons_char (ascii_of_nat code) (scanstring r2)
                        else None
                    | _, _, _, _ => None
                    end
                | _ => None
                end
              else
                match unescape e with
                | Some ch => cons_char ch (scanstring r1)
                | None => None
                end
          end
        else if (nat_of_ascii c <? 32)%nat then None
        else cons_char c (scanstring r)
    end.

Definition is_digit (c : ascii) : bool :=
    let n := nat_of_ascii c in ((48 <=? n) && (n <=? 57))%nat.

  (** The longest run of digits at the start, and the rest. *)
Fixpoint scan_digits (s : string) : string * string :=
    match s with
    | EmptyString => (EmptyString, EmptyString)
    | String c r =>
        if is_digit c then let (d, rest) := scan_digits r in (String c d, rest)
        else (EmptyString, s)
    end.

  (** [NUMBER_RE], in three stages: an optional minus sign and either a
      single zero or a non-zero digit followed by digits; optionally a
      dot and at least one digit; optionally [e] or [E], an optional
      sign and at least one digit. *)
Definition scan_integer (s : string) : option (string * string) :=
    let (sign, s1) := match s with
                      | String c r => if Ascii.eqb c "-"%char then ("-", r) else ("", s)
                      | EmptyString => ("", s)
                      end in
    match s1 with
    | EmptyString => None
    | String c r =>
        if Ascii.eqb c "0"%char then Some (sign ++ "0", r)
        else if is_digit c then
          let (d, rest) := scan_digits r in Some (sign ++ String c d, rest)
        else None
    end.

Definition scan_frac (s : string) : string * string :=
    match s with
    | String c r =>
        if Ascii.eqb c "."%char then
          let (d, rest) := scan_digits r in
          match d with
          | EmptyString => (EmptyString, s)
          | _ => (String c d, rest)
          end
        else (EmptyString, s)
    | EmptyString => (EmptyString, s)
    end.

Definition scan_exp (s : string) : string * string :=
    match s with
    | String c r =>
        if Ascii.eqb c "e"%char || Ascii.eqb c "E"%char then
          let (sign, r1) := match r with
                            | String g r' =>
                                if Ascii.eqb g "+"%char || Ascii.eqb g "-"%char
                                then (String g EmptyString, r') else (EmptyString, r)
                            | EmptyString => (EmptyString, r)
                            end in
          let (d, rest) := scan_digits r1 in
          match d with
          | EmptyString => (EmptyString, s)
          | _ => (String c (sign ++ d), rest)
          end
        else (EmptyString, s)
    | EmptyString => (EmptyString, s)
    end.

  (** The integer part, the fraction and the exponent matched at the
      start of [s], and the rest. *)
Definition scan_number (s : string) : option (string * string * string * string) :=
    match scan_integer s with
    | None => None
    | Some (integer, s2) =>
        let (frac, s3) := scan_frac s2 in
        let (exp, s4) := scan_exp s3 in
        Some (integer, frac, exp, s4)
    end.

Definition digit_value (c : ascii) : Z := Z.of_nat (nat_of_ascii c - 48).

Fixpoint digits_value (acc : Z) (s : string) : Z :=
    match s with
    | EmptyString => acc
    | String c r => digits_value (acc * 10 + digit_value c) r
    end.

  (** [int(text)] on the integer part of a number. *)
Definition int_of_text (s : string) : Z :=
    match s with
    | String c r => if Ascii.eqb c "-"%char then - digits_value 0 r else digits_value 0 s
    | EmptyString => 0
    end.

Fixpoint strip_prefix (p s : string) : option string :=
    match p, s with
    | EmptyString, _ => Some s
    | String a p', String b s' => if Ascii.eqb a b then strip_prefix p' s' else None
    | String _ _, EmptyString => None
    end.

  (** [d[k] = v] on an insertion-ordered dict. *)
Fixpoint dict_set (k : string) (v : pyval) (d : dict) : dict :=
    match d with
    | [] => [(k, v)]
    | (k', v') :: rest =>
        if String.eqb k k' then (k', v) :: rest else (k', v') :: dict_set k v rest
    end.

  (** [dict(pairs)] *)
Definition dict_of_pairs (pairs : list (string * pyval)) : dict :=
    fold_left (fun d kv => dict_set (fst kv) (snd kv) d) pairs [].

Section Decoder.
    (** [float(text)] on a number with a fraction or an exponent. *)
Variable float_parse : string -> option Q.

Definition number_value (integer frac exp : string) : option pyval :=
      if String.eqb frac "" && String.eqb exp "" then Some (PInt (int_of_text integer))
      else match float_parse (integer ++ frac ++ exp) with
           | Some q => Some (PFloat q)
           | None => None
           end.

    (** [scan_once], [JSONArray] and [JSONObject]: the value at the start
        of [s] and what follows it.  [fuel] bounds the nesting and the
        number of items; the length of the text is enough.  The literals
        [NaN] and [Infinity] have no counterpart among the numbers
        modelled and are not read. *)
Fixpoint parse_value (fuel : nat) (s : string) : option (pyval * string) :=
      match fuel with
      | O => None
      | S fuel' =>
          match s with
          | EmptyString => None
          | String c r =>
              if Ascii.eqb c dq then
                match scanstring r with
                | Some (t, rest) => Some (PStr t, rest)
                | None => None
                end
              else if Ascii.eqb c "{"%char then
                match skip_ws r with
                | String c' rest =>
                    if Ascii.eqb c' "}"%char then Some (PDict [], rest)
                    else match parse_members fuel' (String c' rest) with
                         | Some (pairs, rest') => Some (PDict (dict_of_pairs pairs), rest')
                         | None => None
                         end
                | EmptyString => None
                end
              else if Ascii.eqb c "["%char then
                match skip_ws r with
                | String c' rest =>
                    if Ascii.eqb c' "]"%char then Some (PList [], rest)
                    else match parse_elements fuel' (String c' rest) with
                         | Some (items, rest') => Some (PList items, rest')
                         | None => None
                         end
                | EmptyString => None
                end
              else
                match strip_prefix "null" s with
                | Some rest => Some (PNone, rest)
                | None =>
                    match strip_prefix "true" s with
                    | Some rest => Some (PBool true, rest)
                    | None =>
                        match strip_prefix "false" s with
                        | Some rest => Some (PBool false, rest)
                        | None =>
                            match scan_number s with
                            | Some (integer, frac, exp, rest) =>
                                match number_value integer frac exp with
                                | Some v => Some (v, rest)
                                | None => None
                                end
                            | None => None
                            end
                        end
                    end
                end
          end
      end
    with parse_elements (fuel : nat) (s : string) : option (list pyval * string) :=
      match fuel with
      | O => None
      | S fuel' =>
          match parse_value fuel' s with
          | Some (v, r) =>
              match skip_ws r with
              | String c r' =>
                  if Ascii.eqb c "]"%char then Some ([v], r')
                  else if Ascii.eqb c ","%char then
                    match parse_elements fuel' (skip_ws r') with
                    | Some (vs, rest) => Some (v :: vs, rest)
                    | None => None
                    end
                  else None
              | EmptyString => None
              end
          | None => None
          end
      end
    with parse_members (fuel : nat) (s : string) : option (list (string * pyval) * string) :=
      match fuel with
      | O => None
      | S fuel' =>
          match s with
          | String c r =>
              if Ascii.eqb c dq then
                match scanstring r with
                | Some (key, r1) =>
                    match skip_ws r1 with
                    | String c1 r2 =>
                        if Ascii.eqb c1 ":"%char then
                          match parse_value fuel' (skip_ws r2) with
                          | Some (v, r3) =>
                              match skip_ws r3 with
                              | String c3 r4 =>
                                  if Ascii.eqb c3 "}"%char then Some ([(key, v)], r4)
                                  else if Ascii.eqb c3 ","%char then
                                    match parse_members fuel' (skip_ws r4) with
                                    | Some (ps, rest) => Some ((key, v) :: ps, rest)
                                    | None => None
                                    end
                                  else None
                              | EmptyString => None
                              end
                          | None => None
                          end
                        else None
                    | EmptyString => None
                    end
                | None => None
                end
              else None
          | EmptyString => None
          end
      end.

    (** [json.loads(s)]: one value, white space around it, nothing else. *)
Definition loads (s : string) : option pyval :=
      match parse_value (S (String.length s)) (skip_ws s) with
      | Some (v, rest) =>
          match skip_ws rest with
          | EmptyString => Some v
          | _ => None
          end
      | None => None
      end.
End Decoder.

  (** ** What can be read back *)

Fixpoint all_digits (s : string) : bool :=
    match s with
    | EmptyString => true
    | String c r => is_digit c && all_digits r
    end.

  (** A character that starts a value, and not the end of a container. *)
Definition starts_value (c : ascii) : Prop :=
    is_ws c = false /\ c <> "]"%char /\ c <> "}"%char.

  (** What follows a value in the text the encoder writes: nothing, a
      comma or a line break. *)
Definition delimited (rest : string) : Prop :=
    rest = EmptyString
    \/ exists r, rest = String ","%char r \/ rest = String "010"%char r.

Section RoundTrip.
Variable float_repr : Q -> string.
Variable float_parse : string -> option Q.

    (** The text of the float [q] is a JSON number with a fraction or an
        exponent, and reading it gives [q] back: what [float.__repr__]
        and [float] guarantee for every finite float. *)
Definition float_round_trips (q : Q) : Prop :=
      exists integer frac exp,
        scan_number (float_repr q) = Some (integer, frac, exp, EmptyString)
        /\ String.eqb frac "" && String.eqb exp "" = false
        /\ float_parse (integer ++ frac ++ exp) = Some q.

    (** A value as Python builds it: the keys of a dict are distinct;
        its floats are finite. *)
Fixpoint well_formed (v : pyval) : Prop :=
      match v with
      | PFloat q => float_round_trips q
      | PList l => fold_right (fun x acc => well_formed x /\ acc) True l
      | PDict d =>
          NoDup (map fst d)
          /\ fold_right (fun kv acc => well_formed (snd kv) /\ acc) True d
      | _ => True
      end.

    (** The decoder reads the text of [v] back, at every nesting depth
        and before everything that can follow a value. *)
Definition reads_back (v : pyval) : Prop :=
      forall (level fuel : nat) (rest : string),
        (String.length (encode float_repr level v) < fuel)%nat ->
        delimited rest ->
        parse_value float_parse fuel (encode float_repr level v ++ rest) = Some (v, rest).

    (** The separator of the items of a container at depth [level]. *)
Definition item_separator (level : nat) : string := "," ++ newline_indent level.

    (** The text of one member of an object. *)
Definition encode_member (level : nat) (kv : string * pyval) : string :=
      encode_basestring (fst kv) ++ ": " ++ encode float_repr level (snd kv).
End RoundTrip.

End Json.

(* ================================================================== *)
(** * What the exporters are specified to write *)
(* ================================================================== *)

(** A segment as the specification sees it. *)
Record segment : Type := mkSegment {
  seg_start : Q;
  seg_end : Q;
  seg_text : string
}.

Definition num_field (v : pyval) (key : string) : option Q :=
  match PyOp.getitem v key with
  | inr x => match PyOp.number x with inr q => Some q | inl _ => None end
  | inl _ => None
  end.

Definition text_field (v : pyval) (key : string) : option string :=
  match PyOp.getitem v key with
  | inr (PStr s) => Some s
  | _ => None
  end.

(** The segment dict [v] carries the start, end and text of [s]
    (and possibly more fields). *)
Definition is_segment (v : pyval) (s : segment) : Prop :=
  num_field v "start" = Some (seg_start s)
  /\ num_field v "end" = Some (seg_end s)
  /\ text_field v "text" = Some (seg_text s).

(** The result dict [result] carries the segments [segs], in order. *)
Definition has_segments (result : pyval) (segs : list segment) : Prop :=
  exists items, PyOp.getitem result "segments" = inr (PList items)
                /\ Forall2 is_segment items segs.

Fixpoint concat_all (l : list string) : string :=
  match l with
  | [] => EmptyString
  | x :: rest => x ++ concat_all rest
  end.

(** One numbered cue: index line, timestamp line in the comma dialect,
    trimmed text, blank line. *)
Definition srt_cue (index : nat) (s : segment) : string :=
  PyStr.str_int (Z.of_nat index) ++ nl
  ++ _format_timestamp (seg_start s) true ++ " --> " ++ _format_timestamp (seg_end s) true ++ nl
  ++ PyStr.strip (seg_text s) ++ nl
  ++ nl.

Definition srt_text (segs : list segment) : string :=
  concat_all (map (fun p => srt_cue (fst p) (snd p))
                  (combine (seq 1 (List.length segs)) segs)).

(** One web-caption cue: timestamp line in the period dialect followed by
    [suffix], trimmed text, blank line. *)
Definition vtt_cue (suffix : string) (s : segment) : string :=
  _format_timestamp (seg_start s) false ++ " --> " ++ _format_timestamp (seg_end s) false
  ++ suffix ++ nl
  ++ PyStr.strip (seg_text s) ++ nl
  ++ nl.

Definition vtt_cues (suffix : string) (segs : list segment) : string :=
  concat_all (map (vtt_cue suffix) segs).

(** The style-block section for a given style text, empty when there is
    nothing to emit. *)
Definition style_section (enabled : bool) (style_text : string) : string :=
  if enabled && negb (String.eqb style_text "")
  then nl ++ "STYLE" ++ nl ++ style_text ++ nl
  else "".

(** The suffix of a timestamp line for a given directive. *)
Definition cue_suffix (enabled : bool) (directive : string) : string :=
  if enabled && negb (String.eqb directive "") then " " ++ directive else "".

(** The styling configuration as the exporter reads it. *)
Definition styling_enabled (lms_settings : dict) : bool :=
  PyVal.truthy (PyVal.get lms_settings "enabled" PNone).

Definition setting_text (lms_settings : dict) (key : string) : option string :=
  match PyVal.get lms_settings key (PStr "") with
  | PStr s => Some s
  | _ => None
  end.

(* ================================================================== *)
(** * [pathlib] *)
(* ================================================================== *)

(** A path as [pathlib] holds it: drive and root, then the components. *)
Record Path : Type := mkPath { anchor : string; tail : list string }.

Module PathOps.

  (** [p.name] *)
Definition name (p : Path) : string := last (tail p) EmptyString.

  (** [p.stem]: the name without its last suffix; a leading or a
      trailing dot starts no suffix. *)
Definition stem (p : Path) : string :=
    let n := name p in
    let i := PyStr.rfind "."%char n in
    if (0 <? i) && (i <? PyStr.len n - 1) then String.substring 0 (Z.to_nat i) n else n.

  (** [p / child] for a [child] that is one relative component. *)
Definition truediv (p : Path) (child : string) : Path :=
    mkPath (anchor p) (tail p ++ [child])%list.

  (** [str(p)], with the separator of the platform. *)
Definition str (sep : string) (p : Path) : string :=
    match anchor p, tail p with
    | EmptyString, [] => "."
    | a, t => a ++ join sep t
    end.

End PathOps.

(* ================================================================== *)
(** * The transcription job: request, signals, environment *)
(* ================================================================== *)

(** The fields [__init__] stores; [lms_settings] is already
    [lms_settings or {}]. *)
Record job : Type := mkJob {
  file_path : Path;
  model_name : string;
  output_formats : list string;
  output_dir : Path;
  lms_settings : dict
}.

(** The three signals of the worker: [progress(str, int)],
    [finished(list)] and [error(str)]. *)
Inductive event : Type :=
| Progress (message : string) (percentage : Z)
| Finished (created_files : list string)
| Error (message : string).

(** Everything the worker does that can be seen from outside, in the
    order in which it happens. *)
Inductive action : Type :=
| Emit (e : event)
| CancelRead (flag : bool)
| LoadModel (name : string) (verified : bool)
| Transcribe (file : Path) (language task : string)
| FileWrite (path : Path) (content : string).

(** What the worker does not control: the imports, the model provider
    (whose download may depend on whether certificates are verified), the
    inference call, the file system, and the moment the caller sets the
    cancellation flag, counted in reads of the flag: [Some n] lets the
    first [n] reads see [False], and the flag is never reset. *)
Record env : Type := mkEnv {
  os_sep : string;
  import_error : option exn;
  load_model_error : nat -> bool -> option exn;
  transcribe_result : exn + pyval;
  open_error : Path -> option exn;
  cancel_after : option nat
}.

(** The state of the process while [run] executes: the trace so far, the
    process-wide [ssl._create_default_https_context] (verifying or not),
    and how often the flag was read and the model provider called. *)
Record world : Type := mkWorld {
  trace : list action;
  ssl_verified : bool;
  flag_reads : nat;
  load_calls : nat
}.

Definition init_world (verified : bool) : world := mkWorld [] verified 0 0.

(** The updates of the state: an action is recorded; the flag is read;
    the model provider is called; verification is switched off. *)
Definition add (a : action) (w : world) : world :=
  mkWorld (trace w ++ [a]) (ssl_verified w) (flag_reads w) (load_calls w).

Definition note_read (flag : bool) (w : world) : world :=
  mkWorld (trace w ++ [CancelRead flag]) (ssl_verified w) (S (flag_reads w)) (load_calls w).

Definition note_load (name : string) (w : world) : world :=
  mkWorld (trace w ++ [LoadModel name (ssl_verified w)]) (ssl_verified w)
          (flag_reads w) (S (load_calls w)).

Definition unverify (w : world) : world :=
  mkWorld (trace w) false (flag_reads w) (load_calls w).

Definition events (t : list action) : list event :=
  flat_map (fun a => match a with Emit e => [e] | _ => [] end) t.

Definition percentages (es : list event) : list Z :=
  flat_map (fun e => match e with Progress _ p => [p] | _ => [] end) es.

Definition written_paths (t : list action) : list Path :=
  flat_map (fun a => match a with FileWrite p _ => [p] | _ => [] end) t.

Definition load_attempts (t : list action) : list bool :=
  flat_map (fun a => match a with LoadModel _ v => [v] | _ => [] end) t.

Definition is_terminal (e : event) : bool :=
  match e with Progress _ _ => false | _ => true end.

(** The export order of [run]. *)
Definition canonical_formats : list string :=
  ["txt"; "srt"; "vtt"; "html"; "md"; "json"].

Definition requested (formats : list string) (ext : string) : bool :=
  existsb (String.eqb ext) formats.

(** The artifact of one format. *)
Definition artifact (self : job) (ext : string) : Path :=
  PathOps.truediv (output_dir self) (PathOps.stem (file_path self) ++ "_transcript." ++ ext).

Definition ffmpeg_message : string :=
  "FFmpeg not found!" ++ nl ++ nl
  ++ "Whisper requires FFmpeg to process audio/video files." ++ nl ++ nl
  ++ "To install on Mac:" ++ nl
  ++ "  brew install ffmpeg" ++ nl ++ nl
  ++ "To install on Windows:" ++ nl
  ++ "  Download from ffmpeg.org" ++ nl ++ nl
  ++ "To install on Linux:" ++ nl
  ++ "  sudo apt install ffmpeg".

(* ================================================================== *)
(** * [TranscriptionWorker.run] *)
(* ================================================================== *)

Section Worker.
Variable float_repr : Q -> string.
Variable rt : env.
Variable self : job.

Definition log (a : action) : M world unit := modify (add a).

  (** [self.progress.emit], [self.finished.emit], [self.error.emit] *)
Definition emit (e : event) : M world unit := log (Emit e).

  (** Reading [self.cancelled]. *)
Definition cancelled : M world bool :=
    n <- gets flag_reads ;;
    let flag := match cancel_after rt with
                | Some k => (k <=? n)%nat
                | None => false
                end in
    modify (note_read flag) ;;
    ret flag.

  (** [if self.cancelled: return] *)
Definition return_if_cancelled : M world unit :=
    c <- cancelled ;;
    if c then return_ else ret tt.

  (** [import whisper], [import ssl], [import urllib.request] *)
Definition imports : M world unit :=
    match import_error rt with
    | Some e => raise e
    | None => ret tt
    end.

  (** [self.model = whisper.load_model(self.model_name)] *)
Definition load_model : M world unit :=
    n <- gets load_calls ;;
    v <- gets ssl_verified ;;
    modify (note_load (model_name self)) ;;
    match load_model_error rt n v with
    | Some e => raise e
    | None => ret tt
    end.

  (** [ssl._create_default_https_context = ssl._create_unverified_context] *)
Definition create_unverified_context : M world unit :=
    modify unverify.

  (** [self.model.transcribe(self.file_path, language="en", task="transcribe")] *)
Definition transcribe : M world pyval :=
    log (Transcribe (file_path self) "en" "transcribe") ;;
    lift (transcribe_result rt).

  (** [with open(path, 'w', encoding='utf-8') as f: body]: opening may
      fail; otherwise the file holds what [body] wrote, also when [body]
      raises. *)
Definition with_open (path : Path) (body : W unit) : M world unit :=
    match open_error rt path with
    | Some e => raise e
    | None =>
        let r := body EmptyString in
        log (FileWrite path (snd r)) ;;
        match fst r with
        | Normal _ => ret tt
        | Returned => return_
        | Raised e => raise e
        end
    end.

  (** [15 / num_formats if num_formats > 0 else 15] *)
Definition progress_per_format (num_formats : Z) : exn + Q :=
    if num_formats >? 0 then PyOp.truediv 15 (inject_Z num_formats) else inr 15%Q.

Section Outputs.
Variable base_path : string.
Variable per_format : Q.

    (** One [if '<ext>' in self.output_formats:] block; [st] holds
        [created_files] and [current_progress]. *)
Definition export_block (ext : string) (write : Path -> M world unit)
               (st : list string * Q) : M world (list string * Q) :=
      if requested (output_formats self) ext then
        return_if_cancelled ;;
        let path := PathOps.truediv (output_dir self) (base_path ++ "_transcript." ++ ext) in
        write path ;;
        let created_files := (fst st ++ [PathOps.str (os_sep rt) path])%list in
        let current_progress := PyNum.add (snd st) per_format in
        emit (Progress ("Created " ++ PathOps.name path) (PyNum.int current_progress)) ;;
        ret (created_files, current_progress)
      else ret st.

Definition write_txt (result : pyval) (path : Path) : M world unit :=
      with_open path (text <- lift (PyOp.getitem result "text") ;;
                      s <- lift (PyOp.text_of text) ;;
                      fwrite s).

Definition write_srt (result : pyval) (path : Path) : M world unit :=
      with_open path (_write_srt result).

Definition write_vtt (result : pyval) (path : Path) : M world unit :=
      with_open path (_write_vtt (lms_settings self) result).

Definition write_html (result : pyval) (path : Path) : M world unit :=
      content <- lift (html_content float_repr result) ;;
      with_open path (fwrite content).

Definition write_markdown (result : pyval) (path : Path) : M world unit :=
      content <- lift (md_content float_repr result) ;;
      with_open path (fwrite content).

Definition write_json (result : pyval) (path : Path) : M world unit :=
      with_open path (fwrite (Json.dumps float_repr result)).

    (** A run of blocks, each given by its extension and its writer. *)
Fixpoint export_blocks (blocks : list (string * (Path -> M world unit)))
             (st : list string * Q) : M world (list string * Q) :=
      match blocks with
      | [] => ret st
      | (ext, write) :: rest =>
          st' <- export_block ext write st ;;
          export_blocks rest st'
      end.

Definition blocks (result : pyval) : list (string * (Path -> M world unit)) :=
      [("txt", write_txt result); ("srt", write_srt result); ("vtt", write_vtt result);
       ("html", write_html result); ("md", write_markdown result);
       ("json", write_json result)].

    (** The six blocks, in the order of the source. *)
Definition write_outputs (result : pyval) : M world (list string * Q) :=
      st <- export_block "txt" (write_txt result) ([], 80%Q) ;;
      st <- export_block "srt" (write_srt result) st ;;
      st <- export_block "vtt" (write_vtt result) st ;;
      st <- export_block "html" (write_html result) st ;;
      st <- export_block "md" (write_markdown result) st ;;
      export_block "json" (write_json result) st.
End Outputs.

  (** The retry of the model load: [except urllib.error.URLError]. *)
Definition load_model_with_retry : M world unit :=
    try_except load_model (fun ssl_error =>
      if is_URLError ssl_error then
        if PyStr.contains "CERTIFICATE_VERIFY_FAILED" (exn_str ssl_error) then
          create_unverified_context ;;
          load_model
        else raise ssl_error
      else raise ssl_error).

  (** The statements of the outer [try] that follow the model load. *)
Definition transcribe_and_export : M world unit :=
    return_if_cancelled ;;
    emit (Progress "Model loaded successfully." 10) ;;
    emit (Progress "Transcribing audio... This may take several minutes." 20) ;;
    result <- transcribe ;;
    return_if_cancelled ;;
    emit (Progress "Transcription complete. Writing output files..." 80) ;;
    let base_path := PathOps.stem (file_path self) in
    let num_formats := Z.of_nat (List.length (output_formats self)) in
    per_format <- lift (progress_per_format num_formats) ;;
    st <- write_outputs base_path per_format result ;;
    c <- cancelled ;;
    if negb c then emit (Finished (fst st)) else ret tt.

  (** The body of the outer [try]. *)
Definition run_body : M world unit :=
    imports ;;
    return_if_cancelled ;;
    emit (Progress ("Loading " ++ model_name self ++ " model (first time downloads)...") 5) ;;
    load_model_with_retry ;;
    transcribe_and_export.

  (** [except FileNotFoundError as e] and [except Exception as e] *)
Definition handler (e : exn) : M world unit :=
    if is_FileNotFoundError e then
      c <- cancelled ;;
      if negb c then
        let error_msg := if PyStr.contains "ffmpeg" (PyStr.lower (exn_str e))
                         then ffmpeg_message else exn_str e in
        emit (Error error_msg)
      else ret tt
    else
      c <- cancelled ;;
      if negb c then emit (Error (exn_str e)) else ret tt.

  (** [def run(self)] *)
Definition run : M world unit := try_except run_body handler.

  (** The trace of one job started in a process whose certificate
      verification is [verified]. *)
Definition run_trace (verified : bool) : list action :=
    trace (snd (run (init_world verified))).

End Worker.

(* ================================================================== *)
(** * What a job is specified to emit and write *)
(* ================================================================== *)

Definition is_prefix {A} (l1 l2 : list A) : Prop := exists rest, l2 = (l1 ++ rest)%list.

(** No read of the cancellation flag has seen it set. *)
Definition live (t : list action) : Prop := ~ In (CancelRead true) t.

(** The model load failed on the trust chain of the server. *)
Definition certificate_failure (e : exn) : bool :=
  is_URLError e && PyStr.contains "CERTIFICATE_VERIFY_FAILED" (exn_str e).

(** A writer of one block: it fails before the file exists, or it
    leaves the file, complete or not, and nothing else. *)
Definition file_writer (write : Path -> M world unit) : Prop :=
  forall (path : Path) (w : world),
    (exists e, write path w = (Raised e, w))
    \/ (exists content o, write path w = (o, add (FileWrite path content) w)).

(** The description a failed job reports for the exception [e]. *)
Definition error_message (e : exn) : string :=
  if is_FileNotFoundError e && PyStr.contains "ffmpeg" (PyStr.lower (exn_str e))
  then ffmpeg_message else exn_str e.

Section Summary.
Variable rt : env.
Variable self : job.

  (** The requested formats in export order. *)
Definition requested_formats : list string :=
    filter (requested (output_formats self)) canonical_formats.

  (** The increment of the percentage per written format. *)
Definition per_format : Q :=
    match progress_per_format (Z.of_nat (List.length (output_formats self))) with
    | inr q => q
    | inl _ => 15%Q
    end.

  (** [current_progress] after [k] formats. *)
Definition progress_after (k : nat) : Q :=
    Nat.iter k (fun current => PyNum.add current per_format) 80%Q.

Definition created_event (k : nat) (ext : string) : event :=
    Progress ("Created " ++ PathOps.name (artifact self ext)) (PyNum.int (progress_after k)).

  (** The progress events of the formats [exts], written after [k] others. *)
Fixpoint created_from (k : nat) (exts : list string) : list event :=
    match exts with
    | [] => []
    | ext :: rest => created_event (S k) ext :: created_from (S k) rest
    end.

Definition phase_events : list event :=
    [Progress ("Loading " ++ model_name self ++ " model (first time downloads)...") 5;
     Progress "Model loaded successfully." 10;
     Progress "Transcribing audio... This may take several minutes." 20;
     Progress "Transcription complete. Writing output files..." 80].

  (** Every progress event of a job that runs to completion. *)
Definition all_progress : list event :=
    (phase_events ++ created_from 0 requested_formats)%list.

Definition artifacts : list Path := map (artifact self) requested_formats.

Definition created_files : list string := map (PathOps.str (os_sep rt)) artifacts.

  (** The value the [k]-th read of the cancellation flag returns. *)
Definition flag_at (k : nat) : bool :=
    match cancel_after rt with
    | Some n => (n <=? k)%nat
    | None => false
    end.

  (** The calls of the model provider a job makes, each with the state of
      certificate verification it runs under, for a process that starts
      with verification [verified]. *)
Definition load_plan (verified : bool) : list bool :=
    match import_error rt with
    | Some _ => []
    | None =>
        if flag_at 0 then []
        else match load_model_error rt 0 verified with
             | Some e => if certificate_failure e then [verified; false] else [verified]
             | None => [verified]
             end
    end.

  (** Certificate verification of the process after the job. *)
Definition ssl_after (verified : bool) : bool :=
    match load_plan verified with
    | [_; _] => false
    | _ => verified
    end.

  (** The shape of the trace of a job that called the model provider as
      in [loads] and left certificate verification as [ssl]: progress
      events in their fixed order, then at most one terminal event; the
      files in export order; nothing after a read of the flag that saw
      it set. *)
Definition run_shape (loads : list bool) (ssl : bool) (w : world) : Prop :=
    let t := trace w in
    exists progs term,
      events t = (progs ++ term)%list
      /\ is_prefix progs all_progress
      /\ (term = []
          \/ (exists m, term = [Error m])
          \/ (term = [Finished created_files] /\ progs = all_progress
              /\ written_paths t = artifacts))
      /\ is_prefix (written_paths t) artifacts
      /\ load_attempts t = loads
      /\ ssl_verified w = ssl
      /\ (live t \/ exists pre, t = (pre ++ [CancelRead true])%list /\ live pre /\ term = []).

Definition run_summary (verified : bool) (w : world) : Prop :=
    run_shape (load_plan verified) (ssl_after verified) w.

  (** A job under way: no terminal event yet, the flag not seen set. *)
Definition running (loads : list bool) (ssl : bool) (w : world) : Prop :=
    is_prefix (events (trace w)) all_progress
    /\ is_prefix (written_paths (trace w)) artifacts
    /\ load_attempts (trace w) = loads
    /\ ssl_verified w = ssl
    /\ live (trace w).

  (** A job before its first export block, [es] being the events emitted
      so far. *)
Definition before_exports (loads : list bool) (ssl : bool) (es : list event)
             (w : world) : Prop :=
    events (trace w) = es
    /\ written_paths (trace w) = []
    /\ load_attempts (trace w) = loads
    /\ ssl_verified w = ssl
    /\ live (trace w).

  (** The state between two export blocks, [done] being the formats
      written so far. *)
Definition phase_inv (loads : list bool) (ssl : bool) (done : list string)
             (st : list string * Q) (w : world) : Prop :=
    is_prefix done requested_formats
    /\ events (trace w) = (phase_events ++ created_from 0 done)%list
    /\ written_paths (trace w) = map (artifact self) done
    /\ load_attempts (trace w) = loads
    /\ ssl_verified w = ssl
    /\ live (trace w)
    /\ st = (map (fun ext => PathOps.str (os_sep rt) (artifact self ext)) done,
             progress_after (List.length done)).

End Summary.

(** The same request with another list of formats. *)
Definition with_formats (self : job) (formats : list string) : job :=
  mkJob (file_path self) (model_name self) formats (output_dir self) (lms_settings self).

(** ** A sample job *)
Module Sample.

Definition result : pyval :=
    PDict [("text", PStr " hello");
           ("segments",
            PList [PDict [("id", PInt 0); ("start", PFloat 0); ("end", PFloat (3 # 2));
                          ("text", PStr " hello ")]]);
           ("language", PStr "en")].

  (** A stand-in for [float.__repr__], exact on the two offsets of
      [result]. *)
Definition float_repr (q : Q) : string :=
    if Qeq_bool q 0 then "0.0" else if Qeq_bool q (3 # 2) then "1.5" else "nan".

  (** The matching stand-in for [float]. *)
Definition float_parse (s : string) : option Q :=
    if String.eqb s "0.0" then Some 0%Q
    else if String.eqb s "1.5" then Some (3 # 2) else None.

Definition certificate_error : exn :=
    Exn URLError
        "<urlopen error [SSL: CERTIFICATE_VERIFY_FAILED] certificate verify failed>".

Definition network_error : exn :=
    Exn URLError "<urlopen error [Errno 111] Connection refused>".

  (** Nothing fails and nobody cancels. *)
Definition calm_env : env :=
    mkEnv "/" None (fun _ _ => None) (inr result) (fun _ => None) None.

  (** The download fails on the trust chain while certificates are
      verified, and works once they are not. *)
Definition untrusted_env : env :=
    mkEnv "/" None (fun _ verified => if verified then Some certificate_error else None)
          (inr result) (fun _ => None) None.

  (** The download fails on the trust chain, and the retry fails too. *)
Definition unreachable_env : env :=
    mkEnv "/" None (fun n _ => match n with
                               | O => Some certificate_error
                               | _ => Some network_error
                               end)
          (inr result) (fun _ => None) None.

  (** The caller cancels while the model loads. *)
Definition cancelling_env : env :=
    mkEnv "/" None (fun _ _ => None) (inr result) (fun _ => None) (Some 1%nat).

Definition talk (formats : list string) : job :=
    mkJob (mkPath "/" ["home"; "talk.mp4"]) "medium" formats (mkPath "/" ["home"])
          [("enabled", PBool false); ("cue_settings", PStr "line:80%"); ("css", PStr "")].

End Sample.

(* ================================================================== *)
(** * The content of the files *)
(* ================================================================== *)

(** Every file written in the trace [t] satisfies [good]. *)
Definition files_satisfy (good : Path -> string -> Prop) (t : list action) : Prop :=
  forall path content, In (FileWrite path content) t -> good path content.

(** [m] keeps the invariant [Inv] of the state whatever way it ends, and
    a value it falls through with satisfies [Q]. *)
Definition keeps {A} (Inv : world -> Prop) (m : M world A) (Q : A -> Prop) : Prop :=
  forall w, Inv w -> Inv (snd (m w)) /\ forall a, fst (m w) = Normal a -> Q a.

(** A file at the place of the structured-data export holds the text of
    the inference result. *)
Definition json_file (float_repr : Q -> string) (rt : env) (self : job)
           (path : Path) (content : string) : Prop :=
  path = artifact self "json" ->
  exists result,
    transcribe_result rt = inr result /\ content = Json.dumps float_repr result.

Definition json_kept (float_repr : Q -> string) (rt : env) (self : job) (w : world) : Prop :=
  files_satisfy (json_file float_repr rt self) (trace w).

(** The fields the caption exports read from the value [v]: the
    transcript and, per segment, the two offsets and the text. *)
Definition transcript_of (v : pyval) : exn + pyval := PyOp.getitem v "text".

Definition segment_fields (seg : pyval) : list (exn + pyval) :=
  [PyOp.getitem seg "start"; PyOp.getitem seg "end"; PyOp.getitem seg "text"].

Definition segments_of (v : pyval) : exn + list (list (exn + pyval)) :=
  match PyOp.getitem v "segments" with
  | inl e => inl e
  | inr segs =>
      match PyOp.iter segs with
      | inl e => inl e
      | inr l => inr (map segment_fields l)
      end
  end.

(* ================================================================== *)
(** * Reasoning about [run] *)
(* ================================================================== *)

(** [hoare P m Q R E]: started in a state that satisfies [P], the block
    [m] falls through with a value and a state that satisfy [Q], executes
    [return] in a state that satisfies [R], or raises [e] in a state that
    satisfies [E e]. *)
Definition hoare {A} (P : world -> Prop) (m : M world A) (Q : A -> world -> Prop)
           (R : world -> Prop) (E : exn -> world -> Prop) : Prop :=
  forall w, P w ->
    match m w with
    | (Normal a, w') => Q a w'
    | (Returned, w') => R w'
    | (Raised e, w') => E e w'
    end.

(** A block of statements on an open file that contains no [return]. *)
Definition never_returns {S A} (m : M S A) : Prop :=
  forall s, fst (m s) <> Returned.

(** The statements of [run] that follow the inference call, [result]
    being its value. *)
Definition export_phase (float_repr : Q -> string) (rt : env) (self : job)
           (result : pyval) : M world unit :=
  return_if_cancelled rt ;;
  emit (Progress "Transcription complete. Writing output files..." 80) ;;
  let base_path := PathOps.stem (file_path self) in
  let num_formats := Z.of_nat (List.length (output_formats self)) in
  per_format <- lift (progress_per_format num_formats) ;;
  st <- write_outputs float_repr rt self base_path per_format result ;;
  c <- cancelled rt ;;
  if negb c then emit (Finished (fst st)) else ret tt.

(** An action of a job before its inference call: an event, a read of
    the flag, or a load of the model of the job. *)
Definition prelude_action (self : job) (a : action) : Prop :=
  match a with
  | Emit _ | CancelRead _ => True
  | LoadModel name _ => name = model_name self
  | Transcribe _ _ _ | FileWrite _ _ => False
  end.

(** An action of a job after its inference call: an event, a read of the
    flag, or the writing of a file that satisfies [good]. *)
Definition export_action (good : Path -> string -> Prop) (a : action) : Prop :=
  match a with
  | Emit _ | CancelRead _ => True
  | FileWrite path content => good path content
  | LoadModel _ _ | Transcribe _ _ _ => False
  end.

(** The writer of the block of [ext]: it raises with nothing written, or
    it writes the artifact of [ext] with a content that satisfies [good]
    (and may raise after that); it does not [return]. *)
Definition writes_good (self : job) (good : Path -> string -> Prop)
           (write : Path -> M world unit) (ext : string) : Prop :=
  forall w,
    match write (artifact self ext) w with
    | (Returned, _) => False
    | (Raised _, w') =>
        w' = w \/ exists c, w' = add (FileWrite (artifact self ext) c) w
                            /\ good (artifact self ext) c
    | (Normal _, w') =>
        exists c, w' = add (FileWrite (artifact self ext) c) w
                  /\ good (artifact self ext) c
    end.

(** The last action is a terminal event. *)
Definition ends_with_terminal (w : world) : Prop :=
  exists pre e, trace w = (pre ++ [Emit e])%list /\ is_terminal e = true.

(** The ways a job can go: it stops before the inference call, on a read
    of the flag that sees it set or on an exception (of an import or of
    the model load); or it calls inference after a model load, and the
    call raises or is followed by the export phase.  [out] is the outcome
    of [run]. *)
Definition job_cases (float_repr : Q -> string) (rt : env) (self : job)
           (out : outcome unit * world) : Prop :=
  (exists w0,
      Forall (prelude_action self) (trace w0)
      /\ ((flag_at rt (flag_reads w0) = true /\ out = (Returned, note_read true w0))
          \/ exists e, out = handler rt e w0))
  \/ (exists w0,
         Forall (prelude_action self) (trace w0)
         /\ (exists v, In (LoadModel (model_name self) v) (trace w0))
         /\ let w1 := add (Transcribe (file_path self) "en" "transcribe") w0 in
            match transcribe_result rt with
            | inl e => out = handler rt e w1
            | inr result =>
                out = try_except (export_phase float_repr rt self result) (handler rt) w1
            end).

(** What the file of the format [ext] holds after a complete export of a
    result with transcript [text] and segments [segs], the styling
    settings being the texts [css] and [cue]. *)
Definition holds_export (float_repr : Q -> string) (lms : dict) (result : pyval)
           (text : string) (segs : list segment) (css cue : string)
           (ext content : string) : Prop :=
  (ext = "txt" -> content = text)
  /\ (ext = "srt" -> content = srt_text segs)
  /\ (ext = "vtt" ->
      content = "WEBVTT" ++ nl
                ++ style_section (styling_enabled lms) (PyStr.strip css) ++ nl
                ++ vtt_cues (cue_suffix (styling_enabled lms) (PyStr.strip cue)) segs)
  /\ (ext = "html" -> html_content float_repr result = inr content)
  /\ (ext = "md" -> md_content float_repr result = inr content)
  /\ (ext = "json" -> content = Json.dumps float_repr result).

(** ** Sample failures *)
Module Failing.

Definition no_ffmpeg : exn :=
    Exn FileNotFoundError "[WinError 2] The system cannot find the file specified: 'FFmpeg'".

  (** The inference call does not find the decoder. *)
Definition no_ffmpeg_env : env :=
    mkEnv "/" None (fun _ _ => None) (inl no_ffmpeg) (fun _ => None) None.

Definition denied : exn := Exn OSError "[Errno 13] Permission denied".

  (** The file of the numbered captions cannot be opened. *)
Definition read_only_env : env :=
    mkEnv "/" None (fun _ _ => None) (inr Sample.result)
          (fun path => if String.eqb (PathOps.name path) "talk_transcript.srt"
                       then Some denied else None)
          None.

End Failing.

(* ================================================================== *)
(** * The main window: [VoxtextWindow] *)
(* ================================================================== *)

(** [TranscriptionWorker.__init__]; [lms_settings] is [None] or a dict,
    stored as [lms_settings or {}].  The job holds the source file as the
    path [run] makes of it. *)
Definition worker_init (file_path : Path) (model_name : string)
           (output_formats : list string) (output_dir : Path)
           (lms_settings : option dict) : job :=
  mkJob file_path model_name output_formats output_dir
        (match lms_settings with
         | Some d => if PyVal.truthy (PDict d) then d else []
         | None => []
         end).

(** [p.parent]: the path without its last component; a path that has
    none is its own parent. *)
Definition path_parent (p : Path) : Path := mkPath (anchor p) (removelast (tail p)).

(** [self.vtt_presets] *)
Definition vtt_presets : list (string * dict) :=
  [("Custom", [("cue_settings", PStr ""); ("css", PStr "")]);
   ("LMS Standard",
    [("cue_settings", PStr "line:80%");
     ("css", PStr ("::cue {" ++ nl
                   ++ "  background-color: rgb(0, 0, 0, 60%);" ++ nl
                   ++ "  line-height: 1.5em;" ++ nl
                   ++ "}"))]);
   ("Lower Third",
    [("cue_settings", PStr "line:90% align:start");
     ("css", PStr ("::cue {" ++ nl
                   ++ "  background-color: rgba(0, 0, 0, 0.8);" ++ nl
                   ++ "  color: #ffffff;" ++ nl
                   ++ "  font-size: 1.1em;" ++ nl
                   ++ "}"))]);
   ("High Contrast",
    [("cue_settings", PStr "line:85%");
     ("css", PStr ("::cue {" ++ nl
                   ++ "  background-color: #000000;" ++ nl
                   ++ "  color: #ffff00;" ++ nl
                   ++ "  font-weight: bold;" ++ nl
                   ++ "}"))])].

Module Window.

Inductive box_kind : Type := BoxWarning | BoxInformation | BoxCritical.

  (** The calls the window makes on its widgets, on the worker thread
      and on its timer, in the order in which it makes them. *)
Inductive ui_call : Type :=
  | SetStatus (text : string)
  | SetProgressValue (value : Z)
  | SetProgressLabel (text : string)
  | SetElapsed (text : string)
  | SetFileLabel (text : string)
  | SetFileLabelStyle (style : string)
  | SetTranscribeEnabled (enabled : bool)
  | SetClearText (text : string)
  | SetClearStyle (style : string)
  | SetCueSettings (text : string)
  | SetCssText (text : string)
  | MessageBox (kind : box_kind) (title text : string)
  | WorkerStart (self : job)
  | WorkerCancel
  | WorkerQuit
  | WorkerWait
  | StartTimer (interval : Z)
  | KillTimer (id : Z).

  (** What a handler reads from outside while it runs: the module flag
      [WHISPER_AVAILABLE], [time.time()] (numbered by read), whether the
      thread of [self.worker] is running, the state of the check boxes
      and of the radio buttons, the styling fields, the id [startTimer]
      returns, and [Path(text)] with the separator of the platform. *)
Record desk : Type := mkDesk {
    whisper_available : bool;
    clock : nat -> Q;
    worker_running : bool;
    format_checked : string -> bool;
    checked_model : option string;
    lms_enabled : bool;
    cue_text : string;
    css_plain_text : string;
    new_timer : Z;
    to_path : string -> Path;
    path_sep : string
  }.

  (** The attributes of the window that its handlers assign, and the
      calls made so far. *)
Record window : Type := mkWindow {
    selected_file : option string;
    worker : option job;
    start_time : option Q;
    timer_id : option Z;
    calls : list ui_call
  }.

Definition call (c : ui_call) : M window unit :=
    modify (fun w => mkWindow (selected_file w) (worker w) (start_time w) (timer_id w)
                              (calls w ++ [c])).

Definition set_selected_file (f : option string) : M window unit :=
    modify (fun w => mkWindow f (worker w) (start_time w) (timer_id w) (calls w)).

Definition set_worker (j : option job) : M window unit :=
    modify (fun w => mkWindow (selected_file w) j (start_time w) (timer_id w) (calls w)).

Definition set_start_time (t : option Q) : M window unit :=
    modify (fun w => mkWindow (selected_file w) (worker w) t (timer_id w) (calls w)).

Definition set_timer_id (i : option Z) : M window unit :=
    modify (fun w => mkWindow (selected_file w) (worker w) (start_time w) i (calls w)).

  (** The keys of [self.format_checks], in the order [init_ui] inserts
      them. *)
Definition format_keys : list string := ["txt"; "srt"; "vtt"; "html"; "md"; "json"].

  (** The style sheets of the second button. *)
Definition cancel_style : string :=
    nl
    ++ "            QPushButton {" ++ nl
    ++ "                background-color: #e74c3c;" ++ nl
    ++ "                color: white;" ++ nl
    ++ "                padding: 10px 20px;" ++ nl
    ++ "                border: none;" ++ nl
    ++ "                border-radius: 4px;" ++ nl
    ++ "            }" ++ nl
    ++ "            QPushButton:hover {" ++ nl
    ++ "                background-color: #c0392b;" ++ nl
    ++ "            }" ++ nl
    ++ "        ".

Definition clear_style : string :=
    nl
    ++ "            QPushButton {" ++ nl
    ++ "                background-color: #95a5a6;" ++ nl
    ++ "                color: white;" ++ nl
    ++ "                padding: 10px 20px;" ++ nl
    ++ "                border: none;" ++ nl
    ++ "                border-radius: 4px;" ++ nl
    ++ "            }" ++ nl
    ++ "            QPushButton:hover {" ++ nl
    ++ "                background-color: #7f8c8d;" ++ nl
    ++ "            }" ++ nl
    ++ "        ".

  (** The truth value of [self.selected_file] and of [self.start_time]. *)
Definition file_given (f : option string) : bool :=
    match f with
    | Some s => negb (String.eqb s "")
    | None => false
    end.

Definition time_given (t : option Q) : bool :=
    match t with
    | Some q => negb (Qeq_bool q 0)
    | None => false
    end.

  (** [self.worker and self.worker.isRunning() and self.start_time] *)
Definition job_under_way (d : desk) (w : window) : bool :=
    match worker w with
    | Some _ => worker_running d && time_given (start_time w)
    | None => false
    end.

  (** [self.worker and self.worker.isRunning()] *)
Definition job_running (d : desk) (w : window) : bool :=
    match worker w with
    | Some _ => worker_running d
    | None => false
    end.

  (** [f"{label}: {minutes}m {seconds}s"] for the whole seconds between
      [since] and [now]. *)
Definition duration_text (label : string) (now since : Q) : string :=
    let elapsed := PyNum.int (PyNum.sub now since) in
    let minutes := elapsed / 60 in
    let seconds := elapsed mod 60 in
    label ++ PyStr.str_int minutes ++ "m " ++ PyStr.str_int seconds ++ "s".

  (** [def get_lms_settings(self)] *)
Definition get_lms_settings (d : desk) : dict :=
    [("enabled", PBool (lms_enabled d));
     ("cue_settings", PStr (cue_text d));
     ("css", PStr (css_plain_text d))].

  (** [def apply_vtt_preset(self, preset_name)] *)
Definition apply_vtt_preset (preset_name : string) : M window unit :=
    match PyVal.lookup preset_name (map (fun p => (fst p, PDict (snd p))) vtt_presets) with
    | Some preset =>
        cue <- lift (PyOp.getitem preset "cue_settings") ;;
        cue_s <- lift (PyOp.text_of cue) ;;
        call (SetCueSettings cue_s) ;;
        css <- lift (PyOp.getitem preset "css") ;;
        css_s <- lift (PyOp.text_of css) ;;
        call (SetCssText css_s)
    | None => ret tt
    end.

  (** [def update_elapsed_time(self)], [now] being what [time.time()]
      returns. *)
Definition update_elapsed_time (d : desk) (now : Q) : M window unit :=
    w <- gets (fun w => w) ;;
    if job_under_way d w then
      match start_time w with
      | Some since =>
          call (SetElapsed (duration_text "Elapsed: " now since)) ;;
          call (StartTimer 1000) ;;
          set_timer_id (Some (new_timer d))
      | None => ret tt
      end
    else ret tt.

  (** [def timerEvent(self, event)] *)
Definition timerEvent (d : desk) : M window unit :=
    w <- gets (fun w => w) ;;
    if job_under_way d w then
      match start_time w with
      | Some since => call (SetElapsed (duration_text "Elapsed: " (clock d 0) since))
      | None => ret tt
      end
    else
      match timer_id w with
      | Some id =>
          if negb (id =? 0) then call (KillTimer id) ;; set_timer_id None else ret tt
      | None => ret tt
      end.

  (** [def reset_buttons(self)] *)
Definition reset_buttons : M window unit :=
    call (SetTranscribeEnabled true) ;;
    call (SetClearText "Clear") ;;
    call (SetClearStyle clear_style).

  (** [def start_transcription(self)] *)
Definition start_transcription (d : desk) : M window unit :=
    file <- gets selected_file ;;
    match file with
    | Some f =>
        if negb (file_given file) then
          call (MessageBox BoxWarning "No File"
                           "Please select an audio or video file first.") ;;
          return_
        else if negb (whisper_available d) then
          call (MessageBox BoxWarning "Whisper Not Installed"
                           "Please install Whisper first.") ;;
          return_
        else
          let output_formats := filter (format_checked d) format_keys in
          match output_formats with
          | [] =>
              call (MessageBox BoxWarning "No Format"
                               "Please select at least one output format.") ;;
              return_
          | _ =>
              let model_name := match checked_model d with
                                | Some name => name
                                | None => "medium"
                                end in
              let output_dir := path_parent (to_path d f) in
              let lms_settings := get_lms_settings d in
              call (SetTranscribeEnabled false) ;;
              call (SetClearText "Cancel") ;;
              call (SetClearStyle cancel_style) ;;
              call (SetProgressValue 0) ;;
              call (SetProgressLabel "0%") ;;
              set_start_time (Some (clock d 0)) ;;
              update_elapsed_time d (clock d 1) ;;
              let job := worker_init (to_path d f) model_name output_formats output_dir
                                     (Some lms_settings) in
              set_worker (Some job) ;;
              call (WorkerStart job)
          end
    | None =>
        call (MessageBox BoxWarning "No File"
                         "Please select an audio or video file first.") ;;
        return_
    end.

  (** [def on_progress(self, message, percentage)] *)
Definition on_progress (message : string) (percentage : Z) : M window unit :=
    call (SetStatus message) ;;
    call (SetProgressValue percentage) ;;
    call (SetProgressLabel (PyStr.str_int percentage ++ "%")).

  (** The text of the dialog of [on_finished], [f] being
      [self.selected_file]. *)
Definition success_text (d : desk) (bullet : string) (created_files : list string)
             (f : string) : string :=
    "Transcription complete!" ++ nl ++ nl
    ++ "Created files:" ++ nl
    ++ join nl (map (fun x => bullet ++ " " ++ PathOps.name (to_path d x)) created_files)
    ++ nl ++ nl
    ++ "Saved to:" ++ nl
    ++ PathOps.str (path_sep d) (path_parent (to_path d f)).

  (** [def on_finished(self, created_files)]; [bullet] is the character
      U+2022, which lies outside the code points of [string]. *)
Definition on_finished (d : desk) (bullet : string) (created_files : list string)
    : M window unit :=
    call (SetProgressValue 100) ;;
    call (SetProgressLabel "100%") ;;
    call (SetStatus "Transcription complete!") ;;
    reset_buttons ;;
    since <- gets start_time ;;
    (if time_given since then
       match since with
       | Some t => call (SetElapsed (duration_text "Completed in " (clock d 0) t))
       | None => ret tt
       end
     else ret tt) ;;
    file <- gets selected_file ;;
    match file with
    | Some f =>
        call (MessageBox BoxInformation "Success!" (success_text d bullet created_files f))
    | None => raise (Exn TypeError "")
    end.

  (** [def on_error(self, error_msg)] *)
Definition on_error (error_msg : string) : M window unit :=
    call (SetProgressValue 0) ;;
    call (SetProgressLabel "0%") ;;
    call (SetStatus "Error occurred. Please try again.") ;;
    call (SetElapsed "") ;;
    reset_buttons ;;
    call (MessageBox BoxCritical "Transcription Error"
            ("Transcription failed:" ++ nl ++ nl ++ error_msg ++ nl ++ nl
             ++ "Please check the file and try again.")).

  (** [def clear_or_cancel(self)] *)
Definition clear_or_cancel (d : desk) : M window unit :=
    w <- gets (fun w => w) ;;
    if job_running d w then
      call WorkerCancel ;;
      call WorkerQuit ;;
      call WorkerWait ;;
      call (SetStatus "Transcription cancelled") ;;
      call (SetProgressValue 0) ;;
      call (SetProgressLabel "0%") ;;
      call (SetElapsed "") ;;
      reset_buttons
    else
      set_selected_file None ;;
      call (SetFileLabel "No file selected") ;;
      call (SetFileLabelStyle "color: #666666;") ;;
      call (SetStatus "Ready to transcribe") ;;
      call (SetProgressValue 0) ;;
      call (SetProgressLabel "0%") ;;
      call (SetElapsed "").

  (** [def update_file_display(self, filepath)]; [basename] is
      [os.path.basename]. *)
Definition update_file_display (basename : string -> string) (filepath : string)
    : M window unit :=
    call (SetFileLabel (basename filepath)) ;;
    call (SetFileLabelStyle "color: #333333;").

  (** [def dropEvent(self, event)]; [urls] holds the local file of each
      URL of the event, [is_file] is [os.path.isfile]. *)
Definition dropEvent (basename : string -> string) (is_file : string -> bool)
             (urls : list string) : M window unit :=
    match urls with
    | file_path :: _ =>
        if is_file file_path then
          set_selected_file (Some file_path) ;;
          update_file_display basename file_path ;;
          call (SetStatus "File loaded. Ready to transcribe.")
        else ret tt
    | [] => ret tt
    end.

  (** [def browse_file(self)]; [chosen] is the name the file dialog
      returns, empty when it is dismissed. *)
Definition browse_file (d : desk) (basename : string -> string) (chosen : string)
    : M window unit :=
    w <- gets (fun w => w) ;;
    if job_running d w then return_
    else if negb (String.eqb chosen "") then
      set_selected_file (Some chosen) ;;
      update_file_display basename chosen ;;
      call (SetStatus "File loaded. Ready to transcribe.")
    else ret tt.

  (** The slots [start_transcription] connects to the three signals of
      the worker. *)
Definition slot (d : desk) (bullet : string) (e : event) : M window unit :=
    match e with
    | Progress message percentage => on_progress message percentage
    | Finished created_files => on_finished d bullet created_files
    | Error error_msg => on_error error_msg
    end.

  (** The slots run for the events [es], in the order of emission; [d k]
      is what the (k+1)-th slot reads from outside. *)
Fixpoint deliver (d : nat -> desk) (bullet : string) (k : nat) (es : list event)
    : M window unit :=
    match es with
    | [] => ret tt
    | e :: rest => slot (d k) bullet e ;; deliver d bullet (S k) rest
    end.

  (** What the last calls left on the two buttons. *)
Definition transcribe_enabled (cs : list ui_call) : option bool :=
    fold_left (fun acc c => match c with SetTranscribeEnabled b => Some b | _ => acc end)
              cs None.

Definition clear_text (cs : list ui_call) : option string :=
    fold_left (fun acc c => match c with SetClearText t => Some t | _ => acc end) cs None.

Definition on_buttons (c : ui_call) : bool :=
    match c with SetTranscribeEnabled _ | SetClearText _ => true | _ => false end.

Definition is_timer_call (c : ui_call) : bool :=
    match c with StartTimer _ | KillTimer _ | SetElapsed _ => true | _ => false end.

  (** ** Sample states of the window *)

  (** A desk with the text box checked and the preset [High Contrast]
      in the styling fields. *)
Definition sample_desk (running : bool) : desk :=
    mkDesk true (fun _ => 1700000000%Q) running
           (fun ext => String.eqb ext "txt")
           None true "line:85%"
           ("::cue {" ++ nl ++ "  background-color: #000000;" ++ nl
            ++ "  color: #ffff00;" ++ nl ++ "  font-weight: bold;" ++ nl ++ "}")
           7 (fun _ => mkPath "/" ["home"; "talk.mp4"]) "/".

Definition sample_window : window :=
    mkWindow (Some "/home/talk.mp4") None None None [].

End Window.

(* ================================================================== *)
(** * Facts about the built-ins *)
(* ================================================================== *)

Section QfloorFacts.
Local Open Scope Q_scope.

Lemma Qfloor_unique (x : Q) (z : Z) :
    inject_Z z <= x -> x < inject_Z (z + 1) -> Qfloor x = z.
  Proof.
    intros Hlo Hhi.
    pose proof (Qfloor_le x) as Fl.
    pose proof (Qlt_floor x) as Fh.
    assert (z < Qfloor x + 1)%Z by (rewrite Zlt_Qlt; eapply Qle_lt_trans; eauto).
    assert (Qfloor x < z + 1)%Z by (rewrite Zlt_Qlt; eapply Qle_lt_trans; eauto).
    lia.
  Qed.

Lemma Qfloor_sub_Z (x : Q) (z : Z) : Qfloor (x - inject_Z z) = (Qfloor x - z)%Z.
  Proof.
    pose proof (Qfloor_le x) as Fl.
    pose proof (Qlt_floor x) as Fh.
    apply Qfloor_unique.
    - unfold Z.sub. rewrite inject_Z_plus, inject_Z_opp. lra.
    - replace (Qfloor x - z + 1)%Z with ((Qfloor x + 1) + - z)%Z by lia.
      rewrite inject_Z_plus, inject_Z_opp. lra.
  Qed.

Lemma Qfloor_div_pos (x : Q) (k : Z) :
    (0 < k)%Z -> Qfloor (x / inject_Z k) = (Qfloor x / k)%Z.
  Proof.
    intros Hk.
    pose proof (Qfloor_le x) as Fl.
    pose proof (Qlt_floor x) as Fh.
    assert (Hk' : 0 < inject_Z k) by (rewrite (Zlt_Qlt 0 k) in Hk; exact Hk).
    pose proof (Z.mul_div_le (Qfloor x) k Hk) as Dl.
    pose proof (Z.mul_succ_div_gt (Qfloor x) k Hk) as Dh.
    apply Qfloor_unique.
    - apply Qle_shift_div_l; [exact Hk'|].
      eapply Qle_trans; [|exact Fl].
      rewrite <- inject_Z_mult, <- Zle_Qle. lia.
    - apply Qlt_shift_div_r; [exact Hk'|].
      eapply Qlt_le_trans; [exact Fh|].
      rewrite <- inject_Z_mult, <- Zle_Qle. lia.
  Qed.

Lemma int_inject_Z (z : Z) : PyNum.int (inject_Z z) = z.
  Proof.
    unfold PyNum.int. destruct (Qle_bool 0 (inject_Z z)).
    - apply Qfloor_Z.
    - apply Qceiling_Z.
  Qed.

Lemma int_nonneg (x : Q) : 0 <= x -> PyNum.int x = Qfloor x.
  Proof.
    intros Hx. unfold PyNum.int.
    apply Qle_bool_iff in Hx. now rewrite Hx.
  Qed.

End QfloorFacts.

(* ================================================================== *)
(** * Facts about binary64 rounding *)
(* ================================================================== *)

(** Powers of two are atoms for the arithmetic procedures. *)
Ltac hide_powers :=
  repeat match goal with
         | |- context [Qpower 2 ?e] =>
             let p := fresh "p" in set (p := Qpower 2 e) in *; clearbody p
         | H : context [Qpower 2 ?e] |- _ =>
             let p := fresh "p" in set (p := Qpower 2 e) in *; clearbody p
         end.

Section PowersOfTwo.
Local Open Scope Q_scope.

Lemma two_nonzero : ~ 2 == 0.
  Proof. intros H. discriminate H. Qed.

Lemma pow2_pos (e : Z) : 0 < 2 ^ e.
  Proof. apply Qpower_0_lt. reflexivity. Qed.

Lemma pow2_nonzero (e : Z) : ~ 2 ^ e == 0.
  Proof. pose proof (pow2_pos e). lra. Qed.

Lemma pow2_plus (a b : Z) : 2 ^ (a + b) == 2 ^ a * 2 ^ b.
  Proof. apply Qpower_plus, two_nonzero. Qed.

Lemma pow2_minus (a b : Z) : 2 ^ (a - b) == 2 ^ a / 2 ^ b.
  Proof. apply Qpower_minus, two_nonzero. Qed.

Lemma pow2_succ (a : Z) : 2 ^ (a + 1) == 2 * 2 ^ a.
  Proof. rewrite pow2_plus. change (2 ^ 1) with 2. ring. Qed.

Lemma pow2_pred (a : Z) : 2 ^ (a - 1) == 2 ^ a / 2.
  Proof. rewrite pow2_minus. reflexivity. Qed.

Lemma pow2_le (a b : Z) : (a <= b)%Z -> 2 ^ a <= 2 ^ b.
  Proof. intros H. apply Qpower_le_compat_l; [exact H | discriminate]. Qed.

Lemma pow2_lt (a b : Z) : (a < b)%Z -> 2 ^ a < 2 ^ b.
  Proof. intros H. apply Qpower_lt_compat_l; [exact H | reflexivity]. Qed.

Lemma pow2_lt_inv (a b : Z) : 2 ^ a < 2 ^ b -> (a < b)%Z.
  Proof. intros H. apply (Qpower_lt_compat_l_inv 2); [exact H | reflexivity]. Qed.

Lemma pow2_Z (n : Z) : (0 <= n)%Z -> inject_Z (2 ^ n) == 2 ^ n.
  Proof. intros H. apply (Zpower_Qpower 2 n H). Qed.

  (** A power of two with an exponent that is not negative, scaled down
      by one with a smaller exponent, is an integer. *)
Lemma pow2_ratio (a b : Z) : (b <= a)%Z -> 2 ^ a / 2 ^ b == inject_Z (2 ^ (a - b)).
  Proof.
    intros H. rewrite pow2_Z by lia. now rewrite pow2_minus.
  Qed.

End PowersOfTwo.

Section Magnitude.
Local Open Scope Q_scope.
Import PyNum.

Lemma Qabs_num_den (n : Z) (d : positive) :
    Qabs (n # d) * inject_Z (Zpos d) == inject_Z (Z.abs n).
  Proof.
    unfold Qabs, Qeq, Qmult, inject_Z. cbn [Qnum Qden]. 
    rewrite Pos.mul_1_r. ring.
  Qed.

Lemma mag_spec (q : Q) : ~ q == 0 -> 2 ^ mag q <= Qabs q /\ Qabs q < 2 ^ (mag q + 1).
  Proof.
    intros Hq. destruct q as [n d].
    assert (Hn : (0 < Z.abs n)%Z).
    { destruct (Z.eq_dec n 0) as [->|]; [exfalso; apply Hq; reflexivity | lia]. }
    unfold mag. cbn [Qnum Qden].
    set (a := Z.log2 (Z.abs n)). set (b := Z.log2 (Zpos d)).
    pose proof (Z.log2_nonneg (Z.abs n)) as Ha0. fold a in Ha0.
    pose proof (Z.log2_nonneg (Zpos d)) as Hb0. fold b in Hb0.
    destruct (Z.log2_spec _ Hn) as [Ha1 Ha2]. fold a in Ha1, Ha2.
    destruct (Z.log2_spec (Zpos d) ltac:(lia)) as [Hb1 Hb2]. fold b in Hb1, Hb2.
    rewrite Zle_Qle, pow2_Z in Ha1, Hb1 by lia.
    rewrite Zlt_Qlt, pow2_Z in Ha2, Hb2 by lia.
    replace (Z.succ a) with (a + 1)%Z in Ha2 by lia.
    replace (Z.succ b) with (b + 1)%Z in Hb2 by lia.
    rewrite pow2_succ in Ha2, Hb2.
    pose proof (Qabs_num_den n d) as E.
    pose proof (Qabs_nonneg (n # d)) as Habs.
    pose proof (pow2_pos a) as Pa. pose proof (pow2_pos b) as Pb.
    set (x := Qabs (n # d)) in *.
    set (N := inject_Z (Z.abs n)) in *. set (D := inject_Z (Zpos d)) in *.
    assert (Hlo : 2 ^ (a - b - 1) <= x).
    { rewrite pow2_pred, pow2_minus.
      apply Qle_shift_div_r; [reflexivity|]. apply Qle_shift_div_r; [exact Pb|]. nra. }
    assert (Hhi : x < 2 ^ (a - b + 1)).
    { rewrite pow2_succ, pow2_minus.
      setoid_replace (2 * (2 ^ a / 2 ^ b)) with ((2 * 2 ^ a) / 2 ^ b)
        by (field; apply pow2_nonzero).
      apply Qlt_shift_div_l; [exact Pb|]. nra. }
    destruct (Qle_bool (2 ^ (a - b)) x) eqn:C.
    - apply Qle_bool_iff in C. split; [exact C | exact Hhi].
    - split; [exact Hlo|].
      replace (a - b - 1 + 1)%Z with (a - b)%Z by lia.
      apply Qnot_le_lt. intros H. apply Qle_bool_iff in H. congruence.
  Qed.

Lemma mag_unique (q : Q) (e : Z) :
    2 ^ e <= Qabs q -> Qabs q < 2 ^ (e + 1) -> mag q = e.
  Proof.
    intros Hlo Hhi.
    assert (Hq : ~ q == 0).
    { intros E. rewrite E in Hlo. pose proof (pow2_pos e). change (Qabs 0) with 0 in Hlo. lra. }
    destruct (mag_spec q Hq) as [Mlo Mhi].
    assert (mag q < e + 1)%Z by (apply pow2_lt_inv; lra).
    assert (e < mag q + 1)%Z by (apply pow2_lt_inv; lra).
    lia.
  Qed.

Lemma mag_comp (p q : Q) : ~ p == 0 -> p == q -> mag p = mag q.
  Proof.
    intros Hp E. destruct (mag_spec p Hp) as [Mlo Mhi].
    symmetry. apply mag_unique; rewrite <- E; assumption.
  Qed.

Lemma mag_le (p q : Q) : ~ p == 0 -> Qabs p <= Qabs q -> (mag p <= mag q)%Z.
  Proof.
    intros Hp Hpq.
    assert (Hq : ~ q == 0).
    { intros E. rewrite E in Hpq. change (Qabs 0) with 0 in Hpq.
      pose proof (Qabs_nonneg p). apply Hp.
      destruct (Qabs_Qle_condition p 0) as [F _]. specialize (F Hpq). lra. }
    destruct (mag_spec p Hp) as [Plo Phi]. destruct (mag_spec q Hq) as [Qlo Qhi].
    assert (mag p < mag q + 1)%Z by (apply pow2_lt_inv; lra). lia.
  Qed.

Lemma ulp_exp_comp (p q : Q) : ~ p == 0 -> p == q -> ulp_exp p = ulp_exp q.
  Proof. intros Hp E. unfold ulp_exp. now rewrite (mag_comp p q Hp E). Qed.

End Magnitude.

Section NearestEven.
Local Open Scope Q_scope.
Import PyNum.

Lemma nearest_even_comp (p q : Q) : p == q -> nearest_even p = nearest_even q.
  Proof.
    intros E. unfold nearest_even.
    rewrite (Qfloor_comp p q E).
    assert (C : Qcompare (p - inject_Z (Qfloor q)) (1 # 2)
                = Qcompare (q - inject_Z (Qfloor q)) (1 # 2)) by now rewrite E.
    now rewrite C.
  Qed.

Lemma nearest_even_cases (r : Q) :
    nearest_even r = Qfloor r \/ nearest_even r = (Qfloor r + 1)%Z.
  Proof.
    unfold nearest_even.
    destruct (Qcompare (r - inject_Z (Qfloor r)) (1 # 2)); [destruct (Z.even (Qfloor r))| |]; auto.
  Qed.

Lemma nearest_even_bounds (r : Q) :
    inject_Z (nearest_even r) - (1 # 2) <= r /\ r <= inject_Z (nearest_even r) + (1 # 2).
  Proof.
    pose proof (Qfloor_le r) as Fl. pose proof (Qlt_floor r) as Fh.
    rewrite inject_Z_plus in Fh. change (inject_Z 1) with 1 in Fh.
    unfold nearest_even.
    destruct (Qcompare_spec (r - inject_Z (Qfloor r)) (1 # 2)) as [C|C|C].
    - destruct (Z.even (Qfloor r)); rewrite ?inject_Z_plus; change (inject_Z 1) with 1; lra.
    - lra.
    - rewrite inject_Z_plus. change (inject_Z 1) with 1. lra.
  Qed.

Lemma nearest_even_Z (z : Z) : nearest_even (inject_Z z) = z.
  Proof.
    unfold nearest_even. rewrite Qfloor_Z.
    replace (Qcompare (inject_Z z - inject_Z z) (1 # 2)) with Lt; [reflexivity|].
    symmetry. apply Qlt_alt.
    setoid_replace (inject_Z z - inject_Z z) with 0 by ring. reflexivity.
  Qed.

Lemma nearest_even_le (p q : Q) : p <= q -> (nearest_even p <= nearest_even q)%Z.
  Proof.
    intros Hpq.
    pose proof (Qfloor_resp_le p q Hpq) as Hf.
    destruct (Z.eq_dec (Qfloor p) (Qfloor q)) as [E|N].
    - unfold nearest_even. rewrite E.
      destruct (Qcompare_spec (p - inject_Z (Qfloor q)) (1 # 2)) as [Cp|Cp|Cp];
        destruct (Qcompare_spec (q - inject_Z (Qfloor q)) (1 # 2)) as [Cq|Cq|Cq];
        try (exfalso; lra); destruct (Z.even (Qfloor q)); lia.
    - destruct (nearest_even_cases p) as [-> | ->]; destruct (nearest_even_cases q) as [-> | ->]; lia.
  Qed.

Lemma nearest_even_lower (z : Z) (r : Q) : inject_Z z <= r -> (z <= nearest_even r)%Z.
  Proof. intros H. rewrite <- (nearest_even_Z z). now apply nearest_even_le. Qed.

Lemma nearest_even_upper (z : Z) (r : Q) : r <= inject_Z z -> (nearest_even r <= z)%Z.
  Proof. intros H. rewrite <- (nearest_even_Z z). now apply nearest_even_le. Qed.

End NearestEven.

Section Rounding.
Local Open Scope Q_scope.
Import PyNum.

Lemma round_zero (q : Q) : q == 0 -> to_binary64 q == 0.
  Proof.
    intros E. unfold to_binary64. apply Qeq_bool_iff in E. rewrite E. reflexivity.
  Qed.

Lemma round_unfold (q : Q) :
    ~ q == 0 -> to_binary64 q = inject_Z (nearest_even (q / 2 ^ ulp_exp q)) * 2 ^ ulp_exp q.
  Proof.
    intros N. unfold to_binary64.
    destruct (Qeq_bool q 0) eqn:E; [apply Qeq_bool_iff in E; contradiction | reflexivity].
  Qed.

Lemma round_comp (p q : Q) : p == q -> to_binary64 p == to_binary64 q.
  Proof.
    intros E. destruct (Qeq_dec p 0) as [Z0|N].
    - rewrite (round_zero p Z0), (round_zero q); [reflexivity | now rewrite <- E].
    - assert (N' : ~ q == 0) by now rewrite <- E.
      rewrite (round_unfold p N), (round_unfold q N').
      rewrite (ulp_exp_comp p q N E).
      rewrite (nearest_even_comp (p / 2 ^ ulp_exp q) (q / 2 ^ ulp_exp q)); [reflexivity|].
      now rewrite E.
  Qed.

#[global] Instance round_proper : Proper (Qeq ==> Qeq) to_binary64.
  Proof. intros p q E. now apply round_comp. Qed.

Lemma round_nonneg (q : Q) : 0 <= q -> 0 <= to_binary64 q.
  Proof.
    intros Hq. destruct (Qeq_dec q 0) as [Z0|N].
    - rewrite (round_zero q Z0). lra.
    - rewrite (round_unfold q N).
      pose proof (pow2_pos (ulp_exp q)) as P.
      apply Qmult_le_0_compat; [|lra].
      change 0 with (inject_Z 0). rewrite <- Zle_Qle.
      apply nearest_even_lower. change (inject_Z 0) with 0.
      apply Qle_shift_div_l; [exact P | lra].
  Qed.

  (** A multiple of a power of two not below the unit in the last
      place is a fixed point. *)
Lemma round_fixed (q : Q) (n e : Z) :
    q == inject_Z n * 2 ^ e -> (ulp_exp q <= e)%Z -> to_binary64 q == q.
  Proof.
    intros E He. destruct (Qeq_dec q 0) as [Z0|N].
    - rewrite (round_zero q Z0). now symmetry.
    - rewrite (round_unfold q N).
      set (u := ulp_exp q) in *.
      assert (S : q / 2 ^ u == inject_Z (n * 2 ^ (e - u))).
      { rewrite E, inject_Z_mult, <- pow2_ratio by lia.
        field. apply pow2_nonzero. }
      rewrite (nearest_even_comp _ _ S), nearest_even_Z, <- S.
      field. apply pow2_nonzero.
  Qed.

Lemma Qabs_inject_Z (z : Z) : Qabs (inject_Z z) == inject_Z (Z.abs z).
  Proof. reflexivity. Qed.

  (** Integers below [2 ^ 53] in magnitude are binary64 numbers. *)
Lemma round_Z (z : Z) : (Z.abs z < 2 ^ 53)%Z -> to_binary64 (inject_Z z) == inject_Z z.
  Proof.
    intros Hz. destruct (Z.eq_dec z 0) as [->|N0]; [reflexivity|].
    apply (round_fixed _ z 0); [change (2 ^ 0) with 1; ring|].
    assert (N : ~ inject_Z z == 0).
    { intros E. apply N0. apply (inject_Z_injective z 0). exact E. }
    destruct (mag_spec _ N) as [Mlo _].
    rewrite Qabs_inject_Z in Mlo.
    assert (2 ^ mag (inject_Z z) < 2 ^ 53).
    { eapply Qle_lt_trans; [exact Mlo|].
      rewrite <- (pow2_Z 53) by lia. now rewrite <- Zlt_Qlt. }
    apply pow2_lt_inv in H. unfold ulp_exp. lia.
  Qed.

Lemma round_scaled_lower (q : Q) (n : Z) :
    ~ q == 0 -> inject_Z n * 2 ^ ulp_exp q <= q -> inject_Z n * 2 ^ ulp_exp q <= to_binary64 q.
  Proof.
    intros N H. rewrite (round_unfold q N).
    pose proof (pow2_pos (ulp_exp q)) as P.
    apply Qmult_le_compat_r; [|lra].
    rewrite <- Zle_Qle. apply nearest_even_lower.
    apply Qle_shift_div_l; [exact P | exact H].
  Qed.

Lemma round_scaled_upper (q : Q) (n : Z) :
    ~ q == 0 -> q <= inject_Z n * 2 ^ ulp_exp q -> to_binary64 q <= inject_Z n * 2 ^ ulp_exp q.
  Proof.
    intros N H. rewrite (round_unfold q N).
    pose proof (pow2_pos (ulp_exp q)) as P.
    apply Qmult_le_compat_r; [|lra].
    rewrite <- Zle_Qle. apply nearest_even_upper.
    apply Qle_shift_div_r; [exact P | exact H].
  Qed.

  (** Rounding is monotone (stated for what the worker computes with:
      numbers that are not negative). *)
Lemma round_le (x y : Q) : 0 <= x -> x <= y -> to_binary64 x <= to_binary64 y.
  Proof.
    intros Hx Hxy. destruct (Qeq_dec x 0) as [Z0|Nx].
    - rewrite (round_zero x Z0). apply round_nonneg. lra.
    - assert (Ny : ~ y == 0) by (intros E; apply Nx; lra).
      assert (Ax : Qabs x == x) by (apply Qabs_pos; lra).
      assert (Ay : Qabs y == y) by (apply Qabs_pos; lra).
      pose proof (mag_le x y Nx ltac:(rewrite Ax, Ay; exact Hxy)) as Hm.
      destruct (mag_spec x Nx) as [Xlo Xhi]. destruct (mag_spec y Ny) as [Ylo Yhi].
      rewrite Ax in Xlo, Xhi. rewrite Ay in Ylo, Yhi.
      destruct (Z.eq_dec (ulp_exp x) (ulp_exp y)) as [E|NE].
      + rewrite (round_unfold x Nx), (round_unfold y Ny), E.
        pose proof (pow2_pos (ulp_exp y)) as P.
        apply Qmult_le_compat_r; [|lra].
        rewrite <- Zle_Qle. apply nearest_even_le.
        apply Qmult_le_compat_r; [exact Hxy|].
        apply Qlt_le_weak, Qinv_lt_0_compat, P.
      + assert (Hu : (ulp_exp x < ulp_exp y)%Z) by (unfold ulp_exp in *; lia).
        assert (Ey : ulp_exp y = (mag y - 52)%Z) by (unfold ulp_exp in *; lia).
        assert (Hmag : (mag x + 1 <= mag y)%Z) by (unfold ulp_exp in *; lia).
        apply (Qle_trans _ (2 ^ mag y)).
        * setoid_replace (2 ^ mag y) with (inject_Z (2 ^ (mag y - ulp_exp x)) * 2 ^ ulp_exp x).
          -- apply round_scaled_upper; [exact Nx|].
             rewrite <- pow2_ratio by (unfold ulp_exp in *; lia).
             setoid_replace (2 ^ mag y / 2 ^ ulp_exp x * 2 ^ ulp_exp x) with (2 ^ mag y)
               by (field; apply pow2_nonzero).
             pose proof (pow2_le (mag x + 1) (mag y) Hmag). lra.
          -- rewrite <- pow2_ratio by (unfold ulp_exp in *; lia).
             field. apply pow2_nonzero.
        * setoid_replace (2 ^ mag y) with (inject_Z (2 ^ 52) * 2 ^ ulp_exp y).
          -- apply round_scaled_lower; [exact Ny|].
             rewrite pow2_Z, <- pow2_plus, Ey by lia.
             replace (52 + (mag y - 52))%Z with (mag y) by lia. exact Ylo.
          -- rewrite pow2_Z, <- pow2_plus, Ey by lia.
             replace (52 + (mag y - 52))%Z with (mag y) by lia. reflexivity.
  Qed.

  (** The error of one rounding is at most half a unit in the last
      place. *)
Lemma round_error (q : Q) :
    ~ q == 0 ->
    q - (1 # 2) * 2 ^ ulp_exp q <= to_binary64 q /\ to_binary64 q <= q + (1 # 2) * 2 ^ ulp_exp q.
  Proof.
    intros N. rewrite (round_unfold q N).
    pose proof (pow2_pos (ulp_exp q)) as P.
    destruct (nearest_even_bounds (q / 2 ^ ulp_exp q)) as [Lo Hi].
    set (u := 2 ^ ulp_exp q) in *.
    assert (E : q == q / u * u) by (field; lra).
    set (s := q / u) in *.
    set (n := inject_Z (nearest_even s)) in *.
    clearbody n s u.
    split.
    - assert (H1 : (s - (1 # 2)) * u <= n * u) by (apply Qmult_le_compat_r; lra).
      rewrite E at 1.
      setoid_replace (s * u - (1 # 2) * u) with ((s - (1 # 2)) * u) by ring. exact H1.
    - assert (H1 : n * u <= (s + (1 # 2)) * u) by (apply Qmult_le_compat_r; lra).
      rewrite E at 1.
      setoid_replace (s * u + (1 # 2) * u) with ((s + (1 # 2)) * u) by ring. exact H1.
  Qed.

Lemma round_upper (q : Q) (k : Z) :
    0 <= q -> q < 2 ^ k -> (-1021 <= k)%Z -> to_binary64 q <= q + 2 ^ (k - 54).
  Proof.
    intros Hq Hk Hrange. pose proof (pow2_pos (k - 54)) as Pk.
    destruct (Qeq_dec q 0) as [Z0|N].
    - rewrite (round_zero q Z0). lra.
    - destruct (round_error q N) as [_ Hi].
      destruct (mag_spec q N) as [Mlo _].
      rewrite Qabs_pos in Mlo by exact Hq.
      assert (Hm : (mag q < k)%Z) by (apply pow2_lt_inv; lra).
      assert (Hu : (ulp_exp q <= k - 53)%Z) by (unfold ulp_exp; lia).
      pose proof (pow2_le _ _ Hu) as Hp.
      replace (k - 53)%Z with (k - 54 + 1)%Z in Hp by lia.
      rewrite pow2_succ in Hp. clear Hk Mlo. hide_powers. lra.
  Qed.

End Rounding.

Section Idempotence.
Local Open Scope Q_scope.
Import PyNum.

Lemma ulp_exp_low (q : Q) : (-1074 <= ulp_exp q)%Z.
  Proof. unfold ulp_exp. lia. Qed.

Lemma scaled_below (q : Q) :
    0 <= q -> ~ q == 0 -> q / 2 ^ ulp_exp q <= inject_Z (2 ^ 53).
  Proof.
    intros Hq N. destruct (mag_spec q N) as [_ Mhi].
    rewrite Qabs_pos in Mhi by exact Hq.
    pose proof (pow2_pos (ulp_exp q)) as P.
    apply Qle_shift_div_r; [exact P|].
    rewrite pow2_Z, <- pow2_plus by lia.
    assert (H : (mag q + 1 <= 53 + ulp_exp q)%Z) by (unfold ulp_exp; lia).
    pose proof (pow2_le _ _ H). lra.
  Qed.

  (** What rounding returns is a binary64 number: rounding it again
      changes nothing. *)
Lemma round_idempotent (q : Q) : 0 <= q -> to_binary64 (to_binary64 q) == to_binary64 q.
  Proof.
    intros Hq. destruct (Qeq_dec q 0) as [Z0|N].
    { rewrite (round_zero q Z0). reflexivity. }
    pose proof (round_nonneg q Hq) as Hr.
    pose proof (ulp_exp_low q) as He.
    pose proof (pow2_pos (ulp_exp q)) as P.
    assert (HN : (0 <= nearest_even (q / 2 ^ ulp_exp q) <= 2 ^ 53)%Z).
    { split.
      - apply nearest_even_lower. change (inject_Z 0) with 0.
        apply Qle_shift_div_l; [exact P | lra].
      - apply nearest_even_upper, scaled_below; assumption. }
    rewrite (round_unfold q N) in *.
    set (n := nearest_even (q / 2 ^ ulp_exp q)) in *.
    set (e := ulp_exp q) in *.
    destruct (Z.eq_dec n 0) as [E0|N0].
    { assert (Z0 : inject_Z n * 2 ^ e == 0) by (rewrite E0; change (inject_Z 0) with 0; ring).
      rewrite (round_zero _ Z0). now symmetry. }
    destruct (Z.eq_dec n (2 ^ 53)) as [E53|N53].
    - assert (E : inject_Z n * 2 ^ e == inject_Z 1 * 2 ^ (53 + e)).
      { rewrite E53, pow2_Z, <- pow2_plus by lia. change (inject_Z 1) with 1. ring. }
      apply (round_fixed _ 1 (53 + e) E).
      assert (M : mag (inject_Z n * 2 ^ e) = (53 + e)%Z).
      { apply mag_unique; rewrite Qabs_pos by exact Hr; rewrite E; change (inject_Z 1) with 1.
        - lra.
        - pose proof (pow2_lt (53 + e) (53 + e + 1) ltac:(lia)). lra. }
      unfold ulp_exp. rewrite M. lia.
    - apply (round_fixed _ n e); [reflexivity|].
      assert (Nr : ~ inject_Z n * 2 ^ e == 0).
      { intros E. assert (0 < inject_Z n) by (change 0 with (inject_Z 0); rewrite <- Zlt_Qlt; lia).
        assert (0 < inject_Z n * 2 ^ e) by (apply Qmult_lt_0_compat; assumption). lra. }
      destruct (mag_spec _ Nr) as [Mlo _]. rewrite Qabs_pos in Mlo by exact Hr.
      assert (Hlt : inject_Z n * 2 ^ e < 2 ^ (53 + e)).
      { rewrite pow2_plus, <- (pow2_Z 53) by lia.
        apply Qmult_lt_compat_r; [exact P|]. rewrite <- Zlt_Qlt. lia. }
      assert (Hm : (mag (inject_Z n * 2 ^ e) < 53 + e)%Z) by (apply pow2_lt_inv; lra).
      unfold ulp_exp. lia.
  Qed.

End Idempotence.

Section FloatOperations.
Local Open Scope Q_scope.
Import PyNum.

Lemma ltb_false (x y : Q) : y <= x -> ltb x y = false.
  Proof. intros H. unfold ltb. apply Qle_bool_iff in H. now rewrite H. Qed.

Lemma ltb_true (x y : Q) : x < y -> ltb x y = true.
  Proof.
    intros H. unfold ltb. destruct (Qle_bool y x) eqn:E; [|reflexivity].
    apply Qle_bool_iff in E. lra.
  Qed.

Lemma int_comp (p q : Q) : p == q -> int p = int q.
  Proof.
    intros E. unfold int.
    assert (B : Qle_bool 0 p = Qle_bool 0 q).
    { destruct (Qle_bool 0 p) eqn:P; destruct (Qle_bool 0 q) eqn:R; try reflexivity.
      - apply Qle_bool_iff in P. rewrite E in P. apply Qle_bool_iff in P. congruence.
      - apply Qle_bool_iff in R. rewrite <- E in R. apply Qle_bool_iff in R. congruence. }
    rewrite B. unfold Qceiling.
    rewrite (Qfloor_comp p q E), (Qfloor_comp (- p) (- q)); [reflexivity | now rewrite E].
  Qed.

Section Quotient.
Variables x y : Q.
Hypothesis Hx : 0 <= x.
Hypothesis Hy : 0 < y.

Lemma quotient_nonneg : 0 <= x / y.
    Proof. apply Qle_shift_div_l; [exact Hy | lra]. Qed.

Lemma floor_quotient_nonneg : (0 <= Qfloor (x / y))%Z.
    Proof. rewrite <- (Qfloor_Z 0). apply Qfloor_resp_le, quotient_nonneg. Qed.

Lemma fmod_nonneg : fmod x y = x - y * inject_Z (Qfloor (x / y)).
    Proof. unfold fmod. now rewrite (int_nonneg _ quotient_nonneg). Qed.

Lemma fmod_range : 0 <= fmod x y /\ fmod x y < y.
    Proof.
      rewrite fmod_nonneg.
      pose proof (Qfloor_le (x / y)) as Fl. pose proof (Qlt_floor (x / y)) as Fh.
      rewrite inject_Z_plus in Fh. change (inject_Z 1) with 1 in Fh.
      set (z := inject_Z (Qfloor (x / y))) in *.
      assert (E : x == x / y * y) by (field; lra).
      set (s := x / y) in *. clearbody s z.
      assert (H1 : z * y <= s * y) by (apply Qmult_le_compat_r; lra).
      assert (H2 : s * y < (z + 1) * y) by (apply Qmult_lt_compat_r; lra).
      rewrite E. split.
      - setoid_replace (s * y - y * z) with (s * y - z * y) by ring. lra.
      - setoid_replace (s * y - y * z) with (s * y - z * y) by ring.
        setoid_replace ((z + 1) * y) with (z * y + y) in H2 by ring. lra.
    Qed.

Lemma fmod_le : fmod x y <= x.
    Proof.
      rewrite fmod_nonneg. pose proof floor_quotient_nonneg as Hz.
      rewrite Zle_Qle in Hz. change (inject_Z 0) with 0 in Hz.
      assert (0 <= y * inject_Z (Qfloor (x / y))) by (apply Qmult_le_0_compat; lra).
      lra.
    Qed.

    (** For operands that are not negative [%] is exact. *)
Lemma mod_nonneg : mod_ x y == x - y * inject_Z (Qfloor (x / y)).
    Proof.
      unfold mod_. destruct fmod_range as [Lo Hi].
      rewrite (ltb_false y 0), (ltb_false (fmod x y) 0) by lra. cbn [xorb].
      destruct (Qeq_bool (fmod x y) 0) eqn:E.
      - apply Qeq_bool_iff in E. rewrite <- fmod_nonneg. now symmetry.
      - now rewrite fmod_nonneg.
    Qed.

Lemma mod_range : 0 <= mod_ x y /\ mod_ x y < y.
    Proof. rewrite mod_nonneg, <- fmod_nonneg. exact fmod_range. Qed.

Lemma floordiv_nonneg : 0 <= floordiv x y.
    Proof.
      unfold floordiv. destruct fmod_range as [Lo Hi].
      rewrite (ltb_false y 0), (ltb_false (fmod x y) 0) by lra.
      cbn [xorb]. rewrite andb_false_r.
      set (div := to_binary64 (to_binary64 (x - fmod x y) / y)).
      assert (Hdiv : 0 <= div).
      { apply round_nonneg. apply Qle_shift_div_l; [exact Hy|].
        rewrite Qmult_0_l. apply round_nonneg. pose proof fmod_le. lra. }
      destruct (Qeq_bool div 0); [lra|].
      assert (Hfl : 0 <= inject_Z (Qfloor div)).
      { change 0 with (inject_Z 0). rewrite <- Zle_Qle.
        rewrite <- (Qfloor_Z 0). now apply Qfloor_resp_le. }
      destruct (ltb (1 # 2) (to_binary64 (div - inject_Z (Qfloor div)))); [|exact Hfl].
      apply round_nonneg. lra.
    Qed.

End Quotient.

  (** Below [2 ^ 53] the floor division by a positive integer is
      exact. *)
Lemma floordiv_exact (x : Q) (k : Z) :
    0 <= x -> x < inject_Z (2 ^ 53) -> (0 < k)%Z ->
    floordiv x (inject_Z k) == inject_Z (Qfloor (x / inject_Z k)).
  Proof.
    intros Hx Hbig Hk.
    assert (Hy : 0 < inject_Z k) by (change 0 with (inject_Z 0); now rewrite <- Zlt_Qlt).
    pose proof (floor_quotient_nonneg x (inject_Z k) Hx Hy) as Hz.
    destruct (fmod_range x (inject_Z k) Hx Hy) as [Lo Hi].
    unfold floordiv.
    rewrite (ltb_false (inject_Z k) 0), (ltb_false (fmod x (inject_Z k)) 0) by lra.
    cbn [xorb]. rewrite andb_false_r.
    set (z := Qfloor (x / inject_Z k)) in *.
    assert (Hkz : (k * z < 2 ^ 53)%Z).
    { rewrite Zlt_Qlt. eapply Qle_lt_trans; [|exact Hbig].
      rewrite inject_Z_mult. rewrite (fmod_nonneg x (inject_Z k) Hx Hy) in Lo. fold z in Lo. lra. }
    assert (Hz53 : (z < 2 ^ 53)%Z) by nia.
    assert (D : to_binary64 (to_binary64 (x - fmod x (inject_Z k)) / inject_Z k) == inject_Z z).
    { assert (E1 : x - fmod x (inject_Z k) == inject_Z (k * z)).
      { rewrite (fmod_nonneg x (inject_Z k) Hx Hy). fold z. rewrite inject_Z_mult. ring. }
      rewrite E1, round_Z by lia.
      assert (E2 : inject_Z (k * z) / inject_Z k == inject_Z z).
      { rewrite inject_Z_mult. field. lra. }
      rewrite E2. apply round_Z. lia. }
    set (div := to_binary64 (to_binary64 (x - fmod x (inject_Z k)) / inject_Z k)) in *.
    destruct (Qeq_bool div 0) eqn:E0.
    - apply Qeq_bool_iff in E0. rewrite <- D. now symmetry.
    - rewrite (Qfloor_comp _ _ D), Qfloor_Z.
      assert (R : to_binary64 (div - inject_Z z) == 0).
      { apply round_zero. rewrite D. ring. }
      rewrite (ltb_false (1 # 2)); [reflexivity|].
      rewrite R. lra.
  Qed.

End FloatOperations.

Section Binary64.
Local Open Scope Q_scope.
Import PyNum.

  (** The fractional part of a binary64 number stops short of one by at
      least [2 ^ -53]. *)
Lemma fraction_bound (x : Q) :
    binary64 x -> 0 <= x -> x - inject_Z (Qfloor x) <= 1 - (1 # 2 ^ 53).
  Proof.
    intros [Hr _] Hx.
    pose proof (Qfloor_le x) as Fl. pose proof (Qlt_floor x) as Fh.
    rewrite inject_Z_plus in Fh. change (inject_Z 1) with 1 in Fh.
    destruct (Qeq_dec x 0) as [Z0|N].
    { rewrite (Qfloor_comp x 0 Z0), Z0. vm_compute. discriminate. }
    rewrite (round_unfold x N) in Hr.
    set (n := nearest_even (x / 2 ^ ulp_exp x)) in *.
    set (e := ulp_exp x) in *.
    destruct (Z.le_gt_cases 0 e) as [He|He].
    - assert (E : x == inject_Z (n * 2 ^ e)).
      { rewrite inject_Z_mult, pow2_Z by lia. now symmetry. }
      rewrite (Qfloor_comp _ _ E), Qfloor_Z, E.
      setoid_replace (inject_Z (n * 2 ^ e) - inject_Z (n * 2 ^ e)) with 0 by ring.
      vm_compute. discriminate.
    - destruct (Z.le_gt_cases (-53) e) as [Hs|Hs].
      + set (D := (2 ^ (- e))%Z).
        assert (HD : (0 < D)%Z) by (apply Z.pow_pos_nonneg; lia).
        assert (HD53 : (D <= 2 ^ 53)%Z) by (apply Z.pow_le_mono_r; lia).
        assert (P : 2 ^ e * inject_Z D == 1).
        { unfold D. rewrite pow2_Z, <- pow2_plus by lia.
          replace (e + - e)%Z with 0%Z by lia. reflexivity. }
        assert (E : x * inject_Z D == inject_Z n).
        { rewrite <- Hr. rewrite <- Qmult_assoc, P. ring. }
        assert (Hfl : Qfloor x = (n / D)%Z).
        { rewrite Zdiv_Qdiv. apply Qfloor_comp.
          rewrite <- E. field. rewrite (Zlt_Qlt 0 D) in HD. change (inject_Z 0) with 0 in HD. lra. }
        assert (K : (x - inject_Z (Qfloor x)) * inject_Z D == inject_Z (n mod D)).
        { rewrite Hfl. rewrite Z.mod_eq by lia.
          unfold Z.sub. rewrite inject_Z_plus, inject_Z_opp, !inject_Z_mult, <- E. ring. }
        pose proof (Z.mod_pos_bound n D HD) as [_ Hmod].
        assert (Hmod' : inject_Z (n mod D) <= inject_Z D - 1).
        { assert (Hz : (n mod D <= D - 1)%Z) by lia.
          rewrite Zle_Qle in Hz. unfold Z.sub in Hz.
          rewrite inject_Z_plus, inject_Z_opp in Hz. exact Hz. }
        rewrite (Zlt_Qlt 0 D) in HD. change (inject_Z 0) with 0 in HD.
        rewrite (Zle_Qle D) in HD53.
        set (f := x - inject_Z (Qfloor x)) in *.
        set (d := inject_Z D) in *.
        assert (C : (1 # 2 ^ 53) * inject_Z (2 ^ 53) == 1) by reflexivity.
        set (c := (1 # 2 ^ 53)) in *. set (b := inject_Z (2 ^ 53)) in *.
        clearbody f d c b.
        assert (H1 : c * d <= c * b) by (apply Qmult_le_l; [|exact HD53]; nra).
        nra.
      + assert (Hm : (mag x + 1 <= -1)%Z) by (unfold e, ulp_exp in Hs; lia).
        destruct (mag_spec x N) as [_ Mhi].
        rewrite Qabs_pos in Mhi by exact Hx.
        pose proof (pow2_le _ _ Hm) as Hp. change (2 ^ (-1)) with (1 # 2) in Hp.
        assert (F0 : Qfloor x = 0%Z).
        { apply Qfloor_unique; [exact Hx | change (inject_Z (0 + 1)) with 1; lra]. }
        rewrite F0. change (inject_Z 0) with 0.
        assert ((1 # 2) <= 1 - (1 # 2 ^ 53)) by (vm_compute; discriminate).
        lra.
  Qed.

End Binary64.

(** ** The clock fields computed by [_format_timestamp] *)

Section ClockFields.
Local Open Scope Q_scope.
Import PyNum.
Variable seconds : Q.
Hypothesis Hs : 0 <= seconds.
Let F : Z := Qfloor seconds.
Let f : Q := seconds - inject_Z F.

Lemma floor_seconds_nonneg : (0 <= F)%Z.
  Proof. subst F. rewrite <- (Qfloor_Z 0). now apply Qfloor_resp_le. Qed.

Lemma fraction_range : 0 <= f /\ f < 1.
  Proof.
    subst f F. pose proof (Qfloor_le seconds). pose proof (Qlt_floor seconds) as Fh.
    rewrite inject_Z_plus in Fh. change (inject_Z 1) with 1 in Fh. lra.
  Qed.

Lemma floor_seconds_div (k : Z) :
    (0 < k)%Z -> Qfloor (seconds / inject_Z k) = (F / k)%Z.
  Proof. intros Hk. now apply Qfloor_div_pos. Qed.

Lemma mod_seconds (k : Z) :
    (0 < k)%Z -> mod_ seconds (inject_Z k) == seconds - inject_Z (k * (F / k)).
  Proof.
    intros Hk.
    assert (Hy : 0 < inject_Z k) by (change 0 with (inject_Z 0); now rewrite <- Zlt_Qlt).
    rewrite (mod_nonneg seconds (inject_Z k) Hs Hy), floor_seconds_div by exact Hk.
    now rewrite inject_Z_mult.
  Qed.

Lemma floor_mod_seconds (k : Z) :
    (0 < k)%Z -> Qfloor (mod_ seconds (inject_Z k)) = (F mod k)%Z.
  Proof.
    intros Hk. rewrite (Qfloor_comp _ _ (mod_seconds k Hk)), Qfloor_sub_Z.
    fold F. rewrite Z.mod_eq by lia. reflexivity.
  Qed.

Lemma secs_field : int (mod_ seconds 60) = (F mod 60)%Z.
  Proof.
    change 60 with (inject_Z 60).
    assert (Hy : 0 < inject_Z 60) by reflexivity.
    destruct (mod_range seconds (inject_Z 60) Hs Hy) as [Lo _].
    rewrite (int_nonneg _ Lo). apply floor_mod_seconds. lia.
  Qed.

Lemma minutes_field :
    int (floordiv (mod_ seconds 3600) 60) = ((F / 60) mod 60)%Z.
  Proof.
    change 3600 with (inject_Z 3600). change 60 with (inject_Z 60).
    assert (Hy : 0 < inject_Z 3600) by reflexivity.
    destruct (mod_range seconds (inject_Z 3600) Hs Hy) as [Lo Hi].
    rewrite (int_comp _ _ (floordiv_exact _ 60 Lo ltac:(eapply Qlt_trans; [exact Hi | reflexivity]) ltac:(lia))).
    rewrite int_inject_Z, Qfloor_div_pos, floor_mod_seconds by lia.
    pose proof floor_seconds_nonneg. 
    rewrite (Z.mod_eq (F / 60) 60) by lia. rewrite Z.div_div by lia.
    change (60 * 60)%Z with 3600%Z.
    rewrite (Z.mod_eq F 3600) by lia.
    replace (F - 3600 * (F / 3600))%Z with (F + (- (60 * (F / 3600))) * 60)%Z by lia.
    rewrite Z.div_add by lia. lia.
  Qed.

Lemma hours_nonneg : (0 <= int (floordiv seconds 3600))%Z.
  Proof.
    assert (Hy : 0 < 3600) by reflexivity.
    pose proof (floordiv_nonneg seconds 3600 Hs Hy) as H.
    rewrite (int_nonneg _ H). rewrite <- (Qfloor_Z 0). now apply Qfloor_resp_le.
  Qed.

Lemma hours_field :
    seconds < inject_Z (2 ^ 53) -> int (floordiv seconds 3600) = (F / 3600)%Z.
  Proof.
    intros Hbig. change 3600 with (inject_Z 3600).
    rewrite (int_comp _ _ (floordiv_exact _ 3600 Hs Hbig ltac:(lia))).
    rewrite int_inject_Z. apply floor_seconds_div. lia.
  Qed.

  (** *** The milliseconds *)

Lemma fraction_mod : mod_ seconds 1 == f.
  Proof.
    change 1 with (inject_Z 1). rewrite mod_seconds by lia.
    rewrite Z.div_1_r, Z.mul_1_l. reflexivity.
  Qed.

Lemma millis_product : mul (mod_ seconds 1) 1000 == to_binary64 (f * 1000).
  Proof. unfold mul. now rewrite fraction_mod. Qed.

Lemma whole_millis_split :
    whole_millis seconds = (1000 * F + Qfloor (f * 1000))%Z.
  Proof.
    unfold whole_millis.
    transitivity (Qfloor (f * 1000 - inject_Z (- (1000 * F)))).
    - apply Qfloor_comp. subst f. rewrite inject_Z_opp, inject_Z_mult.
      change (inject_Z 1000) with 1000. ring.
    - rewrite Qfloor_sub_Z. lia.
  Qed.

Lemma floor_fraction_range : (0 <= Qfloor (f * 1000) < 1000)%Z.
  Proof.
    destruct fraction_range as [Lo Hi].
    pose proof (Qfloor_le (f * 1000)) as Fl. pose proof (Qlt_floor (f * 1000)) as Fh.
    split.
    - rewrite <- (Qfloor_Z 0). apply Qfloor_resp_le. change (inject_Z 0) with 0. lra.
    - rewrite Zlt_Qlt. change (inject_Z 1000) with 1000. lra.
  Qed.

Lemma round_product_nonneg : 0 <= to_binary64 (f * 1000).
  Proof. destruct fraction_range. apply round_nonneg. lra. Qed.

Lemma millis_value : millis_field seconds = Qfloor (to_binary64 (f * 1000)).
  Proof.
    unfold millis_field. rewrite (int_comp _ _ millis_product).
    apply int_nonneg, round_product_nonneg.
  Qed.

  (** Never below the truncated milliseconds. *)
Lemma millis_lower : (Qfloor (f * 1000) <= millis_field seconds)%Z.
  Proof.
    rewrite millis_value. destruct floor_fraction_range as [T0 T1].
    rewrite <- (Qfloor_Z (Qfloor (f * 1000))) at 1. apply Qfloor_resp_le.
    rewrite <- (round_Z (Qfloor (f * 1000))) by lia.
    apply round_le; [change 0 with (inject_Z 0); now rewrite <- Zle_Qle | apply Qfloor_le].
  Qed.

  (** Above the exact product by at most [2 ^ -44]. *)
Lemma millis_upper : inject_Z (millis_field seconds) <= f * 1000 + (1 # 2 ^ 44).
  Proof.
    rewrite millis_value. destruct fraction_range as [Lo Hi].
    eapply Qle_trans; [apply Qfloor_le|].
    apply (round_upper (f * 1000) 10); [lra | change (2 ^ 10) with 1024; lra | lia].
  Qed.

Lemma millis_at_most_one_up : (millis_field seconds <= Qfloor (f * 1000) + 1)%Z.
  Proof.
    pose proof millis_upper as Hu. pose proof (Qlt_floor (f * 1000)) as Fh.
    assert (H : inject_Z (millis_field seconds) < inject_Z (Qfloor (f * 1000) + 2)).
    { replace (Qfloor (f * 1000) + 2)%Z with ((Qfloor (f * 1000) + 1) + 1)%Z by lia.
      rewrite (inject_Z_plus (Qfloor (f * 1000) + 1) 1). change (inject_Z 1) with 1.
      assert ((1 # 2 ^ 44) < 1) by reflexivity. lra. }
    rewrite <- Zlt_Qlt in H. lia.
  Qed.

Lemma millis_nonneg : (0 <= millis_field seconds)%Z.
  Proof. pose proof millis_lower. pose proof floor_fraction_range. lia. Qed.

  (** A binary64 offset never shows 1000 milliseconds. *)
Lemma millis_below_1000 : binary64 seconds -> (millis_field seconds < 1000)%Z.
  Proof.
    intros Hb. rewrite millis_value.
    pose proof (fraction_bound seconds Hb Hs) as Hf. fold F in Hf. fold f in Hf.
    destruct fraction_range as [Lo _].
    assert (Hr : to_binary64 (f * 1000) <= to_binary64 ((1 - (1 # 2 ^ 53)) * 1000)).
    { apply round_le; lra. }
    assert (Hc : to_binary64 ((1 - (1 # 2 ^ 53)) * 1000) == 1000 - (1 # 2 ^ 43)) by (vm_compute; reflexivity).
    rewrite Hc in Hr.
    pose proof (Qfloor_le (to_binary64 (f * 1000))) as Fl.
    rewrite Zlt_Qlt. change (inject_Z 1000) with 1000.
    assert (0 < (1 # 2 ^ 43)) by reflexivity. lra.
  Qed.

End ClockFields.

(** ** Fixed-width integer formatting *)

Lemma forallb_below (p : Z -> bool) (n : nat) :
  forallb p (map Z.of_nat (seq 0 n)) = true ->
  forall z, 0 <= z < Z.of_nat n -> p z = true.
Proof.
  intros Hall z Hz.
  rewrite forallb_forall in Hall. apply Hall.
  apply in_map_iff. exists (Z.to_nat z). split; [lia|].
  apply in_seq. lia.
Qed.

Lemma format_0d_two (n : Z) :
  0 <= n < 100 -> PyStr.format_0d 2 n = two_digits n.
Proof.
  intros Hn. apply String.eqb_eq.
  apply (forallb_below (fun z => String.eqb (PyStr.format_0d 2 z) (two_digits z)) 100);
    [vm_compute; reflexivity | exact Hn].
Qed.

Lemma format_0d_three (n : Z) :
  0 <= n < 1000 -> PyStr.format_0d 3 n = three_digits n.
Proof.
  intros Hn. apply String.eqb_eq.
  apply (forallb_below (fun z => String.eqb (PyStr.format_0d 3 z) (three_digits z)) 1000);
    [vm_compute; reflexivity | exact Hn].
Qed.

Lemma format_0d_nonneg (w : nat) (n : Z) :
  0 <= n -> PyStr.format_0d w n = PyStr.zfill w (PyStr.str_nat n).
Proof.
  intros Hn. unfold PyStr.format_0d.
  destruct (Z.ltb_spec n 0); [lia | reflexivity].
Qed.

Lemma length_append (a b : string) :
  String.length (a ++ b) = (String.length a + String.length b)%nat.
Proof. induction a; simpl; congruence. Qed.

Lemma length_replicate (n : nat) (c : ascii) : String.length (PyStr.replicate n c) = n.
Proof. induction n; simpl; congruence. Qed.

Lemma length_zfill (w : nat) (s : string) :
  String.length (PyStr.zfill w s) = Nat.max w (String.length s).
Proof. unfold PyStr.zfill. rewrite length_append, length_replicate. lia. Qed.

(* ================================================================== *)
(** * Timestamp formatter *)
(* ================================================================== *)

Section ShownMillis.
Variable seconds : Q.
Hypothesis Hs : (0 <= seconds)%Q.
Hypothesis Hb : PyNum.binary64 seconds.
Let t : Z := shown_millis seconds.

Lemma shown_millis_fields :
    t / 1000 = Qfloor seconds /\ t mod 1000 = millis_field seconds.
  Proof.
    pose proof (millis_nonneg seconds Hs). pose proof (millis_below_1000 seconds Hs Hb).
    subst t. unfold shown_millis.
    split.
    - rewrite Z.mul_comm, Z.div_add_l by lia. rewrite Z.div_small by lia. lia.
    - rewrite Z.add_comm, Z.mul_comm, Z.mod_add by lia. apply Z.mod_small. lia.
  Qed.

Lemma shown_millis_nonneg : 0 <= t.
  Proof.
    pose proof (millis_nonneg seconds Hs). pose proof (floor_seconds_nonneg seconds Hs).
    subst t. unfold shown_millis. lia.
  Qed.

Lemma shown_millis_near :
    whole_millis seconds <= t <= whole_millis seconds + 1
    /\ (inject_Z t <= seconds * 1000 + (1 # 2 ^ 44))%Q.
  Proof.
    pose proof (millis_lower seconds Hs). pose proof (millis_at_most_one_up seconds Hs).
    pose proof (millis_upper seconds Hs) as Hu.
    subst t. unfold shown_millis. rewrite (whole_millis_split seconds).
    split; [lia|].
    rewrite inject_Z_plus, inject_Z_mult. change (inject_Z 1000) with 1000%Q. lra.
  Qed.

Lemma format_timestamp_fields (use_comma : bool) :
    _format_timestamp seconds use_comma
    = PyStr.zfill 2 (PyStr.str_nat (PyNum.int (PyNum.floordiv seconds 3600))) ++ ":"
        ++ two_digits ((t / 60000) mod 60) ++ ":"
        ++ two_digits ((t / 1000) mod 60) ++ separator_of use_comma
        ++ three_digits (t mod 1000).
  Proof.
    destruct shown_millis_fields as [E1 E2].
    assert (E3 : t / 60000 = Qfloor seconds / 60).
    { rewrite <- E1, Z.div_div by lia. reflexivity. }
    rewrite E1, E2, E3.
    unfold _format_timestamp.
    rewrite (minutes_field seconds Hs), (secs_field seconds Hs).
    fold (millis_field seconds).
    rewrite format_0d_nonneg by (apply hours_nonneg; exact Hs).
    rewrite !format_0d_two
      by (match goal with |- _ <= ?a mod 60 < _ => pose proof (Z.mod_pos_bound a 60); lia end).
    rewrite format_0d_three
      by (pose proof (millis_nonneg seconds Hs); pose proof (millis_below_1000 seconds Hs Hb); lia).
    reflexivity.
  Qed.

Lemma shown_hours :
    (seconds < inject_Z (2 ^ 53))%Q ->
    PyNum.int (PyNum.floordiv seconds 3600) = t / 3600000.
  Proof.
    intros Hbig. destruct shown_millis_fields as [E1 _].
    rewrite (hours_field seconds Hs Hbig), <- E1, Z.div_div by lia. reflexivity.
  Qed.

Lemma format_timestamp_clock (use_comma : bool) :
    (seconds < inject_Z (2 ^ 53))%Q ->
    _format_timestamp seconds use_comma = clock_text t use_comma.
  Proof.
    intros Hbig. rewrite format_timestamp_fields, (shown_hours Hbig). reflexivity.
  Qed.

End ShownMillis.

(** C4 (amended).  For every binary64 offset that is not negative and both
    separators the formatter returns [HH:MM:SS<sep>mmm]: hours written in
    full with at least two digits and no wrap at 24 (the whole hours of
    the offset when it is below [2 ^ 53] seconds), minutes and seconds on
    two digits, milliseconds on three.  The milliseconds are the integer
    part of the binary64 product [(seconds % 1) * 1000]: the offset cut
    to whole milliseconds, or one more when the product rounds up to a
    whole number, which takes an offset within [2 ^ -44] ms of it; they
    are never rounded to the nearest and never reach 1000.  3661.2505 with
    the comma gives 01:01:01,250; 100 hours are written 100:00:00,000. *)
Theorem format_timestamp_shape (seconds : Q) (use_comma : bool) :
  PyNum.binary64 seconds ->
  (0 <= seconds)%Q ->
  let t := shown_millis seconds in
  let hours := PyNum.int (PyNum.floordiv seconds 3600) in
  _format_timestamp seconds use_comma
  = PyStr.zfill 2 (PyStr.str_nat hours) ++ ":"
      ++ two_digits ((t / 60000) mod 60) ++ ":"
      ++ two_digits ((t / 1000) mod 60) ++ separator_of use_comma
      ++ three_digits (t mod 1000)
  /\ 0 <= hours
  /\ ((seconds < inject_Z (2 ^ 53))%Q ->
      hours = t / 3600000
      /\ _format_timestamp seconds use_comma = clock_text t use_comma)
  /\ 0 <= millis_field seconds < 1000
  /\ whole_millis seconds <= t <= whole_millis seconds + 1
  /\ (inject_Z t <= seconds * 1000 + (1 # 2 ^ 44))%Q
  /\ String.length (_format_timestamp seconds use_comma)
     = (Nat.max 2 (String.length (PyStr.str_nat hours)) + 10)%nat
  /\ _format_timestamp (PyNum.to_binary64 (36612505 # 10000)) true = "01:01:01,250"
  /\ _format_timestamp (PyNum.to_binary64 (36612505 # 10000)) false = "01:01:01.250"
  /\ _format_timestamp 360000 true = "100:00:00,000".
Proof.
  intros Hb Hs t hours.
  pose proof (format_timestamp_fields seconds Hs Hb use_comma) as E.
  fold t in E. fold hours in E.
  split; [exact E|]. split; [apply hours_nonneg; exact Hs|].
  split.
  { intros Hbig. split.
    - apply (shown_hours seconds Hs Hb Hbig).
    - apply (format_timestamp_clock seconds Hs Hb use_comma Hbig). }
  destruct (shown_millis_near seconds Hs) as [N1 N2].
  split; [split; [apply millis_nonneg | apply millis_below_1000]; assumption|].
  split; [exact N1|]. split; [exact N2|]. split.
  - rewrite E.
    rewrite !length_append, length_zfill.
    destruct use_comma; simpl; lia.
  - repeat split; vm_compute; reflexivity.
Qed.

Lemma format_timestamp_shape_witness :
  PyNum.binary64 (3 # 2) /\ (0 <= 3 # 2)%Q
  /\ _format_timestamp (3 # 2) false = "00:00:01.500".
Proof.
  assert (Hb : PyNum.binary64 (3 # 2)).
  { split; [vm_compute; reflexivity | vm_compute; reflexivity]. }
  assert (Hs : (0 <= 3 # 2)%Q) by (unfold Qle; simpl; lia).
  split; [exact Hb|]. split; [exact Hs|].
  destruct (format_timestamp_shape (3 # 2) false Hb Hs) as [E _].
  rewrite E. vm_compute. reflexivity.
Defined.

(** C4 as stated fails: the milliseconds are not always the truncated
    ones.  The binary64 number nearest to 0.06 lies below 0.06, so its
    whole milliseconds are 59; the product [(seconds % 1) * 1000] rounds
    to 60.0 and the text shows 060. *)
Lemma timestamp_millis_not_truncated :
  let seconds := PyNum.to_binary64 (6 # 100) in
  PyNum.binary64 seconds
  /\ (0 <= seconds)%Q
  /\ (seconds < 6 # 100)%Q
  /\ whole_millis seconds = 59
  /\ _format_timestamp seconds true = "00:00:00,060"
  /\ _format_timestamp seconds true <> clock_text (whole_millis seconds) true.
Proof.
  cbv zeta. split; [split; vm_compute; reflexivity|].
  split; [vm_compute; discriminate|].
  split; [vm_compute; reflexivity|].
  split; [vm_compute; reflexivity|].
  split; [vm_compute; reflexivity|].
  vm_compute. discriminate.
Qed.

(* ================================================================== *)
(** * Strings *)
(* ================================================================== *)

Lemma append_assoc (a b c : string) : (a ++ b) ++ c = a ++ (b ++ c).
Proof. induction a; simpl; congruence. Qed.

Lemma append_nil_r (a : string) : a ++ "" = a.
Proof. induction a; simpl; congruence. Qed.

(* ================================================================== *)
(** * Running monadic code *)
(* ================================================================== *)

Local Open Scope monad_scope.

Lemma bind_normal {S A B} (m : M S A) (k : A -> M S B) (s s' : S) (a : A) :
  m s = (Normal a, s') -> bind m k s = k a s'.
Proof. unfold bind. now intros ->. Qed.

Lemma bind_returned {S A B} (m : M S A) (k : A -> M S B) (s s' : S) :
  m s = (Returned, s') -> bind m k s = (Returned, s').
Proof. unfold bind. now intros ->. Qed.

Lemma bind_raised {S A B} (m : M S A) (k : A -> M S B) (s s' : S) (e : exn) :
  m s = (Raised e, s') -> bind m k s = (Raised e, s').
Proof. unfold bind. now intros ->. Qed.

Lemma bind_lift_inr {S A B} (r : exn + A) (a : A) (k : A -> M S B) (s : S) :
  r = inr a -> bind (lift r) k s = k a s.
Proof. intros ->. reflexivity. Qed.

Lemma bind_fwrite {B} (t : string) (k : unit -> W B) (buf : string) :
  bind (fwrite t) k buf = k tt (buf ++ t).
Proof. reflexivity. Qed.

Lemma bind_ret {S A B} (a : A) (k : A -> M S B) (s : S) : bind (ret a) k s = k a s.
Proof. reflexivity. Qed.

Lemma bind_ret_lift {S A B} (a : A) (k : A -> M S B) (s : S) :
  bind (lift (inr a)) k s = k a s.
Proof. reflexivity. Qed.

Arguments bind_normal {S A B m k s s' a} _.
Arguments bind_returned {S A B m k s s'} _.
Arguments bind_raised {S A B m k s s' e} _.
Arguments bind_lift_inr {S A B r a k s} _.

(* ================================================================== *)
(** * Exporters *)
(* ================================================================== *)

Lemma num_field_run {S B} (v : pyval) (key : string) (q : Q) (use_comma : bool)
      (k : string -> M S B) (s : S) :
  num_field v key = Some q ->
  (x <- lift (PyOp.getitem v key) ;; t <- format_timestamp_of x use_comma ;; k t) s
  = k (_format_timestamp q use_comma) s.
Proof.
  unfold num_field, format_timestamp_of, bind, lift, ret.
  destruct (PyOp.getitem v key) as [e|x]; [discriminate|].
  destruct (PyOp.number x) as [e|q']; [discriminate|].
  intros E; injection E as ->. reflexivity.
Qed.

Lemma text_field_run {S B} (v : pyval) (key : string) (t : string)
      (k : string -> M S B) (s : S) :
  text_field v key = Some t ->
  (x <- lift (PyOp.getitem v key) ;; t' <- lift (PyOp.strip x) ;; k t') s
  = k (PyStr.strip t) s.
Proof.
  unfold text_field, bind, lift.
  destruct (PyOp.getitem v key) as [e|x]; [discriminate|].
  destruct x; try discriminate.
  intros E; injection E as ->. reflexivity.
Qed.

Lemma srt_segment_run (i : nat) (v : pyval) (s : segment) (buf : string) :
  is_segment v s ->
  srt_segment (Z.of_nat i) v buf = (Normal tt, buf ++ srt_cue i s).
Proof.
  intros [Hs [He Ht]]. unfold srt_segment.
  rewrite (num_field_run _ _ _ _ _ _ Hs).
  rewrite (num_field_run _ _ _ _ _ _ He).
  rewrite (text_field_run _ _ _ _ _ Ht).
  rewrite !bind_fwrite. unfold fwrite, modify, srt_cue.
  now rewrite !append_assoc.
Qed.

Lemma srt_loop (items : list pyval) (segs : list segment) :
  Forall2 is_segment items segs ->
  forall (i : nat) (buf : string),
    for_enumerate (Z.of_nat i) items srt_segment buf
    = (Normal tt,
       buf ++ concat_all (map (fun p => srt_cue (fst p) (snd p))
                              (combine (seq i (List.length segs)) segs))).
Proof.
  induction 1 as [|v s items segs Hv _ IH]; intros i buf.
  - simpl. unfold ret. now rewrite append_nil_r.
  - cbn [for_enumerate List.length seq combine map concat_all fst snd].
    rewrite (bind_normal (srt_segment_run i v s buf Hv)).
    replace (Z.of_nat i + 1) with (Z.of_nat (S i)) by lia.
    rewrite IH. now rewrite append_assoc.
Qed.

(** C5.  The numbered-cue exporter writes, for the segments in order, the
    1-based index, the [start --> end] line in the comma dialect, the
    trimmed text and a blank line; for the single segment 0.0 .. 1.5
    [" hello "] that is [1], [00:00:00,000 --> 00:00:01,500], [hello]
    and a blank line. *)
Theorem write_srt_cues (result : pyval) (segs : list segment) :
  has_segments result segs ->
  _write_srt result "" = (Normal tt, srt_text segs)
  /\ srt_text [mkSegment 0 (3 # 2) " hello "]
     = "1" ++ nl ++ "00:00:00,000 --> 00:00:01,500" ++ nl ++ "hello" ++ nl ++ nl
  /\ _write_srt
       (PDict [("text", PStr " hello ");
               ("segments", PList [PDict [("start", PFloat 0); ("end", PFloat (3 # 2));
                                          ("text", PStr " hello ")]])]) ""
     = (Normal tt,
        "1" ++ nl ++ "00:00:00,000 --> 00:00:01,500" ++ nl ++ "hello" ++ nl ++ nl).
Proof.
  intros (items & Hget & Hsegs).
  split; [|split; vm_compute; reflexivity].
  unfold _write_srt.
  rewrite (bind_lift_inr Hget). cbn [PyOp.iter]. rewrite bind_ret_lift.
  change 1 with (Z.of_nat 1).
  rewrite (srt_loop _ _ Hsegs). reflexivity.
Qed.

Lemma write_srt_cues_witness :
  _write_srt (PDict [("segments",
                      PList [PDict [("start", PInt 2); ("end", PFloat (5 # 2)); ("text", PStr "a ")];
                             PDict [("start", PFloat (5 # 2)); ("end", PInt 4); ("text", PStr "b")]])]) ""
  = (Normal tt, srt_text [mkSegment 2 (5 # 2) "a "; mkSegment (5 # 2) 4 "b"]).
Proof.
  apply (write_srt_cues _ [mkSegment 2 (5 # 2) "a "; mkSegment (5 # 2) 4 "b"]).
  eexists. split; [reflexivity|].
  repeat constructor.
Defined.

Lemma vtt_segment_run (suffix : string) (v : pyval) (s : segment) (buf : string) :
  is_segment v s ->
  vtt_segment suffix v buf = (Normal tt, buf ++ vtt_cue suffix s).
Proof.
  intros [Hs [He Ht]]. unfold vtt_segment.
  rewrite (num_field_run _ _ _ _ _ _ Hs).
  rewrite (num_field_run _ _ _ _ _ _ He).
  rewrite (text_field_run _ _ _ _ _ Ht).
  rewrite !bind_fwrite. unfold fwrite, modify, vtt_cue.
  now rewrite !append_assoc.
Qed.

Lemma vtt_loop (suffix : string) (items : list pyval) (segs : list segment) :
  Forall2 is_segment items segs ->
  forall buf : string,
    for_each items (vtt_segment suffix) buf = (Normal tt, buf ++ vtt_cues suffix segs).
Proof.
  induction 1 as [|v s items segs Hv _ IH]; intros buf.
  - simpl. unfold ret. now rewrite append_nil_r.
  - cbn [for_each].
    rewrite (bind_normal (vtt_segment_run suffix v s buf Hv)).
    rewrite IH. unfold vtt_cues. cbn [map concat_all]. now rewrite append_assoc.
Qed.

Lemma setting_text_strip (lms : dict) (key text : string) :
  setting_text lms key = Some text ->
  PyOp.strip (PyVal.get lms key (PStr "")) = inr (PyStr.strip text).
Proof.
  unfold setting_text. destruct (PyVal.get lms key (PStr "")); try discriminate.
  intros E; injection E as ->. reflexivity.
Qed.

Lemma vtt_style_block_run (lms : dict) (css buf : string) :
  (styling_enabled lms = true -> setting_text lms "css" = Some css) ->
  vtt_style_block lms buf
  = (Normal tt, buf ++ style_section (styling_enabled lms) (PyStr.strip css)).
Proof.
  unfold vtt_style_block, styling_enabled, style_section. intros Hcss.
  destruct (PyVal.truthy (PyVal.get lms "enabled" PNone)); cbn [andb].
  - rewrite (bind_lift_inr (setting_text_strip _ _ _ (Hcss eq_refl))).
    destruct (negb (PyStr.strip css =? "")%string).
    + rewrite !bind_fwrite. unfold fwrite, modify. now rewrite !append_assoc.
    + unfold ret. now rewrite append_nil_r.
  - unfold ret. now rewrite append_nil_r.
Qed.

Lemma vtt_cue_settings_run (lms : dict) (cue buf : string) :
  (styling_enabled lms = true -> setting_text lms "cue_settings" = Some cue) ->
  vtt_cue_settings lms buf
  = (Normal (cue_suffix (styling_enabled lms) (PyStr.strip cue)), buf).
Proof.
  unfold vtt_cue_settings, styling_enabled, cue_suffix. intros Hcue.
  destruct (PyVal.truthy (PyVal.get lms "enabled" PNone)); cbn [andb]; [|reflexivity].
  rewrite (bind_lift_inr (setting_text_strip _ _ _ (Hcue eq_refl))).
  destruct (String.eqb_spec (PyStr.strip cue) ""); cbn [negb]; [|reflexivity].
  unfold ret. now rewrite e.
Qed.

(** The whole web-caption file, for a result with well-formed segments
    and, when styling is on, textual settings. *)
Lemma write_vtt_text (lms : dict) (result : pyval) (segs : list segment)
      (css cue : string) :
  has_segments result segs ->
  (styling_enabled lms = true ->
   setting_text lms "css" = Some css /\ setting_text lms "cue_settings" = Some cue) ->
  _write_vtt lms result ""
  = (Normal tt,
     "WEBVTT" ++ nl
     ++ style_section (styling_enabled lms) (PyStr.strip css) ++ nl
     ++ vtt_cues (cue_suffix (styling_enabled lms) (PyStr.strip cue)) segs).
Proof.
  intros (items & Hget & Hsegs) Hset.
  unfold _write_vtt.
  rewrite bind_fwrite.
  rewrite (bind_normal (vtt_style_block_run lms css _ (fun H => proj1 (Hset H)))).
  rewrite bind_fwrite.
  rewrite (bind_normal (vtt_cue_settings_run lms cue _ (fun H => proj2 (Hset H)))).
  rewrite (bind_lift_inr Hget). cbn [PyOp.iter]. rewrite bind_ret_lift.
  rewrite (vtt_loop _ _ _ Hsegs). f_equal.
  cbn [append]. now rewrite !append_assoc.
Qed.

Lemma style_section_cases (enabled : bool) (style : string) :
  (enabled = true -> style <> "" ->
   style_section enabled style = nl ++ "STYLE" ++ nl ++ style ++ nl)
  /\ (enabled = false \/ style = "" -> style_section enabled style = "").
Proof.
  unfold style_section. split.
  - intros -> Hs. destruct (String.eqb_spec style ""); [contradiction | reflexivity].
  - intros [-> | ->]; [reflexivity | now rewrite andb_false_r].
Qed.

Lemma cue_suffix_cases (enabled : bool) (directive : string) :
  (enabled = true -> directive <> "" -> cue_suffix enabled directive = " " ++ directive)
  /\ (enabled = false \/ directive = "" -> cue_suffix enabled directive = "").
Proof.
  unfold cue_suffix. split.
  - intros -> Hs. destruct (String.eqb_spec directive ""); [contradiction | reflexivity].
  - intros [-> | ->]; [reflexivity | now rewrite andb_false_r].
Qed.

(** C6 (amended).  The web-caption exporter writes a style-block section
    exactly when styling is enabled and the style text is non-empty once
    trimmed; the section holds the trimmed text.  With styling disabled,
    whatever the style text, or with a blank style text, the header line
    is followed by the blank line and the cues only. *)
Theorem write_vtt_style_section (lms : dict) (result : pyval) (segs : list segment)
        (css cue : string) :
  has_segments result segs ->
  (styling_enabled lms = true ->
   setting_text lms "css" = Some css /\ setting_text lms "cue_settings" = Some cue) ->
  let cues := vtt_cues (cue_suffix (styling_enabled lms) (PyStr.strip cue)) segs in
  (styling_enabled lms = true -> PyStr.strip css <> "" ->
   _write_vtt lms result ""
   = (Normal tt,
      "WEBVTT" ++ nl ++ (nl ++ "STYLE" ++ nl ++ PyStr.strip css ++ nl) ++ nl ++ cues))
  /\ (styling_enabled lms = false \/ PyStr.strip css = "" ->
      _write_vtt lms result "" = (Normal tt, "WEBVTT" ++ nl ++ nl ++ cues)).
Proof.
  intros Hsegs Hset cues.
  pose proof (write_vtt_text lms result segs css cue Hsegs Hset) as E.
  destruct (style_section_cases (styling_enabled lms) (PyStr.strip css)) as [Hon Hoff].
  split.
  - intros Hen Hcss. rewrite E, (Hon Hen Hcss). reflexivity.
  - intros Hcase. rewrite E, (Hoff Hcase). reflexivity.
Qed.

Lemma write_vtt_style_section_witness :
  _write_vtt [("enabled", PBool true); ("cue_settings", PStr "line:80%");
              ("css", PStr ("::cue { color: red }" ++ nl))]
             (PDict [("segments",
                      PList [PDict [("start", PFloat 0); ("end", PFloat (3 # 2));
                                    ("text", PStr " hello ")]])]) ""
  = (Normal tt,
     "WEBVTT" ++ nl ++ nl ++ "STYLE" ++ nl ++ "::cue { color: red }" ++ nl ++ nl
     ++ "00:00:00.000 --> 00:00:01.500 line:80%" ++ nl ++ "hello" ++ nl ++ nl).
Proof.
  refine (proj1 (write_vtt_style_section
                   [("enabled", PBool true); ("cue_settings", PStr "line:80%");
                    ("css", PStr ("::cue { color: red }" ++ nl))]
                   _ [mkSegment 0 (3 # 2) " hello "]
                   ("::cue { color: red }" ++ nl) "line:80%" _ _) _ _).
  - eexists. split; [reflexivity | repeat constructor].
  - intros _. split; reflexivity.
  - reflexivity.
  - vm_compute. discriminate.
Defined.

(** C6 as stated fails: a style text of blanks is non-empty, yet no
    style block is written; a style text with surrounding white space is
    not written verbatim. *)
Lemma write_vtt_style_section_not_verbatim :
  let result := PDict [("text", PStr ""); ("segments", PList [])] in
  let blank := [("enabled", PBool true); ("cue_settings", PStr ""); ("css", PStr "   ")] in
  let padded := [("enabled", PBool true); ("cue_settings", PStr "");
                 ("css", PStr (" ::cue {}" ++ nl ++ nl))] in
  (styling_enabled blank = true /\ setting_text blank "css" = Some "   "
   /\ _write_vtt blank result "" = (Normal tt, "WEBVTT" ++ nl ++ nl)
   /\ snd (_write_vtt blank result "")
      <> "WEBVTT" ++ nl ++ style_section true "   " ++ nl)
  /\ (styling_enabled padded = true
      /\ setting_text padded "css" = Some (" ::cue {}" ++ nl ++ nl)
      /\ _write_vtt padded result ""
         = (Normal tt, "WEBVTT" ++ nl ++ nl ++ "STYLE" ++ nl ++ "::cue {}" ++ nl ++ nl)
      /\ snd (_write_vtt padded result "")
         <> "WEBVTT" ++ nl ++ style_section true (" ::cue {}" ++ nl ++ nl) ++ nl).
Proof.
  cbv zeta. repeat split; try (vm_compute; reflexivity); vm_compute; discriminate.
Qed.

(** C7 (amended).  With styling enabled and a directive that is non-empty
    once trimmed, every timestamp line of the web-caption file ends with
    one space and the trimmed directive; with styling disabled or a blank
    directive nothing is appended to any timestamp line. *)
Theorem write_vtt_cue_directive (lms : dict) (result : pyval) (segs : list segment)
        (css cue : string) :
  has_segments result segs ->
  (styling_enabled lms = true ->
   setting_text lms "css" = Some css /\ setting_text lms "cue_settings" = Some cue) ->
  let header := "WEBVTT" ++ nl ++ style_section (styling_enabled lms) (PyStr.strip css) ++ nl in
  (styling_enabled lms = true -> PyStr.strip cue <> "" ->
   _write_vtt lms result ""
   = (Normal tt, header ++ vtt_cues (" " ++ PyStr.strip cue) segs))
  /\ (styling_enabled lms = false \/ PyStr.strip cue = "" ->
      _write_vtt lms result "" = (Normal tt, header ++ vtt_cues "" segs)).
Proof.
  intros Hsegs Hset header.
  pose proof (write_vtt_text lms result segs css cue Hsegs Hset) as E.
  destruct (cue_suffix_cases (styling_enabled lms) (PyStr.strip cue)) as [Hon Hoff].
  split.
  - intros Hen Hcue. rewrite E, (Hon Hen Hcue). subst header.
    cbn [append]. now rewrite !append_assoc.
  - intros Hcase. rewrite E, (Hoff Hcase). subst header.
    cbn [append]. now rewrite !append_assoc.
Qed.

Lemma write_vtt_cue_directive_witness :
  _write_vtt [("enabled", PBool true); ("cue_settings", PStr "line:90% align:start");
              ("css", PStr "")]
             (PDict [("segments",
                      PList [PDict [("start", PFloat 0); ("end", PFloat (3 # 2)); ("text", PStr "a")];
                             PDict [("start", PFloat (3 # 2)); ("end", PFloat 2); ("text", PStr "b")]])])
             ""
  = (Normal tt,
     "WEBVTT" ++ nl ++ nl
     ++ "00:00:00.000 --> 00:00:01.500 line:90% align:start" ++ nl ++ "a" ++ nl ++ nl
     ++ "00:00:01.500 --> 00:00:02.000 line:90% align:start" ++ nl ++ "b" ++ nl ++ nl).
Proof.
  refine (proj1 (write_vtt_cue_directive
                   [("enabled", PBool true); ("cue_settings", PStr "line:90% align:start");
                    ("css", PStr "")]
                   _ [mkSegment 0 (3 # 2) "a"; mkSegment (3 # 2) 2 "b"]
                   "" "line:90% align:start" _ _) _ _).
  - eexists. split; [reflexivity | repeat constructor].
  - intros _. split; reflexivity.
  - reflexivity.
  - vm_compute. discriminate.
Defined.

(** C7 as stated fails: a directive with surrounding white space is
    appended trimmed, not as configured, and a directive of blanks is
    non-empty yet nothing is appended. *)
Lemma write_vtt_cue_directive_not_verbatim :
  let result := PDict [("segments",
                        PList [PDict [("start", PFloat 0); ("end", PFloat (3 # 2));
                                      ("text", PStr "a")]])] in
  let segs := [mkSegment 0 (3 # 2) "a"] in
  let padded := [("enabled", PBool true); ("cue_settings", PStr " line:80% "); ("css", PStr "")] in
  let blank := [("enabled", PBool true); ("cue_settings", PStr "  "); ("css", PStr "")] in
  (setting_text padded "cue_settings" = Some " line:80% "
   /\ _write_vtt padded result ""
      = (Normal tt, "WEBVTT" ++ nl ++ nl
                    ++ "00:00:00.000 --> 00:00:01.500 line:80%" ++ nl ++ "a" ++ nl ++ nl)
   /\ snd (_write_vtt padded result "")
      <> "WEBVTT" ++ nl ++ nl ++ vtt_cues (cue_suffix true " line:80% ") segs)
  /\ (setting_text blank "cue_settings" = Some "  "
      /\ _write_vtt blank result ""
         = (Normal tt, "WEBVTT" ++ nl ++ nl
                       ++ "00:00:00.000 --> 00:00:01.500" ++ nl ++ "a" ++ nl ++ nl)
      /\ snd (_write_vtt blank result "")
         <> "WEBVTT" ++ nl ++ nl ++ vtt_cues (cue_suffix true "  ") segs).
Proof.
  cbv zeta. repeat split; try (vm_compute; reflexivity); vm_compute; discriminate.
Qed.

(* ================================================================== *)
(** * Traces *)
(* ================================================================== *)

Lemma events_app (t1 t2 : list action) : events (t1 ++ t2) = (events t1 ++ events t2)%list.
Proof. apply flat_map_app. Qed.

Lemma written_paths_app (t1 t2 : list action) :
  written_paths (t1 ++ t2) = (written_paths t1 ++ written_paths t2)%list.
Proof. apply flat_map_app. Qed.

Lemma load_attempts_app (t1 t2 : list action) :
  load_attempts (t1 ++ t2) = (load_attempts t1 ++ load_attempts t2)%list.
Proof. apply flat_map_app. Qed.

Lemma percentages_app (e1 e2 : list event) :
  percentages (e1 ++ e2) = (percentages e1 ++ percentages e2)%list.
Proof. apply flat_map_app. Qed.

Lemma events_emit (t : list action) (e : event) :
  events (t ++ [Emit e]) = (events t ++ [e])%list.
Proof. now rewrite events_app. Qed.

Lemma events_quiet (t : list action) (a : action) :
  (forall e, a <> Emit e) -> events (t ++ [a]) = events t.
Proof.
  intros Ha. rewrite events_app. destruct a; cbn; try apply app_nil_r.
  now destruct (Ha e).
Qed.

Lemma written_paths_file (t : list action) (p : Path) (c : string) :
  written_paths (t ++ [FileWrite p c]) = (written_paths t ++ [p])%list.
Proof. now rewrite written_paths_app. Qed.

Lemma written_paths_other (t : list action) (a : action) :
  (forall p c, a <> FileWrite p c) -> written_paths (t ++ [a]) = written_paths t.
Proof.
  intros Ha. rewrite written_paths_app. destruct a; cbn; try apply app_nil_r.
  now destruct (Ha path content).
Qed.

Lemma load_attempts_other (t : list action) (a : action) :
  (forall n v, a <> LoadModel n v) -> load_attempts (t ++ [a]) = load_attempts t.
Proof.
  intros Ha. rewrite load_attempts_app. destruct a; cbn; try apply app_nil_r.
  now destruct (Ha name verified).
Qed.

Lemma live_nil : live [].
Proof. intros []. Qed.

Lemma live_snoc (t : list action) (a : action) :
  live t -> a <> CancelRead true -> live (t ++ [a]).
Proof.
  unfold live. intros Ht Ha Hin. apply in_app_or in Hin as [Hin | [Hin | []]]; auto.
Qed.

Lemma is_prefix_refl {A} (l : list A) : is_prefix l l.
Proof. exists []. now rewrite app_nil_r. Qed.

Lemma is_prefix_nil {A} (l : list A) : is_prefix [] l.
Proof. now exists l. Qed.

Lemma is_prefix_app {A} (l r : list A) : is_prefix l (l ++ r).
Proof. now exists r. Qed.

Lemma is_prefix_trans {A} (l1 l2 l3 : list A) :
  is_prefix l1 l2 -> is_prefix l2 l3 -> is_prefix l1 l3.
Proof. intros [r1 ->] [r2 ->]. exists (r1 ++ r2)%list. now rewrite app_assoc. Qed.

Lemma is_prefix_map {A B} (f : A -> B) (l1 l2 : list A) :
  is_prefix l1 l2 -> is_prefix (map f l1) (map f l2).
Proof. intros [r ->]. exists (map f r). apply map_app. Qed.

Lemma is_prefix_app_l {A} (l l1 l2 : list A) :
  is_prefix l1 l2 -> is_prefix (l ++ l1) (l ++ l2).
Proof. intros [r ->]. exists r. now rewrite app_assoc. Qed.

(* ================================================================== *)
(** * The steps of [run] *)
(* ================================================================== *)

(* ================================================================== *)
(** * The steps of [run] *)
(* ================================================================== *)

Section Steps.
Variable float_repr : Q -> string.
Variable rt : env.
Variable self : job.

Lemma cancelled_run (w : world) :
    cancelled rt w = (Normal (flag_at rt (flag_reads w)), note_read (flag_at rt (flag_reads w)) w).
  Proof. reflexivity. Qed.

Lemma return_if_cancelled_run (w : world) :
    return_if_cancelled rt w
    = if flag_at rt (flag_reads w) then (Returned, note_read true w)
      else (Normal tt, note_read false w).
  Proof.
    unfold return_if_cancelled. rewrite (bind_normal (cancelled_run w)).
    now destruct (flag_at rt (flag_reads w)).
  Qed.

Lemma emit_run (e : event) (w : world) : emit e w = (Normal tt, add (Emit e) w).
  Proof. reflexivity. Qed.

Lemma with_open_writer (body : W unit) : file_writer (fun path => with_open rt path body).
  Proof.
    intros path w. unfold with_open.
    destruct (open_error rt path) as [e|].
    - left. now exists e.
    - right. exists (snd (body "")).
      unfold log, modify, bind. destruct (fst (body "")); eexists; reflexivity.
  Qed.

Lemma lifted_writer (content : exn + string) :
    file_writer (fun path => c <- lift content ;; with_open rt path (fwrite c)).
  Proof.
    intros path w. destruct content as [e|c].
    - left. now exists e.
    - apply (with_open_writer (fwrite c)).
  Qed.

Lemma blocks_writers (result : pyval) :
    Forall file_writer (map snd (blocks float_repr rt self result)).
  Proof.
    unfold blocks. cbn [map snd].
    repeat (apply Forall_cons;
            [first [exact (with_open_writer _) | exact (lifted_writer _)]|]).
    apply Forall_nil.
  Qed.

Lemma write_outputs_blocks (base : string) (ppf : Q) (result : pyval) (w : world) :
    write_outputs float_repr rt self base ppf result w
    = export_blocks rt self base ppf (blocks float_repr rt self result) ([], 80%Q) w.
  Proof.
    unfold write_outputs, blocks. cbn [export_blocks].
    unfold bind.
    repeat match goal with
           | |- context [match ?m ?s with _ => _ end] =>
               lazymatch m with
               | export_block _ _ _ _ _ _ _ => destruct (m s) as [[? | | ?] ?]
               end
           end; reflexivity.
  Qed.

  (** One block, case by case. *)
Lemma export_block_run (base : string) (ppf : Q) (ext : string)
        (write : Path -> M world unit) (st : list string * Q) (w : world) :
    export_block rt self base ppf ext write st w
    = if requested (output_formats self) ext then
        if flag_at rt (flag_reads w) then (Returned, note_read true w)
        else
          let path := PathOps.truediv (output_dir self) (base ++ "_transcript." ++ ext) in
          match write path (note_read false w) with
          | (Normal _, w') =>
              (Normal ((fst st ++ [PathOps.str (os_sep rt) path])%list, (PyNum.add (snd st) ppf)),
               add (Emit (Progress ("Created " ++ PathOps.name path)
                                   (PyNum.int (PyNum.add (snd st) ppf)))) w')
          | (Returned, w') => (Returned, w')
          | (Raised e, w') => (Raised e, w')
          end
      else (Normal st, w).
  Proof.
    unfold export_block.
    destruct (requested (output_formats self) ext); [|reflexivity].
    unfold bind at 1. rewrite return_if_cancelled_run.
    destruct (flag_at rt (flag_reads w)); [reflexivity|].
    cbv zeta. unfold bind at 1.
    destruct (write _ (note_read false w)) as [[[] | | e] w']; reflexivity.
  Qed.

End Steps.

(* ================================================================== *)
(** * The writing phase *)
(* ================================================================== *)

Section WritingPhase.
Variable float_repr : Q -> string.
Variable rt : env.
Variable self : job.
Variable loads : list bool.
Variable ssl : bool.

Let R := requested_formats self.
Let base := PathOps.stem (file_path self).
Let ppf := per_format self.

Lemma created_from_app (k : nat) (a b : list string) :
    created_from self k (a ++ b)
    = (created_from self k a ++ created_from self (k + List.length a) b)%list.
  Proof.
    revert k. induction a as [|x a IH]; intros k; cbn [created_from List.length app].
    - now rewrite Nat.add_0_r.
    - rewrite IH. now replace (S k + List.length a)%nat with (k + S (List.length a))%nat by lia.
  Qed.

Lemma phase_inv_running {done : list string} {st : list string * Q} {w : world} :
    phase_inv rt self loads ssl done st w -> running self loads ssl w.
  Proof.
    intros (Hpre & Hev & Hwr & Hl & Hs & Hlive & _).
    repeat split; auto.
    - rewrite Hev. unfold all_progress. apply is_prefix_app_l.
      destruct Hpre as [r ->]. rewrite created_from_app. apply is_prefix_app.
    - rewrite Hwr. now apply is_prefix_map.
  Qed.

Lemma running_snoc (w : world) (a : action) :
    (forall e, a <> Emit e) -> (forall p c, a <> FileWrite p c) ->
    (forall n v, a <> LoadModel n v) -> a <> CancelRead true ->
    running self loads ssl w ->
    forall w', trace w' = (trace w ++ [a])%list -> ssl_verified w' = ssl_verified w ->
    running self loads ssl w'.
  Proof.
    intros H1 H2 H3 H4 (Hev & Hwr & Hl & Hs & Hlive) w' Ht Hs'. unfold running.
    rewrite Ht, Hs', events_quiet, written_paths_other, load_attempts_other by assumption.
    repeat split; auto. now apply live_snoc.
  Qed.

Lemma running_read_false (w : world) :
    running self loads ssl w -> running self loads ssl (note_read false w).
  Proof.
    intros H. apply (running_snoc w (CancelRead false)); auto; discriminate.
  Qed.

Lemma phase_inv_read_false (done : list string) (st : list string * Q) (w : world) :
    phase_inv rt self loads ssl done st w ->
    phase_inv rt self loads ssl done st (note_read false w).
  Proof.
    intros (Hpre & Hev & Hwr & Hl & Hs & Hlive & Hst). unfold phase_inv, note_read.
    cbn [trace ssl_verified].
    rewrite events_quiet, written_paths_other, load_attempts_other by discriminate.
    repeat split; auto.
    apply live_snoc; [exact Hlive | discriminate].
  Qed.

Lemma running_file {w : world} {done : list string} {st : list string * Q}
        {ext : string} (content : string) :
    phase_inv rt self loads ssl done st w ->
    is_prefix (done ++ [ext]) R ->
    running self loads ssl (add (FileWrite (artifact self ext) content) w).
  Proof.
    intros Hinv Hpre.
    pose proof (phase_inv_running Hinv) as (Hev & _ & Hl & Hs & Hlive).
    destruct Hinv as (_ & _ & Hwr & _).
    unfold running, add. cbn [trace ssl_verified].
    rewrite events_quiet, written_paths_file, load_attempts_other by discriminate.
    repeat split; auto.
    - rewrite Hwr. change [artifact self ext] with (map (artifact self) [ext]).
      rewrite <- map_app. now apply is_prefix_map.
    - apply live_snoc; [exact Hlive | discriminate].
  Qed.

  (** A requested format has been written and announced. *)
Lemma phase_inv_step {w : world} {done : list string} {st : list string * Q}
        {ext : string} (content : string) :
    phase_inv rt self loads ssl done st w ->
    is_prefix (done ++ [ext]) R ->
    phase_inv rt self loads ssl (done ++ [ext])
      ((fst st ++ [PathOps.str (os_sep rt) (artifact self ext)])%list, (PyNum.add (snd st) ppf))
      (add (Emit (Progress ("Created " ++ PathOps.name (artifact self ext))
                           (PyNum.int (PyNum.add (snd st) ppf))))
           (add (FileWrite (artifact self ext) content) w)).
  Proof.
    intros (_ & Hev & Hwr & Hl & Hs & Hlive & ->) Hpre.
    unfold phase_inv, add. cbn [trace ssl_verified fst snd].
    rewrite events_emit, events_quiet by discriminate.
    rewrite written_paths_other, written_paths_file by discriminate.
    rewrite !load_attempts_other by discriminate.
    repeat split; auto.
    - rewrite Hev, created_from_app, <- app_assoc. reflexivity.
    - rewrite Hwr, map_app. reflexivity.
    - apply live_snoc; [|discriminate]. apply live_snoc; [exact Hlive | discriminate].
    - rewrite map_app, length_app. cbn [map List.length].
      now rewrite Nat.add_1_r.
  Qed.

Lemma export_blocks_inv (bs : list (string * (Path -> M world unit))) :
    Forall file_writer (map snd bs) ->
    forall (done : list string) (st : list string * Q) (w : world),
      R = (done ++ filter (requested (output_formats self)) (map fst bs))%list ->
      phase_inv rt self loads ssl done st w ->
      match export_blocks rt self base ppf bs st w with
      | (Normal st', w') => phase_inv rt self loads ssl R st' w'
      | (Returned, w') =>
          running self loads ssl w'
          \/ exists w0, running self loads ssl w0 /\ w' = note_read true w0
      | (Raised e, w') => running self loads ssl w'
      end.
  Proof.
    induction bs as [|[ext write] rest IH]; intros Hwriters done st w HR Hinv.
    - cbn in *. rewrite app_nil_r in HR. now rewrite HR.
    - cbn [map snd fst filter] in *. inversion Hwriters as [|? ? Hwrite Hrest]; subst.
      cbn [export_blocks]. unfold bind at 1. rewrite export_block_run.
      destruct (requested (output_formats self) ext) eqn:Hreq.
      + destruct (flag_at rt (flag_reads w)).
        * right. exists w. split; [exact (phase_inv_running Hinv) | reflexivity].
        * cbv zeta. subst base. fold (artifact self ext).
          assert (Hpre : is_prefix (done ++ [ext]) R).
          { rewrite HR. exists (filter (requested (output_formats self)) (map fst rest)).
            now rewrite <- app_assoc. }
          apply phase_inv_read_false in Hinv.
          destruct (Hwrite (artifact self ext) (note_read false w))
            as [[e ->] | [content [o ->]]].
          -- exact (phase_inv_running Hinv).
          -- pose proof (running_file content Hinv Hpre) as Hrun.
             destruct o as [[] | | e]; [|now left | exact Hrun].
             apply (IH Hrest (done ++ [ext])%list); [now rewrite <- app_assoc |].
             exact (phase_inv_step content Hinv Hpre).
      + apply (IH Hrest done); auto.
  Qed.

End WritingPhase.

(* ================================================================== *)
(** * The shape of a job *)
(* ================================================================== *)

Section JobShape.
Variable float_repr : Q -> string.
Variable rt : env.
Variable self : job.

Lemma running_shape (loads : list bool) (ssl : bool) (w : world) :
    running self loads ssl w -> run_shape rt self loads ssl w.
  Proof.
    intros (Hev & Hwr & Hl & Hs & Hlive).
    exists (events (trace w)), []. rewrite app_nil_r. repeat split; auto.
  Qed.

Lemma cancelled_shape (loads : list bool) (ssl : bool) (w : world) :
    running self loads ssl w -> run_shape rt self loads ssl (note_read true w).
  Proof.
    intros (Hev & Hwr & Hl & Hs & Hlive).
    exists (events (trace w)), []. unfold note_read. cbn [trace ssl_verified].
    rewrite events_quiet, written_paths_other, load_attempts_other by discriminate.
    rewrite app_nil_r. repeat split; auto.
    right. now exists (trace w).
  Qed.

Lemma failed_shape (loads : list bool) (ssl : bool) (w : world) (m : string) :
    running self loads ssl w ->
    run_shape rt self loads ssl (add (Emit (Error m)) (note_read false w)).
  Proof.
    intros (Hev & Hwr & Hl & Hs & Hlive).
    exists (events (trace w)), [Error m]. unfold note_read, add. cbn [trace ssl_verified].
    rewrite events_emit, events_quiet by discriminate.
    rewrite !written_paths_other, !load_attempts_other by discriminate.
    repeat split; eauto.
    left. apply live_snoc; [|discriminate]. apply live_snoc; [exact Hlive | discriminate].
  Qed.

Lemma handler_shape (loads : list bool) (ssl : bool) (e : exn) (w : world) :
    running self loads ssl w -> run_shape rt self loads ssl (snd (handler rt e w)).
  Proof.
    intros Hrun. unfold handler.
    destruct (is_FileNotFoundError e);
      rewrite (bind_normal (cancelled_run rt w));
      (destruct (flag_at rt (flag_reads w)); cbn [negb];
       [now apply cancelled_shape | rewrite emit_run; now apply failed_shape]).
  Qed.

Lemma finish_shape (loads : list bool) (ssl : bool) (st : list string * Q) (w : world) :
    phase_inv rt self loads ssl (requested_formats self) st w ->
    match (c <- cancelled rt ;; if negb c then emit (Finished (fst st)) else ret tt) w with
    | (Raised e, w') => running self loads ssl w'
    | (_, w') => run_shape rt self loads ssl w'
    end.
  Proof.
    intros Hinv. rewrite (bind_normal (cancelled_run rt w)).
    destruct (flag_at rt (flag_reads w)); cbn [negb].
    - apply cancelled_shape. exact (phase_inv_running rt self loads ssl Hinv).
    - rewrite emit_run.
      destruct Hinv as (_ & Hev & Hwr & Hl & Hs & Hlive & ->).
      exists (all_progress self), [Finished (created_files rt self)].
      unfold note_read, add. cbn [trace ssl_verified fst].
      rewrite events_emit, events_quiet by discriminate.
      rewrite !written_paths_other, !load_attempts_other by discriminate.
      unfold created_files, artifacts. rewrite map_map.
      repeat split; auto.
      + now rewrite Hev.
      + apply is_prefix_refl.
      + rewrite Hwr. apply is_prefix_refl.
      + left. apply live_snoc; [|discriminate]. apply live_snoc; [exact Hlive | discriminate].
  Qed.

  (** The percentage increment is always defined. *)
Lemma progress_per_format_total (n : Z) :
    progress_per_format n = inr (if n >? 0 then PyNum.truediv 15 (inject_Z n) else 15%Q).
  Proof.
    unfold progress_per_format, PyOp.truediv.
    destruct (Z.gtb_spec n 0) as [Hn|Hn]; [|reflexivity].
    destruct (Qeq_bool (inject_Z n) 0) eqn:E; [|reflexivity].
    apply Qeq_bool_iff in E. unfold Qeq, inject_Z in E. cbn in E. lia.
  Qed.

Lemma per_format_run :
    progress_per_format (Z.of_nat (List.length (output_formats self)))
    = inr (per_format self).
  Proof. unfold per_format. now rewrite progress_per_format_total. Qed.

  (** The model load and its one retry, case by case. *)
Lemma load_model_run (w : world) :
    load_model rt self w
    = match load_model_error rt (load_calls w) (ssl_verified w) with
      | Some e => (Raised e, note_load (model_name self) w)
      | None => (Normal tt, note_load (model_name self) w)
      end.
  Proof.
    unfold load_model, bind, gets, modify.
    now destruct (load_model_error rt (load_calls w) (ssl_verified w)).
  Qed.

Lemma load_model_with_retry_run (w : world) :
    load_model_with_retry rt self w
    = match load_model_error rt (load_calls w) (ssl_verified w) with
      | None => (Normal tt, note_load (model_name self) w)
      | Some e =>
          if certificate_failure e then
            let w' := note_load (model_name self) (unverify (note_load (model_name self) w)) in
            match load_model_error rt (S (load_calls w)) false with
            | None => (Normal tt, w')
            | Some e' => (Raised e', w')
            end
          else (Raised e, note_load (model_name self) w)
      end.
  Proof.
    unfold load_model_with_retry, try_except. rewrite load_model_run.
    destruct (load_model_error rt (load_calls w) (ssl_verified w)) as [e|]; [|reflexivity].
    unfold certificate_failure.
    destruct (is_URLError e); cbn [andb]; [|reflexivity].
    destruct (PyStr.contains "CERTIFICATE_VERIFY_FAILED" (exn_str e)); [|reflexivity].
    unfold create_unverified_context. unfold bind at 1, modify at 1.
    rewrite load_model_run. reflexivity.
  Qed.

Lemma transcribe_run (w : world) :
    transcribe rt self w
    = match transcribe_result rt with
      | inl e => (Raised e, add (Transcribe (file_path self) "en" "transcribe") w)
      | inr result => (Normal result, add (Transcribe (file_path self) "en" "transcribe") w)
      end.
  Proof. unfold transcribe, log, modify, bind, lift. now destruct (transcribe_result rt). Qed.

End JobShape.

Section JobSummary.
Variable float_repr : Q -> string.
Variable rt : env.
Variable self : job.

Ltac step := unfold bind at 1.

Lemma before_exports_snoc (loads : list bool) (ssl : bool) (es : list event)
        (w w' : world) (a : action) :
    (forall e, a <> Emit e) -> (forall p c, a <> FileWrite p c) ->
    (forall n v, a <> LoadModel n v) -> a <> CancelRead true ->
    trace w' = (trace w ++ [a])%list -> ssl_verified w' = ssl_verified w ->
    before_exports loads ssl es w -> before_exports loads ssl es w'.
  Proof.
    intros H1 H2 H3 H4 Ht Hs' (Hev & Hwr & Hl & Hs & Hlive). unfold before_exports.
    rewrite Ht, Hs', events_quiet, written_paths_other, load_attempts_other by assumption.
    repeat split; auto. now apply live_snoc.
  Qed.

Lemma before_exports_read (loads : list bool) (ssl : bool) (es : list event) (w : world) :
    before_exports loads ssl es w -> before_exports loads ssl es (note_read false w).
  Proof. apply before_exports_snoc with (a := CancelRead false); try discriminate; reflexivity. Qed.

Lemma before_exports_transcribe (loads : list bool) (ssl : bool) (es : list event)
        (w : world) :
    before_exports loads ssl es w ->
    before_exports loads ssl es (add (Transcribe (file_path self) "en" "transcribe") w).
  Proof.
    apply before_exports_snoc with (a := Transcribe (file_path self) "en" "transcribe");
      try discriminate; reflexivity.
  Qed.

Lemma before_exports_emit (loads : list bool) (ssl : bool) (es : list event)
        (e : event) (w : world) :
    before_exports loads ssl es w ->
    before_exports loads ssl (es ++ [e]) (add (Emit e) w).
  Proof.
    intros (Hev & Hwr & Hl & Hs & Hlive). unfold before_exports, add. cbn [trace ssl_verified].
    rewrite events_emit, written_paths_other, load_attempts_other by discriminate.
    repeat split; auto; [congruence|]. apply live_snoc; [exact Hlive | discriminate].
  Qed.

Lemma before_exports_load (ssl : bool) (es : list event) (loads : list bool) (w : world) :
    before_exports loads ssl es w ->
    before_exports (loads ++ [ssl]) ssl es (note_load (model_name self) w).
  Proof.
    intros (Hev & Hwr & Hl & Hs & Hlive). unfold before_exports, note_load.
    cbn [trace ssl_verified].
    rewrite events_quiet, written_paths_other, load_attempts_app by discriminate.
    cbn. rewrite Hs, Hl. repeat split; auto. apply live_snoc; [exact Hlive | discriminate].
  Qed.

Lemma before_exports_unverify (ssl : bool) (es : list event) (loads : list bool) (w : world) :
    before_exports loads ssl es w -> before_exports loads false es (unverify w).
  Proof. intros (Hev & Hwr & Hl & Hs & Hlive). repeat split; auto. Qed.

Lemma before_exports_running (loads : list bool) (ssl : bool) (es : list event) (w : world) :
    is_prefix es (all_progress self) ->
    before_exports loads ssl es w -> running self loads ssl w.
  Proof.
    intros Hpre (Hev & Hwr & Hl & Hs & Hlive). unfold running.
    rewrite Hev, Hwr. repeat split; auto. apply is_prefix_nil.
  Qed.

Lemma before_exports_phase (loads : list bool) (ssl : bool) (w : world) :
    before_exports loads ssl (phase_events self) w ->
    phase_inv rt self loads ssl [] ([], 80%Q) w.
  Proof.
    intros (Hev & Hwr & Hl & Hs & Hlive). unfold phase_inv. cbn [created_from map List.length].
    rewrite app_nil_r. repeat split; auto. apply is_prefix_nil.
  Qed.

Ltac prefix_of_progress :=
    unfold all_progress, phase_events; cbn [app]; eexists; reflexivity.

  (** From the loaded model to the end of the body. *)
Lemma transcribe_and_export_shape (loads : list bool) (ssl : bool) (w : world) :
    before_exports loads ssl
      [Progress ("Loading " ++ model_name self ++ " model (first time downloads)...") 5] w ->
    match transcribe_and_export float_repr rt self w with
    | (Raised e, w') => running self loads ssl w'
    | (_, w') => run_shape rt self loads ssl w'
    end.
  Proof.
    intros H5. unfold transcribe_and_export.
    step. rewrite return_if_cancelled_run.
    destruct (flag_at rt (flag_reads w)).
    { apply cancelled_shape. eapply before_exports_running; [|exact H5]. prefix_of_progress. }
    apply before_exports_read in H5.
    step. rewrite emit_run. apply before_exports_emit with (e := Progress "Model loaded successfully." 10) in H5.
    step. rewrite emit_run.
    apply before_exports_emit
      with (e := Progress "Transcribing audio... This may take several minutes." 20) in H5.
    step. rewrite transcribe_run.
    apply before_exports_transcribe in H5.
    destruct (transcribe_result rt) as [e|result].
    { eapply before_exports_running; [|exact H5]. prefix_of_progress. }
    step. rewrite return_if_cancelled_run.
    match goal with |- context [flag_at rt ?n] => destruct (flag_at rt n) end.
    { apply cancelled_shape. eapply before_exports_running; [|exact H5]. prefix_of_progress. }
    apply before_exports_read in H5.
    step. rewrite emit_run.
    apply before_exports_emit
      with (e := Progress "Transcription complete. Writing output files..." 80) in H5.
    cbv zeta. step. rewrite per_format_run. cbn [lift].
    step. rewrite write_outputs_blocks.
    apply before_exports_phase in H5.
    pose proof (export_blocks_inv rt self loads ssl
                  (blocks float_repr rt self result) (blocks_writers float_repr rt self result)
                  [] ([], 80%Q) _ eq_refl H5) as Hblocks.
    match type of Hblocks with
    | match ?r with _ => _ end => destruct r as [[st | | e] w']
    end.
    - apply finish_shape. exact Hblocks.
    - destruct Hblocks as [Hrun | (w0 & Hrun & ->)].
      + now apply running_shape.
      + now apply cancelled_shape.
    - exact Hblocks.
  Qed.

Variable verified : bool.

Lemma run_body_shape :
    match run_body float_repr rt self (init_world verified) with
    | (Raised e, w) => running self (load_plan rt verified) (ssl_after rt verified) w
    | (_, w) => run_shape rt self (load_plan rt verified) (ssl_after rt verified) w
    end.
  Proof.
    assert (H0 : before_exports [] verified [] (init_world verified)).
    { repeat split. apply live_nil. }
    unfold run_body, load_plan, ssl_after, load_plan.
    step. unfold imports. destruct (import_error rt) as [e|] eqn:Himp.
    { cbn [raise]. eapply before_exports_running; [|exact H0]. apply is_prefix_nil. }
    cbn [ret].
    step. rewrite return_if_cancelled_run. cbn [flag_reads init_world].
    destruct (flag_at rt 0) eqn:F0.
    { apply cancelled_shape. eapply before_exports_running; [|exact H0]. apply is_prefix_nil. }
    apply before_exports_read in H0.
    step. rewrite emit_run.
    apply before_exports_emit
      with (e := Progress ("Loading " ++ model_name self ++ " model (first time downloads)...") 5)
      in H0.
    cbn [app] in H0.
    step. rewrite load_model_with_retry_run.
    cbn [load_calls ssl_verified add note_read init_world].
    apply before_exports_load in H0. cbn [app] in H0.
    destruct (load_model_error rt 0 verified) as [e0|] eqn:L0.
    - destruct (certificate_failure e0) eqn:C0.
      + cbv zeta.
        apply before_exports_unverify, before_exports_load in H0. cbn [app] in H0.
        destruct (load_model_error rt 1 false) as [e1|] eqn:L1.
        * eapply before_exports_running; [|exact H0]. prefix_of_progress.
        * apply transcribe_and_export_shape. exact H0.
      + eapply before_exports_running; [|exact H0]. prefix_of_progress.
    - apply transcribe_and_export_shape. exact H0.
  Qed.

  (** Every job has the specified shape. *)
Lemma run_summary_holds :
    run_summary rt self verified (snd (run float_repr rt self (init_world verified))).
  Proof.
    unfold run_summary, run, try_except.
    pose proof run_body_shape as H.
    destruct (run_body float_repr rt self (init_world verified)) as [[[] | | e] w].
    - exact H.
    - exact H.
    - now apply handler_shape.
  Qed.

End JobSummary.

(* ================================================================== *)
(** * The start of a job, case by case *)
(* ================================================================== *)

Section JobStart.
Variable float_repr : Q -> string.
Variable rt : env.
Variable self : job.
Variable verified : bool.

Lemma handler_run (e : exn) (w : world) :
    handler rt e w
    = if flag_at rt (flag_reads w) then (Normal tt, note_read true w)
      else (Normal tt, add (Emit (Error (error_message e))) (note_read false w)).
  Proof.
    unfold handler, error_message.
    destruct (is_FileNotFoundError e); cbn [andb];
      rewrite (bind_normal (cancelled_run rt w));
      destruct (flag_at rt (flag_reads w)); reflexivity.
  Qed.

Let loading : event :=
    Progress ("Loading " ++ model_name self ++ " model (first time downloads)...") 5.

Let w5 : world := add (Emit loading) (note_read false (init_world verified)).

Lemma run_start :
    run float_repr rt self (init_world verified)
    = match import_error rt with
      | Some e => handler rt e (init_world verified)
      | None =>
          if flag_at rt 0 then (Returned, note_read true (init_world verified))
          else
            match load_model_error rt 0 verified with
            | None =>
                try_except (transcribe_and_export float_repr rt self) (handler rt)
                           (note_load (model_name self) w5)
            | Some e0 =>
                if certificate_failure e0 then
                  let w' := note_load (model_name self)
                                      (unverify (note_load (model_name self) w5)) in
                  match load_model_error rt 1 false with
                  | None =>
                      try_except (transcribe_and_export float_repr rt self) (handler rt) w'
                  | Some e1 => handler rt e1 w'
                  end
                else handler rt e0 (note_load (model_name self) w5)
            end
      end.
  Proof.
    unfold run, try_except at 1, run_body.
    unfold bind at 1. unfold imports.
    destruct (import_error rt) as [e|]; [reflexivity|]. cbn [ret].
    unfold bind at 1. rewrite return_if_cancelled_run. cbn [flag_reads init_world].
    destruct (flag_at rt 0); [reflexivity|].
    unfold bind at 1. rewrite emit_run.
    unfold bind at 1. rewrite load_model_with_retry_run.
    cbn [load_calls ssl_verified add note_read init_world].
    destruct (load_model_error rt 0 verified) as [e0|]; [|reflexivity].
    destruct (certificate_failure e0); [|reflexivity].
    cbv zeta. destruct (load_model_error rt 1 false); reflexivity.
  Qed.

Lemma flag_at_none (k : nat) : cancel_after rt = None -> flag_at rt k = false.
  Proof. unfold flag_at. now intros ->. Qed.

Lemma flag_at_early (n k : nat) :
    cancel_after rt = Some n -> (n <= k)%nat -> flag_at rt k = true.
  Proof. unfold flag_at. intros -> H. now apply Nat.leb_le. Qed.

End JobStart.

(* ================================================================== *)
(** * Consequences for the events of a job *)
(* ================================================================== *)

Lemma all_progress_not_terminal (self : job) (e : event) :
  In e (all_progress self) -> is_terminal e = false.
Proof.
  unfold all_progress, phase_events. intros Hin.
  apply in_app_or in Hin as [Hin | Hin].
  - cbn in Hin. repeat (destruct Hin as [<- | Hin]; [reflexivity|]). destruct Hin.
  - generalize dependent 0%nat. induction (requested_formats self) as [|x l IH]; intros k Hin.
    + destruct Hin.
    + destruct Hin as [<- | Hin]; [reflexivity | eauto].
Qed.

Lemma prefix_not_terminal (self : job) (progs : list event) (e : event) :
  is_prefix progs (all_progress self) -> In e progs -> is_terminal e = false.
Proof.
  intros [r Hr] Hin. apply (all_progress_not_terminal self).
  rewrite Hr. apply in_or_app. now left.
Qed.

Lemma in_events (t : list action) (e : event) : In e (events t) <-> In (Emit e) t.
Proof.
  unfold events. rewrite in_flat_map. split.
  - intros (a & Ha & He). destruct a; cbn in He; try contradiction.
    destruct He as [<- | []]. exact Ha.
  - intros Ha. exists (Emit e). split; [exact Ha | now left].
Qed.

Lemma live_last_read (pre post pre' : list action) :
  live pre' ->
  (pre ++ CancelRead true :: post = pre' ++ [CancelRead true])%list ->
  post = [].
Proof.
  intros Hlive. revert pre'  Hlive. induction pre as [|a pre IH]; intros pre' Hlive E.
  - destruct pre' as [|b pre'].
    + now injection E.
    + cbn in E. injection E as <- _. exfalso. apply Hlive. now left.
  - destruct pre' as [|b pre'].
    + cbn in E. injection E as _ E. now destruct pre.
    + cbn in E. injection E as _ E. apply (IH pre'); [|exact E].
      intros Hin. apply Hlive. now right.
Qed.

(* ================================================================== *)
(** * Progress percentages *)
(* ================================================================== *)

Section Percentages.
Variable self : job.

Let R := requested_formats self.
Let n := List.length (output_formats self).

Lemma canonical_NoDup : NoDup canonical_formats.
  Proof.
    unfold canonical_formats.
    repeat (constructor; [cbn; intuition discriminate|]). constructor.
  Qed.

Lemma requested_In (fs : list string) (ext : string) :
    requested fs ext = true <-> In ext fs.
  Proof.
    unfold requested. rewrite existsb_exists. split.
    - intros (x & Hx & E). apply String.eqb_eq in E. now subst.
    - intros H. exists ext. split; [exact H | apply String.eqb_refl].
  Qed.

Lemma requested_length : (List.length R <= n)%nat.
  Proof.
    apply NoDup_incl_length.
    - apply NoDup_filter, canonical_NoDup.
    - intros x Hx. apply filter_In in Hx as [_ Hx]. now apply requested_In.
  Qed.

Lemma requested_at_most_six : (List.length R <= 6)%nat.
  Proof. apply (filter_length_le (requested (output_formats self)) canonical_formats). Qed.

Lemma per_format_value :
    per_format self
    = if (Z.of_nat n >? 0)%Z then PyNum.truediv 15 (inject_Z (Z.of_nat n)) else 15%Q.
  Proof. unfold per_format. now rewrite progress_per_format_total. Qed.

Lemma per_format_nonneg : (0 <= per_format self)%Q.
  Proof.
    rewrite per_format_value. destruct (Z.gtb_spec (Z.of_nat n) 0) as [Hn|Hn]; [|discriminate].
    apply round_nonneg. apply Qle_shift_div_l.
    - rewrite (Zlt_Qlt 0) in Hn. exact Hn.
    - rewrite Qmult_0_l. discriminate.
  Qed.

Lemma progress_after_step (k : nat) :
    progress_after self (S k) = PyNum.add (progress_after self k) (per_format self).
  Proof. reflexivity. Qed.

Lemma progress_after_low (k : nat) : (80 <= progress_after self k)%Q.
  Proof.
    induction k as [|k IH]; [apply Qle_refl|].
    rewrite progress_after_step. unfold PyNum.add.
    pose proof per_format_nonneg as Hp.
    rewrite <- (round_Z 80) at 1 by (cbn; lia).
    apply round_le; [discriminate|]. change (inject_Z 80) with 80%Q. lra.
  Qed.

  (** The running percentage is a binary64 number. *)
Lemma progress_after_fixed (k : nat) :
    (PyNum.to_binary64 (progress_after self k) == progress_after self k)%Q.
  Proof.
    destruct k as [|k]; [apply (round_Z 80); cbn; lia|].
    rewrite progress_after_step. unfold PyNum.add.
    apply round_idempotent.
    pose proof (progress_after_low k). pose proof per_format_nonneg. lra.
  Qed.

Lemma progress_after_mono (i j : nat) :
    (i <= j)%nat -> (progress_after self i <= progress_after self j)%Q.
  Proof.
    induction 1 as [|j _ IH]; [apply Qle_refl|].
    eapply Qle_trans; [exact IH|].
    rewrite progress_after_step. unfold PyNum.add.
    rewrite <- (progress_after_fixed j) at 1.
    pose proof (progress_after_low j). pose proof per_format_nonneg.
    apply round_le; lra.
  Qed.

  (** Up to six entries: the increments and their sums are exact. *)
Lemma short_requests_bounded :
    forallb (fun m =>
               forallb (fun k =>
                          Qle_bool (Nat.iter k (fun current =>
                                                  PyNum.add current
                                                    (PyNum.truediv 15 (inject_Z (Z.of_nat m))))
                                             80%Q) 95)
                       (seq 0 (S m)))
            (seq 1 6) = true.
  Proof. vm_compute. reflexivity. Qed.

  (** Seven entries and more: an increment is at most the binary64
      quotient 15/7, and one addition below 128 rounds up by at most
      [2 ^ -47]. *)
Lemma long_request_increment :
    (7 <= n)%nat -> (per_format self <= 43 # 20)%Q.
  Proof.
    intros Hn. rewrite per_format_value.
    destruct (Z.gtb_spec (Z.of_nat n) 0) as [_|H0]; [|lia].
    assert (Hq : (0 < inject_Z (Z.of_nat n))%Q)
      by (change 0%Q with (inject_Z 0); rewrite <- Zlt_Qlt; lia).
    assert (H7 : (7 <= inject_Z (Z.of_nat n))%Q)
      by (change 7%Q with (inject_Z 7); rewrite <- Zle_Qle; lia).
    apply (Qle_trans _ (PyNum.to_binary64 (15 / 7))); [|vm_compute; discriminate].
    unfold PyNum.truediv. apply round_le.
    - apply Qle_shift_div_l; [exact Hq|]. rewrite Qmult_0_l. discriminate.
    - apply Qle_shift_div_r; [exact Hq|].
      setoid_replace (15 / 7 * inject_Z (Z.of_nat n))%Q
        with ((15 # 7) * inject_Z (Z.of_nat n))%Q by reflexivity.
      lra.
  Qed.

Lemma long_request_bounded (k : nat) :
    (7 <= n)%nat -> (k <= 6)%nat ->
    (progress_after self k <= 80 + (11 # 5) * inject_Z (Z.of_nat k))%Q.
  Proof.
    intros Hn. induction k as [|k IH]; intros Hk.
    - cbn. discriminate.
    - specialize (IH ltac:(lia)).
      rewrite progress_after_step. unfold PyNum.add.
      pose proof (long_request_increment Hn) as Hp.
      pose proof per_format_nonneg as Hp0.
      pose proof (progress_after_low k) as Hlo.
      assert (Hk' : (inject_Z (Z.of_nat k) <= 5)%Q)
        by (change 5%Q with (inject_Z 5); rewrite <- Zle_Qle; lia).
      eapply Qle_trans.
      + apply (round_upper _ 7); [lra | change (2 ^ 7)%Q with 128%Q; lra | lia].
      + rewrite Nat2Z.inj_succ. unfold Z.succ. rewrite inject_Z_plus.
        change (inject_Z 1) with 1%Q.
        assert ((2 ^ (7 - 54) <= 1 # 20)%Q) by (vm_compute; discriminate).
        lra.
  Qed.

Lemma progress_after_high (k : nat) :
    (k <= List.length R)%nat -> (progress_after self k <= 95)%Q.
  Proof.
    intros Hk. pose proof requested_length as HR. pose proof requested_at_most_six as H6.
    destruct (Nat.le_gt_cases 7 n) as [Hn|Hn].
    - eapply Qle_trans; [apply (long_request_bounded k Hn); lia|].
      assert ((inject_Z (Z.of_nat k) <= 6)%Q)
        by (change 6%Q with (inject_Z 6); rewrite <- Zle_Qle; lia).
      lra.
    - destruct (Nat.eq_dec n 0) as [E0|N0].
      + assert (k = 0%nat) by lia. subst k. cbn. discriminate.
      + pose proof short_requests_bounded as Hall.
        rewrite forallb_forall in Hall.
        specialize (Hall n ltac:(apply in_seq; lia)).
        rewrite forallb_forall in Hall.
        specialize (Hall k ltac:(apply in_seq; lia)).
        apply Qle_bool_iff in Hall.
        unfold progress_after. rewrite per_format_value.
        destruct (Z.gtb_spec (Z.of_nat n) 0) as [_|H0]; [exact Hall | lia].
  Qed.

Lemma percent_bounds (k : nat) :
    (k <= List.length R)%nat -> 80 <= PyNum.int (progress_after self k) <= 95.
  Proof.
    intros Hk. pose proof (progress_after_low k) as Hlo.
    pose proof (progress_after_high k Hk) as Hhi.
    rewrite int_nonneg by lra.
    split.
    - change 80 with (Qfloor 80). now apply Qfloor_resp_le.
    - change 95 with (Qfloor 95). now apply Qfloor_resp_le.
  Qed.

Lemma percent_mono (i j : nat) :
    (i <= j)%nat -> PyNum.int (progress_after self i) <= PyNum.int (progress_after self j).
  Proof.
    intros Hij. pose proof (progress_after_low i). pose proof (progress_after_low j).
    rewrite !int_nonneg by lra. now apply Qfloor_resp_le, progress_after_mono.
  Qed.

Lemma percentages_created (k : nat) (exts : list string) :
    percentages (created_from self k exts)
    = map (fun i => PyNum.int (progress_after self i)) (seq (S k) (List.length exts)).
  Proof.
    revert k. induction exts as [|x l IH]; intros k; [reflexivity|].
    cbn [created_from List.length seq map]. cbn [percentages flat_map created_event app].
    f_equal. apply IH.
  Qed.

Lemma percentages_all :
    percentages (all_progress self)
    = (5 :: 10 :: 20 :: map (fun i => PyNum.int (progress_after self i))
                             (seq 0 (S (List.length R))))%list.
  Proof.
    unfold all_progress. rewrite percentages_app, percentages_created. reflexivity.
  Qed.

Lemma percent_run_sorted (a m : nat) :
    StronglySorted Z.le (map (fun i => PyNum.int (progress_after self i)) (seq a m)).
  Proof.
    revert a. induction m as [|m IH]; intros a; cbn [seq map]; constructor.
    - apply IH.
    - apply Forall_forall. intros p Hp. apply in_map_iff in Hp as (i & <- & Hi).
      apply in_seq in Hi. apply percent_mono. lia.
  Qed.

Lemma percentages_all_sorted : StronglySorted Z.le (percentages (all_progress self)).
  Proof.
    rewrite percentages_all.
    assert (Hall : Forall (fun p => 80 <= p)
                     (map (fun i => PyNum.int (progress_after self i))
                          (seq 0 (S (List.length R))))).
    { apply Forall_forall. intros p Hp. apply in_map_iff in Hp as (i & <- & Hi).
      apply in_seq in Hi. apply percent_bounds. lia. }
    pose proof (percent_run_sorted 0 (S (List.length R))) as Hs.
    remember (map (fun i => PyNum.int (progress_after self i))
                  (seq 0 (S (List.length R)))) as l eqn:El.
    clear El.
    assert (H20 : Forall (fun p => 20 <= p) l)
      by (eapply Forall_impl; [|exact Hall]; cbv beta; intros; lia).
    assert (H10 : Forall (fun p => 10 <= p) l)
      by (eapply Forall_impl; [|exact Hall]; cbv beta; intros; lia).
    assert (H5 : Forall (fun p => 5 <= p) l)
      by (eapply Forall_impl; [|exact Hall]; cbv beta; intros; lia).
    apply SSorted_cons; [apply SSorted_cons; [apply SSorted_cons; [exact Hs | exact H20]|]|].
    - constructor; [lia | exact H10].
    - constructor; [lia|]. constructor; [lia | exact H5].
  Qed.

Lemma percentages_all_bounded :
    Forall (fun p => 0 <= p <= 100) (percentages (all_progress self)).
  Proof.
    rewrite percentages_all. do 3 (apply Forall_cons; [lia|]).
    apply Forall_forall. intros p Hp. apply in_map_iff in Hp as (i & <- & Hi).
    apply in_seq in Hi. pose proof (percent_bounds i). lia.
  Qed.

Lemma StronglySorted_prefix (l1 l2 : list Z) :
    is_prefix l1 l2 -> StronglySorted Z.le l2 -> StronglySorted Z.le l1.
  Proof.
    intros [r ->]. induction l1 as [|x l1 IH]; intros H; [constructor|].
    cbn in H. apply StronglySorted_inv in H as [H1 H2]. constructor; [now apply IH|].
    apply Forall_app in H2. tauto.
  Qed.

Lemma Forall_prefix {A} (P : A -> Prop) (l1 l2 : list A) :
    is_prefix l1 l2 -> Forall P l2 -> Forall P l1.
  Proof. intros [r ->] H. apply Forall_app in H. tauto. Qed.

Lemma is_prefix_percentages (e1 e2 : list event) :
    is_prefix e1 e2 -> is_prefix (percentages e1) (percentages e2).
  Proof. intros [r ->]. exists (percentages r). apply percentages_app. Qed.

End Percentages.

(* ================================================================== *)
(** * Properties of the running job *)
(* ================================================================== *)

Lemma single_format_requested (self : job) (f : string) :
  output_formats self = [f] -> In f canonical_formats -> requested_formats self = [f].
Proof.
  unfold requested_formats. intros -> Hf.
  cbn in Hf. repeat (destruct Hf as [<- | Hf]; [reflexivity|]). destruct Hf.
Qed.

Lemma percentages_term (self : job) (rt : env) (term : list event) :
  term = [] \/ (exists m, term = [Error m]) \/ term = [Finished (created_files rt self)] ->
  percentages term = [].
Proof. intros [-> | [[m ->] | ->]]; reflexivity. Qed.

(** C2.  The percentages of the progress events of a job never decrease
    and lie between 0 and 100; when one supported format is requested the
    last progress event before [Finished] carries 95. *)
Theorem progress_percentages (float_repr : Q -> string) (rt : env) (self : job)
        (verified : bool) :
  let es := events (run_trace float_repr rt self verified) in
  StronglySorted Z.le (percentages es)
  /\ Forall (fun p => 0 <= p <= 100) (percentages es)
  /\ (forall f pre msg p files,
         output_formats self = [f] -> In f canonical_formats ->
         es = (pre ++ [Progress msg p; Finished files])%list -> p = 95).
Proof.
  intros es.
  destruct (run_summary_holds float_repr rt self verified)
    as (progs & term & Hev & Hpre & Hterm & _).
  fold (run_trace float_repr rt self verified) in Hev. fold es in Hev.
  assert (Hps : percentages es = percentages progs).
  { rewrite Hev, percentages_app, (percentages_term self rt term), app_nil_r; [reflexivity|].
    tauto. }
  split; [|split].
  - rewrite Hps. eapply StronglySorted_prefix.
    + apply is_prefix_percentages. exact Hpre.
    + apply percentages_all_sorted.
  - rewrite Hps. eapply Forall_prefix.
    + apply is_prefix_percentages. exact Hpre.
    + apply percentages_all_bounded.
  - intros f pre msg p files Hfmt Hf Hes.
    rewrite Hev in Hes.
    change (pre ++ [Progress msg p; Finished files])%list
      with (pre ++ [Progress msg p] ++ [Finished files])%list in Hes.
    rewrite app_assoc in Hes.
    destruct Hterm as [-> | [[m ->] | (-> & -> & _)]].
    + rewrite app_nil_r in Hes.
      assert (Hin : In (Finished files) progs)
        by (rewrite Hes; apply in_or_app; right; now left).
      now apply (prefix_not_terminal self _ _ Hpre) in Hin.
    + apply app_inj_tail in Hes as [_ Hes]. discriminate.
    + apply app_inj_tail in Hes as [Hes _].
      unfold all_progress in Hes. rewrite (single_format_requested self f Hfmt Hf) in Hes.
      cbn [created_from] in Hes.
      change (phase_events self ++ [created_event self 1 f])%list
        with ((phase_events self ++ []) ++ [created_event self 1 f])%list in Hes.
      apply app_inj_tail in Hes as [_ Hes].
      injection Hes as _ <-.
      unfold progress_after. cbn [Nat.iter]. rewrite per_format_value, Hfmt.
      vm_compute. reflexivity.
Qed.

Lemma progress_percentages_witness :
  let es := events (run_trace Sample.float_repr Sample.calm_env (Sample.talk ["srt"]) true) in
  output_formats (Sample.talk ["srt"]) = ["srt"]
  /\ In "srt" canonical_formats
  /\ es = ([Progress "Loading medium model (first time downloads)..." 5;
            Progress "Model loaded successfully." 10;
            Progress "Transcribing audio... This may take several minutes." 20;
            Progress "Transcription complete. Writing output files..." 80]
           ++ [Progress "Created talk_transcript.srt" 95;
               Finished ["/home/talk_transcript.srt"]])%list
  /\ percentages es = [5; 10; 20; 80; 95]
  /\ StronglySorted Z.le (percentages es).
Proof.
  cbv zeta.
  assert (H1 : output_formats (Sample.talk ["srt"]) = ["srt"]) by reflexivity.
  assert (H2 : In "srt" canonical_formats) by (cbn; tauto).
  assert (H3 : events (run_trace Sample.float_repr Sample.calm_env (Sample.talk ["srt"]) true)
               = ([Progress "Loading medium model (first time downloads)..." 5;
                   Progress "Model loaded successfully." 10;
                   Progress "Transcribing audio... This may take several minutes." 20;
                   Progress "Transcription complete. Writing output files..." 80]
                  ++ [Progress "Created talk_transcript.srt" 95;
                      Finished ["/home/talk_transcript.srt"]])%list)
    by (vm_compute; reflexivity).
  destruct (progress_percentages Sample.float_repr Sample.calm_env (Sample.talk ["srt"]) true)
    as (Hsorted & _ & Hlast).
  pose proof (Hlast "srt" _ _ _ _ H1 H2 H3) as _.
  split; [exact H1|]. split; [exact H2|]. split; [exact H3|].
  split; [vm_compute; reflexivity | exact Hsorted].
Defined.

Lemma last_snoc {A} (l : list A) (x d : A) : last (l ++ [x]) d = x.
Proof. induction l as [|a [|b l] IH]; cbn in *; auto. Qed.

Lemma requested_permutation (fs fs' : list string) (ext : string) :
  Permutation fs fs' -> requested fs ext = requested fs' ext.
Proof.
  intros HP. destruct (requested fs' ext) eqn:E.
  - apply requested_In. apply requested_In in E.
    eapply Permutation_in; [apply Permutation_sym|]; eassumption.
  - destruct (requested fs ext) eqn:E'; [|reflexivity].
    apply requested_In in E'. apply (Permutation_in _ HP) in E'.
    apply requested_In in E'. congruence.
Qed.

(** The requested formats matter by membership and number only. *)
Lemma run_permutation (float_repr : Q -> string) (rt : env) (self : job)
      (formats' : list string) (w : world) :
  Permutation (output_formats self) formats' ->
  run float_repr rt (with_formats self formats') w = run float_repr rt self w.
Proof.
  intros HP. destruct self as [fp mn fs od lms]. unfold with_formats.
  cbn [file_path model_name output_formats output_dir lms_settings] in *.
  unfold run, run_body, transcribe_and_export, write_outputs, export_block.
  cbn [file_path model_name output_formats output_dir lms_settings].
  rewrite <- (Permutation_length HP).
  pose proof (fun ext => requested_permutation fs formats' ext HP) as Hr.
  rewrite <- !Hr.
  reflexivity.
Qed.

(** C8.  The files are written in the canonical order, whatever the order
    of the request: the paths written are a prefix of the artifacts of
    the requested formats taken in the order txt, srt, vtt, html, md,
    json, all of them when the job reports [Finished], whose list is
    their paths; permuting the request changes nothing.  The artifact of
    a format is [<stem>_transcript.<ext>] in the destination directory. *)
Theorem export_order_and_names (float_repr : Q -> string) (rt : env) (self : job)
        (verified : bool) :
  let t := run_trace float_repr rt self verified in
  let exts := filter (requested (output_formats self)) canonical_formats in
  is_prefix (written_paths t) (map (artifact self) exts)
  /\ (forall files, In (Emit (Finished files)) t ->
        written_paths t = map (artifact self) exts
        /\ files = map (PathOps.str (os_sep rt)) (map (artifact self) exts))
  /\ (forall formats', Permutation (output_formats self) formats' ->
        run_trace float_repr rt (with_formats self formats') verified = t)
  /\ (forall ext,
        artifact self ext
        = mkPath (anchor (output_dir self))
                 (tail (output_dir self)
                  ++ [PathOps.stem (file_path self) ++ "_transcript." ++ ext])
        /\ PathOps.name (artifact self ext)
           = PathOps.stem (file_path self) ++ "_transcript." ++ ext).
Proof.
  intros t exts.
  destruct (run_summary_holds float_repr rt self verified)
    as (progs & term & Hev & Hpre & Hterm & Hwr & _).
  fold (run_trace float_repr rt self verified) in Hev, Hterm, Hwr. fold t in Hev, Hterm, Hwr.
  split; [exact Hwr|]. split; [|split].
  - intros files Hin. apply in_events in Hin. rewrite Hev in Hin.
    apply in_app_or in Hin as [Hin | Hin].
    + now apply (prefix_not_terminal self _ _ Hpre) in Hin.
    + destruct Hterm as [-> | [[m ->] | (-> & _ & Hall)]].
      * destruct Hin.
      * destruct Hin as [Hin | []]. discriminate.
      * destruct Hin as [Hin | []]. injection Hin as <-. split; [exact Hall | reflexivity].
  - intros formats' HP. unfold t, run_trace. now rewrite run_permutation.
  - intros ext. split; [reflexivity|]. apply last_snoc.
Qed.

Lemma export_order_and_names_witness :
  written_paths (run_trace Sample.float_repr Sample.calm_env
                           (Sample.talk ["json"; "vtt"; "txt"]) true)
  = [mkPath "/" ["home"; "talk_transcript.txt"];
     mkPath "/" ["home"; "talk_transcript.vtt"];
     mkPath "/" ["home"; "talk_transcript.json"]].
Proof.
  refine (proj1 (proj1 (proj2 (export_order_and_names
                                 Sample.float_repr Sample.calm_env
                                 (Sample.talk ["json"; "vtt"; "txt"]) true))
                       ["/home/talk_transcript.txt"; "/home/talk_transcript.vtt";
                        "/home/talk_transcript.json"] _)).
  vm_compute. tauto.
Defined.

(** C1 (amended).  A job calls the model provider at most twice.  When
    the first call fails on the trust chain, certificate verification is
    switched off for the process and the load is tried once more; the
    setting stays off after the job.  Any other failure of the first call
    is not retried.  A failure that ends the load, on the first call or
    on the retry, is reported by exactly one [Error] event and no
    [Finished] event; when the handler sees the cancellation flag set it
    is reported by no event at all, and the loading message stays the
    only event of the job. *)
Theorem model_load_retry (float_repr : Q -> string) (rt : env) (self : job)
        (verified : bool) :
  let w := snd (run float_repr rt self (init_world verified)) in
  let loading :=
    Progress ("Loading " ++ model_name self ++ " model (first time downloads)...") 5 in
  (List.length (load_attempts (trace w)) <= 2)%nat
  /\ (import_error rt = None -> flag_at rt 0 = false ->
      (load_model_error rt 0 verified = None ->
       load_attempts (trace w) = [verified] /\ ssl_verified w = verified)
      /\ (forall e0, load_model_error rt 0 verified = Some e0 ->
            (certificate_failure e0 = true ->
             load_attempts (trace w) = [verified; false]
             /\ ssl_verified w = false
             /\ (forall e1, load_model_error rt 1 false = Some e1 ->
                   events (trace w)
                   = if flag_at rt 1 then [loading]
                     else [loading; Error (error_message e1)]))
            /\ (certificate_failure e0 = false ->
                load_attempts (trace w) = [verified]
                /\ ssl_verified w = verified
                /\ events (trace w)
                   = if flag_at rt 1 then [loading]
                     else [loading; Error (error_message e0)]))).
Proof.
  intros w loading.
  destruct (run_summary_holds float_repr rt self verified)
    as (_ & _ & _ & _ & _ & _ & Hloads & Hssl & _).
  fold w in Hloads, Hssl.
  unfold ssl_after in Hssl. unfold load_plan in Hloads, Hssl.
  split.
  { rewrite Hloads. destruct (import_error rt); [cbn; lia|].
    destruct (flag_at rt 0); [cbn; lia|].
    destruct (load_model_error rt 0 verified) as [e|]; [|cbn; lia].
    destruct (certificate_failure e); cbn; lia. }
  intros Himp F0. rewrite Himp, F0 in Hloads, Hssl. split.
  { intros L0. rewrite L0 in Hloads, Hssl. now split. }
  intros e0 L0. rewrite L0 in Hloads, Hssl.
  split; intros C0; rewrite C0 in Hloads, Hssl; (split; [exact Hloads | split; [exact Hssl|]]).
  - intros e1 L1. subst w. rewrite run_start, Himp, F0, L0, C0. cbv zeta.
    rewrite L1, handler_run.
    cbn [flag_reads note_load unverify add note_read init_world].
    destruct (flag_at rt 1); reflexivity.
  - subst w. rewrite run_start, Himp, F0, L0, C0, handler_run.
    cbn [flag_reads note_load unverify add note_read init_world].
    destruct (flag_at rt 1); reflexivity.
Qed.

Lemma model_load_retry_witness :
  let w := snd (run Sample.float_repr Sample.unreachable_env (Sample.talk ["txt"])
                    (init_world true)) in
  load_attempts (trace w) = [true; false]
  /\ ssl_verified w = false
  /\ events (trace w)
     = [Progress "Loading medium model (first time downloads)..." 5;
        Error "<urlopen error [Errno 111] Connection refused>"].
Proof.
  cbv zeta.
  destruct (model_load_retry Sample.float_repr Sample.unreachable_env (Sample.talk ["txt"])
              true) as [_ Hload].
  destruct (Hload eq_refl eq_refl) as [_ Hfail].
  destruct (Hfail Sample.certificate_error eq_refl) as [Hcert _].
  destruct (Hcert eq_refl) as (H1 & H2 & H3).
  split; [exact H1|]. split; [exact H2|].
  exact (H3 Sample.network_error eq_refl).
Defined.

(** C1 as stated fails: the relaxed verification is not limited to the
    retry.  After a job whose retry succeeded the process no longer
    verifies certificates, and the next job in it loads its model without
    verification from the first call on. *)
Lemma relaxed_verification_outlives_retry :
  let w := snd (run Sample.float_repr Sample.untrusted_env (Sample.talk ["txt"])
                    (init_world true)) in
  load_attempts (trace w) = [true; false]
  /\ In (Emit (Finished ["/home/talk_transcript.txt"])) (trace w)
  /\ ssl_verified w <> true
  /\ load_attempts (run_trace Sample.float_repr Sample.calm_env (Sample.talk ["txt"])
                              (ssl_verified w))
     = [false].
Proof.
  cbv zeta. repeat split; try (vm_compute; reflexivity).
  - vm_compute. tauto.
  - vm_compute. discriminate.
Qed.

Section EmptyRequest.
Variable float_repr : Q -> string.
Variable rt : env.
Variable self : job.

Ltac step := unfold bind at 1.

Lemma transcribe_and_export_cancelled (w : world) :
    flag_at rt (flag_reads w) = true ->
    transcribe_and_export float_repr rt self w = (Returned, note_read true w).
  Proof.
    intros F. unfold transcribe_and_export. step. rewrite return_if_cancelled_run, F.
    reflexivity.
  Qed.

Lemma write_outputs_empty (base : string) (ppf : Q) (result : pyval) (w : world) :
    output_formats self = [] ->
    write_outputs float_repr rt self base ppf result w = (Normal ([], 80%Q), w).
  Proof.
    intros Hfmt. unfold write_outputs, export_block. rewrite Hfmt. reflexivity.
  Qed.

Lemma transcribe_and_export_empty (result : pyval) (w : world) :
    output_formats self = [] ->
    cancel_after rt = None ->
    transcribe_result rt = inr result ->
    transcribe_and_export float_repr rt self w
    = (Normal tt,
       add (Emit (Finished []))
         (note_read false
            (add (Emit (Progress "Transcription complete. Writing output files..." 80))
               (note_read false
                  (add (Transcribe (file_path self) "en" "transcribe")
                     (add (Emit (Progress "Transcribing audio... This may take several minutes." 20))
                        (add (Emit (Progress "Model loaded successfully." 10))
                           (note_read false w)))))))).
  Proof.
    intros Hfmt Hcancel Hres. unfold transcribe_and_export.
    step. rewrite return_if_cancelled_run, (flag_at_none rt _ Hcancel).
    step. rewrite emit_run. step. rewrite emit_run.
    step. rewrite transcribe_run, Hres.
    step. rewrite return_if_cancelled_run, (flag_at_none rt _ Hcancel).
    step. rewrite emit_run. cbv zeta.
    step. rewrite per_format_run. cbn [lift].
    step. rewrite write_outputs_empty by exact Hfmt.
    step. rewrite cancelled_run, (flag_at_none rt _ Hcancel). cbn [negb fst].
    now rewrite emit_run.
  Qed.

End EmptyRequest.

(** C10.  The percentage increment never divides by zero: with no format
    requested it is 15, otherwise 15 over their number.  A job with an
    empty request that neither fails nor is cancelled goes through its
    phases, writes no file and ends with [Finished] carrying the empty
    list. *)
Theorem empty_request_completes (float_repr : Q -> string) (rt : env) (self : job)
        (verified : bool) (result : pyval) :
  output_formats self = [] ->
  import_error rt = None ->
  cancel_after rt = None ->
  load_model_error rt 0 verified = None ->
  transcribe_result rt = inr result ->
  let t := run_trace float_repr rt self verified in
  (forall n, exists q, progress_per_format n = inr q)
  /\ progress_per_format (Z.of_nat (List.length (output_formats self))) = inr 15%Q
  /\ events t = (phase_events self ++ [Finished []])%list
  /\ written_paths t = [].
Proof.
  intros Hfmt Himp Hcancel L0 Hres t.
  split; [|split].
  - intros n. eexists. apply progress_per_format_total.
  - now rewrite Hfmt.
  - subst t. unfold run_trace. rewrite run_start, Himp, (flag_at_none rt 0 Hcancel), L0.
    unfold try_except.
    rewrite (transcribe_and_export_empty float_repr rt self result _ Hfmt Hcancel Hres).
    split; reflexivity.
Qed.

Lemma empty_request_completes_witness :
  events (run_trace Sample.float_repr Sample.calm_env (Sample.talk []) true)
  = [Progress "Loading medium model (first time downloads)..." 5;
     Progress "Model loaded successfully." 10;
     Progress "Transcribing audio... This may take several minutes." 20;
     Progress "Transcription complete. Writing output files..." 80;
     Finished []].
Proof.
  exact (proj1 (proj2 (proj2 (empty_request_completes
                                Sample.float_repr Sample.calm_env (Sample.talk []) true
                                Sample.result eq_refl eq_refl eq_refl eq_refl eq_refl)))).
Defined.

(** C3.  Once a read of the cancellation flag has seen it set, the job
    does nothing more: that read is the last action of the trace.  A job
    whose trace holds such a read has emitted neither [Finished] nor
    [Error].  When the flag is set before the check that precedes the
    inference call, the inference call is never made, no file is written
    and no progress event beyond the first is emitted, nor [Finished]. *)
Theorem cancellation_silences (float_repr : Q -> string) (rt : env) (self : job)
        (verified : bool) :
  let t := run_trace float_repr rt self verified in
  (forall pre post, t = (pre ++ CancelRead true :: post)%list -> post = [])
  /\ (In (CancelRead true) t -> forall e, In (Emit e) t -> is_terminal e = false)
  /\ (forall n, cancel_after rt = Some n -> (n <= 1)%nat ->
        (forall f l k, ~ In (Transcribe f l k) t)
        /\ (forall p c, ~ In (FileWrite p c) t)
        /\ (forall m p, In (Emit (Progress m p)) t -> p = 5)
        /\ (forall files, ~ In (Emit (Finished files)) t)).
Proof.
  intros t.
  destruct (run_summary_holds float_repr rt self verified)
    as (progs & term & Hev & Hpre & _ & _ & _ & _ & Hcancel).
  fold (run_trace float_repr rt self verified) in Hev, Hcancel. fold t in Hev, Hcancel.
  split; [|split].
  - intros pre post Ht. destruct Hcancel as [Hlive | (pre' & Ht' & Hlive & _)].
    + exfalso. apply Hlive. rewrite Ht. apply in_or_app. right. now left.
    + rewrite Ht in Ht'. exact (live_last_read _ _ _ Hlive Ht').
  - intros Hin e He. destruct Hcancel as [Hlive | (pre' & _ & _ & ->)].
    + now destruct (Hlive Hin).
    + rewrite app_nil_r in Hev. apply in_events in He. rewrite Hev in He.
      exact (prefix_not_terminal self _ _ Hpre He).
  - intros n Hn Hle. clear Hev Hcancel.
    pose proof (flag_at_early rt n 1 Hn Hle) as F1.
    subst t. unfold run_trace. rewrite run_start.
    destruct (import_error rt) as [e|].
    { rewrite handler_run. cbn [flag_reads init_world].
      destruct (flag_at rt 0);
        cbn [trace snd add note_read note_load unverify init_world app];
        repeat split; intros; cbn [In] in *; intuition (try discriminate; try congruence). }
    destruct (flag_at rt 0).
    { cbn [trace snd add note_read note_load unverify init_world app];
        repeat split; intros; cbn [In] in *; intuition (try discriminate; try congruence). }
    destruct (load_model_error rt 0 verified) as [e0|].
    + destruct (certificate_failure e0); cbv zeta.
      * destruct (load_model_error rt 1 false) as [e1|].
        -- rewrite handler_run.
           cbn [flag_reads note_load unverify add note_read init_world]. rewrite F1.
           cbn [trace snd add note_read note_load unverify init_world app ssl_verified];
             repeat split; intros; cbn [In] in *;
             intuition (try discriminate; try congruence).
        -- unfold try_except. rewrite transcribe_and_export_cancelled by exact F1.
           cbn [trace snd add note_read note_load unverify init_world app ssl_verified];
             repeat split; intros; cbn [In] in *;
             intuition (try discriminate; try congruence).
      * rewrite handler_run.
        cbn [flag_reads note_load unverify add note_read init_world]. rewrite F1.
        cbn [trace snd add note_read note_load unverify init_world app ssl_verified];
          repeat split; intros; cbn [In] in *;
          intuition (try discriminate; try congruence).
    + unfold try_except. rewrite transcribe_and_export_cancelled by exact F1.
      cbn [trace snd add note_read note_load unverify init_world app ssl_verified];
        repeat split; intros; cbn [In] in *;
        intuition (try discriminate; try congruence).
Qed.

Lemma cancellation_silences_witness :
  run_trace Sample.float_repr Sample.cancelling_env (Sample.talk ["txt"; "srt"]) true
  = [CancelRead false;
     Emit (Progress "Loading medium model (first time downloads)..." 5);
     LoadModel "medium" true;
     CancelRead true]
  /\ forall e,
      In (Emit e) (run_trace Sample.float_repr Sample.cancelling_env
                             (Sample.talk ["txt"; "srt"]) true) ->
      is_terminal e = false.
Proof.
  split; [vm_compute; reflexivity|].
  apply (proj1 (proj2 (cancellation_silences Sample.float_repr Sample.cancelling_env
                         (Sample.talk ["txt"; "srt"]) true))).
  vm_compute. tauto.
Defined.

(* ================================================================== *)
(** * Decimal text of integers *)
(* ================================================================== *)

Section Decimal.
Import Json.

Lemma digit_value_char (m : Z) : 0 <= m < 10 -> digit_value (PyStr.digit_char m) = m.
  Proof.
    intros Hm. unfold digit_value, PyStr.digit_char.
    rewrite nat_ascii_embedding by lia. lia.
  Qed.

Lemma is_digit_char (m : Z) : 0 <= m < 10 -> is_digit (PyStr.digit_char m) = true.
  Proof.
    intros Hm. unfold is_digit, PyStr.digit_char.
    rewrite nat_ascii_embedding by lia.
    apply andb_true_intro. split; apply Nat.leb_le; lia.
  Qed.

Lemma digit_char_zero (m : Z) :
    0 <= m < 10 -> PyStr.digit_char m = "0"%char -> m = 0.
  Proof.
    intros Hm E. apply (f_equal digit_value) in E.
    rewrite digit_value_char in E by exact Hm. exact E.
  Qed.

Lemma all_digits_app (a b : string) :
    all_digits (a ++ b) = all_digits a && all_digits b.
  Proof. induction a as [|c a IH]; cbn; [reflexivity|]. now rewrite IH, andb_assoc. Qed.

Lemma digits_value_app (acc : Z) (a b : string) :
    digits_value acc (a ++ b) = digits_value (digits_value acc a) b.
  Proof. revert acc. induction a as [|c a IH]; intros acc; cbn; auto. Qed.

  (** The digits [decimal_digits] puts in front of [acc]. *)
Lemma decimal_digits_spec (fuel : nat) :
    forall (n : Z) (acc : string),
      (0 < fuel)%nat -> 0 <= n < 10 ^ Z.of_nat fuel ->
      exists c ds,
        PyStr.decimal_digits fuel n acc = String c ds ++ acc
        /\ all_digits (String c ds) = true
        /\ digits_value 0 (String c ds) = n
        /\ (n = 0 -> ds = EmptyString)
        /\ (c = "0"%char -> n = 0).
  Proof.
    induction fuel as [|fuel IH]; intros n acc Hf Hn; [lia|].
    cbn [PyStr.decimal_digits].
    assert (Hmod : 0 <= n mod 10 < 10) by (apply Z.mod_pos_bound; lia).
    destruct (Z.eqb_spec (n / 10) 0) as [Hq|Hq].
    - assert (n mod 10 = n) by (rewrite Z.mod_eq, Hq by lia; lia).
      exists (PyStr.digit_char (n mod 10)), EmptyString. cbn [append all_digits digits_value].
      rewrite is_digit_char, digit_value_char by exact Hmod.
      repeat split; auto; try lia.
      intros E. apply digit_char_zero in E; lia.
    - assert (Hdiv : 0 < n / 10).
      { assert (0 <= n / 10) by (apply Z.div_pos; lia). lia. }
      assert (Hlt : n / 10 < 10 ^ Z.of_nat fuel).
      { apply Z.div_lt_upper_bound; [lia|].
        rewrite Nat2Z.inj_succ, Z.pow_succ_r in Hn by lia. lia. }
      assert (Hfuel : (0 < fuel)%nat).
      { destruct fuel; [cbn in Hlt; lia | lia]. }
      destruct (IH (n / 10) (String (PyStr.digit_char (n mod 10)) acc) Hfuel)
        as (c & ds & E & Hall & Hval & _ & Hzero); [lia|].
      exists c, (ds ++ String (PyStr.digit_char (n mod 10)) EmptyString).
      split; [|split; [|split; [|split]]].
      + rewrite E. cbn [append]. f_equal. now rewrite append_assoc.
      + change (String c (ds ++ String (PyStr.digit_char (n mod 10)) ""))
          with (String c ds ++ String (PyStr.digit_char (n mod 10)) "").
        rewrite all_digits_app, Hall. cbn [all_digits].
        now rewrite is_digit_char by exact Hmod.
      + change (String c (ds ++ String (PyStr.digit_char (n mod 10)) ""))
          with (String c ds ++ String (PyStr.digit_char (n mod 10)) "").
        rewrite digits_value_app, Hval. cbn [digits_value].
        rewrite digit_value_char by exact Hmod.
        rewrite (Z.div_mod n 10) at 3 by lia. lia.
      + intros ->. cbn in Hq. lia.
      + intros Hc. apply Hzero in Hc. lia.
  Qed.

Lemma str_nat_spec (n : Z) :
    0 <= n ->
    exists c ds,
      PyStr.str_nat n = String c ds
      /\ all_digits (String c ds) = true
      /\ digits_value 0 (String c ds) = n
      /\ (n = 0 -> ds = EmptyString)
      /\ (c = "0"%char -> n = 0).
  Proof.
    intros Hn. unfold PyStr.str_nat.
    destruct (decimal_digits_spec (S (Z.to_nat (Z.log2 n))) n EmptyString)
      as (c & ds & E & H); [lia| |].
    - split; [exact Hn|].
      destruct (Z.eq_dec n 0) as [->|Hnz]; [cbn; lia|].
      pose proof (Z.log2_spec n ltac:(lia)) as [_ Hhi].
      pose proof (Z.log2_nonneg n) as Hlog.
      rewrite Nat2Z.inj_succ, Z2Nat.id by lia.
      eapply Z.lt_le_trans; [exact Hhi|].
      apply Z.pow_le_mono_l. lia.
    - exists c, ds. rewrite E, append_nil_r. auto.
  Qed.

End Decimal.

(* ================================================================== *)
(** * Reading numbers and strings back *)
(* ================================================================== *)

Section Tokens.
Import Json.

Lemma delimited_cases (rest : string) :
    delimited rest ->
    rest = EmptyString
    \/ exists c r, rest = String c r /\ (c = ","%char \/ c = "010"%char).
  Proof.
    intros [-> | [r [-> | ->]]]; [now left | right | right];
      do 2 eexists; split; eauto.
  Qed.

Lemma scan_digits_all (ds rest : string) :
    all_digits ds = true -> delimited rest -> scan_digits (ds ++ rest) = (ds, rest).
  Proof.
    intros Hall Hrest. induction ds as [|c ds IH]; cbn [append].
    - apply delimited_cases in Hrest as [-> | (c & r & -> & [-> | ->])]; reflexivity.
    - cbn [all_digits] in Hall. apply andb_prop in Hall as [Hc Hall].
      cbn [scan_digits]. now rewrite Hc, IH.
  Qed.

Lemma scan_digits_app (s rest : string) :
    delimited rest ->
    scan_digits (s ++ rest) = (fst (scan_digits s), snd (scan_digits s) ++ rest).
  Proof.
    intros Hrest. induction s as [|c s IH]; cbn [append].
    - apply delimited_cases in Hrest as [-> | (c & r & -> & [-> | ->])]; reflexivity.
    - cbn [scan_digits]. destruct (is_digit c); [|reflexivity].
      rewrite IH. now destruct (scan_digits s).
  Qed.

Lemma scan_frac_app (s rest : string) :
    delimited rest ->
    scan_frac (s ++ rest) = (fst (scan_frac s), snd (scan_frac s) ++ rest).
  Proof.
    intros Hrest. destruct s as [|c s]; cbn [append].
    - apply delimited_cases in Hrest as [-> | (c & r & -> & [-> | ->])]; reflexivity.
    - unfold scan_frac. destruct (Ascii.eqb c "."); [|reflexivity].
      rewrite scan_digits_app by exact Hrest.
      destruct (scan_digits s) as [d r]. cbn [fst snd]. now destruct d.
  Qed.

Lemma scan_exp_app (s rest : string) :
    delimited rest ->
    scan_exp (s ++ rest) = (fst (scan_exp s), snd (scan_exp s) ++ rest).
  Proof.
    intros Hrest. destruct s as [|c s]; cbn [append].
    - apply delimited_cases in Hrest as [-> | (c & r & -> & [-> | ->])]; reflexivity.
    - unfold scan_exp. destruct (Ascii.eqb c "e" || Ascii.eqb c "E"); [|reflexivity].
      destruct s as [|g s]; cbn [append].
      + apply delimited_cases in Hrest as [-> | (c' & r & -> & [-> | ->])]; reflexivity.
      + destruct ((g =? "+")%char || (g =? "-")%char).
        * rewrite scan_digits_app by exact Hrest.
          destruct (scan_digits s) as [d r]. cbn [fst snd]. now destruct d.
        * change (String g (s ++ rest)) with (String g s ++ rest).
          rewrite scan_digits_app by exact Hrest.
          destruct (scan_digits (String g s)) as [d r]. cbn [fst snd]. now destruct d.
  Qed.

Lemma scan_integer_app (s rest integer r : string) :
    delimited rest ->
    scan_integer s = Some (integer, r) ->
    scan_integer (s ++ rest) = Some (integer, r ++ rest).
  Proof.
    intros Hrest. unfold scan_integer.
    assert (Hdigits : forall c t sign,
               (if (c =? "0")%char then Some (sign ++ "0", t)
                else if is_digit c
                     then let (d, rest0) := scan_digits t in Some (sign ++ String c d, rest0)
                     else None) = Some (integer, r) ->
               (if (c =? "0")%char then Some (sign ++ "0", t ++ rest)
                else if is_digit c
                     then let (d, rest0) := scan_digits (t ++ rest) in
                          Some (sign ++ String c d, rest0)
                     else None) = Some (integer, r ++ rest)).
    { intros c t sign. destruct (c =? "0")%char.
      - intros E. injection E as <- <-. reflexivity.
      - destruct (is_digit c); [|discriminate].
        rewrite scan_digits_app by exact Hrest.
        destruct (scan_digits t) as [d r0]. cbn [fst snd].
        intros E. injection E as <- <-. reflexivity. }
    destruct s as [|c s]; [discriminate|]. cbn [append].
    destruct (c =? "-")%char.
    - destruct s as [|c' s]; [discriminate|]. exact (Hdigits c' s "-").
    - exact (Hdigits c s "").
  Qed.

  (** What [NUMBER_RE] matches is not changed by what follows a value. *)
Lemma scan_number_app (s rest integer frac exp : string) :
    delimited rest ->
    scan_number s = Some (integer, frac, exp, EmptyString) ->
    scan_number (s ++ rest) = Some (integer, frac, exp, rest).
  Proof.
    intros Hrest. unfold scan_number.
    destruct (scan_integer s) as [[i s2]|] eqn:Ei; [|discriminate].
    rewrite (scan_integer_app s rest i s2 Hrest Ei).
    rewrite scan_frac_app by exact Hrest.
    destruct (scan_frac s2) as [f s3]. cbn [fst snd].
    rewrite scan_exp_app by exact Hrest.
    destruct (scan_exp s3) as [e s4]. cbn [fst snd].
    intros E. injection E as <- <- <- ->. reflexivity.
  Qed.

Lemma scan_number_head (s integer frac exp r : string) :
    scan_number s = Some (integer, frac, exp, r) ->
    exists c t, s = String c t /\ (c = "-"%char \/ is_digit c = true).
  Proof.
    unfold scan_number, scan_integer. destruct s as [|c t]; [discriminate|].
    intros H. exists c, t. split; [reflexivity|].
    destruct (Ascii.eqb_spec c "-"); [now left | right].
    destruct (Ascii.eqb_spec c "0"); [now subst|].
    now destruct (is_digit c).
  Qed.

  (** The text of an integer is read as that integer. *)
Lemma scan_number_str_int (z : Z) :
    scan_number (PyStr.str_int z) = Some (PyStr.str_int z, EmptyString, EmptyString, EmptyString)
    /\ int_of_text (PyStr.str_int z) = z.
  Proof.
    assert (Hnat : forall n sign, 0 <= n ->
               exists c ds, PyStr.str_nat n = String c ds
                            /\ is_digit c = true
                            /\ digits_value 0 (String c ds) = n
                            /\ (if (c =? "0")%char then Some (sign ++ "0", ds)
                                else if is_digit c
                                     then let (d, rest0) := scan_digits ds in
                                          Some (sign ++ String c d, rest0)
                                     else None)
                               = Some (sign ++ String c ds, EmptyString)).
    { intros n sign Hn. destruct (str_nat_spec n Hn) as (c & ds & E & Hall & Hval & H0 & Hc).
      exists c, ds. cbn [all_digits] in Hall. apply andb_prop in Hall as [Hd Hall].
      repeat split; auto.
      destruct (Ascii.eqb_spec c "0") as [->|Hne].
      - now rewrite (H0 (Hc eq_refl)).
      - rewrite Hd. pose proof (scan_digits_all ds "" Hall (or_introl eq_refl)) as Hs.
        rewrite append_nil_r in Hs. now rewrite Hs. }
    unfold PyStr.str_int, scan_number, scan_integer.
    destruct (Z.ltb_spec z 0) as [Hneg|Hpos].
    - destruct (Hnat (- z) "-" ltac:(lia)) as (c & ds & E & Hd & Hval & Hscan).
      rewrite E. cbn [append]. cbn [Ascii.eqb Bool.eqb].
      rewrite Hscan. split; [reflexivity|].
      unfold int_of_text. cbn [Ascii.eqb Bool.eqb]. rewrite Hval. lia.
    - destruct (Hnat z "" Hpos) as (c & ds & E & Hd & Hval & Hscan).
      rewrite E.
      assert (Hminus : (c =? "-")%char = false).
      { destruct (Ascii.eqb_spec c "-"); [subst; discriminate | reflexivity]. }
      rewrite Hminus, Hscan. split; [reflexivity|].
      unfold int_of_text. now rewrite Hminus.
  Qed.

  (** An escaped character is read back as the character. *)
Lemma scanstring_escape_char (c : ascii) (tail : string) :
    scanstring (escape_char c ++ tail) = cons_char c (scanstring tail).
  Proof.
    destruct c as [[] [] [] [] [] [] [] []]; reflexivity.
  Qed.

Lemma scanstring_escape (s rest : string) :
    scanstring (escape s ++ String dq rest) = Some (s, rest).
  Proof.
    induction s as [|c s IH]; [reflexivity|].
    cbn [escape]. rewrite append_assoc, scanstring_escape_char, IH. reflexivity.
  Qed.

Lemma skip_ws_indent (level : nat) (s : string) :
    skip_ws (newline_indent level ++ s) = skip_ws s.
  Proof.
    unfold newline_indent. cbn [nl append skip_ws].
    change (is_ws "010") with true. cbv iota.
    induction (2 * level)%nat as [|k IH]; [reflexivity|].
    cbn [PyStr.replicate append skip_ws]. change (is_ws " ") with true. exact IH.
  Qed.

Lemma length_newline_indent (level : nat) :
    String.length (newline_indent level) = S (2 * level).
  Proof.
    unfold newline_indent. now rewrite length_append, length_replicate.
  Qed.

End Tokens.

(* ================================================================== *)
(** * Reading back what the encoder writes *)
(* ================================================================== *)

Lemma pyval_induction (P : pyval -> Prop) :
  P PNone -> (forall b, P (PBool b)) -> (forall z, P (PInt z)) -> (forall q, P (PFloat q)) ->
  (forall s, P (PStr s)) ->
  (forall l, Forall P l -> P (PList l)) ->
  (forall d, Forall (fun kv => P (snd kv)) d -> P (PDict d)) ->
  forall v, P v.
Proof.
  intros HN HB HI HF HS HL HD.
  fix IH 1. intros [| b | z | q | s | l | d].
  - exact HN.
  - apply HB.
  - apply HI.
  - apply HF.
  - apply HS.
  - apply HL. induction l as [|x l IHl]; constructor; [apply IH | exact IHl].
  - apply HD. induction d as [|[k x] d IHd]; constructor; [apply IH | exact IHd].
Qed.

Section Decoding.
Import Json.
Variable float_repr : Q -> string.
Variable float_parse : string -> option Q.

Lemma digit_starts (c : ascii) : c = "-"%char \/ is_digit c = true -> starts_value c.
  Proof.
    intros [-> | H]; [repeat split; discriminate|].
    destruct c as [[] [] [] [] [] [] [] []]; try discriminate H;
      repeat split; discriminate.
  Qed.

Lemma skip_ws_head (c : ascii) (t : string) :
    is_ws c = false -> skip_ws (String c t) = String c t.
  Proof. intros H. cbn [skip_ws]. now rewrite H. Qed.

  (** A number is dispatched to [NUMBER_RE]. *)
Lemma parse_value_number (fuel : nat) (c : ascii) (t : string) :
    c = "-"%char \/ is_digit c = true ->
    parse_value float_parse (S fuel) (String c t)
    = match scan_number (String c t) with
      | Some (integer, frac, exp, rest) =>
          match number_value float_parse integer frac exp with
          | Some v => Some (v, rest)
          | None => None
          end
      | None => None
      end.
  Proof.
    intros [-> | H]; [reflexivity|].
    destruct c as [[] [] [] [] [] [] [] []]; try discriminate H; reflexivity.
  Qed.

Lemma parse_value_int (fuel : nat) (z : Z) (rest : string) :
    delimited rest ->
    parse_value float_parse (S fuel) (PyStr.str_int z ++ rest) = Some (PInt z, rest).
  Proof.
    intros Hrest.
    destruct (scan_number_str_int z) as [Hscan Hval].
    destruct (scan_number_head _ _ _ _ _ Hscan) as (c & t & E & Hc).
    pose proof (scan_number_app _ rest _ _ _ Hrest Hscan) as Happ.
    rewrite E in Happ |- *. cbn [append] in Happ |- *.
    rewrite (parse_value_number fuel c (t ++ rest) Hc), Happ.
    unfold number_value. cbn [String.eqb andb]. rewrite <- E, Hval. reflexivity.
  Qed.

Lemma parse_value_float (fuel : nat) (q : Q) (rest : string) :
    float_round_trips float_repr float_parse q ->
    delimited rest ->
    parse_value float_parse (S fuel) (float_repr q ++ rest) = Some (PFloat q, rest).
  Proof.
    intros (integer & frac & exp & Hscan & Hkind & Hval) Hrest.
    destruct (scan_number_head _ _ _ _ _ Hscan) as (c & t & E & Hc).
    pose proof (scan_number_app _ rest _ _ _ Hrest Hscan) as Happ.
    rewrite E in Happ |- *. cbn [append] in Happ |- *.
    rewrite (parse_value_number fuel c (t ++ rest) Hc), Happ.
    unfold number_value. rewrite Hkind, Hval. reflexivity.
  Qed.

Lemma parse_value_str (fuel : nat) (s rest : string) :
    parse_value float_parse (S fuel) (encode_basestring s ++ rest) = Some (PStr s, rest).
  Proof.
    unfold encode_basestring. cbn [append parse_value].
    change (Ascii.eqb dq dq) with true. cbv iota.
    rewrite append_assoc. cbn [append]. now rewrite scanstring_escape.
  Qed.

  (** The text of a value starts with a character that starts a value. *)
Lemma encode_head (level : nat) (v : pyval) :
    well_formed float_repr float_parse v ->
    exists c t, encode float_repr level v = String c t /\ starts_value c.
  Proof.
    destruct v as [| [] | z | q | s | [|x l] | [|kv d]]; intros Hwf; cbn [encode];
      try (do 2 eexists; split; [reflexivity | repeat split; discriminate]).
    - destruct (scan_number_head _ _ _ _ _ (proj1 (scan_number_str_int z))) as (c & t & E & Hc).
      exists c, t. split; [exact E | now apply digit_starts].
    - destruct Hwf as (integer & frac & exp & Hscan & _).
      destruct (scan_number_head _ _ _ _ _ Hscan) as (c & t & E & Hc).
      exists c, t. split; [exact E | now apply digit_starts].
  Qed.

  (** Entering an array or an object. *)
Lemma parse_value_array (fuel level : nat) (c : ascii) (t : string)
        (items : list pyval) (rest : string) :
    starts_value c ->
    parse_elements float_parse fuel (String c t) = Some (items, rest) ->
    parse_value float_parse (S fuel) ("[" ++ newline_indent level ++ String c t)
    = Some (PList items, rest).
  Proof.
    intros (Hws & Hc & _) Hitems. cbn [append parse_value].
    change (Ascii.eqb "[" dq) with false. change (Ascii.eqb "[" "{") with false.
    change (Ascii.eqb "[" "[") with true. cbv iota.
    rewrite skip_ws_indent, skip_ws_head by exact Hws.
    destruct (Ascii.eqb_spec c "]"); [contradiction|]. now rewrite Hitems.
  Qed.

Lemma parse_value_object (fuel level : nat) (t : string)
        (pairs : list (string * pyval)) (rest : string) :
    parse_members float_parse fuel (String dq t) = Some (pairs, rest) ->
    parse_value float_parse (S fuel) ("{" ++ newline_indent level ++ String dq t)
    = Some (PDict (dict_of_pairs pairs), rest).
  Proof.
    intros Hpairs. cbn [append parse_value].
    change (Ascii.eqb "{" dq) with false. change (Ascii.eqb "{" "{") with true. cbv iota.
    rewrite skip_ws_indent, skip_ws_head by reflexivity.
    change (Ascii.eqb dq "}") with false. cbv iota. now rewrite Hpairs.
  Qed.

  (** The items of an array, up to the closing bracket. *)
Lemma parse_elements_last (fuel level : nat) (s rest : string) (x : pyval) :
    parse_value float_parse fuel s = Some (x, newline_indent level ++ "]" ++ rest) ->
    parse_elements float_parse (S fuel) s = Some ([x], rest).
  Proof.
    intros Hx. cbn [parse_elements]. rewrite Hx, skip_ws_indent. reflexivity.
  Qed.

Lemma parse_elements_more (fuel level : nat) (s rest : string) (c : ascii) (t : string)
        (x : pyval) (xs : list pyval) :
    parse_value float_parse fuel s
    = Some (x, "," ++ newline_indent level ++ String c t) ->
    is_ws c = false ->
    parse_elements float_parse fuel (String c t) = Some (xs, rest) ->
    parse_elements float_parse (S fuel) s = Some (x :: xs, rest).
  Proof.
    intros Hx Hc Hxs. cbn [parse_elements]. rewrite Hx. cbn [append skip_ws].
    change (is_ws ",") with false. cbv iota.
    change (Ascii.eqb "," "]") with false. change (Ascii.eqb "," ",") with true. cbv iota.
    rewrite skip_ws_indent, skip_ws_head by exact Hc. now rewrite Hxs.
  Qed.

  (** The members of an object, up to the closing brace. *)
Lemma parse_members_key (fuel : nat) (key : string) (c : ascii) (t : string) :
    is_ws c = false ->
    parse_members float_parse (S fuel) (encode_basestring key ++ ": " ++ String c t)
    = match parse_value float_parse fuel (String c t) with
      | Some (v, r3) =>
          match skip_ws r3 with
          | String c3 r4 =>
              if Ascii.eqb c3 "}"%char then Some ([(key, v)], r4)
              else if Ascii.eqb c3 ","%char then
                match parse_members float_parse fuel (skip_ws r4) with
                | Some (ps, rest) => Some ((key, v) :: ps, rest)
                | None => None
                end
              else None
          | EmptyString => None
          end
      | None => None
      end.
  Proof.
    intros Hc. unfold encode_basestring. cbn [append parse_members].
    change (Ascii.eqb dq dq) with true. cbv iota.
    rewrite append_assoc. cbn [append]. rewrite scanstring_escape.
    rewrite (skip_ws_head ":") by reflexivity.
    change (Ascii.eqb ":" ":") with true. cbv iota.
    change (skip_ws (String " " (String c t))) with (skip_ws (String c t)).
    now rewrite skip_ws_head by exact Hc.
  Qed.

Lemma parse_members_last (fuel level : nat) (key rest : string) (c : ascii) (t : string)
        (x : pyval) :
    is_ws c = false ->
    parse_value float_parse fuel (String c t)
    = Some (x, newline_indent level ++ "}" ++ rest) ->
    parse_members float_parse (S fuel) (encode_basestring key ++ ": " ++ String c t)
    = Some ([(key, x)], rest).
  Proof.
    intros Hc Hx. rewrite parse_members_key by exact Hc.
    rewrite Hx, skip_ws_indent. reflexivity.
  Qed.

Lemma parse_members_more (fuel level : nat) (key rest : string) (c : ascii) (t t' : string)
        (x : pyval) (ps : list (string * pyval)) :
    is_ws c = false ->
    parse_value float_parse fuel (String c t)
    = Some (x, "," ++ newline_indent level ++ String dq t') ->
    parse_members float_parse fuel (String dq t') = Some (ps, rest) ->
    parse_members float_parse (S fuel) (encode_basestring key ++ ": " ++ String c t)
    = Some ((key, x) :: ps, rest).
  Proof.
    intros Hc Hx Hps. rewrite parse_members_key by exact Hc.
    rewrite Hx. cbn [append].
    rewrite (skip_ws_head ",") by reflexivity.
    change (Ascii.eqb "," "}") with false. change (Ascii.eqb "," ",") with true. cbv iota.
    rewrite skip_ws_indent, (skip_ws_head dq) by reflexivity. now rewrite Hps.
  Qed.

End Decoding.

(* ================================================================== *)
(** * [json.load] after [json.dump] *)
(* ================================================================== *)

Section RoundTripProof.
Import Json.
Variable float_repr : Q -> string.
Variable float_parse : string -> option Q.

Lemma join_cons (sep a b : string) (l : list string) :
    join sep (a :: b :: l) = a ++ sep ++ join sep (b :: l).
  Proof. reflexivity. Qed.

Lemma encode_list (level : nat) (l : list pyval) :
    l <> [] ->
    encode float_repr level (PList l)
    = "[" ++ newline_indent (S level)
      ++ join (item_separator (S level)) (map (encode float_repr (S level)) l)
      ++ newline_indent level ++ "]".
  Proof. destruct l; [contradiction | reflexivity]. Qed.

Lemma encode_dict (level : nat) (d : list (string * pyval)) :
    d <> [] ->
    encode float_repr level (PDict d)
    = "{" ++ newline_indent (S level)
      ++ join (item_separator (S level)) (map (encode_member float_repr (S level)) d)
      ++ newline_indent level ++ "}".
  Proof. destruct d; [contradiction | reflexivity]. Qed.

Lemma delimited_indent (level : nat) (s : string) : delimited (newline_indent level ++ s).
  Proof. right. eexists. right. reflexivity. Qed.

Lemma delimited_separator (level : nat) (s : string) :
    delimited (item_separator level ++ s).
  Proof. right. eexists. left. reflexivity. Qed.

Lemma length_item_separator (level : nat) :
    String.length (item_separator level) = S (S (2 * level)).
  Proof.
    unfold item_separator. rewrite length_append, length_newline_indent. reflexivity.
  Qed.

Lemma length_encode_basestring (s : string) :
    (2 <= String.length (encode_basestring s))%nat.
  Proof.
    unfold encode_basestring. cbn [String.length]. rewrite length_append.
    cbn [String.length]. lia.
  Qed.

  (** The first character of the items of an array. *)
Lemma elements_head (level : nat) (sep : string) (x : pyval) (l : list pyval) :
    well_formed float_repr float_parse x ->
    exists c t,
      join sep (map (encode float_repr level) (x :: l)) = String c t /\ starts_value c.
  Proof.
    intros Hx.
    destruct (encode_head float_repr float_parse level x Hx) as (c & t & E & Hc).
    destruct l as [|y l]; cbn [map].
    - exists c, t. now split.
    - rewrite join_cons, E. cbn [append]. eauto.
  Qed.

  (** The first character of the members of an object. *)
Lemma members_head (level : nat) (sep : string) (kv : string * pyval)
        (d : list (string * pyval)) :
    exists t, join sep (map (encode_member float_repr level) (kv :: d)) = String dq t.
  Proof.
    destruct d as [|kv' d]; cbn [map].
    - cbn [join]. unfold encode_member, encode_basestring. cbn [append]. eauto.
    - rewrite join_cons. unfold encode_member at 1. unfold encode_basestring.
      cbn [append]. eauto.
  Qed.

Lemma parse_elements_items (level : nat) (l : list pyval) :
    Forall (reads_back float_repr float_parse) l ->
    fold_right (fun x acc => well_formed float_repr float_parse x /\ acc) True l ->
    l <> [] ->
    forall (fuel : nat) (rest : string),
      (String.length (join (item_separator (S level))
                           (map (encode float_repr (S level)) l)) + 1 < fuel)%nat ->
      parse_elements float_parse fuel
        (join (item_separator (S level)) (map (encode float_repr (S level)) l)
         ++ newline_indent level ++ "]" ++ rest)
      = Some (l, rest).
  Proof.
    intros Hall. induction Hall as [|x l Hx Hall IH]; intros Hwf Hne fuel rest Hfuel.
    - contradiction.
    - destruct Hwf as [Hwx Hwl]. destruct fuel as [|fuel]; [lia|].
      destruct l as [|y l].
      + cbn [map join] in *. apply (parse_elements_last float_parse fuel level).
        apply Hx; [lia | apply delimited_indent].
      + destruct (elements_head (S level) (item_separator (S level)) y l (proj1 Hwl))
          as (c & t & E & Hc & _).
        assert (Hne' : y :: l <> []) by discriminate.
        specialize (IH Hwl Hne' fuel rest).
        cbn [map] in Hfuel, IH |- *. rewrite join_cons in Hfuel |- *.
        rewrite !length_append, length_item_separator in Hfuel.
        cbn [map] in E. rewrite E in Hfuel, IH |- *.
        rewrite !append_assoc.
        apply (parse_elements_more float_parse fuel (S level) _ rest c
                 (t ++ newline_indent level ++ "]" ++ rest) x (y :: l)).
        * apply Hx; [lia | apply delimited_separator].
        * exact Hc.
        * apply IH. lia.
  Qed.

Lemma parse_members_items (level : nat) (d : list (string * pyval)) :
    Forall (fun kv => reads_back float_repr float_parse (snd kv)) d ->
    fold_right (fun kv acc => well_formed float_repr float_parse (snd kv) /\ acc) True d ->
    d <> [] ->
    forall (fuel : nat) (rest : string),
      (String.length (join (item_separator (S level))
                           (map (encode_member float_repr (S level)) d)) + 1 < fuel)%nat ->
      parse_members float_parse fuel
        (join (item_separator (S level)) (map (encode_member float_repr (S level)) d)
         ++ newline_indent level ++ "}" ++ rest)
      = Some (d, rest).
  Proof.
    intros Hall. induction Hall as [|[k x] d Hx Hall IH]; intros Hwf Hne fuel rest Hfuel.
    - contradiction.
    - destruct Hwf as [Hwx Hwd]. cbn [snd] in Hx, Hwx.
      destruct fuel as [|fuel]; [lia|].
      destruct (encode_head float_repr float_parse (S level) x Hwx) as (c & t & E & Hc & _).
      pose proof (length_encode_basestring k) as Hk.
      destruct d as [|kv d].
      + cbn [map join] in *. unfold encode_member in *. cbn [fst snd] in *.
        rewrite !length_append in Hfuel.
        rewrite !append_assoc. rewrite E. cbn [append].
        apply (parse_members_last float_parse fuel level k rest c _ x Hc).
        change (parse_value float_parse fuel
                  (String c t ++ newline_indent level ++ "}" ++ rest)
                = Some (x, newline_indent level ++ "}" ++ rest)).
        rewrite <- E. apply Hx; [lia | apply delimited_indent].
      + destruct (members_head (S level) (item_separator (S level)) kv d) as (t' & E').
        assert (Hne' : kv :: d <> []) by discriminate.
        specialize (IH Hwd Hne' fuel rest).
        cbn [map] in Hfuel, IH |- *. rewrite join_cons in Hfuel |- *.
        unfold encode_member at 1 in Hfuel. unfold encode_member at 1.
        cbn [fst snd] in Hfuel |- *.
        rewrite !length_append, length_item_separator in Hfuel.
        cbn [map] in E'. rewrite E' in Hfuel, IH |- *.
        rewrite !append_assoc. rewrite E. cbn [append].
        apply (parse_members_more float_parse fuel (S level) k rest c _
                 (t' ++ newline_indent level ++ "}" ++ rest) x (kv :: d) Hc).
        * change (parse_value float_parse fuel
                    (String c t ++ item_separator (S level)
                     ++ String dq (t' ++ newline_indent level ++ "}" ++ rest))
                  = Some (x, item_separator (S level)
                             ++ String dq (t' ++ newline_indent level ++ "}" ++ rest))).
          rewrite <- E. apply Hx; [lia | apply delimited_separator].
        * apply IH. lia.
  Qed.

  (** [dict(pairs)] keeps pairs whose keys are distinct as they are. *)
Lemma dict_set_fresh (k : string) (v : pyval) (d : dict) :
    ~ In k (map fst d) -> dict_set k v d = (d ++ [(k, v)])%list.
  Proof.
    induction d as [|[k' v'] d IH]; cbn [dict_set map fst In app]; intros H.
    - reflexivity.
    - destruct (String.eqb_spec k k') as [-> | Hk].
      + exfalso. apply H. now left.
      + rewrite IH; [reflexivity|]. intros Hin. apply H. now right.
  Qed.

Lemma dict_of_pairs_from (pairs acc : list (string * pyval)) :
    NoDup (map fst (acc ++ pairs)) ->
    fold_left (fun d kv => dict_set (fst kv) (snd kv) d) pairs acc = (acc ++ pairs)%list.
  Proof.
    revert acc. induction pairs as [|[k v] pairs IH]; intros acc Hnd; cbn [fold_left fst snd].
    - now rewrite app_nil_r.
    - rewrite map_app in Hnd. cbn [map fst] in Hnd.
      pose proof (NoDup_remove_2 _ _ _ Hnd) as Hk.
      rewrite dict_set_fresh.
      + rewrite IH.
        * now rewrite <- app_assoc.
        * rewrite <- app_assoc. cbn [app]. rewrite map_app. exact Hnd.
      + intros Hin. apply Hk. apply in_or_app. now left.
  Qed.

Lemma dict_of_pairs_distinct (pairs : list (string * pyval)) :
    NoDup (map fst pairs) -> dict_of_pairs pairs = pairs.
  Proof. intros H. apply (dict_of_pairs_from pairs []). exact H. Qed.

Lemma items_read_back (l : list pyval) :
    Forall (fun v => well_formed float_repr float_parse v
                     -> reads_back float_repr float_parse v) l ->
    fold_right (fun x acc => well_formed float_repr float_parse x /\ acc) True l ->
    Forall (reads_back float_repr float_parse) l.
  Proof.
    intros H. induction H as [|x l Hx H IH]; intros Hwf; constructor.
    - apply Hx, Hwf.
    - apply IH, Hwf.
  Qed.

Lemma members_read_back (d : list (string * pyval)) :
    Forall (fun kv => well_formed float_repr float_parse (snd kv)
                      -> reads_back float_repr float_parse (snd kv)) d ->
    fold_right (fun kv acc => well_formed float_repr float_parse (snd kv) /\ acc) True d ->
    Forall (fun kv => reads_back float_repr float_parse (snd kv)) d.
  Proof.
    intros H. induction H as [|x l Hx H IH]; intros Hwf; constructor.
    - apply Hx, Hwf.
    - apply IH, Hwf.
  Qed.

  (** Every well-formed value is read back from its text. *)
Lemma encode_reads_back (v : pyval) :
    well_formed float_repr float_parse v -> reads_back float_repr float_parse v.
  Proof.
    induction v as [| b | z | q | s | l IH | d IH] using pyval_induction;
      intros Hwf level fuel rest Hfuel Hrest;
      (destruct fuel as [|fuel]; [lia|]).
    - reflexivity.
    - destruct b; reflexivity.
    - now apply parse_value_int.
    - now apply (parse_value_float float_repr).
    - apply parse_value_str.
    - destruct l as [|x l]; [reflexivity|].
      assert (Hne : x :: l <> []) by discriminate.
      rewrite (encode_list level (x :: l) Hne) in Hfuel |- *.
      cbn [well_formed] in Hwf.
      destruct (elements_head (S level) (item_separator (S level)) x l (proj1 Hwf))
        as (c & t & E & Hc).
      pose proof (parse_elements_items level (x :: l) (items_read_back _ IH Hwf) Hwf Hne fuel rest) as Hitems.
      cbn [String.length append] in Hfuel.
      rewrite !length_append, length_newline_indent in Hfuel.
      rewrite !append_assoc. rewrite E in Hitems |- *. cbn [append] in Hitems |- *.
      apply (parse_value_array float_parse fuel (S level) c _ (x :: l) rest Hc).
      apply Hitems. rewrite <- E. lia.
    - destruct d as [|kv d]; [reflexivity|].
      assert (Hne : kv :: d <> []) by discriminate.
      rewrite (encode_dict level (kv :: d) Hne) in Hfuel |- *.
      cbn [well_formed] in Hwf. destruct Hwf as [Hnd Hwf].
      destruct (members_head (S level) (item_separator (S level)) kv d) as (t & E).
      pose proof (parse_members_items level (kv :: d) (members_read_back _ IH Hwf) Hwf Hne fuel rest) as Hitems.
      cbn [String.length append] in Hfuel.
      rewrite !length_append, length_newline_indent in Hfuel.
      rewrite !append_assoc. rewrite E in Hitems |- *. cbn [append] in Hitems |- *.
      transitivity (Some (PDict (dict_of_pairs (kv :: d)), rest));
        [| now rewrite dict_of_pairs_distinct].
      apply (parse_value_object float_parse fuel (S level) _ (kv :: d) rest).
      apply Hitems. rewrite <- E. lia.
  Qed.

  (** [json.loads(json.dumps(v, indent=2, ensure_ascii=False)) == v] *)
Lemma loads_dumps (v : pyval) :
    well_formed float_repr float_parse v ->
    loads float_parse (dumps float_repr v) = Some v.
  Proof.
    intros Hwf. unfold loads, dumps.
    destruct (encode_head float_repr float_parse 0%nat v Hwf) as (c & t & E & Hc & _).
    pose proof (encode_reads_back v Hwf 0%nat (S (String.length (encode float_repr 0 v)))
                  EmptyString) as H.
    rewrite append_nil_r in H.
    rewrite E in H |- *. rewrite skip_ws_head by exact Hc.
    rewrite H; [reflexivity | lia | now left].
  Qed.

End RoundTripProof.

(* ================================================================== *)
(** * What the structured-data file holds *)
(* ================================================================== *)

Section Keeps.
Variable Inv : world -> Prop.

Lemma keeps_ret {A} (a : A) (Q : A -> Prop) : Q a -> keeps Inv (ret a) Q.
  Proof. intros H w Hw. split; [exact Hw|]. cbn. intros a' [= <-]. exact H. Qed.

Lemma keeps_raise {A} (e : exn) (Q : A -> Prop) : keeps Inv (raise e) Q.
  Proof. intros w Hw. split; [exact Hw | discriminate]. Qed.

Lemma keeps_return {A} (Q : A -> Prop) : keeps Inv return_ Q.
  Proof. intros w Hw. split; [exact Hw | discriminate]. Qed.

Lemma keeps_bind {A B} (m : M world A) (k : A -> M world B)
        (Q : A -> Prop) (R : B -> Prop) :
    keeps Inv m Q -> (forall a, Q a -> keeps Inv (k a) R) -> keeps Inv (bind m k) R.
  Proof.
    intros Hm Hk w Hw. unfold bind. destruct (Hm w Hw) as [Hw' HQ].
    destruct (m w) as [[a | | e] w']; cbn [fst snd] in *.
    - apply Hk; [apply HQ; reflexivity | exact Hw'].
    - split; [exact Hw' | discriminate].
    - split; [exact Hw' | discriminate].
  Qed.

Lemma keeps_seq {A B} (m : M world A) (k : A -> M world B) (Q : A -> Prop)
        (R : B -> Prop) :
    keeps Inv m Q -> (forall a, keeps Inv (k a) R) -> keeps Inv (bind m k) R.
  Proof. intros Hm Hk. apply (keeps_bind m k Q R Hm). intros a _. apply Hk. Qed.

Lemma keeps_try_except {A} (body : M world A) (handler : exn -> M world A)
        (Q : A -> Prop) :
    keeps Inv body Q -> (forall e, keeps Inv (handler e) Q) ->
    keeps Inv (try_except body handler) Q.
  Proof.
    intros Hb Hh w Hw. unfold try_except. destruct (Hb w Hw) as [Hw' HQ].
    destruct (body w) as [[a | | e] w']; cbn [fst snd] in *.
    - split; [exact Hw' | exact HQ].
    - split; [exact Hw' | discriminate].
    - apply Hh. exact Hw'.
  Qed.

Lemma keeps_any {A} (m : M world A) (Q : A -> Prop) :
    keeps Inv m Q -> keeps Inv m (fun _ => True).
  Proof. intros H w Hw. split; [apply (H w Hw) | trivial]. Qed.

Lemma keeps_modify (f : world -> world) :
    (forall w, Inv w -> Inv (f w)) -> keeps Inv (modify f) (fun _ => True).
  Proof. intros H w Hw. split; [apply H, Hw | trivial]. Qed.

Lemma keeps_gets {A} (f : world -> A) : keeps Inv (gets f) (fun _ => True).
  Proof. intros w Hw. split; [exact Hw | trivial]. Qed.

Lemma keeps_lift {A} (r : exn + A) : keeps Inv (lift r) (fun a => r = inr a).
  Proof.
    intros w Hw. unfold lift. destruct r as [e|a]; cbn [fst snd].
    - split; [exact Hw | discriminate].
    - split; [exact Hw|]. now intros a' [= <-].
  Qed.

End Keeps.

Lemma append_cancel_l (p a b : string) : p ++ a = p ++ b -> a = b.
Proof. induction p as [|c p IH]; cbn [append]; intros H; [exact H|]. injection H as H. auto. Qed.

Lemma artifact_inj (self : job) (e1 e2 : string) :
  artifact self e1 = artifact self e2 -> e1 = e2.
Proof.
  unfold artifact, PathOps.truediv. intros H. injection H as H.
  apply app_inj_tail in H as [_ H].
  apply append_cancel_l in H. now apply (append_cancel_l "_transcript.") in H.
Qed.

Lemma in_written_paths (t : list action) (p : Path) :
  In p (written_paths t) -> exists content, In (FileWrite p content) t.
Proof.
  unfold written_paths. intros H. apply in_flat_map in H as (a & Ha & Hp).
  destruct a; try contradiction. destruct Hp as [<- | []]. eauto.
Qed.

Section JsonContent.
Variable float_repr : Q -> string.
Variable rt : env.
Variable self : job.

Lemma json_kept_add (a : action) (w : world) :
    match a with
    | FileWrite p c => json_file float_repr rt self p c
    | _ => True
    end ->
    json_kept float_repr rt self w -> json_kept float_repr rt self (add a w).
  Proof.
    intros Ha Hw path content Hin. cbn [add trace] in Hin.
    apply in_app_or in Hin as [Hin | [-> | []]]; [now apply Hw | exact Ha].
  Qed.

Lemma json_kept_note_read (flag : bool) (w : world) :
    json_kept float_repr rt self w -> json_kept float_repr rt self (note_read flag w).
  Proof.
    intros Hw path content Hin. cbn [note_read trace] in Hin.
    apply in_app_or in Hin as [Hin | [Hin | []]]; [now apply Hw | discriminate].
  Qed.

Lemma json_kept_note_load (name : string) (w : world) :
    json_kept float_repr rt self w -> json_kept float_repr rt self (note_load name w).
  Proof.
    intros Hw path content Hin. cbn [note_load trace] in Hin.
    apply in_app_or in Hin as [Hin | [Hin | []]]; [now apply Hw | discriminate].
  Qed.

Lemma emit_keeps (e : event) :
    keeps (json_kept float_repr rt self) (emit e) (fun _ => True).
  Proof. apply keeps_modify. intros w. now apply json_kept_add. Qed.

Lemma cancelled_keeps :
    keeps (json_kept float_repr rt self) (cancelled rt) (fun _ => True).
  Proof.
    unfold cancelled. eapply keeps_seq; [apply keeps_gets | intros n].
    eapply keeps_seq; [apply keeps_modify, json_kept_note_read | intros _].
    now apply keeps_ret.
  Qed.

Lemma return_if_cancelled_keeps :
    keeps (json_kept float_repr rt self) (return_if_cancelled rt) (fun _ => True).
  Proof.
    unfold return_if_cancelled. eapply keeps_seq; [apply cancelled_keeps | intros c].
    destruct c; [apply keeps_return | now apply keeps_ret].
  Qed.

Lemma load_model_keeps :
    keeps (json_kept float_repr rt self) (load_model rt self) (fun _ => True).
  Proof.
    unfold load_model. eapply keeps_seq; [apply keeps_gets | intros n].
    eapply keeps_seq; [apply keeps_gets | intros v].
    eapply keeps_seq; [apply keeps_modify, json_kept_note_load | intros _].
    destruct (load_model_error rt n v); [apply keeps_raise | now apply keeps_ret].
  Qed.

Lemma load_model_with_retry_keeps :
    keeps (json_kept float_repr rt self) (load_model_with_retry rt self) (fun _ => True).
  Proof.
    unfold load_model_with_retry. apply keeps_try_except; [apply load_model_keeps|].
    intros e. destruct (is_URLError e); [|apply keeps_raise].
    destruct (PyStr.contains _ _); [|apply keeps_raise].
    eapply keeps_seq; [|intros _; apply load_model_keeps].
    apply keeps_modify. intros w Hw. exact Hw.
  Qed.

Lemma transcribe_keeps :
    keeps (json_kept float_repr rt self) (transcribe rt self)
          (fun result => transcribe_result rt = inr result).
  Proof.
    unfold transcribe. eapply keeps_seq; [|intros _; apply keeps_lift].
    apply keeps_modify. intros w. now apply json_kept_add.
  Qed.

  (** A writer at another place than that of the structured data. *)
Lemma writer_keeps (write : Path -> M world unit) (ext : string) :
    file_writer write -> ext <> "json" ->
    keeps (json_kept float_repr rt self) (write (artifact self ext)) (fun _ => True).
  Proof.
    intros Hwr Hext w Hw. split; [|trivial].
    destruct (Hwr (artifact self ext) w) as [[e ->] | (content & o & ->)]; [exact Hw|].
    cbn [snd]. apply json_kept_add; [|exact Hw].
    intros Hp. apply artifact_inj in Hp. contradiction.
  Qed.

Lemma write_json_keeps (result : pyval) (path : Path) :
    transcribe_result rt = inr result ->
    keeps (json_kept float_repr rt self) (write_json float_repr rt result path)
          (fun _ => True).
  Proof.
    intros Hres. unfold write_json, with_open.
    destruct (open_error rt path); [apply keeps_raise|].
    eapply keeps_seq; [|intros _; now apply keeps_ret].
    apply keeps_modify. intros w. apply json_kept_add.
    intros _. exists result. split; [exact Hres | reflexivity].
  Qed.

Lemma export_block_keeps (ppf : Q) (ext : string) (write : Path -> M world unit)
        (st : list string * Q) :
    keeps (json_kept float_repr rt self) (write (artifact self ext)) (fun _ => True) ->
    keeps (json_kept float_repr rt self)
          (export_block rt self (PathOps.stem (file_path self)) ppf ext write st)
          (fun _ => True).
  Proof.
    intros Hwr. unfold export_block.
    destruct (requested (output_formats self) ext); [|now apply keeps_ret].
    eapply keeps_seq; [apply return_if_cancelled_keeps | intros _].
    eapply keeps_seq; [exact Hwr | intros _].
    eapply keeps_seq; [apply emit_keeps | intros _].
    now apply keeps_ret.
  Qed.

Lemma write_outputs_keeps (ppf : Q) (result : pyval) :
    transcribe_result rt = inr result ->
    keeps (json_kept float_repr rt self)
          (write_outputs float_repr rt self (PathOps.stem (file_path self)) ppf result)
          (fun _ => True).
  Proof.
    intros Hres. unfold write_outputs.
    pose proof (blocks_writers float_repr rt self result) as Hws.
    unfold blocks in Hws. cbn [map snd] in Hws.
    repeat (apply Forall_cons_iff in Hws as [? Hws]).
    repeat (eapply keeps_seq;
            [apply export_block_keeps, writer_keeps; [assumption | discriminate]
            | intros ?]).
    apply export_block_keeps, write_json_keeps, Hres.
  Qed.

Lemma transcribe_and_export_keeps :
    keeps (json_kept float_repr rt self) (transcribe_and_export float_repr rt self)
          (fun _ => True).
  Proof.
    unfold transcribe_and_export.
    eapply keeps_seq; [apply return_if_cancelled_keeps | intros _].
    eapply keeps_seq; [apply emit_keeps | intros _].
    eapply keeps_seq; [apply emit_keeps | intros _].
    eapply keeps_bind; [apply transcribe_keeps | intros result Hres].
    eapply keeps_seq; [apply return_if_cancelled_keeps | intros _].
    eapply keeps_seq; [apply emit_keeps | intros _].
    cbv zeta.
    eapply keeps_seq; [apply keeps_lift | intros ppf].
    eapply keeps_seq; [apply write_outputs_keeps, Hres | intros st].
    eapply keeps_seq; [apply cancelled_keeps | intros c].
    destruct c; [now apply keeps_ret | apply emit_keeps].
  Qed.

Lemma handler_keeps (e : exn) :
    keeps (json_kept float_repr rt self) (handler rt e) (fun _ => True).
  Proof.
    unfold handler.
    destruct (is_FileNotFoundError e);
      (eapply keeps_seq; [apply cancelled_keeps | intros c]);
      destruct c; first [now apply keeps_ret | apply emit_keeps].
  Qed.

Lemma run_keeps :
    keeps (json_kept float_repr rt self) (run float_repr rt self) (fun _ => True).
  Proof.
    unfold run, run_body. apply keeps_try_except; [|apply handler_keeps].
    apply (keeps_seq _ (imports rt) _ (fun _ => True)).
    { unfold imports. destruct (import_error rt);
        [apply keeps_raise | now apply keeps_ret]. }
    intros _.
    eapply keeps_seq; [apply return_if_cancelled_keeps | intros _].
    eapply keeps_seq; [apply emit_keeps | intros _].
    eapply keeps_seq; [apply load_model_with_retry_keeps | intros _].
    apply transcribe_and_export_keeps.
  Qed.

  (** Whatever a job writes at the place of the structured-data export
      is the text of the inference result. *)
Lemma run_json_file (verified : bool) (result : pyval) (content : string) :
    transcribe_result rt = inr result ->
    In (FileWrite (artifact self "json") content) (run_trace float_repr rt self verified) ->
    content = Json.dumps float_repr result.
  Proof.
    intros Hres Hin.
    destruct (run_keeps (init_world verified)) as [Hkept _].
    { intros p c []. }
    destruct (Hkept _ _ Hin eq_refl) as (result' & Hres' & ->).
    rewrite Hres in Hres'. now injection Hres' as <-.
  Qed.

End JsonContent.

(** C9.  The structured-data export is the raw inference result
    serialised as [json.dump(result, f, indent=2, ensure_ascii=False)]
    writes it, and reading the file back with [json.load] gives the
    result itself: the same transcript text and the same segments, each
    with its start, end and text (and every other field).  A job that
    reports [Finished] for a request that includes the format has written
    that file.  The result is a value as Python builds it (distinct keys,
    finite floats, which [repr] and [float] take to text and back). *)
Theorem json_export_round_trip (float_repr : Q -> string)
        (float_parse : string -> option Q) (rt : env) (self : job) (verified : bool)
        (result : pyval) :
  transcribe_result rt = inr result ->
  Json.well_formed float_repr float_parse result ->
  let t := run_trace float_repr rt self verified in
  (forall content,
      In (FileWrite (artifact self "json") content) t ->
      content = Json.dumps float_repr result
      /\ Json.loads float_parse content = Some result
      /\ (forall loaded, Json.loads float_parse content = Some loaded ->
            transcript_of loaded = transcript_of result
            /\ segments_of loaded = segments_of result))
  /\ (forall files,
        In (Emit (Finished files)) t ->
        requested (output_formats self) "json" = true ->
        In (FileWrite (artifact self "json") (Json.dumps float_repr result)) t).
Proof.
  intros Hres Hwf t.
  assert (Hcontent : forall content,
             In (FileWrite (artifact self "json") content) t ->
             content = Json.dumps float_repr result).
  { intros content Hin. exact (run_json_file float_repr rt self verified result content Hres Hin). }
  split.
  - intros content Hin. rewrite (Hcontent content Hin).
    pose proof (loads_dumps float_repr float_parse result Hwf) as Hload.
    split; [reflexivity|]. split; [exact Hload|].
    intros loaded Hloaded. rewrite Hload in Hloaded. now injection Hloaded as <-.
  - intros files Hfin Hreq.
    destruct (run_summary_holds float_repr rt self verified)
      as (progs & term & Hev & Hpre & Hterm & _).
    fold (run_trace float_repr rt self verified) in Hev, Hterm. fold t in Hev, Hterm.
    apply in_events in Hfin. rewrite Hev in Hfin.
    assert (Hall : written_paths t = artifacts self).
    { apply in_app_or in Hfin as [Hfin | Hfin].
      - now apply (prefix_not_terminal self _ _ Hpre) in Hfin.
      - destruct Hterm as [-> | [[m ->] | (-> & _ & Hall)]].
        + destruct Hfin.
        + destruct Hfin as [Hfin | []]. discriminate.
        + exact Hall. }
    assert (Hin : In (artifact self "json") (written_paths t)).
    { rewrite Hall. unfold artifacts, requested_formats. apply in_map.
      apply filter_In. split; [|exact Hreq].
      unfold canonical_formats. cbn [In]. tauto. }
    apply in_written_paths in Hin as (content & Hin).
    now rewrite <- (Hcontent content Hin).
Qed.

Lemma sample_result_well_formed :
  Json.well_formed Sample.float_repr Sample.float_parse Sample.result.
Proof.
  cbn [Sample.result Json.well_formed fold_right snd map fst].
  repeat split; try (repeat constructor; cbn [In]; intuition discriminate).
  - exists "0", ".0", "". repeat split.
  - exists "1", ".5", "". repeat split.
Qed.

Lemma json_export_round_trip_witness :
  let t := run_trace Sample.float_repr Sample.calm_env (Sample.talk ["json"]) true in
  let content := Json.dumps Sample.float_repr Sample.result in
  In (FileWrite (mkPath "/" ["home"; "talk_transcript.json"]) content) t
  /\ Json.loads Sample.float_parse content = Some Sample.result.
Proof.
  intros t content.
  pose proof (json_export_round_trip Sample.float_repr Sample.float_parse Sample.calm_env
                (Sample.talk ["json"]) true Sample.result eq_refl
                sample_result_well_formed) as [Hread Hwritten].
  assert (Hin : In (FileWrite (mkPath "/" ["home"; "talk_transcript.json"]) content) t).
  { apply (Hwritten ["/home/talk_transcript.json"]); [|reflexivity].
    vm_compute. tauto. }
  split; [exact Hin|]. exact (proj1 (proj2 (Hread content Hin))).
Defined.

(* ================================================================== *)
(** * More on the timestamp formatter *)
(* ================================================================== *)



(** ** Negative offsets *)

Section NegativeOperands.
Local Open Scope Q_scope.
Import PyNum.

Section Quotient.
Variables x y : Q.
Hypothesis Hx : x < 0.
Hypothesis Hy : 0 < y.

Lemma quotient_negative : x / y < 0.
    Proof.
      apply Qlt_shift_div_r; [exact Hy | lra].
    Qed.

Lemma int_quotient_negative : int (x / y) = Qceiling (x / y).
    Proof.
      unfold int. destruct (Qle_bool 0 (x / y)) eqn:E; [|reflexivity].
      apply Qle_bool_iff in E. pose proof quotient_negative. lra.
    Qed.

Lemma fmod_negative : fmod x y = x - y * inject_Z (Qceiling (x / y)).
    Proof. unfold fmod. now rewrite int_quotient_negative. Qed.

Lemma fmod_negative_range : - y < fmod x y /\ fmod x y <= 0.
    Proof.
      rewrite fmod_negative.
      pose proof (Qle_ceiling (x / y)) as Cl. pose proof (Qceiling_lt (x / y)) as Ch.
      unfold Z.sub in Ch. rewrite inject_Z_plus, inject_Z_opp in Ch. change (inject_Z 1) with 1 in Ch.
      set (c := inject_Z (Qceiling (x / y))) in *.
      assert (E : x == x / y * y) by (field; lra).
      set (s := x / y) in *. clearbody s c.
      assert (H1 : s * y <= c * y) by (apply Qmult_le_compat_r; lra).
      assert (H2 : (c + - (1)) * y < s * y) by (apply Qmult_lt_compat_r; lra).
      setoid_replace ((c + - (1)) * y) with (c * y - y) in H2 by ring.
      rewrite E. setoid_replace (s * y - y * c) with (s * y - c * y) by ring.
      split; lra.
    Qed.


End Quotient.

  (** Above [- 2 ^ 53] the floor division of a negative number by an
      integer from two on is exact. *)
Lemma floordiv_negative (x : Q) (k : Z) :
    x < 0 -> inject_Z (- 2 ^ 53) < x -> (2 <= k)%Z ->
    floordiv x (inject_Z k) == inject_Z (Qfloor (x / inject_Z k)).
  Proof.
    intros Hx Hbig Hk.
    assert (Hy : 0 < inject_Z k) by (change 0 with (inject_Z 0); rewrite <- Zlt_Qlt; lia).
    destruct (fmod_negative_range x (inject_Z k) Hx Hy) as [Lo Hi].
    pose proof (Qle_ceiling (x / inject_Z k)) as Cl.
    pose proof (Qceiling_lt (x / inject_Z k)) as Ch.
    pose proof (quotient_negative x (inject_Z k) Hx Hy) as Hq.
    unfold floordiv.
    rewrite (ltb_false (inject_Z k) 0) by lra.
    set (c := Qceiling (x / inject_Z k)) in *.
    assert (Em : fmod x (inject_Z k) == x - inject_Z (k * c)).
    { rewrite (fmod_negative x (inject_Z k) Hx Hy). fold c. now rewrite inject_Z_mult. }
    assert (Hc0 : (c <= 0)%Z).
    { assert (H : inject_Z (c - 1) < inject_Z 0) by (change (inject_Z 0) with 0; lra).
      rewrite <- Zlt_Qlt in H. lia. }
    assert (Hkc : (- 2 ^ 53 < k * c)%Z).
    { rewrite Zlt_Qlt. eapply Qlt_le_trans; [exact Hbig|]. rewrite Em in Hi. lra. }
    assert (Hc53 : (- 2 ^ 52 < c)%Z) by nia.
    assert (D : to_binary64 (to_binary64 (x - fmod x (inject_Z k)) / inject_Z k) == inject_Z c).
    { assert (E1 : x - fmod x (inject_Z k) == inject_Z (k * c)) by (rewrite Em; ring).
      rewrite E1, round_Z by lia.
      assert (E2 : inject_Z (k * c) / inject_Z k == inject_Z c).
      { rewrite inject_Z_mult. field. lra. }
      rewrite E2. apply round_Z. lia. }
    set (div := to_binary64 (to_binary64 (x - fmod x (inject_Z k)) / inject_Z k)) in *.
    assert (Hk0 : ~ inject_Z k == 0) by lra.
    destruct (Qeq_bool (fmod x (inject_Z k)) 0) eqn:E0; cbn [negb andb].
    - apply Qeq_bool_iff in E0.
      assert (Ex : x / inject_Z k == inject_Z c).
      { rewrite Em in E0. rewrite inject_Z_mult in E0.
        assert (Ex : x == inject_Z k * inject_Z c) by lra.
        rewrite Ex. field. exact Hk0. }
      rewrite (Qfloor_comp _ _ Ex), Qfloor_Z.
      destruct (Qeq_bool div 0) eqn:Ed.
      + apply Qeq_bool_iff in Ed. rewrite <- D. now symmetry.
      + rewrite (Qfloor_comp _ _ D), Qfloor_Z.
        assert (R : to_binary64 (div - inject_Z c) == 0) by (apply round_zero; rewrite D; ring).
        rewrite (ltb_false (1 # 2)); [reflexivity | rewrite R; lra].
    - assert (N : ~ fmod x (inject_Z k) == 0).
      { intros E. apply Qeq_bool_iff in E. congruence. }
      rewrite (ltb_true (fmod x (inject_Z k)) 0) by lra. cbn [xorb].
      assert (D' : to_binary64 (div - 1) == inject_Z (c - 1)).
      { assert (E1 : div - 1 == inject_Z (c - 1)).
        { rewrite D. unfold Z.sub. rewrite inject_Z_plus, inject_Z_opp. reflexivity. }
        rewrite E1. apply round_Z. lia. }
      assert (Hfl : Qfloor (x / inject_Z k) = (c - 1)%Z).
      { apply Qfloor_unique; [lra|].
        replace (c - 1 + 1)%Z with c by lia.
        destruct (Qle_lt_or_eq _ _ Cl) as [Hlt|Heq]; [exact Hlt|].
        exfalso. apply N. rewrite Em, inject_Z_mult, <- Heq. field. exact Hk0. }
      rewrite Hfl.
      destruct (Qeq_bool (to_binary64 (div - 1)) 0) eqn:Ed.
      + apply Qeq_bool_iff in Ed. rewrite D' in Ed.
        apply (inject_Z_injective (c - 1) 0) in Ed. lia.
      + rewrite (Qfloor_comp _ _ D'), Qfloor_Z.
        assert (R : to_binary64 (to_binary64 (div - 1) - inject_Z (c - 1)) == 0)
          by (apply round_zero; rewrite D'; ring).
        rewrite (ltb_false (1 # 2)); [reflexivity | rewrite R; lra].
  Qed.



End NegativeOperands.

Section NegativeOffset.
Local Open Scope Q_scope.
Import PyNum.
Variable seconds : Q.
Hypothesis Hneg : seconds < 0.
Hypothesis Hbig : inject_Z (- 2 ^ 53) < seconds.








End NegativeOffset.



(** ** Reading a timestamp back *)

Section ReadingClock.
Import Json.

Lemma digit_char_inj (a b : Z) :
    0 <= a < 10 -> 0 <= b < 10 -> PyStr.digit_char a = PyStr.digit_char b -> a = b.
  Proof.
    intros Ha Hb E. apply (f_equal digit_value) in E.
    now rewrite !digit_value_char in E by assumption.
  Qed.

Lemma digit_bounds (a k : Z) : 0 < k -> 0 <= a < 10 * k -> 0 <= a / k < 10.
  Proof.
    intros Hk Ha. split; [apply Z.div_pos; lia | apply Z.div_lt_upper_bound; lia].
  Qed.

Lemma two_digits_inj (a b : Z) :
    0 <= a < 100 -> 0 <= b < 100 -> two_digits a = two_digits b -> a = b.
  Proof.
    intros Ha Hb E. unfold two_digits in E. injection E as E1 E2.
    apply digit_char_inj in E1; [|apply digit_bounds; lia ..].
    apply digit_char_inj in E2; [|apply Z.mod_pos_bound; lia ..].
    rewrite (Z.div_mod a 10), (Z.div_mod b 10) by lia. lia.
  Qed.

Lemma three_digits_inj (a b : Z) :
    0 <= a < 1000 -> 0 <= b < 1000 -> three_digits a = three_digits b -> a = b.
  Proof.
    intros Ha Hb E. unfold three_digits in E.
    assert (E1 : PyStr.digit_char (a / 100) = PyStr.digit_char (b / 100))
      by (injection E; congruence).
    assert (E2 : two_digits (a mod 100) = two_digits (b mod 100))
      by (unfold two_digits in *; injection E; congruence).
    apply digit_char_inj in E1; [|apply digit_bounds; lia ..].
    apply two_digits_inj in E2; [|apply Z.mod_pos_bound; lia ..].
    rewrite (Z.div_mod a 100), (Z.div_mod b 100) by lia. lia.
  Qed.

  (** Two runs of digits that end at a colon. *)
Lemma digits_before_colon (a b r r' : string) :
    all_digits a = true -> all_digits b = true ->
    a ++ String ":" r = b ++ String ":" r' -> a = b /\ r = r'.
  Proof.
    revert b. induction a as [|c a IH]; intros [|d b] Ha Hb E; cbn [append] in E.
    - injection E as ->. auto.
    - injection E as <- _. cbn [all_digits] in Hb. discriminate.
    - injection E as -> _. cbn [all_digits] in Ha. discriminate.
    - injection E as -> E. cbn [all_digits] in Ha, Hb.
      apply andb_prop in Ha as [_ Ha]. apply andb_prop in Hb as [_ Hb].
      destruct (IH b Ha Hb E) as [-> ->]. auto.
  Qed.

Lemma all_digits_zeros (k : nat) : all_digits (PyStr.replicate k "0") = true.
  Proof. induction k; [reflexivity | exact IHk]. Qed.

Lemma digits_value_zeros (k : nat) : digits_value 0 (PyStr.replicate k "0") = 0.
  Proof. induction k; [reflexivity | exact IHk]. Qed.

Lemma zfill_digits (w : nat) (n : Z) :
    0 <= n ->
    all_digits (PyStr.zfill w (PyStr.str_nat n)) = true
    /\ digits_value 0 (PyStr.zfill w (PyStr.str_nat n)) = n.
  Proof.
    intros Hn. destruct (str_nat_spec n Hn) as (c & ds & E & Hall & Hval & _).
    unfold PyStr.zfill. rewrite E, all_digits_app, digits_value_app.
    now rewrite all_digits_zeros, digits_value_zeros, Hall, Hval.
  Qed.

Lemma clock_text_inj (t1 t2 : Z) (use_comma : bool) :
    0 <= t1 -> 0 <= t2 -> clock_text t1 use_comma = clock_text t2 use_comma -> t1 = t2.
  Proof.
    intros H1 H2 E. unfold clock_text in E.
    destruct (zfill_digits 2 (t1 / 3600000)) as [A1 V1]; [apply Z.div_pos; lia|].
    destruct (zfill_digits 2 (t2 / 3600000)) as [A2 V2]; [apply Z.div_pos; lia|].
    apply digits_before_colon in E as [Eh E]; [|assumption ..].
    assert (Hh : t1 / 3600000 = t2 / 3600000) by (rewrite <- V1, <- V2; now rewrite Eh).
    pose proof (Z.mod_pos_bound (t1 / 60000) 60) as M1.
    pose proof (Z.mod_pos_bound (t2 / 60000) 60) as M2.
    pose proof (Z.mod_pos_bound (t1 / 1000) 60) as S1.
    pose proof (Z.mod_pos_bound (t2 / 1000) 60) as S2.
    pose proof (Z.mod_pos_bound t1 1000) as L1.
    pose proof (Z.mod_pos_bound t2 1000) as L2.
    assert (Em : two_digits ((t1 / 60000) mod 60) = two_digits ((t2 / 60000) mod 60)
                 /\ two_digits ((t1 / 1000) mod 60) = two_digits ((t2 / 1000) mod 60)
                 /\ three_digits (t1 mod 1000) = three_digits (t2 mod 1000)).
    { unfold two_digits, three_digits in *. cbn [append] in E.
      destruct use_comma; cbn [separator_of append] in E;
        injection E; intros; repeat split; congruence. }
    destruct Em as (Em & Es & El).
    apply two_digits_inj in Em; [|lia ..].
    apply two_digits_inj in Es; [|lia ..].
    apply three_digits_inj in El; [|lia ..].
    pose proof (Z.div_mod t1 1000) as D1. pose proof (Z.div_mod t2 1000) as D2.
    pose proof (Z.div_mod (t1 / 1000) 60) as D3. pose proof (Z.div_mod (t2 / 1000) 60) as D4.
    pose proof (Z.div_mod (t1 / 60000) 60) as D5. pose proof (Z.div_mod (t2 / 60000) 60) as D6.
    rewrite !Z.div_div in D3, D4, D5, D6 by lia.
    change (1000 * 60) with 60000 in *. change (60000 * 60) with 3600000 in *.
    lia.
  Qed.

End ReadingClock.

(** ** The order of the timestamps *)

Section ShownOrder.
Local Open Scope Q_scope.
Variables s1 s2 : Q.
Hypothesis H1 : 0 <= s1.
Hypothesis H2 : 0 <= s2.
Hypothesis B1 : PyNum.binary64 s1.
Hypothesis Hle : s1 <= s2.

Lemma shown_millis_mono : (shown_millis s1 <= shown_millis s2)%Z.
  Proof.
    pose proof (Qfloor_resp_le s1 s2 Hle) as HF.
    pose proof (millis_nonneg s2 H2) as N2.
    pose proof (millis_below_1000 s1 H1 B1) as U1.
    unfold shown_millis.
    destruct (Z.eq_dec (Qfloor s1) (Qfloor s2)) as [E|N]; [|lia].
    rewrite E. apply Z.add_le_mono_l.
    rewrite (millis_value s1 H1), (millis_value s2 H2), E.
    apply Qfloor_resp_le, round_le.
    - pose proof (Qfloor_le s1). rewrite E in H. lra.
    - lra.
  Qed.

End ShownOrder.

(** X2.  For binary64 offsets from zero up to [2 ^ 53] seconds the text
    is that of the shown count of milliseconds (the whole seconds and
    the milliseconds field): two offsets get the same text exactly when
    these counts agree, and the count never decreases when the offset
    grows, so that the two times of a cue whose end is not before its
    start are never printed in the reverse order. *)
Theorem format_timestamp_injective (s1 s2 : Q) (use_comma : bool) :
  PyNum.binary64 s1 -> PyNum.binary64 s2 ->
  (0 <= s1)%Q -> (0 <= s2)%Q ->
  (s1 < inject_Z (2 ^ 53))%Q -> (s2 < inject_Z (2 ^ 53))%Q ->
  (_format_timestamp s1 use_comma = _format_timestamp s2 use_comma
   <-> shown_millis s1 = shown_millis s2)
  /\ ((s1 <= s2)%Q -> shown_millis s1 <= shown_millis s2).
Proof.
  intros B1 B2 H1 H2 L1 L2. split.
  - rewrite (format_timestamp_clock s1 H1 B1 use_comma L1).
    rewrite (format_timestamp_clock s2 H2 B2 use_comma L2).
    split.
    + apply clock_text_inj; apply shown_millis_nonneg; assumption.
    + now intros ->.
  - intros Hle. now apply shown_millis_mono.
Qed.

Lemma format_timestamp_injective_witness :
  _format_timestamp (3 # 2) true = _format_timestamp (PyNum.to_binary64 (15004 # 10000)) true
  /\ shown_millis (3 # 2) <= shown_millis (PyNum.to_binary64 (15004 # 10000)).
Proof.
  assert (B1 : PyNum.binary64 (3 # 2)) by (split; vm_compute; reflexivity).
  assert (B2 : PyNum.binary64 (PyNum.to_binary64 (15004 # 10000))) by (split; vm_compute; reflexivity).
  assert (H1 : (0 <= 3 # 2)%Q) by (vm_compute; discriminate).
  assert (H2 : (0 <= PyNum.to_binary64 (15004 # 10000))%Q) by (vm_compute; discriminate).
  assert (L1 : (3 # 2 < inject_Z (2 ^ 53))%Q) by reflexivity.
  assert (L2 : (PyNum.to_binary64 (15004 # 10000) < inject_Z (2 ^ 53))%Q) by (vm_compute; reflexivity).
  destruct (format_timestamp_injective (3 # 2) (PyNum.to_binary64 (15004 # 10000)) true
              B1 B2 H1 H2 L1 L2) as [Hiff Hmono].
  split.
  - apply Hiff. vm_compute. reflexivity.
  - apply Hmono. vm_compute. discriminate.
Defined.

(** ** Offsets that are integers *)

(** A segment whose offset is an [int] goes through the integer
    operations of Python; below [2 ^ 53] the binary64 operations give the
    same fields. *)
Section IntegerOffsets.
Local Open Scope Q_scope.
Import PyNum.

Lemma mod_integer (z k : Z) :
    (Z.abs z < 2 ^ 53)%Z -> (0 < k < 2 ^ 53)%Z ->
    mod_ (inject_Z z) (inject_Z k) == inject_Z (z mod k).
  Proof.
    intros Hz Hk.
    assert (Hy : 0 < inject_Z k) by (change 0 with (inject_Z 0); rewrite <- Zlt_Qlt; lia).
    destruct (Z.le_gt_cases 0 z) as [Hpos|Hneg].
    - assert (Hx : 0 <= inject_Z z) by (change 0 with (inject_Z 0); now rewrite <- Zle_Qle).
      rewrite (mod_nonneg _ _ Hx Hy), <- Zdiv_Qdiv, Z.mod_eq by lia.
      unfold Z.sub. rewrite inject_Z_plus, inject_Z_opp, inject_Z_mult. reflexivity.
    - assert (Hx : inject_Z z < 0) by (change 0 with (inject_Z 0); now rewrite <- Zlt_Qlt).
      assert (Hc : Qceiling (inject_Z z / inject_Z k) = (- (- z / k))%Z).
      { unfold Qceiling. f_equal. rewrite Zdiv_Qdiv. apply Qfloor_comp.
        rewrite inject_Z_opp. field. lra. }
      assert (Em : fmod (inject_Z z) (inject_Z k) == inject_Z (- (- z mod k))).
      { rewrite (fmod_negative _ _ Hx Hy), Hc, (Z.mod_eq (- z) k) by lia.
        rewrite !inject_Z_opp. unfold Z.sub.
        rewrite inject_Z_plus, !inject_Z_opp, inject_Z_mult. ring. }
      pose proof (Z.mod_pos_bound (- z) k ltac:(lia)) as Hm.
      unfold mod_.
      destruct (Qeq_bool (fmod (inject_Z z) (inject_Z k)) 0) eqn:E0.
      + apply Qeq_bool_iff in E0. rewrite Em in E0.
        assert (E1 : (- (- z mod k) = 0)%Z)
          by (apply (proj1 (inject_Z_injective _ 0)); exact E0).
        assert (Hz0 : (z mod k = 0)%Z).
        { pose proof (Z.mod_opp_l_z (- z) k ltac:(lia) ltac:(lia)) as E2.
          now rewrite Z.opp_involutive in E2. }
        now rewrite Hz0.
      + assert (N : (- z mod k <> 0)%Z).
        { intros E. apply Bool.not_true_iff_false in E0. apply E0.
          apply Qeq_bool_iff. rewrite Em, E. reflexivity. }
        rewrite (ltb_false (inject_Z k) 0) by lra.
        rewrite (ltb_true (fmod (inject_Z z) (inject_Z k)) 0).
        2: { rewrite Em. change 0 with (inject_Z 0). rewrite <- Zlt_Qlt. lia. }
        cbn [xorb].
        assert (Hzk : (z mod k = k - (- z mod k))%Z).
        { pose proof (Z.mod_opp_l_nz (- z) k ltac:(lia) N) as E1.
          replace (- - z)%Z with z in E1 by lia. exact E1. }
        assert (E1 : fmod (inject_Z z) (inject_Z k) + inject_Z k == inject_Z (z mod k)).
        { rewrite Em, Hzk. unfold Z.sub. rewrite inject_Z_plus, !inject_Z_opp. ring. }
        rewrite E1. apply round_Z. pose proof (Z.mod_pos_bound z k ltac:(lia)). lia.
  Qed.

Lemma floordiv_integer (z k : Z) :
    (Z.abs z < 2 ^ 53)%Z -> (2 <= k)%Z ->
    floordiv (inject_Z z) (inject_Z k) == inject_Z (z / k).
  Proof.
    intros Hz Hk. rewrite Zdiv_Qdiv.
    destruct (Z.le_gt_cases 0 z) as [Hpos|Hneg].
    - apply floordiv_exact; [|rewrite <- Zlt_Qlt|]; try lia.
      change 0 with (inject_Z 0). now rewrite <- Zle_Qle.
    - apply floordiv_negative; [| |lia].
      + change 0 with (inject_Z 0). now rewrite <- Zlt_Qlt.
      + rewrite <- Zlt_Qlt. lia.
  Qed.

Lemma integer_offset_fields (z : Z) :
    (Z.abs z < 2 ^ 53)%Z ->
    int (floordiv (inject_Z z) 3600) = (z / 3600)%Z
    /\ int (floordiv (mod_ (inject_Z z) 3600) 60) = (z mod 3600 / 60)%Z
    /\ int (mod_ (inject_Z z) 60) = (z mod 60)%Z
    /\ int (mul (mod_ (inject_Z z) 1) 1000) = ((z mod 1) * 1000)%Z.
  Proof.
    intros Hz.
    pose proof (mod_integer z 3600 Hz ltac:(lia)) as M3600.
    pose proof (mod_integer z 60 Hz ltac:(lia)) as M60.
    pose proof (mod_integer z 1 Hz ltac:(lia)) as M1.
    change (inject_Z 3600) with 3600 in M3600. change (inject_Z 60) with 60 in M60.
    change (inject_Z 1) with 1 in M1.
    pose proof (Z.mod_pos_bound z 3600 ltac:(lia)) as B.
    repeat split.
    - pose proof (floordiv_integer z 3600 Hz ltac:(lia)) as E.
      change (inject_Z 3600) with 3600 in E.
      now rewrite (int_comp _ _ E), int_inject_Z.
    - assert (Lo : 0 <= mod_ (inject_Z z) 3600)
        by (rewrite M3600; change 0 with (inject_Z 0); rewrite <- Zle_Qle; lia).
      assert (Hi : mod_ (inject_Z z) 3600 < inject_Z (2 ^ 53))
        by (rewrite M3600, <- Zlt_Qlt; lia).
      pose proof (floordiv_exact _ 60 Lo Hi ltac:(lia)) as E.
      change (inject_Z 60) with 60 in E.
      rewrite (int_comp _ _ E), int_inject_Z.
      change 60 with (inject_Z 60).
      rewrite Qfloor_div_pos, (Qfloor_comp _ _ M3600), Qfloor_Z by lia. reflexivity.
    - now rewrite (int_comp _ _ M60), int_inject_Z.
    - unfold mul.
      assert (E : to_binary64 (mod_ (inject_Z z) 1 * 1000) == inject_Z (z mod 1 * 1000)).
      { rewrite M1, Z.mod_1_r. apply round_zero. reflexivity. }
      now rewrite (int_comp _ _ E), int_inject_Z.
  Qed.

End IntegerOffsets.

(* ================================================================== *)
(** * The exporters on a malformed result *)
(* ================================================================== *)

Section MalformedSegments.
Local Open Scope monad_scope.

  (** What both caption loops compute before they write anything. *)
Lemma segment_fields_fail {B} (v : pyval) (use_comma : bool)
        (k : string -> string -> string -> W B) (buf : string) :
    (forall s, ~ is_segment v s) ->
    exists e,
      (start_v <- lift (PyOp.getitem v "start") ;;
       start <- format_timestamp_of start_v use_comma ;;
       end_v <- lift (PyOp.getitem v "end") ;;
       end_ <- format_timestamp_of end_v use_comma ;;
       text_v <- lift (PyOp.getitem v "text") ;;
       text <- lift (PyOp.strip text_v) ;;
       k start end_ text) buf = (Raised e, buf).
  Proof.
    intros Hbad. unfold bind, lift, format_timestamp_of, ret.
    destruct (PyOp.getitem v "start") as [e|x1] eqn:E1; [eexists; reflexivity|].
    destruct (PyOp.number x1) as [e|q1] eqn:N1; [eexists; reflexivity|].
    destruct (PyOp.getitem v "end") as [e|x2] eqn:E2; [eexists; reflexivity|].
    destruct (PyOp.number x2) as [e|q2] eqn:N2; [eexists; reflexivity|].
    destruct (PyOp.getitem v "text") as [e|x3] eqn:E3; [eexists; reflexivity|].
    destruct x3 as [| | | | s | |]; try (eexists; reflexivity).
    exfalso. apply (Hbad (mkSegment q1 q2 s)).
    unfold is_segment, num_field, text_field. cbn [seg_start seg_end seg_text].
    now rewrite E1, N1, E2, N2, E3.
  Qed.

Lemma srt_segment_fails (i : Z) (v : pyval) (buf : string) :
    (forall s, ~ is_segment v s) -> exists e, srt_segment i v buf = (Raised e, buf).
  Proof. intros Hbad. unfold srt_segment. now apply segment_fields_fail. Qed.

Lemma vtt_segment_fails (suffix : string) (v : pyval) (buf : string) :
    (forall s, ~ is_segment v s) -> exists e, vtt_segment suffix v buf = (Raised e, buf).
  Proof. intros Hbad. unfold vtt_segment. now apply segment_fields_fail. Qed.

Lemma srt_loop_fails (items : list pyval) (segs : list segment) :
    Forall2 is_segment items segs ->
    forall (bad : pyval) (rest : list pyval) (i : nat) (buf : string),
      (forall s, ~ is_segment bad s) ->
      exists e,
        for_enumerate (Z.of_nat i) (items ++ bad :: rest) srt_segment buf
        = (Raised e,
           buf ++ concat_all (map (fun p => srt_cue (fst p) (snd p))
                                  (combine (seq i (List.length segs)) segs))).
  Proof.
    induction 1 as [|v s items segs Hv _ IH]; intros bad rest i buf Hbad.
    - cbn [app for_enumerate List.length seq combine map concat_all].
      destruct (srt_segment_fails (Z.of_nat i) bad buf Hbad) as [e E].
      exists e. rewrite (bind_raised E). now rewrite append_nil_r.
    - cbn [app for_enumerate List.length seq combine map concat_all fst snd].
      rewrite (bind_normal (srt_segment_run i v s buf Hv)).
      replace (Z.of_nat i + 1) with (Z.of_nat (S i)) by lia.
      destruct (IH bad rest (S i) (buf ++ srt_cue i s) Hbad) as [e E].
      exists e. rewrite E. now rewrite append_assoc.
  Qed.

Lemma vtt_loop_fails (suffix : string) (items : list pyval) (segs : list segment) :
    Forall2 is_segment items segs ->
    forall (bad : pyval) (rest : list pyval) (buf : string),
      (forall s, ~ is_segment bad s) ->
      exists e,
        for_each (items ++ bad :: rest) (vtt_segment suffix) buf
        = (Raised e, buf ++ vtt_cues suffix segs).
  Proof.
    induction 1 as [|v s items segs Hv _ IH]; intros bad rest buf Hbad.
    - cbn [app for_each]. unfold vtt_cues. cbn [map concat_all].
      destruct (vtt_segment_fails suffix bad buf Hbad) as [e E].
      exists e. rewrite (bind_raised E). now rewrite append_nil_r.
    - cbn [app for_each].
      rewrite (bind_normal (vtt_segment_run suffix v s buf Hv)).
      destruct (IH bad rest (buf ++ vtt_cue suffix s) Hbad) as [e E].
      exists e. rewrite E. unfold vtt_cues. cbn [map concat_all]. now rewrite append_assoc.
  Qed.

End MalformedSegments.

(** X3.  The numbered-cue exporter never leaves half a cue.  When a
    segment lacks its start, end or text, or carries one of the wrong
    type, the exporter raises before it writes anything of that segment:
    what has been written is exactly the cues of the segments before it,
    numbered from 1.  A result without [segments] raises [KeyError] with
    nothing written. *)
Theorem write_srt_whole_cues (result : pyval) :
  (forall items bad rest segs,
      PyOp.getitem result "segments" = inr (PList (items ++ bad :: rest)) ->
      Forall2 is_segment items segs ->
      (forall s, ~ is_segment bad s) ->
      exists e, _write_srt result "" = (Raised e, srt_text segs))
  /\ (forall d,
        result = PDict d -> PyVal.lookup "segments" d = None ->
        _write_srt result "" = (Raised (Exn KeyError "'segments'"), "")).
Proof.
  split.
  - intros items bad rest segs Hget Hsegs Hbad. unfold _write_srt.
    rewrite (bind_lift_inr Hget). cbn [PyOp.iter]. rewrite bind_ret_lift.
    change 1 with (Z.of_nat 1).
    destruct (srt_loop_fails items segs Hsegs bad rest 1 "" Hbad) as [e E].
    exists e. exact E.
  - intros d -> Hd. unfold _write_srt, bind, lift. cbn [PyOp.getitem].
    now rewrite Hd.
Qed.

Lemma write_srt_whole_cues_witness :
  exists e,
    _write_srt (PDict [("segments",
                        PList [PDict [("start", PInt 2); ("end", PFloat (5 # 2));
                                      ("text", PStr "a ")];
                               PDict [("start", PFloat (5 # 2)); ("text", PStr "b")]])]) ""
    = (Raised e, "1" ++ nl ++ "00:00:02,000 --> 00:00:02,500" ++ nl ++ "a" ++ nl ++ nl).
Proof.
  apply (proj1 (write_srt_whole_cues _)
               [PDict [("start", PInt 2); ("end", PFloat (5 # 2)); ("text", PStr "a ")]]
               (PDict [("start", PFloat (5 # 2)); ("text", PStr "b")]) []
               [mkSegment 2 (5 # 2) "a "]).
  - reflexivity.
  - repeat constructor.
  - intros s (_ & He & _). discriminate He.
Defined.

(** X4.  The web-caption exporter never leaves half a cue either: on a
    malformed segment the file holds the header, the style section if
    there is one, the blank line and the whole cues of the segments
    before the malformed one. *)
Theorem write_vtt_whole_cues (lms : dict) (result : pyval) (css cue : string) :
  (styling_enabled lms = true ->
   setting_text lms "css" = Some css /\ setting_text lms "cue_settings" = Some cue) ->
  let header :=
    "WEBVTT" ++ nl ++ style_section (styling_enabled lms) (PyStr.strip css) ++ nl in
  (forall items bad rest segs,
      PyOp.getitem result "segments" = inr (PList (items ++ bad :: rest)) ->
      Forall2 is_segment items segs ->
      (forall s, ~ is_segment bad s) ->
      exists e,
        _write_vtt lms result ""
        = (Raised e,
           header ++ vtt_cues (cue_suffix (styling_enabled lms) (PyStr.strip cue)) segs))
  /\ (forall d,
        result = PDict d -> PyVal.lookup "segments" d = None ->
        _write_vtt lms result "" = (Raised (Exn KeyError "'segments'"), header)).
Proof.
  intros Hset header.
  assert (Hhead : forall k : string -> W unit,
             (fwrite ("WEBVTT" ++ nl) ;; vtt_style_block lms ;; fwrite nl ;;
              c <- vtt_cue_settings lms ;; k c)%monad ""
             = k (cue_suffix (styling_enabled lms) (PyStr.strip cue)) header).
  { intros k. rewrite bind_fwrite.
    rewrite (bind_normal (vtt_style_block_run lms css _ (fun H => proj1 (Hset H)))).
    rewrite bind_fwrite.
    rewrite (bind_normal (vtt_cue_settings_run lms cue _ (fun H => proj2 (Hset H)))).
    f_equal; unfold header; cbn [append]; now rewrite ?append_assoc. }
  split.
  - intros items bad rest segs Hget Hsegs Hbad. unfold _write_vtt. rewrite Hhead.
    rewrite (bind_lift_inr Hget). cbn [PyOp.iter]. rewrite bind_ret_lift.
    apply (vtt_loop_fails _ items segs Hsegs bad rest header Hbad).
  - intros d -> Hd. unfold _write_vtt. rewrite Hhead.
    unfold bind, lift. cbn [PyOp.getitem]. now rewrite Hd.
Qed.

Lemma write_vtt_whole_cues_witness :
  exists e,
    _write_vtt [("enabled", PBool true); ("cue_settings", PStr "line:80%"); ("css", PStr "")]
               (PDict [("segments",
                        PList [PDict [("start", PInt 2); ("end", PFloat (5 # 2));
                                      ("text", PStr "a ")];
                               PStr "b"])]) ""
    = (Raised e, "WEBVTT" ++ nl ++ nl
                 ++ "00:00:02.000 --> 00:00:02.500 line:80%" ++ nl ++ "a" ++ nl ++ nl).
Proof.
  apply (proj1 (write_vtt_whole_cues
                  [("enabled", PBool true); ("cue_settings", PStr "line:80%");
                   ("css", PStr "")] _ "" "line:80%" (fun _ => conj eq_refl eq_refl))
               [PDict [("start", PInt 2); ("end", PFloat (5 # 2)); ("text", PStr "a ")]]
               (PStr "b") [] [mkSegment 2 (5 # 2) "a "]).
  - reflexivity.
  - repeat constructor.
  - intros s (Hs & _). discriminate Hs.
Defined.

(** X5.  A result without [text]: the plain-text block has opened its
    file before it looks the key up, so an empty file stays behind; the
    hypertext and the markup exporters build their text first and leave
    no file.  All three raise [KeyError] with the message ['text']. *)
Theorem missing_text_files (float_repr : Q -> string) (rt : env) (d : dict)
        (path : Path) (w : world) :
  PyVal.lookup "text" d = None ->
  open_error rt path = None ->
  let e := Exn KeyError "'text'" in
  write_txt rt (PDict d) path w = (Raised e, add (FileWrite path "") w)
  /\ write_html float_repr rt (PDict d) path w = (Raised e, w)
  /\ write_markdown float_repr rt (PDict d) path w = (Raised e, w).
Proof.
  intros Hd Hopen e.
  unfold write_txt, write_html, write_markdown, with_open, html_content, md_content.
  rewrite Hopen. unfold bind, lift, log, modify. cbn [PyOp.getitem fst snd].
  rewrite Hd. repeat split.
Qed.

Lemma missing_text_files_witness :
  write_txt Sample.calm_env (PDict [("segments", PList [])]) (mkPath "/" ["t.txt"])
            (init_world true)
  = (Raised (Exn KeyError "'text'"),
     add (FileWrite (mkPath "/" ["t.txt"]) "") (init_world true)).
Proof.
  exact (proj1 (missing_text_files Sample.float_repr Sample.calm_env
                  [("segments", PList [])] (mkPath "/" ["t.txt"]) (init_world true)
                  eq_refl eq_refl)).
Defined.

(* ================================================================== *)
(** * Rules of the program logic *)
(* ================================================================== *)

Section HoareRules.
Context {A B : Type}.
Variables (R : world -> Prop) (E : exn -> world -> Prop).

Lemma hoare_bind (P : world -> Prop) (m : M world A) (k : A -> M world B)
        (Q' : A -> world -> Prop) (Q : B -> world -> Prop) :
    hoare P m Q' R E -> (forall a, hoare (Q' a) (k a) Q R E) -> hoare P (bind m k) Q R E.
  Proof.
    intros Hm Hk w Hw. unfold bind. specialize (Hm w Hw).
    destruct (m w) as [[a | | e] w']; [|exact Hm ..].
    exact (Hk a w' Hm).
  Qed.

End HoareRules.

Lemma hoare_try_except {A} (P : world -> Prop) (body : M world A) (handler : exn -> M world A)
      (Q : A -> world -> Prop) (R : world -> Prop) (E' E : exn -> world -> Prop) :
  hoare P body Q R E' -> (forall e, hoare (E' e) (handler e) Q R E) ->
  hoare P (try_except body handler) Q R E.
Proof.
  intros Hb Hh w Hw. unfold try_except. specialize (Hb w Hw).
  destruct (body w) as [[a | | e] w']; [exact Hb | exact Hb |].
  exact (Hh e w' Hb).
Qed.

(** ** Blocks without [return] *)

Section NeverReturns.
Context {S : Type}.

Lemma never_returns_ret {A} (a : A) : never_returns (ret a : M S A).
  Proof. intros s. discriminate. Qed.

Lemma never_returns_lift {A} (r : exn + A) : never_returns (lift r : M S A).
  Proof. intros s. unfold lift. destruct r; discriminate. Qed.

Lemma never_returns_modify (f : S -> S) : never_returns (modify f).
  Proof. intros s. discriminate. Qed.

Lemma never_returns_bind {A B} (m : M S A) (k : A -> M S B) :
    never_returns m -> (forall a, never_returns (k a)) -> never_returns (bind m k).
  Proof.
    intros Hm Hk s. unfold bind. specialize (Hm s).
    destruct (m s) as [[a | | e] s']; [apply Hk | now cbn in Hm | discriminate].
  Qed.

Lemma never_returns_for_each {A} (items : list A) (body : A -> M S unit) :
    (forall x, never_returns (body x)) -> never_returns (for_each items body).
  Proof.
    intros Hb. induction items as [|x items IH]; cbn [for_each].
    - apply never_returns_ret.
    - apply never_returns_bind; [apply Hb | intros _; exact IH].
  Qed.

Lemma never_returns_for_enumerate {A} (items : list A) (body : Z -> A -> M S unit) :
    (forall i x, never_returns (body i x)) ->
    forall i0, never_returns (for_enumerate i0 items body).
  Proof.
    intros Hb. induction items as [|x items IH]; intros i0; cbn [for_enumerate].
    - apply never_returns_ret.
    - apply never_returns_bind; [apply Hb | intros _; apply IH].
  Qed.

Lemma never_returns_format {A} (v : pyval) (use_comma : bool) (k : string -> M S A) :
    (forall t, never_returns (k t)) ->
    never_returns (bind (format_timestamp_of v use_comma) k).
  Proof.
    intros Hk. apply never_returns_bind; [|exact Hk].
    unfold format_timestamp_of.
    apply never_returns_bind; [apply never_returns_lift | intros q; apply never_returns_ret].
  Qed.

End NeverReturns.

Ltac no_return :=
  repeat first
    [ apply never_returns_ret
    | apply never_returns_lift
    | apply never_returns_modify
    | apply never_returns_format; intros ?
    | apply never_returns_bind; [|intros ?]
    | apply never_returns_for_each; intros ?
    | apply never_returns_for_enumerate; intros ? ? ].

Lemma write_srt_never_returns (result : pyval) : never_returns (_write_srt result).
Proof. unfold _write_srt, srt_segment, fwrite. no_return. Qed.

Lemma write_vtt_never_returns (lms : dict) (result : pyval) :
  never_returns (_write_vtt lms result).
Proof.
  unfold _write_vtt, vtt_segment, fwrite.
  apply never_returns_bind; [apply never_returns_modify | intros _].
  apply never_returns_bind.
  { unfold vtt_style_block, fwrite. destruct (PyVal.truthy _); [|apply never_returns_ret].
    apply never_returns_bind; [apply never_returns_lift | intros css].
    destruct (negb _); no_return. }
  intros _. apply never_returns_bind; [apply never_returns_modify | intros _].
  apply never_returns_bind.
  { unfold vtt_cue_settings. destruct (PyVal.truthy _); [|apply never_returns_ret].
    apply never_returns_bind; [apply never_returns_lift | intros cue].
    destruct (negb _); apply never_returns_ret. }
  intros cue. no_return.
Qed.

(** ** The six writers *)

Section Writers.
Variable float_repr : Q -> string.
Variable rt : env.
Variable self : job.
Variable good : Path -> string -> Prop.

Lemma with_open_writes_good (body : W unit) (ext : string) :
    never_returns body ->
    (open_error rt (artifact self ext) = None -> good (artifact self ext) (snd (body ""))) ->
    writes_good self good (fun path => with_open rt path body) ext.
  Proof.
    intros Hnr Hgood w. unfold with_open.
    destruct (open_error rt (artifact self ext)) as [e|]; [now left|].
    specialize (Hnr ""). specialize (Hgood eq_refl).
    unfold log, modify, bind.
    destruct (fst (body "")) as [[] | | e]; cbn [ret raise return_]; eauto.
  Qed.

Lemma lifted_writes_good (content : exn + string) (ext : string) :
    (forall c, content = inr c -> open_error rt (artifact self ext) = None ->
               good (artifact self ext) c) ->
    writes_good self good (fun path => c <- lift content ;; with_open rt path (fwrite c)) ext.
  Proof.
    intros Hgood. destruct content as [e|c].
    - intros w. now left.
    - apply (with_open_writes_good (fwrite c)); [apply never_returns_modify|].
      intros Hopen. now apply Hgood.
  Qed.

Lemma writes_good_weaken (good' : Path -> string -> Prop)
        (write : Path -> M world unit) (ext : string) :
    (forall c, good' (artifact self ext) c -> good (artifact self ext) c) ->
    writes_good self good' write ext -> writes_good self good write ext.
  Proof.
    intros Himp Hw w. specialize (Hw w).
    destruct (write (artifact self ext) w) as [[[] | | e] w']; [| exact Hw |].
    - destruct Hw as (c & -> & Hc). eauto.
    - destruct Hw as [-> | (c & -> & Hc)]; eauto.
  Qed.

End Writers.

(** Every writer opens its file before it writes, and has no [return]. *)
Lemma blocks_open (float_repr : Q -> string) (rt : env) (self : job) (result : pyval) :
  Forall (fun b => writes_good self (fun path _ => open_error rt path = None) (snd b) (fst b))
         (blocks float_repr rt self result).
Proof.
  unfold blocks.
  repeat (apply Forall_cons; [cbn [fst snd]|]); [ .. | apply Forall_nil].
  - apply with_open_writes_good; [unfold fwrite; no_return | auto].
  - apply with_open_writes_good; [apply write_srt_never_returns | auto].
  - apply with_open_writes_good; [apply write_vtt_never_returns | auto].
  - apply lifted_writes_good. auto.
  - apply lifted_writes_good. auto.
  - apply with_open_writes_good; [apply never_returns_modify | auto].
Qed.

(** ** The phases of a job *)

Section Phases.
Variable float_repr : Q -> string.
Variable rt : env.
Variable self : job.

Lemma transcribe_and_export_run (w : world) :
    transcribe_and_export float_repr rt self w
    = if flag_at rt (flag_reads w) then (Returned, note_read true w)
      else
        let w1 :=
          add (Transcribe (file_path self) "en" "transcribe")
            (add (Emit (Progress "Transcribing audio... This may take several minutes." 20))
               (add (Emit (Progress "Model loaded successfully." 10))
                  (note_read false w))) in
        match transcribe_result rt with
        | inl e => (Raised e, w1)
        | inr result => export_phase float_repr rt self result w1
        end.
  Proof.
    unfold transcribe_and_export.
    unfold bind at 1. rewrite return_if_cancelled_run.
    destruct (flag_at rt (flag_reads w)); [reflexivity|].
    unfold bind at 1. rewrite emit_run. unfold bind at 1. rewrite emit_run.
    unfold bind at 1. rewrite transcribe_run.
    now destruct (transcribe_result rt).
  Qed.

End Phases.

(* ================================================================== *)
(** * The export phase under an invariant *)
(* ================================================================== *)

Section ExportInvariant.
Variable float_repr : Q -> string.
Variable rt : env.
Variable self : job.
Variable good : Path -> string -> Prop.
Variables Inv Ret Fin : world -> Prop.

Hypothesis Inv_emit : forall e w, Inv w -> Inv (add (Emit e) w).
Hypothesis Inv_read :
    forall w, Inv w -> flag_at rt (flag_reads w) = false -> Inv (note_read false w).
Hypothesis Inv_file : forall p c w, good p c -> Inv w -> Inv (add (FileWrite p c) w).
Hypothesis Ret_read :
    forall w, Inv w -> flag_at rt (flag_reads w) = true -> Ret (note_read true w).
Hypothesis Fin_read :
    forall w, Inv w -> flag_at rt (flag_reads w) = true -> Fin (note_read true w).
Hypothesis Fin_emit : forall e w, Inv w -> is_terminal e = true -> Fin (add (Emit e) w).

Lemma return_if_cancelled_hoare :
    hoare Inv (return_if_cancelled rt) (fun _ => Inv) Ret (fun _ => Inv).
  Proof.
    intros w Hw. rewrite return_if_cancelled_run.
    destruct (flag_at rt (flag_reads w)) eqn:F; auto.
  Qed.

Lemma emit_hoare (e : event) : hoare Inv (emit e) (fun _ => Inv) Ret (fun _ => Inv).
  Proof. intros w Hw. rewrite emit_run. auto. Qed.

Lemma export_block_hoare (ppf : Q) (ext : string) (write : Path -> M world unit)
        (st : list string * Q) :
    writes_good self good write ext ->
    hoare Inv (export_block rt self (PathOps.stem (file_path self)) ppf ext write st)
          (fun _ => Inv) Ret (fun _ => Inv).
  Proof.
    intros Hwr w Hw. rewrite export_block_run.
    destruct (requested (output_formats self) ext); [|exact Hw].
    destruct (flag_at rt (flag_reads w)) eqn:F; [auto|].
    cbv zeta. fold (artifact self ext).
    specialize (Hwr (note_read false w)).
    destruct (write (artifact self ext) (note_read false w)) as [[[] | | e] w'].
    - destruct Hwr as (c & -> & Hc). auto.
    - destruct Hwr.
    - destruct Hwr as [-> | (c & -> & Hc)]; auto.
  Qed.

Lemma write_outputs_hoare (ppf : Q) (result : pyval) :
    Forall (fun b => writes_good self good (snd b) (fst b))
           (blocks float_repr rt self result) ->
    hoare Inv (write_outputs float_repr rt self (PathOps.stem (file_path self)) ppf result)
          (fun _ => Inv) Ret (fun _ => Inv).
  Proof.
    intros Hws. unfold blocks in Hws.
    repeat (apply Forall_cons_iff in Hws as [? Hws]). cbn [fst snd] in *.
    unfold write_outputs.
    repeat (apply (hoare_bind _ _ _ _ _ (fun _ => Inv));
            [now apply export_block_hoare | intros ?]).
    now apply export_block_hoare.
  Qed.

Lemma finish_hoare (st : list string * Q) :
    hoare Inv (c <- cancelled rt ;; if negb c then emit (Finished (fst st)) else ret tt)
          (fun _ => Fin) Ret (fun _ => Inv).
  Proof.
    intros w Hw. rewrite (bind_normal (cancelled_run rt w)).
    destruct (flag_at rt (flag_reads w)) eqn:F; cbn [negb].
    - now apply Fin_read.
    - rewrite emit_run. apply Fin_emit; auto.
  Qed.

Lemma export_phase_hoare (result : pyval) :
    Forall (fun b => writes_good self good (snd b) (fst b))
           (blocks float_repr rt self result) ->
    hoare Inv (export_phase float_repr rt self result) (fun _ => Fin) Ret (fun _ => Inv).
  Proof.
    intros Hws. unfold export_phase.
    apply (hoare_bind _ _ _ _ _ (fun _ => Inv)); [apply return_if_cancelled_hoare | intros _].
    apply (hoare_bind _ _ _ _ _ (fun _ => Inv)); [apply emit_hoare | intros _].
    cbv zeta. rewrite per_format_run. cbn [lift].
    apply (hoare_bind _ _ _ _ _ (fun _ => Inv)); [intros w Hw; exact Hw | intros ppf].
    apply (hoare_bind _ _ _ _ _ (fun _ => Inv)); [now apply write_outputs_hoare | intros st].
    apply finish_hoare.
  Qed.

Lemma handler_hoare (e : exn) :
    hoare Inv (handler rt e) (fun _ => Fin) Ret (fun _ _ => False).
  Proof.
    intros w Hw. rewrite handler_run.
    destruct (flag_at rt (flag_reads w)) eqn:F.
    - now apply Fin_read.
    - apply Fin_emit; auto.
  Qed.

Lemma job_tail_hoare (result : pyval) :
    Forall (fun b => writes_good self good (snd b) (fst b))
           (blocks float_repr rt self result) ->
    hoare Inv (try_except (export_phase float_repr rt self result) (handler rt))
          (fun _ => Fin) Ret (fun _ _ => False).
  Proof.
    intros Hws.
    apply (hoare_try_except _ _ _ _ _ (fun _ => Inv));
      [now apply export_phase_hoare | apply handler_hoare].
  Qed.

End ExportInvariant.

(* ================================================================== *)
(** * The cases of a job *)
(* ================================================================== *)

Section JobCases.
Variable float_repr : Q -> string.
Variable rt : env.
Variable self : job.

Lemma prelude_snoc (t : list action) (a : action) :
    Forall (prelude_action self) t -> prelude_action self a ->
    Forall (prelude_action self) (t ++ [a]).
  Proof. intros Ht Ha. apply Forall_app. split; [exact Ht | now constructor]. Qed.

Lemma prelude_no_file (t : list action) (p : Path) (c : string) :
    Forall (prelude_action self) t -> ~ In (FileWrite p c) t.
  Proof. intros Ht Hin. rewrite Forall_forall in Ht. exact (Ht _ Hin). Qed.

Lemma after_load_cases (w : world) :
    Forall (prelude_action self) (trace w) ->
    (exists v, In (LoadModel (model_name self) v) (trace w)) ->
    job_cases float_repr rt self
              (try_except (transcribe_and_export float_repr rt self) (handler rt) w).
  Proof.
    intros Hpre [v Hv]. unfold try_except at 1. rewrite transcribe_and_export_run.
    destruct (flag_at rt (flag_reads w)) eqn:F.
    - left. exists w. split; [exact Hpre|]. left. now split.
    - right. cbv zeta.
      exists (add (Emit (Progress "Transcribing audio... This may take several minutes." 20))
                  (add (Emit (Progress "Model loaded successfully." 10))
                       (note_read false w))).
      split; [|split].
      + cbn [trace add note_read]. repeat apply prelude_snoc; [exact Hpre | exact Logic.I ..].
      + exists v. cbn [trace add note_read]. repeat (apply in_or_app; left). exact Hv.
      + cbv zeta. destruct (transcribe_result rt) as [e|result]; reflexivity.
  Qed.

Lemma run_cases (verified : bool) :
    job_cases float_repr rt self (run float_repr rt self (init_world verified)).
  Proof.
    rewrite run_start.
    destruct (import_error rt) as [e|].
    { left. exists (init_world verified). split; [constructor|]. right. now exists e. }
    destruct (flag_at rt 0) eqn:F.
    { left. exists (init_world verified). split; [constructor|]. left. now split. }
    assert (Hload : forall w,
               Forall (prelude_action self) (trace w) ->
               Forall (prelude_action self) (trace (note_load (model_name self) w))
               /\ exists v, In (LoadModel (model_name self) v)
                                (trace (note_load (model_name self) w))).
    { intros w Hw. cbn [trace note_load]. split.
      - apply prelude_snoc; [exact Hw | reflexivity].
      - eexists. apply in_or_app. right. now left. }
    assert (H5 : Forall (prelude_action self)
                        (trace (add (Emit (Progress ("Loading " ++ model_name self
                                                     ++ " model (first time downloads)...") 5))
                                    (note_read false (init_world verified))))).
    { cbn [trace add note_read init_world app]. repeat constructor. }
    destruct (Hload _ H5) as [H6 H6'].
    destruct (load_model_error rt 0 verified) as [e0|].
    - destruct (certificate_failure e0).
      + cbv zeta.
        destruct (Hload (unverify (note_load (model_name self)
                    (add (Emit (Progress ("Loading " ++ model_name self
                                          ++ " model (first time downloads)...") 5))
                         (note_read false (init_world verified))))) H6) as [H7 H7'].
        destruct (load_model_error rt 1 false) as [e1|].
        * left. eexists. split; [exact H7|]. right. now exists e1.
        * now apply after_load_cases.
      + left. eexists. split; [exact H6|]. right. now exists e0.
    - now apply after_load_cases.
  Qed.

End JobCases.

(* ================================================================== *)
(** * The structure of the trace of a job *)
(* ================================================================== *)

Section JobStructure.
Variable float_repr : Q -> string.
Variable rt : env.
Variable self : job.
Variable verified : bool.

Lemma handler_trace (e : exn) (w : world) :
    exists rest,
      trace (snd (handler rt e w)) = (trace w ++ rest)%list
      /\ (rest = [CancelRead true]
          \/ rest = [CancelRead false; Emit (Error (error_message e))]).
  Proof.
    rewrite handler_run. destruct (flag_at rt (flag_reads w)).
    - exists [CancelRead true]. split; [reflexivity | now left].
    - exists [CancelRead false; Emit (Error (error_message e))].
      split; [|now right]. cbn [snd add note_read trace]. now rewrite <- app_assoc.
  Qed.

Lemma handler_prelude (e : exn) (w : world) :
    Forall (prelude_action self) (trace w) ->
    Forall (prelude_action self) (trace (snd (handler rt e w))).
  Proof.
    intros Hw. destruct (handler_trace e w) as (rest & -> & [-> | ->]);
      apply Forall_app; split; auto; repeat constructor.
  Qed.

  (** The trace of a job: actions of the prelude, then possibly the
      inference call followed by events, reads of the flag and files
      that satisfy [good]. *)
Lemma run_structure (good : Path -> string -> Prop) :
    (forall result,
        transcribe_result rt = inr result ->
        Forall (fun b => writes_good self good (snd b) (fst b))
               (blocks float_repr rt self result)) ->
    exists head rest,
      run_trace float_repr rt self verified = (head ++ rest)%list
      /\ Forall (prelude_action self) head
      /\ (rest = []
          \/ exists rest',
               rest = Transcribe (file_path self) "en" "transcribe" :: rest'
               /\ Forall (export_action good) rest'
               /\ (exists v, In (LoadModel (model_name self) v) head)
               /\ (forall e, transcribe_result rt = inl e -> written_paths rest' = [])).
  Proof.
    intros Hws. unfold run_trace.
    destruct (run_cases float_repr rt self verified)
      as [(w0 & Hpre & [[F ->] | [e ->]]) | (w0 & Hpre & Hload & Hout)].
    - exists (trace (note_read true w0)), []. rewrite app_nil_r.
      split; [reflexivity|]. split; [|now left].
      cbn [trace note_read]. apply prelude_snoc; [exact Hpre | exact Logic.I].
    - exists (trace (snd (handler rt e w0))), []. rewrite app_nil_r.
      split; [reflexivity|]. split; [|now left]. now apply handler_prelude.
    - cbv zeta in Hout. exists (trace w0).
      destruct (transcribe_result rt) as [e|result] eqn:Hres.
      + rewrite Hout.
        destruct (handler_trace e (add (Transcribe (file_path self) "en" "transcribe") w0))
          as (rest & -> & Hrest).
        exists (Transcribe (file_path self) "en" "transcribe" :: rest).
        cbn [trace add]. rewrite <- app_assoc. split; [reflexivity|].
        split; [exact Hpre|]. right. exists rest. split; [reflexivity|].
        split; [|split; [exact Hload|]].
        * destruct Hrest as [-> | ->]; repeat constructor.
        * intros _ _. destruct Hrest as [-> | ->]; reflexivity.
      + set (w1 := add (Transcribe (file_path self) "en" "transcribe") w0) in *.
        set (Inv := fun w : world =>
                      exists rest', trace w = (trace w1 ++ rest')%list
                                    /\ Forall (export_action good) rest').
        assert (Hsnoc : forall a w, export_action good a -> Inv w ->
                                    exists rest', (trace w ++ [a])%list = (trace w1 ++ rest')%list
                                                  /\ Forall (export_action good) rest').
        { intros a w Ha (rest' & E & Hrest'). exists (rest' ++ [a])%list.
          rewrite E, <- app_assoc. split; [reflexivity|].
          apply Forall_app. split; [exact Hrest' | now constructor]. }
        assert (Htail : hoare Inv
                          (try_except (export_phase float_repr rt self result) (handler rt))
                          (fun _ => Inv) Inv (fun _ _ => False)).
        { apply (job_tail_hoare float_repr rt self good).
          - intros e w Hw. now apply (Hsnoc (Emit e)).
          - intros w Hw _. now apply (Hsnoc (CancelRead false)).
          - intros p c w Hg Hw. now apply (Hsnoc (FileWrite p c)).
          - intros w Hw _. now apply (Hsnoc (CancelRead true)).
          - intros w Hw _. now apply (Hsnoc (CancelRead true)).
          - intros e w Hw _. now apply (Hsnoc (Emit e)).
          - now apply Hws. }
        assert (Hfinal : Inv (snd (run float_repr rt self (init_world verified)))).
        { rewrite Hout.
          assert (Hw1 : Inv w1) by (exists []; rewrite app_nil_r; split; [reflexivity | constructor]).
          specialize (Htail w1 Hw1).
          destruct (try_except _ _ w1) as [[[] | | e] w']; cbn [snd];
            [exact Htail | exact Htail | destruct Htail]. }
        destruct Hfinal as (rest' & E & Hrest').
        exists (Transcribe (file_path self) "en" "transcribe" :: rest').
        rewrite E. unfold w1. cbn [trace add]. rewrite <- app_assoc.
        split; [reflexivity|]. split; [exact Hpre|]. right. exists rest'.
        split; [reflexivity|]. split; [exact Hrest'|]. split; [exact Hload|].
        intros e He. discriminate He.
  Qed.

  (** A job that is never cancelled ends on a terminal event. *)
Lemma run_ends_with_terminal :
    cancel_after rt = None ->
    ends_with_terminal (snd (run float_repr rt self (init_world verified))).
  Proof.
    intros Hnc.
    assert (Hflag : forall w, flag_at rt (flag_reads w) = false)
      by (intros w; now apply flag_at_none).
    assert (Hhandler : forall e w, ends_with_terminal (snd (handler rt e w))).
    { intros e w. rewrite handler_run, Hflag. cbn [snd add trace]. now eexists _, _. }
    destruct (run_cases float_repr rt self verified)
      as [(w0 & Hpre & [[F ->] | [e ->]]) | (w0 & Hpre & Hload & Hout)].
    - rewrite Hflag in F. discriminate.
    - apply Hhandler.
    - cbv zeta in Hout. destruct (transcribe_result rt) as [e|result] eqn:Hres.
      + rewrite Hout. apply Hhandler.
      + rewrite Hout.
        assert (Htail : hoare (fun _ => True)
                          (try_except (export_phase float_repr rt self result) (handler rt))
                          (fun _ => ends_with_terminal) (fun _ => False) (fun _ _ => False)).
        { apply (job_tail_hoare float_repr rt self (fun _ _ => True)); auto.
          - intros w _ F. rewrite Hflag in F. discriminate.
          - intros w _ F. rewrite Hflag in F. discriminate.
          - intros e w _ He. cbn [add trace]. now eexists _, _.
          - eapply Forall_impl; [|apply blocks_open]. intros b Hb.
            eapply writes_good_weaken; [|exact Hb]. auto. }
        specialize (Htail (add (Transcribe (file_path self) "en" "transcribe") w0) Logic.I).
        destruct (try_except _ _ _) as [[[] | | e] w']; [exact Htail | destruct Htail ..].
  Qed.

End JobStructure.

(* ================================================================== *)
(** * More on the running job *)
(* ================================================================== *)

(** X6.  The events of a job are progress events followed by at most one
    terminal event, and a job whose flag is never set does end on a
    terminal event, [Finished] or [Error], which is the last thing it
    does: the caller is told exactly once that the job is over. *)
Theorem one_terminal_event (float_repr : Q -> string) (rt : env) (self : job)
        (verified : bool) :
  let t := run_trace float_repr rt self verified in
  (exists progs term,
      events t = (progs ++ term)%list
      /\ Forall (fun e => is_terminal e = false) progs
      /\ (term = [] \/ exists e, term = [e] /\ is_terminal e = true))
  /\ (cancel_after rt = None ->
      exists pre e, t = (pre ++ [Emit e])%list /\ is_terminal e = true).
Proof.
  intros t. split.
  - destruct (run_summary_holds float_repr rt self verified)
      as (progs & term & Hev & Hpre & Hterm & _).
    exists progs, term. split; [exact Hev|]. split.
    + apply Forall_forall. intros e He. exact (prefix_not_terminal self _ _ Hpre He).
    + destruct Hterm as [-> | [[m ->] | (-> & _)]]; [now left | right; eauto ..].
  - intros Hnc. exact (run_ends_with_terminal float_repr rt self verified Hnc).
Qed.

Lemma one_terminal_event_witness :
  exists pre e,
    run_trace Sample.float_repr Sample.unreachable_env (Sample.talk ["txt"]) true
    = (pre ++ [Emit e])%list /\ is_terminal e = true.
Proof.
  exact (proj2 (one_terminal_event Sample.float_repr Sample.unreachable_env
                  (Sample.talk ["txt"]) true) eq_refl).
Defined.

(** X7.  When the inference call raises (the imports and the model load
    having passed, the flag never set), the job emits its three progress
    events and then one [Error] with the text of the exception, and
    writes no file.  A [FileNotFoundError] whose text mentions ffmpeg in
    any letter case is reported as the fixed installation hint instead of
    its own text. *)
Theorem inference_failure_report (float_repr : Q -> string) (rt : env) (self : job)
        (verified : bool) (e : exn) :
  import_error rt = None ->
  cancel_after rt = None ->
  load_model_error rt 0 verified = None ->
  transcribe_result rt = inl e ->
  let t := run_trace float_repr rt self verified in
  events t
  = [Progress ("Loading " ++ model_name self ++ " model (first time downloads)...") 5;
     Progress "Model loaded successfully." 10;
     Progress "Transcribing audio... This may take several minutes." 20;
     Error (if is_FileNotFoundError e && PyStr.contains "ffmpeg" (PyStr.lower (exn_str e))
            then ffmpeg_message else exn_str e)]
  /\ written_paths t = []
  /\ load_attempts t = [verified]
  /\ In (Transcribe (file_path self) "en" "transcribe") t.
Proof.
  intros Himp Hnc L0 Hres t. subst t. unfold run_trace.
  rewrite run_start, Himp, (flag_at_none rt 0 Hnc), L0.
  unfold try_except. rewrite transcribe_and_export_run, (flag_at_none rt _ Hnc), Hres.
  cbv beta iota zeta. rewrite handler_run, (flag_at_none rt _ Hnc).
  repeat split. cbn. tauto.
Qed.

Lemma inference_failure_report_witness :
  events (run_trace Sample.float_repr Failing.no_ffmpeg_env (Sample.talk ["txt"]) true)
  = [Progress "Loading medium model (first time downloads)..." 5;
     Progress "Model loaded successfully." 10;
     Progress "Transcribing audio... This may take several minutes." 20;
     Error ffmpeg_message].
Proof.
  exact (proj1 (inference_failure_report Sample.float_repr Failing.no_ffmpeg_env
                  (Sample.talk ["txt"]) true Failing.no_ffmpeg
                  eq_refl eq_refl eq_refl eq_refl)).
Defined.

(** X8.  The calls a job makes come in a fixed order.  Before the
    inference call there are only events, reads of the flag and loads of
    the model the job names.  Inference is called at most once, on the
    file of the job, with language [en] and task [transcribe], and only
    after a model load.  Files are written only after that call, each
    after its [open] succeeded, and none if the call raised. *)
Theorem inference_before_files (float_repr : Q -> string) (rt : env) (self : job)
        (verified : bool) :
  let t := run_trace float_repr rt self verified in
  exists head rest,
    t = (head ++ rest)%list
    /\ Forall (prelude_action self) head
    /\ (rest = []
        \/ exists rest',
             rest = Transcribe (file_path self) "en" "transcribe" :: rest'
             /\ Forall (export_action (fun path _ => open_error rt path = None)) rest'
             /\ (exists v, In (LoadModel (model_name self) v) head)
             /\ (forall e, transcribe_result rt = inl e -> written_paths rest' = [])).
Proof.
  intros t. apply run_structure. intros result _. apply blocks_open.
Qed.

Section FileContents.
Variable float_repr : Q -> string.
Variable rt : env.
Variable self : job.
Variable verified : bool.

  (** The files of a job satisfy what their writers guarantee. *)
Lemma run_files (good : Path -> string -> Prop) :
    (forall result,
        transcribe_result rt = inr result ->
        Forall (fun b => writes_good self good (snd b) (fst b))
               (blocks float_repr rt self result)) ->
    forall p c, In (FileWrite p c) (run_trace float_repr rt self verified) -> good p c.
  Proof.
    intros Hws p c Hin.
    destruct (run_structure float_repr rt self verified good Hws)
      as (head & rest & E & Hhead & Hrest).
    rewrite E in Hin. apply in_app_or in Hin as [Hin | Hin].
    - now apply (prelude_no_file self) in Hin.
    - destruct Hrest as [-> | (rest' & -> & Hrest' & _)]; [destruct Hin|].
      destruct Hin as [Hin | Hin]; [discriminate|].
      rewrite Forall_forall in Hrest'. exact (Hrest' _ Hin).
  Qed.

  (** A property of the file of one format follows from its writer. *)
Lemma run_file_of (ext : string) (ok : string -> Prop) :
    (forall result write,
        transcribe_result rt = inr result ->
        In (ext, write) (blocks float_repr rt self result) ->
        writes_good self (fun path content => open_error rt path = None -> ok content)
                    write ext) ->
    forall c, In (FileWrite (artifact self ext) c) (run_trace float_repr rt self verified) ->
              ok c.
  Proof.
    intros Hw c Hin.
    refine (run_files (fun p content => p = artifact self ext -> ok content) _
                      (artifact self ext) c Hin eq_refl).
    intros result Hres. pose proof (blocks_open float_repr rt self result) as Hopen.
    rewrite Forall_forall in Hopen |- *. intros [ext' write] Hb. cbn [fst snd].
    specialize (Hopen _ Hb). cbn [fst snd] in Hopen.
    destruct (String.eqb_spec ext' ext) as [-> | Hne].
    - specialize (Hw result write Hres Hb).
      intros w. specialize (Hw w). specialize (Hopen w).
      destruct (write (artifact self ext) w) as [[[] | | e] w'].
      + destruct Hw as (c1 & -> & Hc1). destruct Hopen as (c2 & E2 & Ho).
        exists c1. split; [reflexivity|]. intros _. apply Hc1.
        apply (f_equal trace) in E2. cbn [trace add] in E2.
        apply app_inj_tail in E2 as [_ E2]. injection E2 as _. exact Ho.
      + exact Hw.
      + destruct Hw as [-> | (c1 & -> & Hc1)]; [now left|].
        destruct Hopen as [E2 | (c2 & E2 & Ho)].
        * apply (f_equal (fun x => List.length (trace x))) in E2.
          cbn [trace add] in E2. rewrite length_app in E2. cbn in E2. lia.
        * right. exists c1. split; [reflexivity|]. intros _. apply Hc1.
          apply (f_equal trace) in E2. cbn [trace add] in E2.
          apply app_inj_tail in E2 as [_ E2]. injection E2 as _. exact Ho.
    - eapply writes_good_weaken; [|exact Hopen].
      intros c' _ Hp. apply artifact_inj in Hp. contradiction.
  Qed.

End FileContents.

Lemma artifacts_NoDup (self : job) (exts : list string) :
  NoDup exts -> NoDup (map (artifact self) exts).
Proof.
  induction 1 as [|x l Hx _ IH]; cbn [map]; constructor; [|exact IH].
  intros Hin. apply in_map_iff in Hin as (y & Hy & Hin).
  apply artifact_inj in Hy. now subst.
Qed.

Lemma text_body_run (result : pyval) (text : string) :
  text_field result "text" = Some text ->
  (text_v <- lift (PyOp.getitem result "text") ;;
   s <- lift (PyOp.text_of text_v) ;;
   fwrite s)%monad "" = (Normal tt, text).
Proof.
  unfold text_field, bind, lift.
  destruct (PyOp.getitem result "text") as [e|[]]; try discriminate.
  now intros [= ->].
Qed.

(** X9.  For a result that carries its transcript and well-formed
    segments, every file a job writes is complete: the plain-text file
    is the transcript, the caption files are the header and all cues, the
    hypertext and markup files are their frames around the transcript,
    the structured-data file is the serialised result.  No file is
    written twice. *)
Theorem exported_files_complete (float_repr : Q -> string) (rt : env) (self : job)
        (verified : bool) (result : pyval) (text : string) (segs : list segment)
        (css cue : string) :
  transcribe_result rt = inr result ->
  text_field result "text" = Some text ->
  has_segments result segs ->
  (styling_enabled (lms_settings self) = true ->
   setting_text (lms_settings self) "css" = Some css
   /\ setting_text (lms_settings self) "cue_settings" = Some cue) ->
  let t := run_trace float_repr rt self verified in
  (forall ext content,
      In (FileWrite (artifact self ext) content) t ->
      holds_export float_repr (lms_settings self) result text segs css cue ext content)
  /\ NoDup (written_paths t).
Proof.
  intros Hres Htext Hsegs Hlms t. split.
  - intros ext content Hin.
    assert (Hblock : forall ext0 write0 (ok : string -> Prop),
               In (ext0, write0) (blocks float_repr rt self result) ->
               writes_good self (fun path c => open_error rt path = None -> ok c) write0 ext0 ->
               ext = ext0 -> ok content).
    { intros ext0 write0 ok Hb Hw ->.
      apply (run_file_of float_repr rt self verified ext0 ok); [|exact Hin].
      intros result' write' Hres' Hb'. rewrite Hres in Hres'. injection Hres' as <-.
      assert (write' = write0) as ->; [|exact Hw].
      unfold blocks in Hb, Hb'. cbn [In] in Hb, Hb'.
      repeat (destruct Hb as [Hb | Hb];
              [injection Hb as <- <-;
               repeat (destruct Hb' as [Hb' | Hb'];
                       [first [discriminate Hb' | now injection Hb'] |]);
               destruct Hb' |]).
      destruct Hb. }
    unfold holds_export. repeat split; intros Hext.
    + apply (Hblock "txt" (write_txt rt result) (fun c => c = text));
        [unfold blocks; cbn; tauto | | exact Hext].
      apply with_open_writes_good; [unfold fwrite; no_return|].
      intros _ _. now rewrite (text_body_run result text Htext).
    + apply (Hblock "srt" (write_srt rt result) (fun c => c = srt_text segs));
        [unfold blocks; cbn; tauto | | exact Hext].
      apply with_open_writes_good; [apply write_srt_never_returns|].
      intros _ _. destruct Hsegs as (items & Hget & Hitems).
      unfold _write_srt. rewrite (bind_lift_inr Hget). cbn [PyOp.iter].
      rewrite bind_ret_lift. change 1 with (Z.of_nat 1).
      now rewrite (srt_loop _ _ Hitems).
    + apply (Hblock "vtt" (write_vtt rt self result)
                    (fun c => c = "WEBVTT" ++ nl
                                  ++ style_section (styling_enabled (lms_settings self))
                                                   (PyStr.strip css) ++ nl
                                  ++ vtt_cues (cue_suffix (styling_enabled (lms_settings self))
                                                          (PyStr.strip cue)) segs));
        [unfold blocks; cbn; tauto | | exact Hext].
      apply with_open_writes_good; [apply write_vtt_never_returns|].
      intros _ _. now rewrite (write_vtt_text _ _ segs css cue Hsegs Hlms).
    + apply (Hblock "html" (write_html float_repr rt result)
                    (fun c => html_content float_repr result = inr c));
        [unfold blocks; cbn; tauto | | exact Hext].
      apply lifted_writes_good. auto.
    + apply (Hblock "md" (write_markdown float_repr rt result)
                    (fun c => md_content float_repr result = inr c));
        [unfold blocks; cbn; tauto | | exact Hext].
      apply lifted_writes_good. auto.
    + apply (Hblock "json" (write_json float_repr rt result)
                    (fun c => c = Json.dumps float_repr result));
        [unfold blocks; cbn; tauto | | exact Hext].
      apply with_open_writes_good; [apply never_returns_modify|].
      intros _ _. reflexivity.
  - destruct (run_summary_holds float_repr rt self verified)
      as (_ & _ & _ & _ & _ & [later Hwr] & _).
    fold (run_trace float_repr rt self verified) in Hwr. fold t in Hwr.
    assert (Hnd : NoDup (artifacts self)).
    { apply artifacts_NoDup, NoDup_filter, canonical_NoDup. }
    rewrite Hwr in Hnd. now apply NoDup_app_remove_r in Hnd.
Qed.

Lemma exported_files_complete_witness :
  holds_export Sample.float_repr (lms_settings (Sample.talk ["srt"; "txt"])) Sample.result
               " hello" [mkSegment 0 (3 # 2) " hello "] "" "line:80%" "srt"
               ("1" ++ nl ++ "00:00:00,000 --> 00:00:01,500" ++ nl ++ "hello" ++ nl ++ nl).
Proof.
  assert (Hsegs : has_segments Sample.result [mkSegment 0 (3 # 2) " hello "]).
  { eexists. split; [reflexivity | repeat constructor]. }
  apply (proj1 (exported_files_complete Sample.float_repr Sample.calm_env
                  (Sample.talk ["srt"; "txt"]) true Sample.result " hello"
                  [mkSegment 0 (3 # 2) " hello "] "" "line:80%"
                  eq_refl eq_refl Hsegs (fun _ => conj eq_refl eq_refl))).
  vm_compute. tauto.
Defined.

Section FinishedPercentages.
Variable self : job.
Local Open Scope Q_scope.

  (** Up to six entries the increment and the sums are exact. *)
Lemma short_requests_exact :
    forallb (fun m =>
               forallb (fun i =>
                          Z.eqb (PyNum.int (Nat.iter i (fun current =>
                                                          PyNum.add current
                                                            (PyNum.truediv 15
                                                               (inject_Z (Z.of_nat m))))
                                                     80))
                                (80 + 15 * Z.of_nat i / Z.of_nat m)%Z)
                       (seq 0 (S m)))
            (seq 1 6) = true.
  Proof. vm_compute. reflexivity. Qed.

Lemma percent_value (i : nat) :
    (0 < List.length (output_formats self) <= 6)%nat ->
    (i <= List.length (output_formats self))%nat ->
    PyNum.int (progress_after self i)
    = (80 + 15 * Z.of_nat i / Z.of_nat (List.length (output_formats self)))%Z.
  Proof.
    intros Hn Hi. pose proof short_requests_exact as Hall.
    rewrite forallb_forall in Hall.
    specialize (Hall (List.length (output_formats self)) ltac:(apply in_seq; lia)).
    rewrite forallb_forall in Hall.
    specialize (Hall i ltac:(apply in_seq; lia)).
    apply Z.eqb_eq in Hall.
    unfold progress_after. rewrite per_format_value.
    destruct (Z.gtb_spec (Z.of_nat (List.length (output_formats self))) 0) as [_|H0];
      [exact Hall | lia].
  Qed.

End FinishedPercentages.

(** X10.  For a request of at most six entries (the window has six check
    boxes) the percentages of a job that reports [Finished] are 5, 10,
    20, 80 and then, after the i-th file, 80 plus the whole part of
    15 i / n, n being the number of entries of the request.  Entries that
    repeat or that name no supported format produce no file but count in
    n, so that the last percentage is 95 exactly when every entry is a
    distinct supported format.  The bound matters: the increment is the
    binary64 quotient and the sums are rounded, and a request of 18
    entries that names the six formats ends on 84 where the exact
    quotients give 85. *)
Theorem finished_percentages (float_repr : Q -> string) (rt : env) (self : job)
        (verified : bool) (files : list string) :
  let t := run_trace float_repr rt self verified in
  let n := Z.of_nat (List.length (output_formats self)) in
  let k := List.length (filter (requested (output_formats self)) canonical_formats) in
  In (Emit (Finished files)) t ->
  n <= 6 ->
  (percentages (events t)
   = (5 :: 10 :: 20 :: 80 :: map (fun i => 80 + 15 * Z.of_nat i / n) (seq 1 k))%list
   /\ Z.of_nat k <= n
   /\ ((0 < k)%nat -> (80 + 15 * Z.of_nat k / n = 95 <-> Z.of_nat k = n)))
  /\ (let eighteen := (canonical_formats ++ canonical_formats ++ canonical_formats)%list in
      percentages (events (run_trace Sample.float_repr Sample.calm_env
                                     (Sample.talk eighteen) true))
      = [5; 10; 20; 80; 80; 81; 82; 83; 84; 84]
      /\ map (fun i => 80 + 15 * Z.of_nat i / 18) (seq 1 6) = [80; 81; 82; 83; 84; 85]).
Proof.
  intros t n k Hfin Hsix.
  split; [|cbv zeta; split; vm_compute; reflexivity].
  assert (Hkn : Z.of_nat k <= n).
  { pose proof (requested_length self) as Hk. unfold requested_formats in Hk.
    unfold k, n. lia. }
  destruct (run_summary_holds float_repr rt self verified)
    as (progs & term & Hev & Hpre & Hterm & _).
  fold (run_trace float_repr rt self verified) in Hev, Hterm. fold t in Hev, Hterm.
  apply in_events in Hfin. rewrite Hev in Hfin.
  assert (Hall : progs = all_progress self /\ percentages term = []).
  { apply in_app_or in Hfin as [Hfin | Hfin].
    - now apply (prefix_not_terminal self _ _ Hpre) in Hfin.
    - destruct Hterm as [-> | [[m ->] | (-> & -> & _)]].
      + destruct Hfin.
      + destruct Hfin as [Hfin | []]. discriminate.
      + now split. }
  destruct Hall as [-> Hterm'].
  split; [|split; [exact Hkn|]].
  - rewrite Hev, percentages_app, Hterm', app_nil_r, percentages_all.
    unfold requested_formats. fold k. cbn [seq map]. do 3 f_equal.
    f_equal; try reflexivity.
    symmetry. apply map_ext_in. intros i Hi. apply in_seq in Hi.
    symmetry. apply percent_value; unfold k, n in *; lia.
  - intros Hpos. split.
    + intros E. destruct (Z.eq_dec (Z.of_nat k) n) as [|Hne]; [assumption|].
      assert (15 * Z.of_nat k / n < 15) by (apply Z.div_lt_upper_bound; lia). lia.
    + intros <-. rewrite Z.div_mul by lia. reflexivity.
Qed.

Lemma finished_percentages_witness :
  percentages (events (run_trace Sample.float_repr Sample.calm_env
                                 (Sample.talk ["txt"; "pdf"; "txt"; "json"]) true))
  = [5; 10; 20; 80; 83; 87].
Proof.
  assert (Hfin : In (Emit (Finished ["/home/talk_transcript.txt";
                                     "/home/talk_transcript.json"]))
                    (run_trace Sample.float_repr Sample.calm_env
                               (Sample.talk ["txt"; "pdf"; "txt"; "json"]) true)).
  { vm_compute. tauto. }
  assert (Hsix : Z.of_nat (List.length (output_formats (Sample.talk ["txt"; "pdf"; "txt"; "json"])))
                 <= 6) by (vm_compute; discriminate).
  exact (proj1 (proj1 (finished_percentages Sample.float_repr Sample.calm_env
                         (Sample.talk ["txt"; "pdf"; "txt"; "json"]) true _ Hfin Hsix))).
Defined.

(** X11.  When the file of a requested format cannot be opened, that file
    is not written, nor the file of any later format: the files written
    stop before it, those written earlier stay, and the job does not
    report [Finished]; unless its flag is set it ends on an [Error]. *)
Theorem unwritable_file_stops_export (float_repr : Q -> string) (rt : env) (self : job)
        (verified : bool) (ext : string) (e : exn) :
  open_error rt (artifact self ext) = Some e ->
  In ext canonical_formats ->
  requested (output_formats self) ext = true ->
  let t := run_trace float_repr rt self verified in
  (forall c, ~ In (FileWrite (artifact self ext) c) t)
  /\ (forall files, ~ In (Emit (Finished files)) t)
  /\ (exists later,
         map (artifact self) (filter (requested (output_formats self)) canonical_formats)
         = (written_paths t ++ later)%list
         /\ In (artifact self ext) later)
  /\ (cancel_after rt = None -> exists pre m, t = (pre ++ [Emit (Error m)])%list).
Proof.
  intros Hopen Hcanon Hreq t.
  assert (Hnot : forall c, ~ In (FileWrite (artifact self ext) c) t).
  { intros c Hin.
    refine (run_files float_repr rt self verified (fun p _ => p <> artifact self ext) _
                      _ _ Hin eq_refl).
    intros result _. eapply Forall_impl; [|apply blocks_open].
    intros b Hb. eapply writes_good_weaken; [|exact Hb].
    intros c' Hnone Hp. rewrite Hp, Hopen in Hnone. discriminate. }
  assert (Hart : In (artifact self ext) (artifacts self)).
  { unfold artifacts, requested_formats. apply in_map. apply filter_In. now split. }
  destruct (run_summary_holds float_repr rt self verified)
    as (progs & term & Hev & Hpre & Hterm & [later Hwr] & _).
  fold (run_trace float_repr rt self verified) in Hev, Hterm, Hwr. fold t in Hev, Hterm, Hwr.
  assert (Hunwritten : ~ In (artifact self ext) (written_paths t)).
  { intros Hin. apply in_written_paths in Hin as [c Hin]. exact (Hnot c Hin). }
  assert (Hfin : forall files, ~ In (Emit (Finished files)) t).
  { intros files Hin. apply in_events in Hin. rewrite Hev in Hin.
    apply in_app_or in Hin as [Hin | Hin].
    - now apply (prefix_not_terminal self _ _ Hpre) in Hin.
    - destruct Hterm as [-> | [[m ->] | (-> & _ & Hall)]].
      + destruct Hin.
      + destruct Hin as [Hin | []]. discriminate.
      + apply Hunwritten. now rewrite Hall. }
  split; [exact Hnot|]. split; [exact Hfin|]. split.
  - exists later. split; [exact Hwr|].
    unfold artifacts, requested_formats in Hart, Hwr. rewrite Hwr in Hart.
    apply in_app_or in Hart as [Hin | Hin]; [contradiction | exact Hin].
  - intros Hnc.
    destruct (run_ends_with_terminal float_repr rt self verified Hnc) as (pre & ev & E & Hev').
    fold (run_trace float_repr rt self verified) in E. fold t in E.
    destruct ev as [msg p | files | m]; [discriminate Hev' | | now exists pre, m].
    exfalso. apply (Hfin files). rewrite E. apply in_or_app. right. now left.
Qed.

Lemma unwritable_file_stops_export_witness :
  exists pre m,
    run_trace Sample.float_repr Failing.read_only_env (Sample.talk ["txt"; "srt"; "vtt"]) true
    = (pre ++ [Emit (Error m)])%list.
Proof.
  exact (proj2 (proj2 (proj2 (unwritable_file_stops_export
                                Sample.float_repr Failing.read_only_env
                                (Sample.talk ["txt"; "srt"; "vtt"]) true "srt"
                                Failing.denied eq_refl
                                ltac:(cbn; tauto) eq_refl))) eq_refl).
Defined.

(* ================================================================== *)
(** * The main window *)
(* ================================================================== *)

Section WindowFacts.
Import Window.

Lemma checked_formats_requested (p : string -> bool) :
    filter (requested (filter p format_keys)) canonical_formats = filter p format_keys.
  Proof.
    change format_keys with canonical_formats.
    apply filter_ext_in. intros ext Hext.
    destruct (p ext) eqn:Hp.
    - apply requested_In. apply filter_In. now split.
    - destruct (requested (filter p canonical_formats) ext) eqn:Hr; [|reflexivity].
      apply requested_In in Hr. apply filter_In in Hr as [_ Hr]. congruence.
  Qed.

Lemma update_elapsed_time_calls (d : desk) (now : Q) (w : window) :
    exists mid,
      update_elapsed_time d now w
      = (Normal tt, mkWindow (selected_file w) (worker w) (start_time w)
                             (match mid with [] => timer_id w | _ => Some (new_timer d) end)
                             (calls w ++ mid))
      /\ Forall (fun c => is_timer_call c = true) mid
      /\ (job_running d w = false -> mid = []).
  Proof.
    unfold update_elapsed_time, job_running, job_under_way, bind, gets.
    destruct (worker w) as [j|] eqn:Hw.
    - destruct (worker_running d); cbn [andb].
      + destruct (start_time w) as [since|] eqn:Hs; cbn [time_given].
        * destruct (negb (Qeq_bool since 0)).
          -- exists [SetElapsed (duration_text "Elapsed: " now since); StartTimer 1000].
             split; [|split; [repeat constructor | discriminate]].
             unfold call, set_timer_id, modify. cbn. rewrite Hw, Hs.
             now rewrite <- app_assoc.
          -- exists []. rewrite app_nil_r. split; [|split; [constructor | reflexivity]].
             unfold ret. destruct w; cbn in *. now subst.
        * exists []. rewrite app_nil_r. split; [|split; [constructor | reflexivity]].
          unfold ret. destruct w; cbn in *. now subst.
      + exists []. rewrite app_nil_r. split; [|split; [constructor | reflexivity]].
        unfold ret. destruct w; cbn in *. now subst.
    - exists []. rewrite app_nil_r. split; [|split; [constructor | reflexivity]].
      unfold ret. destruct w; cbn in *. now subst.
  Qed.

End WindowFacts.

Lemma start_transcription_run (d : Window.desk) (w : Window.window)
      (out : outcome unit * Window.window) :
  out = Window.start_transcription d w ->
  if Window.file_given (Window.selected_file w)
     && Window.whisper_available d
     && existsb (Window.format_checked d) Window.format_keys
  then
    exists f mid,
      Window.selected_file w = Some f
      /\ Forall (fun c => Window.is_timer_call c = true) mid
      /\ (Window.job_running d w = false -> mid = [])
      /\ filter (Window.format_checked d) Window.format_keys <> []
      /\ let job := mkJob (Window.to_path d f)
                          (match Window.checked_model d with
                           | Some m => m
                           | None => "medium"
                           end)
                          (filter (Window.format_checked d) Window.format_keys)
                          (path_parent (Window.to_path d f))
                          (Window.get_lms_settings d) in
         out
         = (Normal tt,
            Window.mkWindow
              (Some f) (Some job) (Some (Window.clock d 0))
              (match mid with [] => Window.timer_id w | _ => Some (Window.new_timer d) end)
              (Window.calls w
               ++ [Window.SetTranscribeEnabled false; Window.SetClearText "Cancel";
                   Window.SetClearStyle Window.cancel_style; Window.SetProgressValue 0;
                   Window.SetProgressLabel "0%"]
               ++ mid ++ [Window.WorkerStart job]))
  else
    exists title text,
      out
      = (Returned,
         Window.mkWindow (Window.selected_file w) (Window.worker w)
                         (Window.start_time w) (Window.timer_id w)
                         (Window.calls w
                          ++ [Window.MessageBox Window.BoxWarning title text])).
Proof.
  intros Hout. unfold Window.start_transcription in Hout.
  unfold bind at 1, gets at 1 in Hout. cbv beta iota in Hout.
  assert (Hwarn : forall title text,
             (Window.call (Window.MessageBox Window.BoxWarning title text) ;; return_)%monad w
             = ((Returned : outcome unit),
                Window.mkWindow (Window.selected_file w) (Window.worker w)
                                (Window.start_time w) (Window.timer_id w)
                                (Window.calls w
                                 ++ [Window.MessageBox Window.BoxWarning title text])))
    by reflexivity.
  destruct (Window.selected_file w) as [f|] eqn:Hf; cbn [Window.file_given andb] in *.
  2:{ do 2 eexists. rewrite Hout. apply Hwarn. }
  destruct (String.eqb_spec f "") as [-> | Hne]; cbn [negb andb] in *.
  { do 2 eexists. rewrite Hout. apply Hwarn. }
  destruct (Window.whisper_available d); cbn [negb andb] in *.
  2:{ do 2 eexists. rewrite Hout. apply Hwarn. }
  destruct (filter (Window.format_checked d) Window.format_keys) as [|x l] eqn:Hfmt.
  { assert (Hnone : existsb (Window.format_checked d) Window.format_keys = false).
    { destruct (existsb _ _) eqn:E; [|reflexivity].
      apply existsb_exists in E as (x & Hx & Hc).
      assert (Hin : In x (filter (Window.format_checked d) Window.format_keys))
        by (apply filter_In; now split).
      rewrite Hfmt in Hin. destruct Hin. }
    rewrite Hnone. do 2 eexists. rewrite Hout. apply Hwarn. }
  assert (Hsome : existsb (Window.format_checked d) Window.format_keys = true).
  { apply existsb_exists. exists x.
    assert (Hin : In x (filter (Window.format_checked d) Window.format_keys))
      by (rewrite Hfmt; now left).
    apply filter_In in Hin. exact Hin. }
  rewrite Hsome. cbv zeta in Hout.
  unfold bind, Window.call, Window.set_start_time, Window.set_worker, modify in Hout.
  cbn [Window.selected_file Window.worker Window.start_time Window.timer_id Window.calls]
    in Hout.
  match type of Hout with
  | context [Window.update_elapsed_time d ?n ?W] =>
      destruct (update_elapsed_time_calls d n W) as (mid & Hupd & Hmid & Hidle);
        rewrite Hupd in Hout
  end.
  cbn [Window.selected_file Window.worker Window.start_time Window.timer_id Window.calls]
    in Hout, Hidle.
  exists f, mid.
  split; [reflexivity|]. split; [exact Hmid|]. split; [exact Hidle|].
  split; [discriminate|].
  rewrite Hout. unfold worker_init. cbn [PyVal.truthy Window.get_lms_settings].
  now rewrite Hf, <- !app_assoc.
Qed.

(** X12.  [start_transcription] starts a worker exactly when a file is
    selected, Whisper is available and at least one format box is
    checked; otherwise it shows one warning and changes nothing else.
    The job it starts has the checked formats in the order of the boxes,
    which is the export order, so that the worker writes one file for
    each of them; its folder is the parent of the selected file; the
    model is that of the checked radio button, [medium] when none is
    checked; the styling settings reach the worker unchanged. *)
Theorem start_transcription_job (d : Window.desk) (w : Window.window) :
  let ready := Window.file_given (Window.selected_file w)
               && Window.whisper_available d
               && existsb (Window.format_checked d) Window.format_keys in
  let out := Window.start_transcription d w in
  (ready = false ->
   exists title text,
     out = (Returned,
            Window.mkWindow (Window.selected_file w) (Window.worker w)
                            (Window.start_time w) (Window.timer_id w)
                            (Window.calls w
                             ++ [Window.MessageBox Window.BoxWarning title text])))
  /\ (ready = true ->
      exists f job mid,
        Window.selected_file w = Some f
        /\ job = mkJob (Window.to_path d f)
                       (match Window.checked_model d with Some m => m | None => "medium" end)
                       (filter (Window.format_checked d) Window.format_keys)
                       (path_parent (Window.to_path d f))
                       (Window.get_lms_settings d)
        /\ fst out = Normal tt
        /\ Window.worker (snd out) = Some job
        /\ Window.start_time (snd out) = Some (Window.clock d 0)
        /\ Window.calls (snd out)
           = (Window.calls w
              ++ [Window.SetTranscribeEnabled false; Window.SetClearText "Cancel";
                  Window.SetClearStyle Window.cancel_style; Window.SetProgressValue 0;
                  Window.SetProgressLabel "0%"]
              ++ mid ++ [Window.WorkerStart job])%list
        /\ Forall (fun c => Window.is_timer_call c = true) mid
        /\ output_formats job <> []
        /\ filter (requested (output_formats job)) canonical_formats = output_formats job).
Proof.
  intros ready out. subst ready out.
  pose proof (start_transcription_run d w _ eq_refl) as Hrun.
  destruct (Window.file_given (Window.selected_file w)
            && Window.whisper_available d
            && existsb (Window.format_checked d) Window.format_keys).
  - split; [discriminate|]. intros _.
    destruct Hrun as (f & mid & Hf & Hmid & _ & Hne & Hrun). cbv zeta in Hrun.
    exists f, (mkJob (Window.to_path d f)
                     (match Window.checked_model d with Some m => m | None => "medium" end)
                     (filter (Window.format_checked d) Window.format_keys)
                     (path_parent (Window.to_path d f))
                     (Window.get_lms_settings d)), mid.
    rewrite Hrun. cbn [fst snd Window.worker Window.start_time Window.calls output_formats].
    repeat split; try assumption. apply checked_formats_requested.
  - split; [|discriminate]. intros _. exact Hrun.
Qed.

Lemma start_transcription_job_witness :
  exists job,
    Window.worker
      (snd (Window.start_transcription
              (Window.mkDesk true (fun _ => 1700000000%Q) false
                             (fun ext => String.eqb ext "json" || String.eqb ext "txt")
                             None false "line:80%" ""
                             7 (fun _ => mkPath "/" ["home"; "talk.mp4"]) "/")
              (Window.mkWindow (Some "/home/talk.mp4") None None None [])))
    = Some job
    /\ output_formats job = ["txt"; "json"]
    /\ model_name job = "medium"
    /\ output_dir job = mkPath "/" ["home"].
Proof.
  destruct (proj2 (start_transcription_job
                     (Window.mkDesk true (fun _ => 1700000000%Q) false
                                    (fun ext => String.eqb ext "json" || String.eqb ext "txt")
                                    None false "line:80%" ""
                                    7 (fun _ => mkPath "/" ["home"; "talk.mp4"]) "/")
                     (Window.mkWindow (Some "/home/talk.mp4") None None None []))
                  eq_refl)
    as (f & job & mid & Hf & Hjob & _ & Hw & _).
  exists job. split; [exact Hw|]. rewrite Hjob. injection Hf as <-. repeat split.
Defined.

(** X13.  [start_transcription] looks at the clock before the new worker
    exists: unless another worker is still running when it is called, it
    starts no timer and leaves the elapsed-time label alone, whether it
    starts a job or shows a warning. *)
Theorem elapsed_timer_not_started (d : Window.desk) (w : Window.window) :
  Window.job_running d w = false ->
  let w' := snd (Window.start_transcription d w) in
  Window.timer_id w' = Window.timer_id w
  /\ exists new,
       Window.calls w' = (Window.calls w ++ new)%list
       /\ Forall (fun c => Window.is_timer_call c = false) new.
Proof.
  intros Hidle w'. subst w'.
  pose proof (start_transcription_run d w _ eq_refl) as Hrun.
  destruct (Window.file_given (Window.selected_file w)
            && Window.whisper_available d
            && existsb (Window.format_checked d) Window.format_keys).
  - destruct Hrun as (f & mid & _ & _ & Hmid & _ & Hrun). cbv zeta in Hrun.
    rewrite (Hmid Hidle) in Hrun. rewrite Hrun. cbn [snd Window.timer_id Window.calls].
    split; [reflexivity|]. eexists. split; [reflexivity|].
    repeat constructor.
  - destruct Hrun as (title & text & Hrun). rewrite Hrun.
    cbn [snd Window.timer_id Window.calls].
    split; [reflexivity|]. eexists. split; [reflexivity|]. repeat constructor.
Qed.

Lemma elapsed_timer_not_started_witness :
  Window.timer_id
    (snd (Window.start_transcription
            (Window.mkDesk true (fun _ => 1700000000%Q) true
                           (fun ext => String.eqb ext "txt")
                           None false "line:80%" ""
                           7 (fun _ => mkPath "/" ["home"; "talk.mp4"]) "/")
            (Window.mkWindow (Some "/home/talk.mp4") None None None [])))
  = None.
Proof.
  exact (proj1 (elapsed_timer_not_started
                  (Window.mkDesk true (fun _ => 1700000000%Q) true
                                 (fun ext => String.eqb ext "txt")
                                 None false "line:80%" ""
                                 7 (fun _ => mkPath "/" ["home"; "talk.mp4"]) "/")
                  (Window.mkWindow (Some "/home/talk.mp4") None None None [])
                  eq_refl)).
Defined.

Section Slots.
Import Window.

Lemma call_run (c : ui_call) (w : window) :
    call c w
    = (Normal tt,
       mkWindow (selected_file w) (worker w) (start_time w) (timer_id w) (calls w ++ [c])).
  Proof. reflexivity. Qed.

Lemma bind_call {B} (c : ui_call) (k : unit -> M window B) (w : window) :
    bind (call c) k w
    = k tt (mkWindow (selected_file w) (worker w) (start_time w) (timer_id w)
                     (calls w ++ [c])).
  Proof. reflexivity. Qed.

Ltac ui_steps :=
    repeat (rewrite bind_call; cbv beta;
            cbn [selected_file worker start_time timer_id calls]);
    rewrite ?call_run;
    cbn [selected_file worker start_time timer_id calls fst snd].

Lemma reset_buttons_run (w : window) :
    reset_buttons w
    = (Normal tt,
       mkWindow (selected_file w) (worker w) (start_time w) (timer_id w)
                (calls w ++ [SetTranscribeEnabled true; SetClearText "Clear";
                             SetClearStyle clear_style])).
  Proof. unfold reset_buttons. ui_steps. now rewrite <- !app_assoc. Qed.

Lemma buttons_kept (rest : list ui_call) (b : option bool) (t : option string) :
    Forall (fun c => on_buttons c = false) rest ->
    fold_left (fun acc c => match c with SetTranscribeEnabled x => Some x | _ => acc end)
              rest b = b
    /\ fold_left (fun acc c => match c with SetClearText x => Some x | _ => acc end)
                 rest t = t.
  Proof.
    induction 1 as [|c rest Hc _ IH]; [now split|].
    cbn [fold_left]. destruct c; try discriminate Hc; exact IH.
  Qed.

Lemma buttons_after (cs rest : list ui_call) :
    Forall (fun c => on_buttons c = false) rest ->
    transcribe_enabled (cs ++ [SetTranscribeEnabled true; SetClearText "Clear";
                               SetClearStyle clear_style] ++ rest) = Some true
    /\ clear_text (cs ++ [SetTranscribeEnabled true; SetClearText "Clear";
                          SetClearStyle clear_style] ++ rest) = Some "Clear".
  Proof.
    intros Hrest. unfold transcribe_enabled, clear_text.
    rewrite !fold_left_app. cbn [fold_left].
    destruct (buttons_kept rest (Some true)
                (fold_left (fun acc c => match c with SetClearText x => Some x | _ => acc end)
                           cs None) Hrest) as [E1 _].
    destruct (buttons_kept rest
                (fold_left (fun acc c => match c with
                                         | SetTranscribeEnabled x => Some x
                                         | _ => acc
                                         end) cs None)
                (Some "Clear") Hrest) as [_ E2].
    split; assumption.
  Qed.

Lemma on_progress_run (message : string) (percentage : Z) (w : window) :
    on_progress message percentage w
    = (Normal tt,
       mkWindow (selected_file w) (worker w) (start_time w) (timer_id w)
                (calls w ++ [SetStatus message; SetProgressValue percentage;
                             SetProgressLabel (PyStr.str_int percentage ++ "%")])).
  Proof.
    unfold on_progress. ui_steps. now rewrite <- !app_assoc.
  Qed.

  (** What the two terminal slots do to the buttons. *)
Lemma on_finished_calls (d : desk) (bullet : string) (files : list string) (w : window) :
    exists pre rest,
      calls (snd (on_finished d bullet files w))
      = (calls w ++ pre ++ [SetTranscribeEnabled true; SetClearText "Clear";
                            SetClearStyle clear_style] ++ rest)%list
      /\ Forall (fun c => on_buttons c = false) rest
      /\ selected_file (snd (on_finished d bullet files w)) = selected_file w.
  Proof.
    exists [SetProgressValue 100; SetProgressLabel "100%"; SetStatus "Transcription complete!"].
    assert (Hrun : exists rest,
               on_finished d bullet files w
               = (match selected_file w with
                  | Some _ => Normal tt
                  | None => Raised (Exn TypeError "")
                  end,
                  mkWindow (selected_file w) (worker w) (start_time w) (timer_id w)
                           (calls w ++ [SetProgressValue 100; SetProgressLabel "100%";
                                        SetStatus "Transcription complete!"]
                            ++ [SetTranscribeEnabled true; SetClearText "Clear";
                                SetClearStyle clear_style] ++ rest))
               /\ Forall (fun c => on_buttons c = false) rest).
    { unfold on_finished. ui_steps.
      rewrite (bind_normal (reset_buttons_run _)).
      cbn [selected_file worker start_time timer_id calls].
      unfold bind at 1, gets at 1. cbv beta iota.
      cbn [selected_file worker start_time timer_id calls].
      destruct (start_time w) as [since|]; cbn [time_given];
        [destruct (negb (Qeq_bool since 0))|];
        ui_steps; unfold bind, gets, ret, raise;
        cbn [selected_file worker start_time timer_id calls];
        destruct (selected_file w); ui_steps;
        eexists; (split; [rewrite <- !app_assoc; cbn [app]; reflexivity|]);
        repeat constructor. }
    destruct Hrun as (rest & -> & Hrest). exists rest. cbn [snd calls selected_file].
    split; [reflexivity|]. split; [exact Hrest | reflexivity].
  Qed.

Lemma on_error_calls (message : string) (w : window) :
    exists pre rest,
      calls (snd (on_error message w))
      = (calls w ++ pre ++ [SetTranscribeEnabled true; SetClearText "Clear";
                            SetClearStyle clear_style] ++ rest)%list
      /\ Forall (fun c => on_buttons c = false) rest
      /\ selected_file (snd (on_error message w)) = selected_file w.
  Proof.
    exists [SetProgressValue 0; SetProgressLabel "0%";
            SetStatus "Error occurred. Please try again."; SetElapsed ""].
    assert (Hrun : exists rest,
               on_error message w
               = (Normal tt,
                  mkWindow (selected_file w) (worker w) (start_time w) (timer_id w)
                           (calls w ++ [SetProgressValue 0; SetProgressLabel "0%";
                                        SetStatus "Error occurred. Please try again.";
                                        SetElapsed ""]
                            ++ [SetTranscribeEnabled true; SetClearText "Clear";
                                SetClearStyle clear_style] ++ rest))
               /\ Forall (fun c => on_buttons c = false) rest).
    { unfold on_error. ui_steps.
      rewrite (bind_normal (reset_buttons_run _)). ui_steps.
      eexists. split; [rewrite <- !app_assoc; cbn [app]; reflexivity|].
      repeat constructor. }
    destruct Hrun as (rest & -> & Hrest). exists rest. cbn [snd calls selected_file].
    split; [reflexivity|]. split; [exact Hrest | reflexivity].
  Qed.

Lemma clear_or_cancel_run (d : desk) (w : window) :
    job_running d w = true ->
    clear_or_cancel d w
    = (Normal tt,
       mkWindow (selected_file w) (worker w) (start_time w) (timer_id w)
                (calls w ++ [WorkerCancel; WorkerQuit; WorkerWait;
                             SetStatus "Transcription cancelled";
                             SetProgressValue 0; SetProgressLabel "0%"; SetElapsed "";
                             SetTranscribeEnabled true; SetClearText "Clear";
                             SetClearStyle clear_style])).
  Proof.
    intros Hrun. unfold clear_or_cancel. unfold bind at 1, gets at 1. cbv beta iota.
    rewrite Hrun. ui_steps. rewrite reset_buttons_run.
    cbn [selected_file worker start_time timer_id calls]. now rewrite <- !app_assoc.
  Qed.

Lemma clear_or_cancel_calls (d : desk) (w : window) :
    job_running d w = true ->
    exists pre,
      calls (snd (clear_or_cancel d w))
      = (calls w ++ pre ++ [SetTranscribeEnabled true; SetClearText "Clear";
                            SetClearStyle clear_style] ++ [])%list
      /\ In WorkerCancel pre
      /\ selected_file (snd (clear_or_cancel d w)) = selected_file w.
  Proof.
    intros Hrun. rewrite (clear_or_cancel_run d w Hrun).
    exists [WorkerCancel; WorkerQuit; WorkerWait; SetStatus "Transcription cancelled";
            SetProgressValue 0; SetProgressLabel "0%"; SetElapsed ""].
    split; [reflexivity|]. split; [now left | reflexivity].
  Qed.

  (** The slots of the progress events, then that of one more event. *)
Lemma deliver_then (d : nat -> desk) (bullet : string) (e : event) (es : list event) :
    Forall (fun x => is_terminal x = false) es ->
    forall (k : nat) (w : window),
    exists w1,
      selected_file w1 = selected_file w
      /\ (exists new, calls w1 = (calls w ++ new)%list)
      /\ snd (deliver d bullet k (es ++ [e]) w)
         = snd (slot (d (k + List.length es)%nat) bullet e w1).
  Proof.
    induction 1 as [|x es Hx _ IH]; intros k w.
    - exists w. split; [reflexivity|]. split; [exists []; now rewrite app_nil_r|].
      cbn [app deliver List.length]. rewrite Nat.add_0_r. unfold bind.
      now destruct (slot (d k) bullet e w) as [[[] | | ex] w'].
    - destruct x as [message percentage | |]; try discriminate Hx.
      cbn [app deliver slot]. rewrite (bind_normal (on_progress_run message percentage w)).
      destruct (IH (S k) (mkWindow (selected_file w) (worker w) (start_time w) (timer_id w)
                                   (calls w ++ [SetStatus message; SetProgressValue percentage;
                                                SetProgressLabel
                                                  (PyStr.str_int percentage ++ "%")])))
        as (w1 & Hsel & [new Hnew] & E).
      exists w1. split; [exact Hsel|]. split.
      + eexists. rewrite Hnew. cbn [calls]. now rewrite <- app_assoc.
      + rewrite E. cbn [List.length]. now rewrite Nat.add_succ_r.
  Qed.

End Slots.

Lemma run_events_end (float_repr : Q -> string) (rt : env) (self : job) (verified : bool) :
  cancel_after rt = None ->
  exists progs e,
    events (run_trace float_repr rt self verified) = (progs ++ [e])%list
    /\ Forall (fun x => is_terminal x = false) progs
    /\ is_terminal e = true.
Proof.
  intros Hnc.
  destruct (run_ends_with_terminal float_repr rt self verified Hnc) as (pre & e & E & He).
  fold (run_trace float_repr rt self verified) in E.
  destruct (run_summary_holds float_repr rt self verified)
    as (progs & term & Hev & Hpre & Hterm & _).
  fold (run_trace float_repr rt self verified) in Hev.
  assert (Hprogs : Forall (fun x => is_terminal x = false) progs).
  { apply Forall_forall. intros x Hx. exact (prefix_not_terminal self _ _ Hpre Hx). }
  rewrite E, events_emit in Hev.
  assert (Hcases : term = [] \/ exists e', term = [e']).
  { destruct Hterm as [-> | [[m ->] | (-> & _)]]; eauto. }
  destruct Hcases as [-> | [e' ->]].
  - rewrite app_nil_r in Hev. exfalso.
    rewrite Forall_forall in Hprogs.
    assert (Hin : In e progs) by (rewrite <- Hev; apply in_or_app; right; now left).
    apply Hprogs in Hin. congruence.
  - apply app_inj_tail in Hev as [Hev <-].
    exists progs, e. rewrite E, events_emit, Hev. auto.
Qed.

(** X14.  Every job that is not cancelled leaves the interface unlocked:
    once the slots of the window have run for the events of the job, in
    the order of emission, the last state given to the Transcribe button
    is enabled and the second button reads Clear again, whether the job
    finished or failed, and the selection is what it was.  The Cancel
    button does the same itself for a running job, which emits no
    terminal event once it has seen its flag. *)
Theorem interface_unlocked (float_repr : Q -> string) (rt : env) (self : job)
        (verified : bool) (d : nat -> Window.desk) (bullet : string) (w : Window.window) :
  (cancel_after rt = None ->
   let w' := snd (Window.deliver d bullet 0
                                 (events (run_trace float_repr rt self verified)) w) in
   Window.transcribe_enabled (Window.calls w') = Some true
   /\ Window.clear_text (Window.calls w') = Some "Clear"
   /\ Window.selected_file w' = Window.selected_file w)
  /\ (Window.job_running (d 0%nat) w = true ->
      let w' := snd (Window.clear_or_cancel (d 0%nat) w) in
      Window.transcribe_enabled (Window.calls w') = Some true
      /\ Window.clear_text (Window.calls w') = Some "Clear"
      /\ Window.selected_file w' = Window.selected_file w
      /\ In Window.WorkerCancel (Window.calls w')).
Proof.
  split.
  - intros Hnc w'. subst w'.
    destruct (run_events_end float_repr rt self verified Hnc) as (progs & e & -> & Hprogs & He).
    destruct (deliver_then d bullet e progs Hprogs 0 w) as (w1 & Hsel & [new Hnew] & ->).
    destruct e as [message percentage | files | message]; [discriminate He | |];
      cbn [Window.slot].
    + destruct (on_finished_calls (d (0 + List.length progs)%nat) bullet files w1)
        as (pre & rest & -> & Hrest & ->).
      rewrite app_assoc. destruct (buttons_after (Window.calls w1 ++ pre) rest Hrest).
      auto.
    + destruct (on_error_calls message w1) as (pre & rest & -> & Hrest & ->).
      rewrite app_assoc. destruct (buttons_after (Window.calls w1 ++ pre) rest Hrest).
      auto.
  - intros Hrun w'. subst w'.
    destruct (clear_or_cancel_calls (d 0%nat) w Hrun) as (pre & -> & Hin & ->).
    rewrite app_assoc.
    destruct (buttons_after (Window.calls w ++ pre) [] (Forall_nil _)).
    repeat split; auto.
    apply in_or_app. left. apply in_or_app. now right.
Qed.

Lemma interface_unlocked_witness :
  Window.transcribe_enabled
    (Window.calls
       (snd (Window.deliver
               (fun _ => Window.mkDesk true (fun _ => 1700000000%Q) true
                                       (fun ext => String.eqb ext "txt")
                                       None false "line:80%" ""
                                       7 (fun _ => mkPath "/" ["home"; "talk.mp4"]) "/")
               "*" 0
               (events (run_trace Sample.float_repr Failing.no_ffmpeg_env
                                  (Sample.talk ["txt"]) true))
               (Window.mkWindow (Some "/home/talk.mp4") None None None
                                [Window.SetTranscribeEnabled false]))))
  = Some true.
Proof.
  exact (proj1 (proj1 (interface_unlocked Sample.float_repr Failing.no_ffmpeg_env
                         (Sample.talk ["txt"]) true _ "*" _) eq_refl)).
Defined.

(** X15.  The shipped styling presets are written as they are.  With
    styling enabled and the two fields holding the texts of a preset of
    [vtt_presets], the web-caption exporter writes the style text of the
    preset verbatim in the STYLE block and its cue settings verbatim
    after one space on every timestamp line: no preset begins or ends
    with white space that the exporter would trim.  The preset [Custom],
    whose texts are empty, gives no STYLE block and no suffix.
    [apply_vtt_preset] puts exactly these two texts in the fields. *)
Theorem presets_exported_verbatim (name : string) (preset : dict) (d : Window.desk)
        (result : pyval) (segs : list segment) :
  In (name, preset) vtt_presets ->
  Window.lms_enabled d = true ->
  PyVal.lookup "cue_settings" preset = Some (PStr (Window.cue_text d)) ->
  PyVal.lookup "css" preset = Some (PStr (Window.css_plain_text d)) ->
  has_segments result segs ->
  let plain := String.eqb name "Custom" in
  _write_vtt (Window.get_lms_settings d) result ""
  = (Normal tt,
     "WEBVTT" ++ nl
     ++ (if plain then "" else nl ++ "STYLE" ++ nl ++ Window.css_plain_text d ++ nl) ++ nl
     ++ vtt_cues (if plain then "" else " " ++ Window.cue_text d) segs)
  /\ (forall w,
         Window.apply_vtt_preset name w
         = (Normal tt,
            Window.mkWindow (Window.selected_file w) (Window.worker w)
                            (Window.start_time w) (Window.timer_id w)
                            (Window.calls w
                             ++ [Window.SetCueSettings (Window.cue_text d);
                                 Window.SetCssText (Window.css_plain_text d)]))).
Proof.
  intros Hin Hen Hcue Hcss Hsegs plain. subst plain.
  assert (Hvtt : _write_vtt (Window.get_lms_settings d) result ""
                 = (Normal tt,
                    "WEBVTT" ++ nl
                    ++ style_section true (PyStr.strip (Window.css_plain_text d)) ++ nl
                    ++ vtt_cues (cue_suffix true (PyStr.strip (Window.cue_text d))) segs)).
  { rewrite (write_vtt_text (Window.get_lms_settings d) result segs
                            (Window.css_plain_text d) (Window.cue_text d) Hsegs).
    - unfold styling_enabled, Window.get_lms_settings. cbn. now rewrite Hen.
    - intros _. split; reflexivity. }
  rewrite Hvtt. clear Hvtt.
  unfold vtt_presets in Hin. cbn [In] in Hin.
  destruct Hin as [Hin | [Hin | [Hin | [Hin | []]]]];
    injection Hin as <- <-;
    cbn in Hcue, Hcss; injection Hcue as Hcue; injection Hcss as Hcss;
    rewrite <- Hcue, <- Hcss;
    (split; [reflexivity|]);
    intros w; unfold Window.apply_vtt_preset; cbn [PyVal.lookup map fst snd String.eqb
                                                    Ascii.eqb Bool.eqb];
    unfold bind, lift, Window.call, modify; cbn;
    now rewrite <- app_assoc.
Qed.

Lemma presets_exported_verbatim_witness :
  _write_vtt (Window.get_lms_settings (Window.sample_desk false))
             (PDict [("segments", PList [PDict [("start", PInt 2); ("end", PFloat (5 # 2));
                                                ("text", PStr "a ")]])]) ""
  = (Normal tt,
     "WEBVTT" ++ nl ++ nl ++ "STYLE" ++ nl
     ++ "::cue {" ++ nl ++ "  background-color: #000000;" ++ nl
     ++ "  color: #ffff00;" ++ nl ++ "  font-weight: bold;" ++ nl ++ "}" ++ nl ++ nl
     ++ "00:00:02.000 --> 00:00:02.500 line:85%" ++ nl ++ "a" ++ nl ++ nl).
Proof.
  assert (Hsegs : has_segments
                    (PDict [("segments", PList [PDict [("start", PInt 2);
                                                       ("end", PFloat (5 # 2));
                                                       ("text", PStr "a ")]])])
                    [mkSegment 2 (5 # 2) "a "]).
  { eexists. split; [reflexivity | repeat constructor]. }
  assert (Hin : In ("High Contrast",
                    [("cue_settings", PStr "line:85%");
                     ("css", PStr ("::cue {" ++ nl ++ "  background-color: #000000;" ++ nl
                                   ++ "  color: #ffff00;" ++ nl ++ "  font-weight: bold;"
                                   ++ nl ++ "}"))])
                   vtt_presets).
  { unfold vtt_presets. cbn [In]. right. right. right. left. reflexivity. }
  rewrite (proj1 (presets_exported_verbatim _ _ (Window.sample_desk false) _ _ Hin
                    eq_refl eq_refl eq_refl Hsegs)).
  vm_compute. reflexivity.
Defined.

(** X16.  Setting the flag while the inference call runs does not stop
    that call: the worker looks at the flag before the call and again
    only after it.  A job whose flag is set between its second and its
    third check calls inference, lets it run to its end, and then stops
    without a file and without a terminal event, even when the call
    raised. *)
Theorem cancel_during_inference (float_repr : Q -> string) (rt : env) (self : job)
        (verified : bool) :
  import_error rt = None ->
  load_model_error rt 0 verified = None ->
  cancel_after rt = Some 2%nat ->
  let t := run_trace float_repr rt self verified in
  t = [CancelRead false;
       Emit (Progress ("Loading " ++ model_name self ++ " model (first time downloads)...") 5);
       LoadModel (model_name self) verified;
       CancelRead false;
       Emit (Progress "Model loaded successfully." 10);
       Emit (Progress "Transcribing audio... This may take several minutes." 20);
       Transcribe (file_path self) "en" "transcribe";
       CancelRead true].
Proof.
  intros Himp L0 Hc t. subst t. unfold run_trace.
  assert (F : forall k, flag_at rt k = (2 <=? k)%nat) by (intros k; unfold flag_at; now rewrite Hc).
  rewrite run_start, Himp, F, L0. cbn [Nat.leb].
  unfold try_except. rewrite transcribe_and_export_run, F.
  cbn [flag_reads note_load add note_read init_world Nat.leb]. cbv zeta.
  destruct (transcribe_result rt) as [e|result].
  - rewrite handler_run, F. reflexivity.
  - unfold export_phase. unfold bind at 1. rewrite return_if_cancelled_run, F. reflexivity.
Qed.

Lemma cancel_during_inference_witness :
  written_paths
    (run_trace Sample.float_repr
               (mkEnv "/" None (fun _ _ => None) (inr Sample.result) (fun _ => None)
                      (Some 2%nat))
               (Sample.talk ["txt"]) true)
  = [].
Proof.
  rewrite (cancel_during_inference Sample.float_repr
             (mkEnv "/" None (fun _ _ => None) (inr Sample.result) (fun _ => None)
                    (Some 2%nat))
             (Sample.talk ["txt"]) true eq_refl eq_refl eq_refl).
  reflexivity.
Defined.

Section Selection.
Import Window.

Lemma on_finished_dialog (d : desk) (bullet : string) (files : list string)
        (f : string) (w : window) :
    selected_file w = Some f ->
    exists cs,
      on_finished d bullet files w
      = (Normal tt,
         mkWindow (selected_file w) (worker w) (start_time w) (timer_id w)
                  (cs ++ [MessageBox BoxInformation "Success!" (success_text d bullet files f)]))
      /\ exists new, cs = (calls w ++ new)%list.
  Proof.
    intros Hf. unfold on_finished.
    repeat (rewrite bind_call; cbv beta;
            cbn [selected_file worker start_time timer_id calls]).
    rewrite (bind_normal (reset_buttons_run _)).
    cbn [selected_file worker start_time timer_id calls].
    unfold bind at 1, gets at 1. cbv beta iota.
    cbn [selected_file worker start_time timer_id calls].
    assert (Hlast : forall w0 : window,
               selected_file w0 = Some f ->
               (file <- gets selected_file ;;
                match file with
                | Some f0 =>
                    call (MessageBox BoxInformation "Success!"
                                     (success_text d bullet files f0))
                | None => raise (Exn TypeError "")
                end)%monad w0
               = (Normal tt,
                  mkWindow (selected_file w0) (worker w0) (start_time w0) (timer_id w0)
                           (calls w0 ++ [MessageBox BoxInformation "Success!"
                                                    (success_text d bullet files f)]))).
    { intros w0 H0. unfold bind, gets. cbv beta iota.
      pattern (selected_file w0) at 1. rewrite H0. reflexivity. }
    destruct (start_time w) as [since|]; cbn [time_given];
      [destruct (negb (Qeq_bool since 0))|];
      repeat (rewrite bind_call; cbv beta;
              cbn [selected_file worker start_time timer_id calls]);
      try (unfold bind at 1, ret at 1; cbv beta iota);
      rewrite Hlast by exact Hf;
      cbn [selected_file worker start_time timer_id calls];
      eexists; (split; [reflexivity|]); eexists; rewrite <- !app_assoc; reflexivity.
  Qed.

End Selection.

(** X17.  The folder the success dialog names is that of the selection
    at the time the job ends, not the folder of the job.  While a job
    runs, [browse_file] changes nothing, but a file dropped on the window
    replaces the selection and leaves the worker alone: the job still
    writes next to its own source file, and the dialog then names the
    folder of the dropped file. *)
Theorem success_dialog_folder (d d' : Window.desk) (basename : string -> string)
        (is_file : string -> bool) (g chosen bullet : string) (more files : list string)
        (w : Window.window) :
  Window.job_running d w = true ->
  is_file g = true ->
  let w2 := snd (Window.dropEvent basename is_file (g :: more) w) in
  Window.browse_file d basename chosen w = (Returned, w)
  /\ Window.selected_file w2 = Some g
  /\ Window.worker w2 = Window.worker w
  /\ exists cs,
       Window.calls (snd (Window.on_finished d' bullet files w2))
       = (cs ++ [Window.MessageBox Window.BoxInformation "Success!"
                   (Window.success_text d' bullet files g)])%list.
Proof.
  intros Hrun Hfile w2.
  assert (Hdrop : Window.dropEvent basename is_file (g :: more) w
                  = (Normal tt,
                     Window.mkWindow (Some g) (Window.worker w) (Window.start_time w)
                                     (Window.timer_id w)
                                     (Window.calls w
                                      ++ [Window.SetFileLabel (basename g);
                                          Window.SetFileLabelStyle "color: #333333;";
                                          Window.SetStatus
                                            "File loaded. Ready to transcribe."]))).
  { unfold Window.dropEvent. rewrite Hfile.
    unfold Window.update_file_display, Window.set_selected_file.
    unfold bind at 1, modify at 1. cbv beta iota.
    unfold bind at 1. unfold bind at 1. rewrite call_run. cbv beta iota.
    rewrite call_run. cbv beta iota. rewrite call_run.
    cbn [Window.selected_file Window.worker Window.start_time Window.timer_id Window.calls].
    now rewrite <- !app_assoc. }
  subst w2. rewrite Hdrop. cbn [snd Window.selected_file Window.worker].
  split; [|split; [reflexivity | split; [reflexivity|]]].
  - unfold Window.browse_file, bind, gets. now rewrite Hrun.
  - destruct (on_finished_dialog d' bullet files g
                (Window.mkWindow (Some g) (Window.worker w) (Window.start_time w)
                                 (Window.timer_id w)
                                 (Window.calls w
                                  ++ [Window.SetFileLabel (basename g);
                                      Window.SetFileLabelStyle "color: #333333;";
                                      Window.SetStatus "File loaded. Ready to transcribe."]))
                eq_refl) as (cs & -> & _).
    now exists cs.
Qed.

Lemma success_dialog_folder_witness :
  Window.selected_file
    (snd (Window.dropEvent (fun s => s) (fun _ => true) ["/tmp/other.wav"]
            (Window.mkWindow (Some "/home/talk.mp4")
                             (Some (Sample.talk ["txt"])) (Some 1700000000%Q) None [])))
  = Some "/tmp/other.wav".
Proof.
  exact (proj1 (proj2 (success_dialog_folder
                         (Window.sample_desk true) (Window.sample_desk false)
                         (fun s => s) (fun _ => true) "/tmp/other.wav" "" "*" [] []
                         (Window.mkWindow (Some "/home/talk.mp4")
                                          (Some (Sample.talk ["txt"])) (Some 1700000000%Q)
                                          None [])
                         eq_refl eq_refl))).
Defined.
